(* ===== verification/_CoqProject ===== *)
-Q . S2P
Prelude.v
Errors.v
Domain.v
Schema.v
Services.v
InMemory.v
Postgres.v
StoreSpec.v
Discord.v
Lock.v
LockSpec.v
Doubles.v
RateLimit.v
Observability.v
Queue.v
Cache.v
Reconcile.v
Provision.v
GoStrings.v
AgentRole.v
Encoding.v
Secrets.v
Invariant.v
OAuth.v
Nonces.v
Membership.v
Lifecycle.v
Welcome.v
Relay.v
Worker.v
Gin.v
Authz.v
Config.v
Idempotency.v
Api.v
ApiSpaces.v
ApiMembers.v
ApiAgents.v
ApiTransversal.v
Router.v
ApiRuns.v
ApiSpecs.v
ApiMemberSpecs.v
ApiLifecycle.v
ApiCallback.v
Dsn.v
Paging.v
Programs.v
Migrate.v
Evolution.v
Roster.v
Steps.v
Hub.v
EndToEnd.v
Concurrency.v
