(* ===== verification/Prelude.v ===== *)
(** * discord-support-hub: a verification library

    The hub keeps support channels of a Discord guild in line with a roster of merchants, spaces
    and collaborators held in Postgres. An API writes desired state and jobs; a worker serves the
    jobs and projects the desired state onto Discord; a sweep repairs drift. This library models
    the Go code of the repository (under src/) and proves what it promises: that only the
    backoffice changes the desired state, that a channel is closed from its birth (fail-closed
    provisioning, NFR-5), that access is granted to people with a membership only and ends with
    it, that committed work reaches the queue, that login states are authentic and
    single-use, that secrets are sealed and redacted, and that the database keeps its schema.

    ** How the code is modelled

    Stateful code is written in the state monad [M] of this file, statement by statement, over an
    abstract world [W]. The services the code calls (Postgres through pgx, Valkey through go-redis,
    Discord through discordgo, asynq, Prometheus, the clock, the random source, the order of a map
    range) are the operations of the class [Env] of Services.v; what is known of them is the class
    [EnvLaws]: every call is related to a [View] (database, guild, key space, queue, metrics)
    before and after. Every call may fail at any time, with or without its effect, so each theorem
    over [EnvLaws] speaks about all fault schedules. Where a time-out matters, [pg_before] and
    [redis_before] say that a call was answered before a deadline. The laws are not assumptions in
    the air: InMemory.v implements [Env] executably, with a script of faults, proves the laws, and
    every theorem with hypotheses is instantiated there on concrete runs.

    Programs are reasoned about with [wp] and [Spec] (this file): a [Spec] instance relates the
    view before, the answer and the view after of an operation, and the tactic [go_step] runs a
    program along the instances.

    ** The files

    The ground:
    - Prelude: results, the monad, loops, the program logic, generic lemmas.
    - Errors (internal/worker/errors.go and the error types of the packages): error values with
      [errors.Is] and [errors.As]; the retry policy.
    - Domain (internal/domain, the parameter records of internal/store): entities.
    - Schema, Postgres, StoreSpec (migrations/0001_init.sql, internal/store/postgres): the tables
      with their constraints, each SQL statement as a transition, each method of the store with its
      error mapping, and the specification of each method.
    - Services, InMemory: the world, as above.
    - Discord (internal/discord): the client's calls; member access and hidden channels.
    - Lock, RateLimit, Cache, Observability, Queue (the packages of these names): the scripts on
      the key space, the interfaces [Locker], [Limiter], [Cache] with their laws and
      implementations, the collectors and their registration, payload encodings. LockSpec: a table
      of leases that the locks refine. Doubles: the numbers of the Lua scripts.
    - Invariant: the schema as an invariant of every statement and of any sequence of writes.

    The worker:
    - Reconcile (internal/reconcile): sweeps of one space and of the guild.
    - Provision, AgentRole, Membership, Lifecycle, Welcome, Relay, Worker (internal/worker): the
      handlers, the outbox relay, the dispatch of the server; GoStrings holds UTF-8 as Go's
      strings and runes treat it.

    Login and secrets:
    - Encoding, Secrets, OAuth, Nonces (encoding/hex, base64 and net/url as used; internal/secrets,
      internal/observability; internal/oauth): state tokens, nonces, tokens at rest, log redaction and
      the loggers derived from the default one; the in-memory nonce store.

    The API:
    - Gin: the request, the response and the context value a chain of gin handlers passes on.
    - Authz (internal/authz): principals, the scope and admin checks, keys and their hashes.
    - Idempotency (internal/api/middleware): request ids, authentication, idempotency keys.
    - Api, ApiSpaces, ApiMembers, ApiAgents, ApiTransversal (internal/api/handlers): what the
      handlers share; the handlers of spaces, of collaborators, of agents, merchants and jobs, of
      the directory, the audit log, members and the OAuth2 callback.
    - Router (internal/api/router.go): the table of routes and the order of the middleware.
    - ApiRuns: stand-ins for the web libraries and concrete requests. ApiSpecs, ApiMemberSpecs: the
      specifications of what requests about spaces and collaborators write; ApiLifecycle: of requests for
      another lifecycle state and for expulsions, each of which asks once per key. ApiCallback: the login callback.
      Paging: a client that follows the cursors of the list of merchants.
      Dsn: the text the log shows of the database's address (internal/store/postgres).

    The programs:
    - Config (internal/config), Programs (cmd/api, cmd/worker, cmd/keygen), Migrate (cmd/migrate).

    The whole:
    - Evolution: what no statement of the store takes back, as a preorder on databases. Roster: which
      statements let somebody in. Steps: relations that every call of a program respects, and the
      programs that respect them.
    - Hub: runs of requests, tasks, polls, scheduled sweeps and uses of the key tool in any order; every
      step keeps the schema, the outbox and the queue sound and moves along that preorder; and runs
      without the backoffice.
    - EndToEnd: what becomes of a request, from the API's answer over outbox, relay and queue to the
      worker and Discord.
    - Concurrency: workers that meet on one space. The services as one process among others sees them;
      runs under the lock, and schedules that go wrong without it; a poll in the middle of a request.

    A request goes through [ServeHTTP] of Router.v: request id, authentication, idempotency, handler.
    A handler answers after it has written the desired state, with an outbox row (provisioning) or
    a task (everything else). The relay of Relay.v turns outbox rows into tasks, the mux of
    Worker.v dispatches tasks to the handlers, these take the lock of LockSpec.v, wait for the
    bucket of RateLimit.v and call the client of Discord.v.

    Definitions carry, in brackets, the symbol they translate with its file and lines.

    ** The theorems, by theme

    - Authorization and requests: [api_changes_authorized] (nothing changes but for a principal
      of the backoffice or the callback with a login state), [idempotent_request],
      [provision_recorded_or_refused], [invite_recorded_or_refused], [expulsion_asks_once],
      [lifecycle_asks_once], [callback_bound_to_state], [paging_is_listing].
    - Isolation: [worker_isolation] (any history of tasks), [strangers_get_nowhere] (runs of the hub
      without the backoffice), [reconcile_space_safe],
      [reconcile_guild_safe], [reconcile_breaker], [provision_fail_closed],
      [invite_grants_members_only], [agent_role_only_agents], [lifecycle_effects] (the @everyone
      entry of one channel, and never the row, since Postgres refuses its UPDATE), [welcome_texts_only].
    - Convergence and success: [reconcile_converges], [expelled_access_ends],
      [expel_ends_membership], [provision_success], [relay_drains] (as many polls as the backlog
      has batches leave nothing to publish), [relay_delivers], [tasks_are_served].
    - The whole system: [hub_keeps_books] (any run keeps schema, outbox and queue, and takes nothing
      final back), [strangers_get_nowhere], [accepted_space_is_opened] (a request answered with 202
      becomes a closed channel of the merchant), [accepted_invitation_opens],
      [accepted_expulsion_is_final], [revoked_key_is_dead].
    - Delivery and data: [relay_at_least_once], [store_keeps_schema], [payload_roundtrip].
    - Secrets and login: [state_single_use], [state_authentic], [issue_then_validate],
      [token_roundtrip], [mem_nonces_agree], [minted_key_opens], [log_redaction],
      [dsn_log_hides_credentials], [connect_url_roundtrip].
    - Start-up: [programs_start_safe] (what runs satisfies what the other theorems assume of the
      configuration), [sweep_always_scheduled], [migrate_in_order], [metrics_register].
    - Concurrency control: [contended_runs] (under the lock a run is as good as alone),
      [held_lock_excludes], [locks_refine_leases], [lock_fencing], [bucket_never_overgrants],
      [penalty_freezes], [RetryDelayFunc_policy]; text limits: [buildNickname_limit].
    - Where the code does less than it means to: [provision_retry_orphans],
      [invite_ignores_revocation], [lifecycle_effects], [welcome_retry_duplicates],
      [replay_before_authorization], [filtered_list_poisons_cache], [paging_skips_ties],
      [parseQueryInt_wraps], [accepted_expulsion_may_be_lost], [unlocked_expulsion_races],
      [unlocked_provisioning_races], [lease_runs_out], [early_poll_strands_space],
      [removed_agent_regains_role].

    ** Choices and bounds

    Loops of the code run over finite lists, so no definition needs fuel; the relay's endless
    polling is any number of polls, and the client of Paging.v follows at most as many cursors
    as it is told to, with the number that is enough in its theorem. Durations are integers of
    nanoseconds and 64-bit wrap-around is written out where the code can reach it (retry delays,
    numbers in queries). JSON documents are trees and the parser is an interface; fields are found
    by their exact tags. The numbers of the Lua scripts are doubles rounded to nearest, ties to even, with an
    unbounded exponent (Doubles.v), so that they neither overflow nor underflow. UUIDs
    are compared as text, and [gen_random_uuid()] is taken not to draw one that is in use (a law of
    [EnvLaws]); an id that is not one acts as the id of no row where Postgres would
    refuse the statement; rows created at the same instant are ordered in a fixed unspecified
    way. The transaction that creates a space with its outbox row is one statement. Error texts
    keep their cause and their fixed prefix. Log lines are not modelled, except for what the
    redaction does to them. A handler runs as a sequence of calls, each of which may fail; other
    processes appear where a theorem says so (the lock, the buckets, the relay, histories of a
    worker, runs of the hub, whose steps are whole requests, tasks and polls, and Concurrency, where
    whole tasks run between the calls of another). A statement of SQL is taken to mean what it says,
    except for the one that uses a parameter at two types, which Postgres refuses (Schema.v). The queue
    server forgets completed tasks in the histories of the relay and the runs of the hub. The
    goroutine that stamps the last use of a key runs before the request goes on. A panic is a
    [None] answer.

    ** Not modelled

    The libraries themselves: gin's matching of paths to routes, binding and validation of bodies,
    the CORS library, the HTTP client, the cipher, the MAC and the digest are parameters or
    interfaces with laws. The recovery middleware (but for its answer), the metrics endpoint and the
    HTML of the callback's page have no effect on the state. Of the programs, signals, flags and the
    loops of the HTTP server and of the scheduler, which hands over its task at any time;
    cmd/reconciler only waits for a signal. The web console is a demonstration in another language. *)
From stdpp Require Export base tactics strings gmap list sorting pretty.
From Stdlib Require Export Ascii ZArith Lia.

#[global] Open Scope Z_scope.
#[global] Set Default Goal Selector "!".

(** ** Results

    Go's [(T, error)] pairs; the code reads the value only when the error is nil. *)
Inductive result (E A : Type) : Type :=
| Ok (a : A)
| Err (e : E).
Arguments Ok {E A} a.
Arguments Err {E A} e.

Definition is_Ok {E A} (r : result E A) : bool :=
  match r with Ok _ => true | Err _ => false end.

Definition result_map {E A B} (f : A -> B) (r : result E A) : result E B :=
  match r with Ok a => Ok (f a) | Err e => Err e end.

(** ** The state monad every stateful operation of the code is written in *)
Definition M (W A : Type) : Type := W -> A * W.
Definition ret {W A} (a : A) : M W A := fun w => (a, w).
Definition bind {W A B} (m : M W A) (k : A -> M W B) : M W B :=
  fun w => k (m w).1 (m w).2.

Declare Scope go_scope.
Delimit Scope go_scope with go.
Notation "x <- m ;; k" := (bind m (fun x => k))
  (at level 100, m at next level, right associativity) : go_scope.
(** [x <-? m onerr e => h ;; k] is Go's
    [x, err := m; if err != nil { return h }; k]. *)
Notation "x <-? m 'onerr' e => h ;; k" :=
  (bind m (fun r => match r with Ok x => k | Err e => h end))
  (at level 100, m at next level, e name, h at next level, right associativity) : go_scope.
#[global] Open Scope go_scope.

(** Run [m] on a component of a larger state. *)
Definition zoom {W S A} (get : W -> S) (put : S -> W -> W) (m : M S A) : M W A :=
  fun w => ((m (get w)).1, put (m (get w)).2 w).

(** [for x := range xs { acc = body(acc, x) }] *)
Fixpoint for_each {W A X} (xs : list X) (body : A -> X -> M W A) (acc : A) : M W A :=
  match xs with
  | [] => ret acc
  | x :: rest => acc' <- body acc x ;; for_each rest body acc'
  end.

(** The same loop with an early [return]: the body answers [inr] to leave the function. *)
Fixpoint for_ret {W A X R} (xs : list X) (body : A -> X -> M W (A + R)) (acc : A)
    : M W (A + R) :=
  match xs with
  | [] => ret (inl acc)
  | x :: rest =>
      r <- body acc x ;;
      match r with
      | inl acc' => for_ret rest body acc'
      | inr v => ret (inr v)
      end
  end.

(** ** A small program logic

    [view] abstracts the concrete state (connections, fault schedules, caches) to what the
    properties speak about. [Spec view m R] is the promise an operation makes: from any state,
    its answer and the views before and after are related by [R]. [wp view m Q w] says that the
    answer and the final view of [m] run in [w] satisfy [Q]. *)
Section Logic.
Context {W V : Type} (view : W -> V).

Definition wp {A} (m : M W A) (Q : A -> V -> Prop) (w : W) : Prop :=
  Q (m w).1 (view (m w).2).

Class Spec {A} (m : M W A) (R : V -> A -> V -> Prop) : Prop :=
  spec_holds : forall w, R (view w) (m w).1 (view (m w).2).

Lemma wp_ret {A} (a : A) (Q : A -> V -> Prop) w : Q a (view w) -> wp (ret a) Q w.
Proof. done. Qed.

Lemma wp_mono {A} (m : M W A) (Q Q' : A -> V -> Prop) w :
  wp m Q w -> (forall a v, Q a v -> Q' a v) -> wp m Q' w.
Proof. unfold wp; auto. Qed.

Lemma wp_bind {A B} (m : M W A) (k : A -> M W B) (Q : B -> V -> Prop) w :
  wp (k (m w).1) Q (m w).2 -> wp (bind m k) Q w.
Proof. done. Qed.

(** The step rule: use the promise of the first operation, go on with the rest. *)
Lemma wp_step {A B} (m : M W A) (k : A -> M W B) (R : V -> A -> V -> Prop)
    (Q : B -> V -> Prop) w :
  Spec m R -> (forall a w', R (view w) a (view w') -> wp (k a) Q w') -> wp (bind m k) Q w.
Proof. intros HS HK. apply wp_bind, HK, HS. Qed.

(** The same with a postcondition proved for this very state. *)
Lemma wp_seq {A B} (m : M W A) (k : A -> M W B) (R : A -> V -> Prop) (Q : B -> V -> Prop) w :
  wp m R w -> (forall a w', R a (view w') -> wp (k a) Q w') -> wp (bind m k) Q w.
Proof. intros HR HK. apply wp_bind, HK, HR. Qed.

Lemma wp_last {A} (m : M W A) (R : V -> A -> V -> Prop) (Q : A -> V -> Prop) w :
  Spec m R -> (forall a v', R (view w) a v' -> Q a v') -> wp m Q w.
Proof. intros HS HK. apply HK, HS. Qed.

Lemma spec_of_wp {A} (m : M W A) (R : V -> A -> V -> Prop) :
  (forall w, wp m (R (view w)) w) -> Spec m R.
Proof. done. Qed.

Lemma spec_mono {A} (m : M W A) (R R' : V -> A -> V -> Prop) :
  Spec m R -> (forall v a v', R v a v' -> R' v a v') -> Spec m R'.
Proof. intros HS HR w. apply HR, HS. Qed.

#[export] Instance spec_ret {A} (a : A) : Spec (ret a) (fun v b v' => b = a /\ v' = v).
Proof. done. Qed.

(** Loop rule: an invariant over the part of the list already treated. *)
Lemma wp_for_each {A X} (body : A -> X -> M W A) (I : list X -> A -> V -> Prop)
    (xs : list X) (acc : A) w :
  I [] acc (view w) ->
  (forall done x rest acc w', xs = done ++ x :: rest -> I done acc (view w') ->
     wp (body acc x) (I (done ++ [x])) w') ->
  wp (for_each xs body acc) (I xs) w.
Proof.
  intros HI Hbody.
  assert (Hgen : forall rest done acc w', xs = done ++ rest -> I done acc (view w') ->
                   wp (for_each rest body acc) (I xs) w').
  { intros rest. induction rest as [|x rest IH]; intros done acc' w' Hxs HI'.
    - rewrite app_nil_r in Hxs. subst done. apply HI'.
    - apply wp_bind. apply (IH (done ++ [x])).
      + by rewrite <-app_assoc.
      + by apply (Hbody done x rest). }
  by apply (Hgen xs []).
Qed.

Lemma wp_for_ret {A X R} (body : A -> X -> M W (A + R)) (I : list X -> A -> V -> Prop)
    (J : R -> V -> Prop) (xs : list X) (acc : A) w :
  I [] acc (view w) ->
  (forall done x rest acc w', xs = done ++ x :: rest -> I done acc (view w') ->
     wp (body acc x)
        (fun r v => match r with inl a => I (done ++ [x]) a v | inr b => J b v end) w') ->
  wp (for_ret xs body acc)
     (fun r v => match r with inl a => I xs a v | inr b => J b v end) w.
Proof.
  intros HI Hbody.
  assert (Hgen : forall rest done acc w', xs = done ++ rest -> I done acc (view w') ->
            wp (for_ret rest body acc)
              (fun r v => match r with inl a => I xs a v | inr b => J b v end) w').
  { intros rest. induction rest as [|x rest IH]; intros done acc' w' Hxs HI'.
    - rewrite app_nil_r in Hxs. subst done. apply HI'.
    - apply wp_bind. specialize (Hbody done x rest acc' w' Hxs HI'). unfold wp in Hbody.
      destruct ((body acc' x w').1) as [a|b].
      + apply (IH (done ++ [x])); [by rewrite <-app_assoc | done].
      + done. }
  by apply (Hgen xs []).
Qed.
End Logic.

(** ** Tactics *)

(** Split hypotheses and substitute: the shape every [Spec] relation unfolds to. *)
Ltac inv_all :=
  repeat match goal with
  | H : exists _, _ |- _ => destruct H
  | H : _ /\ _ |- _ => destruct H
  | H : Ok _ = Ok _ |- _ => injection H as H
  | H : Err _ = Err _ |- _ => injection H as H
  | H : Ok _ = Err _ |- _ => discriminate H
  | H : Err _ = Ok _ |- _ => discriminate H
  | _ => progress simplify_eq
  end.

(** Use the promise of the operation in front. *)
Ltac go_step :=
  eapply wp_step; [typeclasses eauto | cbv beta; intros].
Ltac go_last :=
  eapply wp_last; [typeclasses eauto | cbv beta; intros].

(** ** Fixed-width integers *)
Definition int64_min : Z := - 2 ^ 63.
Definition int64_max : Z := 2 ^ 63 - 1.
(** Go's [int] and [time.Duration] are 64-bit; arithmetic wraps silently. *)
Definition wrap64 (z : Z) : Z := (z + 2 ^ 63) mod 2 ^ 64 - 2 ^ 63.

Lemma wrap64_range z : int64_min <= wrap64 z <= int64_max.
Proof.
  unfold wrap64, int64_min, int64_max.
  pose proof (Z.mod_pos_bound (z + 2 ^ 63) (2 ^ 64) ltac:(lia)). lia.
Qed.

Lemma wrap64_id z : int64_min <= z <= int64_max -> wrap64 z = z.
Proof.
  unfold wrap64, int64_min, int64_max. intros H. rewrite Z.mod_small; lia.
Qed.

(** Durations are counted in nanoseconds. *)
Definition Millisecond : Z := 1000000.
Definition Second : Z := 1000 * Millisecond.
Definition Minute : Z := 60 * Second.
Definition Hour : Z := 60 * Minute.

(** ** JSON documents

    A document is its tree; the text form produced and read back by encoding/json is not
    represented. Objects are maps, as [map[string]any] is. *)
Inductive json : Type :=
| JNull
| JBool (b : bool)
| JNum (z : Z)
| JStr (s : string)
| JArr (items : list json)
| JObj (fields : list (string * json)).

Fixpoint jfield (k : string) (fs : list (string * json)) : option json :=
  match fs with
  | [] => None
  | (k', v) :: rest => if decide (k = k') then Some v else jfield k rest
  end.

(** Decoding one string field of a struct: an absent field or null leaves the zero value, a value
    of another kind is a decoding error. *)
Definition jstring (k : string) (fs : list (string * json)) : option string :=
  match jfield k fs with
  | None | Some JNull => Some ""%string
  | Some (JStr s) => Some s
  | Some _ => None
  end.
Definition jbool (k : string) (fs : list (string * json)) : option bool :=
  match jfield k fs with
  | None | Some JNull => Some false
  | Some (JBool b) => Some b
  | Some _ => None
  end.

(** ** List and option lemmas shared by the components *)
Lemma head_filter_None {A} (P : A -> Prop) `{HD : !forall x, Decision (P x)} (l : list A) :
  head (filter P l) = None -> forall x, x ∈ l -> ~ P x.
Proof.
  intros Hh x Hx HP. assert (x ∈ filter P l) as Hin by (by apply list_elem_of_filter).
  destruct (filter P l); [by apply not_elem_of_nil in Hin | done].
Qed.

Lemma head_filter_Some {A} (P : A -> Prop) `{HD : !forall x, Decision (P x)} (l : list A) x :
  head (filter P l) = Some x -> x ∈ l /\ P x.
Proof.
  intros Hh. assert (x ∈ filter P l) as Hin.
  { destruct (filter P l); simplify_eq/=. left. }
  apply list_elem_of_filter in Hin. tauto.
Qed.

(** [nilIfEmpty], internal/worker/invite_collaborator.go:189-194. *)
Definition nilIfEmpty (s : string) : option string :=
  if decide (s = ""%string) then None else Some s.
