(* ===== verification/Errors.v ===== *)
(** * Errors: the error values of the hub and the decisions taken on them

    Go errors are trees linked by [Unwrap]; [errors.Is] and [errors.As] search them. The sentinels
    and error types declared under src/internal are constructors here, next to the ones of
    asynq, pgx and discordgo the code inspects. Message texts are kept as they are written in the
    format strings; the rendering of [%q], [%s] and [%v] operands is not needed by any decision and
    stays implicit (a wrapped operand is the operand itself). *)
From S2P Require Import Prelude.

Inductive error : Type :=
| ErrNotFound                                          (* store.ErrNotFound *)
| ErrConflict                                          (* store.ErrConflict *)
| RedisNil                                             (* redis.Nil *)
| SkipRetry                                            (* asynq.SkipRetry *)
| ErrTaskIDConflict                                    (* asynq *)
| ErrDuplicateTask                                     (* asynq *)
| ErrNoRows                                            (* pgx *)
| PgError (Code : string)                              (* *pgconn.PgError *)
| RateLimitError (RetryAfter : Z) (Bucket : string)    (* *ratelimit.RateLimitError *)
| RESTError (StatusCode : Z) (RetryAfterSeconds : option Z)  (* *discordgo.RESTError; header in ns *)
| TerminalError (cause : error)                        (* *worker.TerminalError *)
| External (msg : string)                              (* any other error of a library *)
| New (msg : string)                                   (* errors.New, fmt.Errorf without %w *)
| Wrap (pre : string) (e : error)                      (* fmt.Errorf("pre%w", e) *)
| WrapMsg (e : error) (post : string)                  (* fmt.Errorf("%w post", e) *)
| WrapV (e : error) (post : string) (shown : error)    (* fmt.Errorf("%w post %v", e, shown) *)
| Wrap2 (e1 e2 : error).                               (* fmt.Errorf("%w: %w", e1, e2) *)

#[export] Instance error_eq_dec : EqDecision error.
Proof.
  unfold EqDecision, Decision. intros x y. decide equality;
    try (apply (decide (_ = _))).
Defined.

(** [errors.Is(err, target)] for the sentinel targets of the code. *)
Fixpoint errors_Is (err target : error) : bool :=
  bool_decide (err = target) ||
  match err with
  | TerminalError e | Wrap _ e | WrapMsg e _ | WrapV e _ _ => errors_Is e target
  | Wrap2 e1 e2 => errors_Is e1 target || errors_Is e2 target
  | _ => false
  end.

(** An answer asynq does not retry. *)
Definition refused_for_good {A} (r : result error A) : Prop :=
  exists e, r = Err e /\ errors_Is e SkipRetry = true.

(** [errors.As(err, &rle)] for a [*ratelimit.RateLimitError]: its RetryAfter. *)
Fixpoint As_RateLimitError (err : error) : option Z :=
  match err with
  | RateLimitError ra _ => Some ra
  | TerminalError e | Wrap _ e | WrapMsg e _ | WrapV e _ _ => As_RateLimitError e
  | Wrap2 e1 e2 =>
      match As_RateLimitError e1 with Some ra => Some ra | None => As_RateLimitError e2 end
  | _ => None
  end.

(** [errors.As(err, &restErr)] for a [*discordgo.RESTError]: its status and Retry-After. *)
Fixpoint As_RESTError (err : error) : option (Z * option Z) :=
  match err with
  | RESTError st ra => Some (st, ra)
  | TerminalError e | Wrap _ e | WrapMsg e _ | WrapV e _ _ => As_RESTError e
  | Wrap2 e1 e2 =>
      match As_RESTError e1 with Some r => Some r | None => As_RESTError e2 end
  | _ => None
  end.

(** [errors.As(err, &pgErr)]: its SQLSTATE. *)
Fixpoint As_PgError (err : error) : option string :=
  match err with
  | PgError c => Some c
  | TerminalError e | Wrap _ e | WrapMsg e _ | WrapV e _ _ => As_PgError e
  | Wrap2 e1 e2 =>
      match As_PgError e1 with Some r => Some r | None => As_PgError e2 end
  | _ => None
  end.

Fixpoint As_TerminalError (err : error) : bool :=
  match err with
  | TerminalError _ => true
  | Wrap _ e | WrapMsg e _ | WrapV e _ _ => As_TerminalError e
  | Wrap2 e1 e2 => As_TerminalError e1 || As_TerminalError e2
  | _ => false
  end.

(** [IsRateLimitError], internal/ratelimit/ratelimit.go:34-37. *)
Definition IsRateLimitError (err : error) : bool :=
  match As_RateLimitError err with Some _ => true | None => false end.

(** [ExtractRetryAfter], internal/ratelimit/ratelimit.go:41-47. *)
Definition ExtractRetryAfter (err : error) : Z :=
  match As_RateLimitError err with Some ra => ra | None => 0 end.

(** [NewTerminalError], internal/worker/errors.go:20-22. *)
Definition NewTerminalError (cause : error) : error := TerminalError cause.

(** [IsTerminalError], internal/worker/errors.go:31-34. *)
Definition IsTerminalError (err : error) : bool := As_TerminalError err.

(** The exponential part of [RetryDelayFunc]: [base << min(uint(n), 10)] on a 64-bit duration,
    capped. [n] is asynq's retry count; a negative [n] converts to a huge [uint]. *)
Definition backoff (n : Z) : Z :=
  let shift := Z.min (n mod 2 ^ 64) 10 in
  let delay := wrap64 (Z.shiftl Second shift) in
  let maxDelay := 10 * Minute in
  if (delay >? maxDelay) || (delay <? 0) then maxDelay else delay.

(** [RetryDelayFunc], internal/worker/errors.go:45-58. *)
Definition RetryDelayFunc (n : Z) (err : error) : Z :=
  let ra := ExtractRetryAfter err in
  if ra >? 0 then ra else backoff n.

(** [IsFailure], internal/worker/errors.go:68-70. *)
Definition IsFailure (err : error) : bool := negb (IsRateLimitError err).

(** [SkipRetryError], internal/worker/errors.go:74-76. *)
Definition SkipRetryError (cause : error) : error := Wrap2 SkipRetry cause.

(** [isDiscord429], internal/worker/provision_space.go:374-380. *)
Definition isDiscord429 (err : error) : bool :=
  match As_RESTError err with Some (st, _) => st =? 429 | None => false end.

(** [extractDiscord429RetryAfter], internal/worker/provision_space.go:384-398. The header is
    kept as the duration its text denotes ([None]: absent or not a number). *)
Definition extractDiscord429RetryAfter (err : error) : Z :=
  match As_RESTError err with Some (_, Some ra) => ra | _ => 0 end.

(** ** Errors of the infrastructure

    An [opaque] error carries none of the sentinels the hub branches on: a connection failure, a
    timeout, a protocol error. *)
Definition opaque (e : error) : Prop :=
  errors_Is e ErrNotFound = false /\ errors_Is e ErrConflict = false /\
  errors_Is e SkipRetry = false /\ errors_Is e ErrNoRows = false /\
  errors_Is e ErrTaskIDConflict = false /\ errors_Is e ErrDuplicateTask = false /\
  errors_Is e RedisNil = false /\
  As_RateLimitError e = None /\ As_PgError e = None.

#[export] Instance opaque_dec e : Decision (opaque e).
Proof. unfold opaque; apply _. Defined.

Lemma opaque_Wrap s e : opaque e -> opaque (Wrap s e).
Proof. unfold opaque; simpl; tauto. Qed.

Lemma opaque_External s : opaque (External s).
Proof. by vm_compute. Qed.

Lemma opaque_New s : opaque (New s).
Proof. by vm_compute. Qed.

Create HintDb errors discriminated.
#[export] Hint Resolve opaque_Wrap opaque_External opaque_New : errors.

Lemma opaque_not_NotFound e : opaque e -> errors_Is e ErrNotFound = false.
Proof. unfold opaque; tauto. Qed.
Lemma opaque_not_SkipRetry e : opaque e -> errors_Is e SkipRetry = false.
Proof. unfold opaque; tauto. Qed.
#[export] Hint Resolve opaque_not_NotFound opaque_not_SkipRetry : errors.

(** ** The retry policy *)
Lemma backoff_bounds n : Second <= backoff n <= 10 * Minute.
Proof.
  unfold backoff.
  assert (Hs : 0 <= Z.min (n mod 2 ^ 64) 10 <= 10)
    by (pose proof (Z.mod_pos_bound n (2 ^ 64) ltac:(lia)); lia).
  revert Hs. generalize (Z.min (n mod 2 ^ 64) 10) as s. intros s Hs.
  assert (s = 0 \/ s = 1 \/ s = 2 \/ s = 3 \/ s = 4 \/ s = 5 \/ s = 6 \/ s = 7 \/ s = 8 \/
          s = 9 \/ s = 10) as Hc by lia.
  repeat (destruct Hc as [->|Hc]; [vm_compute; split; discriminate|]).
  subst s. vm_compute; split; discriminate.
Qed.

(** The retry delay is the one Discord asked for when the failure is a rate limit with a
    positive wait, and otherwise lies between one second and ten minutes for every attempt number
    (64-bit arithmetic included); rate-limit retries are exactly the errors not counted as
    failures. *)
Theorem RetryDelayFunc_policy (n : Z) (err : error) :
  (forall ra, As_RateLimitError err = Some ra -> 0 < ra -> RetryDelayFunc n err = ra) /\
  (ExtractRetryAfter err <= 0 -> Second <= RetryDelayFunc n err <= 10 * Minute) /\
  0 < RetryDelayFunc n err /\
  (IsFailure err = false <-> exists ra, As_RateLimitError err = Some ra).
Proof.
  unfold RetryDelayFunc, IsFailure, IsRateLimitError, ExtractRetryAfter.
  pose proof (backoff_bounds n) as Hb. assert (0 < Second) by (vm_compute; done).
  destruct (As_RateLimitError err) as [ra|]; (split; [|split; [|split]]); intros; simplify_eq/=;
    repeat case_match; try lia; try (split; [by eexists|done]).
  all: try (split; [done|intros [? ?]; done]).
Qed.
