(* ===== verification/Domain.v ===== *)
(** * Domain: the business entities of internal/domain and the parameter records of internal/store

    Records have the fields of the Go structs in their order. A Go pointer field is an [option], a
    [time.Time] the number of nanoseconds since the epoch, [map[string]any] the fields of a JSON
    object ([None] for the nil map) and an error message column the error it renders. *)
From S2P Require Import Prelude Errors.

(** [map[string]any]; [None] is the nil map. *)
Definition payload_map : Type := option (list (string * json)).

(** [UserType], internal/domain/domain.go:9-14. *)
Inductive UserType : Type := UserTypeAgent | UserTypeCollaborator.

(** [SpaceLifecycleState], internal/domain/domain.go:17-23. *)
Inductive SpaceLifecycleState : Type :=
| SpaceLifecycleActive | SpaceLifecycleResolved | SpaceLifecycleArchived.

(** [ACLState], internal/domain/domain.go:27-34. *)
Inductive ACLState : Type :=
| ACLStatePending | ACLStateApplied | ACLStateDegraded | ACLStateFailed.

(** [SpaceMemberRole], internal/domain/domain.go:38-40. *)
Inductive SpaceMemberRole : Type := SpaceMemberRoleCollaborator.

(** [JobStatus], internal/domain/domain.go:43-51. *)
Inductive JobStatus : Type :=
| JobStatusPending | JobStatusActive | JobStatusCompleted | JobStatusRetrying | JobStatusArchived.

(** [ExpulsionScope], internal/domain/domain.go:54-59: a string type, converted unchecked from
    payload text by the worker; the column's enum accepts the two constants. *)
Definition ExpulsionScope : Type := string.
(** [ExpulsionScopeChannel], internal/domain/domain.go:57. *)
Definition ExpulsionScopeChannel : ExpulsionScope := "channel"%string.
(** [ExpulsionScopeServer], internal/domain/domain.go:58. *)
Definition ExpulsionScopeServer : ExpulsionScope := "server"%string.

#[export] Instance UserType_eq_dec : EqDecision UserType.
Proof. solve_decision. Defined.
#[export] Instance SpaceLifecycleState_eq_dec : EqDecision SpaceLifecycleState.
Proof. solve_decision. Defined.
#[export] Instance ACLState_eq_dec : EqDecision ACLState.
Proof. solve_decision. Defined.
#[export] Instance JobStatus_eq_dec : EqDecision JobStatus.
Proof. solve_decision. Defined.

(** [Merchant], internal/domain/domain.go:63-71. *)
Record Merchant : Type := mkMerchant {
  m_ID : string;
  m_ExternalRef : string;
  m_Name : string;
  m_HelpDeskURL : option string;
  m_IsActive : bool;
  m_CreatedAt : Z;
  m_UpdatedAt : Z
}.

(** [User], internal/domain/domain.go:78-89. *)
Record User : Type := mkUser {
  u_ID : string;
  u_Type : UserType;
  u_IsAdmin : bool;
  u_DiscordUserID : option string;
  u_Email : option string;
  u_DisplayName : option string;
  u_ProvisionedAt : option Z;
  u_IsActive : bool;
  u_CreatedAt : Z;
  u_UpdatedAt : Z
}.

(** [Space], internal/domain/domain.go:93-108. *)
Record Space : Type := mkSpace {
  sp_ID : string;
  sp_MerchantID : string;
  sp_DiscordChannelID : option string;
  sp_DiscordCategoryID : option string;
  sp_Name : string;
  sp_LifecycleState : SpaceLifecycleState;
  sp_ACLState : ACLState;
  sp_WelcomeMessageID : option string;
  sp_LastActivityAt : option Z;
  sp_ReconciledAt : option Z;
  sp_DriftCount : Z;
  sp_CreatedAt : Z;
  sp_UpdatedAt : Z;
  sp_ArchivedAt : option Z
}.

(** [SpaceMember], internal/domain/domain.go:113-122. *)
Record SpaceMember : Type := mkSpaceMember {
  sm_ID : string;
  sm_SpaceID : string;
  sm_UserID : string;
  sm_Role : SpaceMemberRole;
  sm_OverwriteApplied : bool;
  sm_InvitedBy : option string;
  sm_CreatedAt : Z;
  sm_RevokedAt : option Z
}.

(** [AuditEntry], internal/domain/domain.go:126-137. *)
Record AuditEntry : Type := mkAuditEntry {
  ae_ID : Z;
  ae_ActorAPIKeyID : option string;
  ae_ActorUserID : option string;
  ae_Action : string;
  ae_MerchantID : option string;
  ae_SpaceID : option string;
  ae_TargetUserID : option string;
  ae_Scope : option ExpulsionScope;
  ae_Detail : payload_map;
  ae_CreatedAt : Z
}.

(** [APIKey], internal/domain/domain.go:141-149. *)
Record APIKey : Type := mkAPIKey {
  ak_ID : string;
  ak_Name : string;
  ak_KeyHash : string;
  ak_Scope : string;
  ak_CreatedAt : Z;
  ak_LastUsedAt : option Z;
  ak_RevokedAt : option Z
}.

(** [IsActive], internal/domain/domain.go:152-154. *)
Definition APIKey_IsActive (k : APIKey) : bool :=
  match ak_RevokedAt k with None => true | Some _ => false end.

(** [OAuthToken], internal/domain/domain.go:158-170. *)
Record OAuthToken : Type := mkOAuthToken {
  ot_ID : string;
  ot_UserID : string;
  ot_AccessTokenCipher : string;
  ot_AccessTokenNonce : string;
  ot_RefreshTokenCipher : option string;
  ot_RefreshTokenNonce : option string;
  ot_EncryptionKeyVersion : Z;
  ot_Scopes : string;
  ot_ExpiresAt : option Z;
  ot_CreatedAt : Z;
  ot_UpdatedAt : Z
}.

(** [Job], internal/domain/domain.go:174-189. *)
Record Job : Type := mkJob {
  j_ID : string;
  j_TaskID : string;
  j_Kind : string;
  j_Queue : string;
  j_Status : JobStatus;
  j_MerchantID : option string;
  j_SpaceID : option string;
  j_UserID : option string;
  j_Payload : payload_map;
  j_Error : option error;
  j_RetryCount : Z;
  j_CreatedAt : Z;
  j_UpdatedAt : Z;
  j_CompletedAt : option Z
}.

(** [IdempotencyKey], internal/domain/domain.go:195-204. *)
Record IdempotencyKey : Type := mkIdempotencyKey {
  ik_Key : string;
  ik_RequestHash : string;
  ik_Status : JobStatus;
  ik_ResponseCode : option Z;
  ik_ResponseBody : payload_map;
  ik_JobID : option string;
  ik_CreatedAt : Z;
  ik_ExpiresAt : Z
}.

(** [OutboxRow], internal/domain/domain.go:209-218. *)
Record OutboxRow : Type := mkOutboxRow {
  ob_ID : string;
  ob_Aggregate : string;
  ob_AggregateID : string;
  ob_Kind : string;
  ob_Payload : payload_map;
  ob_IdempotencyKey : string;
  ob_EnqueuedAt : option Z;
  ob_CreatedAt : Z
}.

(** ** Parameter records of the store interface *)

(** [CreateMerchantParams], internal/store/store.go:247-251. *)
Record CreateMerchantParams : Type := mkCreateMerchantParams {
  cmp_ExternalRef : string; cmp_Name : string; cmp_HelpDeskURL : option string }.

(** [CreateUserParams], internal/store/store.go:254-260. *)
Record CreateUserParams : Type := mkCreateUserParams {
  cup_Type : UserType; cup_IsAdmin : bool; cup_DiscordUserID : option string;
  cup_Email : option string; cup_DisplayName : option string }.

(** [CreateAPIKeyParams], internal/store/store.go:263-267. *)
Record CreateAPIKeyParams : Type := mkCreateAPIKeyParams {
  cak_Name : string; cak_KeyHash : string; cak_Scope : string }.

(** [UpsertOAuthTokenParams], internal/store/store.go:270-279. *)
Record UpsertOAuthTokenParams : Type := mkUpsertOAuthTokenParams {
  uot_UserID : string;
  uot_AccessTokenCipher : string;
  uot_AccessTokenNonce : string;
  uot_RefreshTokenCipher : option string;
  uot_RefreshTokenNonce : option string;
  uot_EncryptionKeyVersion : Z;
  uot_Scopes : string;
  uot_ExpiresAt : option Z }.

(** [CreateSpaceParams], internal/store/store.go:282-287. *)
Record CreateSpaceParams : Type := mkCreateSpaceParams {
  csp_MerchantID : string; csp_Name : string;
  csp_DiscordCategoryID : option string; csp_WelcomeMessage : option string }.

(** [UpdateSpaceDiscordChannelParams], internal/store/store.go:290-295. *)
Record UpdateSpaceDiscordChannelParams : Type := mkUpdateSpaceDiscordChannelParams {
  usd_SpaceID : string; usd_DiscordChannelID : string;
  usd_DiscordCategoryID : option string; usd_ACLState : ACLState }.

(** [CreateJobParams], internal/store/store.go:298-306. *)
Record CreateJobParams : Type := mkCreateJobParams {
  cjp_TaskID : string; cjp_Kind : string; cjp_Queue : string;
  cjp_MerchantID : option string; cjp_SpaceID : option string; cjp_UserID : option string;
  cjp_Payload : payload_map }.

(** [UpdateJobStatusParams], internal/store/store.go:309-315. *)
Record UpdateJobStatusParams : Type := mkUpdateJobStatusParams {
  ujs_JobID : string; ujs_Status : JobStatus; ujs_Error : option error;
  ujs_RetryCount : option Z; ujs_Completed : bool }.

(** [InsertIdempotencyKeyParams], internal/store/store.go:318-323. *)
Record InsertIdempotencyKeyParams : Type := mkInsertIdempotencyKeyParams {
  iik_Key : string; iik_RequestHash : string; iik_JobID : option string; iik_ExpiresAt : Z }.

(** [UpdateIdempotencyKeyResponseParams], internal/store/store.go:326-332. *)
Record UpdateIdempotencyKeyResponseParams : Type := mkUpdateIdempotencyKeyResponseParams {
  uik_Key : string; uik_Status : JobStatus; uik_ResponseCode : Z;
  uik_ResponseBody : payload_map; uik_JobID : option string }.

(** [CreateSpaceMemberParams], internal/store/store.go:335-340. *)
Record CreateSpaceMemberParams : Type := mkCreateSpaceMemberParams {
  csm_SpaceID : string; csm_UserID : string; csm_Role : SpaceMemberRole;
  csm_InvitedBy : option string }.

(** [ListDirectoryParams], internal/store/store.go:343-354. The cursor is the text handed to the
    timestamptz comparison. *)
Record ListDirectoryParams : Type := mkListDirectoryParams {
  ldp_UserID : option string; ldp_SpaceID : option string; ldp_MerchantID : option string;
  ldp_Cursor : option string; ldp_Limit : Z }.

(** [DirectoryEntry], internal/store/store.go:357-365. *)
Record DirectoryEntry : Type := mkDirectoryEntry {
  de_SpaceID : string; de_SpaceName : string; de_MerchantID : string; de_MerchantName : string;
  de_UserID : string; de_UserDisplayName : option string; de_Role : UserType }.

(** [InsertAuditEntryParams], internal/store/store.go:369-378. *)
Record InsertAuditEntryParams : Type := mkInsertAuditEntryParams {
  iae_ActorAPIKeyID : option string;
  iae_ActorUserID : option string;
  iae_Action : string;
  iae_MerchantID : option string;
  iae_SpaceID : option string;
  iae_TargetUserID : option string;
  iae_Scope : option ExpulsionScope;
  iae_Detail : payload_map }.

(** [ListSpacesParams], internal/store/store.go:381-390. *)
Record ListSpacesParams : Type := mkListSpacesParams {
  lsp_LifecycleState : option SpaceLifecycleState; lsp_MerchantID : option string;
  lsp_Cursor : option string; lsp_Limit : Z }.

(** [CreateOutboxParams], internal/store/store.go:393-399. *)
Record CreateOutboxParams : Type := mkCreateOutboxParams {
  cob_Aggregate : string; cob_AggregateID : string; cob_Kind : string;
  cob_Payload : payload_map; cob_IdempotencyKey : string }.

(** [UpdateSpaceLifecycleParams], internal/store/store.go:402-405. *)
Record UpdateSpaceLifecycleParams : Type := mkUpdateSpaceLifecycleParams {
  usl_SpaceID : string; usl_LifecycleState : SpaceLifecycleState }.

(** [ListMerchantsParams], internal/store/store.go:408-415. *)
Record ListMerchantsParams : Type := mkListMerchantsParams {
  lmp_IsActive : option bool; lmp_Cursor : option string; lmp_Limit : Z }.

(** [ListAuditEntriesParams], internal/store/store.go:418-431. *)
Record ListAuditEntriesParams : Type := mkListAuditEntriesParams {
  lap_MerchantID : option string; lap_SpaceID : option string; lap_Action : option string;
  lap_Since : option string; lap_Cursor : option Z; lap_Limit : Z }.
