(* ===== verification/Schema.v ===== *)
(** * Schema: the relational state and the SQL statements of the store

    The tables of src/migrations/0001_init.sql as finite maps keyed by primary key, with their
    UNIQUE, CHECK and FOREIGN KEY constraints, and every SQL statement of
    internal/store/postgres/postgres.go as a function from the tables to a result and the new
    tables. A statement sees the transaction's [now()] and the stream of values
    [gen_random_uuid()] draws; it either succeeds or raises an SQLSTATE and changes nothing.
    UUIDs are compared as the text they are written in. *)
From S2P Require Import Prelude Errors Domain.

(** The tables the store uses, [merchants] to [audit_log], migrations/0001_init.sql:64-366. *)
Record DB : Type := mkDB {
  t_merchants : gmap string Merchant;
  t_users : gmap string User;
  t_spaces : gmap string Space;
  t_space_members : gmap string SpaceMember;
  t_oauth_tokens : gmap string OAuthToken;
  t_api_keys : gmap string APIKey;
  t_jobs : gmap string Job;
  t_idempotency_keys : gmap string IdempotencyKey;
  t_outbox : gmap string OutboxRow;
  t_audit_log : list AuditEntry;      (* newest first *)
  t_audit_seq : Z                     (* last value of the BIGSERIAL *)
}.

Definition empty_DB : DB := mkDB ∅ ∅ ∅ ∅ ∅ ∅ ∅ ∅ ∅ [] 0.

Definition set_merchants x db := mkDB x (t_users db) (t_spaces db) (t_space_members db)
  (t_oauth_tokens db) (t_api_keys db) (t_jobs db) (t_idempotency_keys db) (t_outbox db)
  (t_audit_log db) (t_audit_seq db).
Definition set_users x db := mkDB (t_merchants db) x (t_spaces db) (t_space_members db)
  (t_oauth_tokens db) (t_api_keys db) (t_jobs db) (t_idempotency_keys db) (t_outbox db)
  (t_audit_log db) (t_audit_seq db).
Definition set_spaces x db := mkDB (t_merchants db) (t_users db) x (t_space_members db)
  (t_oauth_tokens db) (t_api_keys db) (t_jobs db) (t_idempotency_keys db) (t_outbox db)
  (t_audit_log db) (t_audit_seq db).
Definition set_space_members x db := mkDB (t_merchants db) (t_users db) (t_spaces db) x
  (t_oauth_tokens db) (t_api_keys db) (t_jobs db) (t_idempotency_keys db) (t_outbox db)
  (t_audit_log db) (t_audit_seq db).
Definition set_oauth_tokens x db := mkDB (t_merchants db) (t_users db) (t_spaces db)
  (t_space_members db) x (t_api_keys db) (t_jobs db) (t_idempotency_keys db) (t_outbox db)
  (t_audit_log db) (t_audit_seq db).
Definition set_api_keys x db := mkDB (t_merchants db) (t_users db) (t_spaces db)
  (t_space_members db) (t_oauth_tokens db) x (t_jobs db) (t_idempotency_keys db) (t_outbox db)
  (t_audit_log db) (t_audit_seq db).
Definition set_jobs x db := mkDB (t_merchants db) (t_users db) (t_spaces db)
  (t_space_members db) (t_oauth_tokens db) (t_api_keys db) x (t_idempotency_keys db) (t_outbox db)
  (t_audit_log db) (t_audit_seq db).
Definition set_idempotency_keys x db := mkDB (t_merchants db) (t_users db) (t_spaces db)
  (t_space_members db) (t_oauth_tokens db) (t_api_keys db) (t_jobs db) x (t_outbox db)
  (t_audit_log db) (t_audit_seq db).
Definition set_outbox x db := mkDB (t_merchants db) (t_users db) (t_spaces db)
  (t_space_members db) (t_oauth_tokens db) (t_api_keys db) (t_jobs db) (t_idempotency_keys db) x
  (t_audit_log db) (t_audit_seq db).
Definition set_audit l n db := mkDB (t_merchants db) (t_users db) (t_spaces db)
  (t_space_members db) (t_oauth_tokens db) (t_api_keys db) (t_jobs db) (t_idempotency_keys db)
  (t_outbox db) l n.

(** A table with an [id] primary key, to write the statements once. *)
Record Table (A : Type) : Type := mkTable {
  tget : DB -> gmap string A;
  tset : gmap string A -> DB -> DB
}.
Arguments tget {A}. Arguments tset {A}.
Definition merchants_T := mkTable _ t_merchants set_merchants.
Definition users_T := mkTable _ t_users set_users.
Definition spaces_T := mkTable _ t_spaces set_spaces.
Definition space_members_T := mkTable _ t_space_members set_space_members.
Definition oauth_tokens_T := mkTable _ t_oauth_tokens set_oauth_tokens.
Definition api_keys_T := mkTable _ t_api_keys set_api_keys.
Definition jobs_T := mkTable _ t_jobs set_jobs.
Definition idempotency_keys_T := mkTable _ t_idempotency_keys set_idempotency_keys.
Definition outbox_T := mkTable _ t_outbox set_outbox.

(** What a statement sees besides the tables. *)
Record Stamp : Type := mkStamp { st_now : Z; st_uuid : nat -> string }.

Definition sql (A : Type) : Type := Stamp -> DB -> result error (A * DB).

(** An id that no row of any table bears. *)
Definition id_new (id : string) (db : DB) : bool :=
  bool_decide (t_merchants db !! id = None /\ t_users db !! id = None /\ t_spaces db !! id = None /\
    t_space_members db !! id = None /\ t_oauth_tokens db !! id = None /\ t_api_keys db !! id = None /\
    t_jobs db !! id = None /\ t_outbox db !! id = None).
(** The ids a statement may draw (a statement draws two at most) are new. *)
Definition ids_new (st : Stamp) (db : DB) : bool := id_new (st_uuid st 0) db && id_new (st_uuid st 1) db.

(** SQLSTATEs the statements raise. *)
Definition pgUniqueViolation : string := "23505"%string.
Definition pgForeignKeyViolation : string := "23503"%string.
Definition pgNotNullViolation : string := "23502"%string.
Definition pgCheckViolation : string := "23514"%string.
Definition pgInvalidText : string := "22P02"%string.

Definition raise {A} (code : string) : sql A := fun _ _ => Err (PgError code).
Definition sql_ret {A} (a : A) : sql A := fun _ db => Ok (a, db).
(** Statements of one transaction: an error rolls everything back. *)
Definition sql_bind {A B} (q : sql A) (k : A -> sql B) : sql B := fun st db =>
  match q st db with Ok (a, db') => k a st db' | Err e => Err e end.

(** The types of parameters. pgx prepares a statement without naming them; Postgres deduces each from the
    places the parameter stands in, and refuses to prepare a statement with a parameter whose places disagree.
    A parameter with one place has no such trouble: of all statements of the store only the one of
    [UpdateSpaceLifecycle] has a parameter with two. *)
Inductive PgType : Type := PgText | PgUUID | PgEnum (name : string).
#[export] Instance PgType_eq_dec : EqDecision PgType.
Proof. solve_decision. Defined.
Definition pgAmbiguousParameter : string := "42P08"%string.
Definition deducible (places : list PgType) : bool :=
  match places with [] => true | t :: rest => forallb (fun t' => bool_decide (t' = t)) rest end.
Definition prepared {A} (params : list (list PgType)) (q : sql A) : sql A := fun st db =>
  if forallb deducible params then q st db else Err (PgError pgAmbiguousParameter).

(** A statement whose parameters cannot be typed is never executed. *)
Lemma prepared_refused {A} params (q : sql A) st db : forallb deducible params = false ->
  prepared params q st db = Err (PgError pgAmbiguousParameter).
Proof. unfold prepared. by intros ->. Qed.

(** Reading the tables changes nothing. *)
Definition sql_read {A} (f : DB -> A) : sql A := fun _ db => Ok (f db, db).

(** [UPDATE tab SET ... WHERE id = $1 RETURNING ...] without a constraint at stake. *)
Definition sql_update {A} (T : Table A) (id : string) (f : Z -> A -> A) : sql (option A) :=
  fun st db =>
    match tget T db !! id with
    | None => Ok (None, db)
    | Some a => let a' := f (st_now st) a in Ok (Some a', tset T (<[id := a']> (tget T db)) db)
    end.

(** Some other row of the table has the value [b] in the column [key]. *)
Definition taken {A B} `{EqDecision B} (key : A -> option B) (b : B) (self : string)
    (tab : gmap string A) : bool :=
  bool_decide (map_Exists (fun id a => id <> self /\ key a = Some b) tab).

(** A nullable foreign key points to an existing row. *)
Definition fk {A} (ref : option string) (tab : gmap string A) : bool :=
  match ref with None => true | Some id => bool_decide (is_Some (tab !! id)) end.

(** [INSERT INTO tab ... RETURNING ...]: the new row gets the id [st_uuid st n]; [unique] are its
    unique constraints, [fks] its foreign keys, [chk] its other constraints. *)
Definition sql_insert {A} (T : Table A) (n : nat) (chk : option string)
    (unique fks : DB -> string -> bool) (row : Z -> string -> A) : sql (option A) := fun st db =>
  let id := st_uuid st n in
  match chk with
  | Some code => Err (PgError code)
  | None =>
      if bool_decide (is_Some (tget T db !! id)) || negb (unique db id) then
        Err (PgError pgUniqueViolation)
      else if negb (fks db id) then Err (PgError pgForeignKeyViolation)
      else let a := row (st_now st) id in
           Ok (Some a, tset T (<[id := a]> (tget T db)) db)
  end.

Definition no_unique : DB -> string -> bool := fun _ _ => true.

(** [ORDER BY created_at ASC LIMIT n] over the rows that satisfy [p]. Rows created at the same
    instant come in an unspecified but fixed order. *)
Definition le_created {A} (created : A -> Z) : relation A := fun a b => created a <= created b.
#[export] Instance le_created_dec {A} (created : A -> Z) a b : Decision (le_created created a b).
Proof. unfold le_created; apply _. Defined.
#[export] Instance le_created_total {A} (created : A -> Z) : Total (le_created created).
Proof. intros a b. unfold le_created. lia. Qed.
#[export] Instance le_created_trans {A} (created : A -> Z) : Transitive (le_created created).
Proof. intros a b c. unfold le_created. lia. Qed.

Definition rows_where {A} (tab : gmap string A) (p : A -> bool) : list A :=
  filter (fun a => p a = true) (map_to_list tab).*2.
Definition order_by_created {A} (created : A -> Z) (rows : list A) : list A :=
  merge_sort (le_created created) rows.

Definition opt_eqb (o : option string) (s : string) : bool :=
  match o with None => true | Some x => bool_decide (x = s) end.

(** ** Statements *)

(** [INSERT INTO merchants]: UNIQUE (external_ref).
    The query of [CreateMerchant], internal/store/postgres/postgres.go:64-79. *)
Definition sql_insert_merchant (p : CreateMerchantParams) : sql (option Merchant) :=
  sql_insert merchants_T 0 None
    (fun db id => negb (taken (fun m => Some (m_ExternalRef m)) (cmp_ExternalRef p) id (t_merchants db)))
    no_unique
    (fun now id => mkMerchant id (cmp_ExternalRef p) (cmp_Name p) (cmp_HelpDeskURL p) true now now).

(** [INSERT INTO users]: CHECK (is_admin = FALSE OR type = 'agent'), UNIQUE (discord_user_id).
    The query of [CreateUser], internal/store/postgres/postgres.go:158-174. *)
Definition sql_insert_user (p : CreateUserParams) : sql (option User) :=
  sql_insert users_T 0
    (if cup_IsAdmin p && negb (bool_decide (cup_Type p = UserTypeAgent))
     then Some pgCheckViolation else None)
    (fun db id => match cup_DiscordUserID p with
                  | None => true
                  | Some d => negb (taken u_DiscordUserID d id (t_users db))
                  end)
    no_unique
    (fun now id => mkUser id (cup_Type p) (cup_IsAdmin p) (cup_DiscordUserID p) (cup_Email p)
                     (cup_DisplayName p) None true now now).

(** The SET clause of [UpdateDiscordUserID], internal/store/postgres/postgres.go:256-258. *)
Definition with_discord_id (d : string) (now : Z) (u : User) : User :=
  mkUser (u_ID u) (u_Type u) (u_IsAdmin u) (Some d) (u_Email u) (u_DisplayName u)
    (u_ProvisionedAt u) (u_IsActive u) (u_CreatedAt u) now.
(** The SET clause of [DeactivateUser], internal/store/postgres/postgres.go:232-239. *)
Definition with_inactive (now : Z) (u : User) : User :=
  mkUser (u_ID u) (u_Type u) (u_IsAdmin u) (u_DiscordUserID u) (u_Email u) (u_DisplayName u)
    (u_ProvisionedAt u) false (u_CreatedAt u) now.
(** The SET clause of [SetUserProvisionedAt], internal/store/postgres/postgres.go:242-249. *)
Definition with_provisioned (now : Z) (u : User) : User :=
  mkUser (u_ID u) (u_Type u) (u_IsAdmin u) (u_DiscordUserID u) (u_Email u) (u_DisplayName u)
    (Some now) (u_IsActive u) (u_CreatedAt u) now.

(** [UPDATE users SET discord_user_id = $1 WHERE id = $2]: the number of rows affected.
    The query of [UpdateDiscordUserID], internal/store/postgres/postgres.go:255-270. *)
Definition sql_update_discord_user_id (userID d : string) : sql Z := fun st db =>
  match t_users db !! userID with
  | None => Ok (0, db)
  | Some u =>
      if taken u_DiscordUserID d userID (t_users db) then Err (PgError pgUniqueViolation)
      else Ok (1, set_users (<[userID := with_discord_id d (st_now st) u]> (t_users db)) db)
  end.

(** [INSERT INTO api_keys]: UNIQUE (key_hash).
    The query of [CreateAPIKey], internal/store/postgres/postgres.go:294-309. *)
Definition sql_insert_api_key (p : CreateAPIKeyParams) : sql (option APIKey) :=
  sql_insert api_keys_T 0 None
    (fun db id => negb (taken (fun k => Some (ak_KeyHash k)) (cak_KeyHash p) id (t_api_keys db)))
    no_unique
    (fun now id => mkAPIKey id (cak_Name p) (cak_KeyHash p) (cak_Scope p) now None None).

(** The SET clause of [RevokeAPIKey], internal/store/postgres/postgres.go:347-348. *)
Definition with_key_revoked (now : Z) (k : APIKey) : APIKey :=
  mkAPIKey (ak_ID k) (ak_Name k) (ak_KeyHash k) (ak_Scope k) (ak_CreatedAt k) (ak_LastUsedAt k)
    (Some now).
(** The SET clause of [TouchAPIKeyLastUsed], internal/store/postgres/postgres.go:359-366. *)
Definition with_key_used (now : Z) (k : APIKey) : APIKey :=
  mkAPIKey (ak_ID k) (ak_Name k) (ak_KeyHash k) (ak_Scope k) (ak_CreatedAt k) (Some now)
    (ak_RevokedAt k).

(** [UPDATE api_keys SET revoked_at = now() WHERE id = $1 AND revoked_at IS NULL]: rows affected.
    The query of [RevokeAPIKey], internal/store/postgres/postgres.go:346-356. *)
Definition sql_revoke_api_key (id : string) : sql Z := fun st db =>
  match t_api_keys db !! id with
  | Some k =>
      if APIKey_IsActive k then
        Ok (1, set_api_keys (<[id := with_key_revoked (st_now st) k]> (t_api_keys db)) db)
      else Ok (0, db)
  | None => Ok (0, db)
  end.

(** [INSERT INTO oauth_tokens ... ON CONFLICT (user_id) DO UPDATE].
    The query of [UpsertOAuthToken], internal/store/postgres/postgres.go:388-413. *)
Definition sql_upsert_oauth_token (p : UpsertOAuthTokenParams) : sql (option OAuthToken) :=
  fun st db =>
    match head (filter (fun kv => ot_UserID kv.2 = uot_UserID p) (map_to_list (t_oauth_tokens db))) with
    | Some (id, t) =>
        let t' := mkOAuthToken (ot_ID t) (ot_UserID t) (uot_AccessTokenCipher p)
                    (uot_AccessTokenNonce p) (uot_RefreshTokenCipher p) (uot_RefreshTokenNonce p)
                    (uot_EncryptionKeyVersion p) (uot_Scopes p) (uot_ExpiresAt p)
                    (ot_CreatedAt t) (st_now st) in
        Ok (Some t', set_oauth_tokens (<[id := t']> (t_oauth_tokens db)) db)
    | None =>
        sql_insert oauth_tokens_T 0 None
          no_unique (fun db _ => fk (Some (uot_UserID p)) (t_users db))
          (fun now id => mkOAuthToken id (uot_UserID p) (uot_AccessTokenCipher p)
             (uot_AccessTokenNonce p) (uot_RefreshTokenCipher p) (uot_RefreshTokenNonce p)
             (uot_EncryptionKeyVersion p) (uot_Scopes p) (uot_ExpiresAt p) now now) st db
    end.

(** [INSERT INTO spaces]: UNIQUE (merchant_id), merchant_id REFERENCES merchants.
    The query of [CreateSpace], internal/store/postgres/postgres.go:448-466. *)
Definition sql_insert_space (n : nat) (p : CreateSpaceParams) : sql (option Space) :=
  sql_insert spaces_T n None
    (fun db id => negb (taken (fun s => Some (sp_MerchantID s)) (csp_MerchantID p) id (t_spaces db)))
    (fun db _ => fk (Some (csp_MerchantID p)) (t_merchants db))
    (fun now id => mkSpace id (csp_MerchantID p) None (csp_DiscordCategoryID p) (csp_Name p)
                     SpaceLifecycleActive ACLStatePending None None None 0 now now None).

(** The SET clause of [UpdateSpaceDiscordChannel], internal/store/postgres/postgres.go:490-500. *)
Definition with_channel (ch : string) (cat : option string) (acl : ACLState) (now : Z) (s : Space) : Space :=
  mkSpace (sp_ID s) (sp_MerchantID s) (Some ch)
    (match cat with Some c => Some c | None => sp_DiscordCategoryID s end)
    (sp_Name s) (sp_LifecycleState s) acl (sp_WelcomeMessageID s) (sp_LastActivityAt s)
    (sp_ReconciledAt s) (sp_DriftCount s) (sp_CreatedAt s) now (sp_ArchivedAt s).
(** The SET clause of [UpdateSpaceACLState], internal/store/postgres/postgres.go:504-514. *)
Definition with_acl (acl : ACLState) (now : Z) (s : Space) : Space :=
  mkSpace (sp_ID s) (sp_MerchantID s) (sp_DiscordChannelID s) (sp_DiscordCategoryID s)
    (sp_Name s) (sp_LifecycleState s) acl (sp_WelcomeMessageID s) (sp_LastActivityAt s)
    (sp_ReconciledAt s) (sp_DriftCount s) (sp_CreatedAt s) now (sp_ArchivedAt s).
(** The SET clause of [UpdateSpaceReconciledAt], internal/store/postgres/postgres.go:1059-1066. *)
Definition with_reconciled (now : Z) (s : Space) : Space :=
  mkSpace (sp_ID s) (sp_MerchantID s) (sp_DiscordChannelID s) (sp_DiscordCategoryID s)
    (sp_Name s) (sp_LifecycleState s) (sp_ACLState s) (sp_WelcomeMessageID s) (sp_LastActivityAt s)
    (Some now) (sp_DriftCount s) (sp_CreatedAt s) now (sp_ArchivedAt s).
(** The SET clause of [UpdateSpaceLifecycle], internal/store/postgres/postgres.go:1074-1091. *)
Definition with_lifecycle (lc : SpaceLifecycleState) (now : Z) (s : Space) : Space :=
  mkSpace (sp_ID s) (sp_MerchantID s) (sp_DiscordChannelID s) (sp_DiscordCategoryID s)
    (sp_Name s) lc (sp_ACLState s) (sp_WelcomeMessageID s) (sp_LastActivityAt s)
    (sp_ReconciledAt s) (sp_DriftCount s) (sp_CreatedAt s) now
    (if decide (lc = SpaceLifecycleArchived) then Some now else None).
(** The SET clause of [UpdateSpaceWelcomeMessageID], internal/store/postgres/postgres.go:1094-1104. *)
Definition with_welcome (msg : string) (now : Z) (s : Space) : Space :=
  mkSpace (sp_ID s) (sp_MerchantID s) (sp_DiscordChannelID s) (sp_DiscordCategoryID s)
    (sp_Name s) (sp_LifecycleState s) (sp_ACLState s) (Some msg) (sp_LastActivityAt s)
    (sp_ReconciledAt s) (sp_DriftCount s) (sp_CreatedAt s) now (sp_ArchivedAt s).

(** The query of [UpdateSpaceLifecycle], internal/store/postgres/postgres.go:1074-1091. Its first parameter is
    assigned to the column lifecycle_state and compared as [$1::text]. *)
Definition sql_update_space_lifecycle (p : UpdateSpaceLifecycleParams) : sql (option Space) :=
  prepared [[PgEnum "space_lifecycle_state"; PgText]; [PgUUID]]
    (sql_update spaces_T (usl_SpaceID p) (with_lifecycle (usl_LifecycleState p))).

(** [UPDATE spaces SET discord_channel_id = $1, ...]: UNIQUE (discord_channel_id).
    The query of [UpdateSpaceDiscordChannel], internal/store/postgres/postgres.go:489-501. *)
Definition sql_update_space_channel (p : UpdateSpaceDiscordChannelParams) : sql (option Space) :=
  fun st db =>
    if bool_decide (is_Some (t_spaces db !! usd_SpaceID p)) &&
       taken sp_DiscordChannelID (usd_DiscordChannelID p) (usd_SpaceID p) (t_spaces db)
    then Err (PgError pgUniqueViolation)
    else sql_update spaces_T (usd_SpaceID p)
           (with_channel (usd_DiscordChannelID p) (usd_DiscordCategoryID p) (usd_ACLState p)) st db.

(** [INSERT INTO jobs]: UNIQUE (task_id), three nullable references.
    The query of [CreateJob], internal/store/postgres/postgres.go:535-548. *)
Definition sql_insert_job (p : CreateJobParams) : sql (option Job) :=
  sql_insert jobs_T 0 None
    (fun db id => negb (taken (fun j => Some (j_TaskID j)) (cjp_TaskID p) id (t_jobs db)))
    (fun db _ => fk (cjp_MerchantID p) (t_merchants db) && fk (cjp_SpaceID p) (t_spaces db) &&
                 fk (cjp_UserID p) (t_users db))
    (fun now id => mkJob id (cjp_TaskID p) (cjp_Kind p) (cjp_Queue p) JobStatusPending
                     (cjp_MerchantID p) (cjp_SpaceID p) (cjp_UserID p) (cjp_Payload p) None 0
                     now now None).

(** The SET clause of [UpdateJobStatus].
    The query of [UpdateJobStatus], internal/store/postgres/postgres.go:560-577. *)
Definition with_job_status (p : UpdateJobStatusParams) (now : Z) (j : Job) : Job :=
  mkJob (j_ID j) (j_TaskID j) (j_Kind j) (j_Queue j) (ujs_Status p)
    (j_MerchantID j) (j_SpaceID j) (j_UserID j) (j_Payload j)
    (match ujs_Error p with Some e => Some e | None => j_Error j end)
    (match ujs_RetryCount p with Some n => n | None => j_RetryCount j end)
    (j_CreatedAt j) now
    (if ujs_Completed p then Some now else j_CompletedAt j).

(** The most recent job of a space and kind: [ORDER BY created_at DESC LIMIT 1].
    The query of [GetJobBySpaceIDAndKind], internal/store/postgres/postgres.go:1195-1204. *)
Definition job_by_space_kind (spaceID kind : string) (db : DB) : option Job :=
  last (order_by_created j_CreatedAt
    (rows_where (t_jobs db) (fun j => bool_decide (j_SpaceID j = Some spaceID) &&
                                      bool_decide (j_Kind j = kind)))).

(** [INSERT INTO idempotency_keys]: PRIMARY KEY (key), job_id REFERENCES jobs.
    The query of [InsertIdempotencyKey], internal/store/postgres/postgres.go:606-622. *)
Definition sql_insert_idempotency_key (p : InsertIdempotencyKeyParams) : sql (option IdempotencyKey) :=
  fun st db =>
    if bool_decide (is_Some (t_idempotency_keys db !! iik_Key p)) then Err (PgError pgUniqueViolation)
    else if negb (fk (iik_JobID p) (t_jobs db)) then Err (PgError pgForeignKeyViolation)
    else let r := mkIdempotencyKey (iik_Key p) (iik_RequestHash p) JobStatusPending None None
                    (iik_JobID p) (st_now st) (iik_ExpiresAt p) in
         Ok (Some r, set_idempotency_keys (<[iik_Key p := r]> (t_idempotency_keys db)) db).

(** [SELECT ... WHERE key = $1 AND expires_at > now()].
    The query of [GetIdempotencyKey], internal/store/postgres/postgres.go:626-632. *)
Definition sql_get_idempotency_key (key : string) : sql (option IdempotencyKey) := fun st db =>
  Ok (match t_idempotency_keys db !! key with
      | Some r => if st_now st <? ik_ExpiresAt r then Some r else None
      | None => None
      end, db).

(** [UPDATE idempotency_keys SET status, response_code, response_body, job_id WHERE key = $5].
    The query of [UpdateIdempotencyKeyResponse], internal/store/postgres/postgres.go:635-650. *)
Definition sql_update_idempotency_key (p : UpdateIdempotencyKeyResponseParams) : sql unit :=
  fun st db =>
    match t_idempotency_keys db !! uik_Key p with
    | None => Ok (tt, db)
    | Some r =>
        if negb (fk (uik_JobID p) (t_jobs db)) then Err (PgError pgForeignKeyViolation)
        else
          let r' := mkIdempotencyKey (ik_Key r) (ik_RequestHash r) (uik_Status p)
                      (Some (uik_ResponseCode p)) (uik_ResponseBody p)
                      (match uik_JobID p with Some j => Some j | None => ik_JobID r end)
                      (ik_CreatedAt r) (ik_ExpiresAt r) in
          Ok (tt, set_idempotency_keys (<[uik_Key p := r']> (t_idempotency_keys db)) db)
    end.

(** [INSERT INTO outbox]: payload NOT NULL, UNIQUE (idempotency_key).
    The query of [CreateSpaceWithOutbox], internal/store/postgres/postgres.go:747-796. *)
Definition sql_insert_outbox (n : nat) (p : CreateOutboxParams) : sql (option OutboxRow) :=
  sql_insert outbox_T n
    (match cob_Payload p with None => Some pgNotNullViolation | Some _ => None end)
    (fun db id => negb (taken (fun o => Some (ob_IdempotencyKey o)) (cob_IdempotencyKey p) id (t_outbox db)))
    no_unique
    (fun now id => mkOutboxRow id (cob_Aggregate p) (cob_AggregateID p) (cob_Kind p) (cob_Payload p)
                     (cob_IdempotencyKey p) None now).

(** The SET clause of [UpdateOutboxPayload], internal/store/postgres/postgres.go:834-837. *)
Definition with_payload (pl : payload_map) (o : OutboxRow) : OutboxRow :=
  mkOutboxRow (ob_ID o) (ob_Aggregate o) (ob_AggregateID o) (ob_Kind o) pl (ob_IdempotencyKey o)
    (ob_EnqueuedAt o) (ob_CreatedAt o).
(** The SET clause of [StampOutboxEnqueued], internal/store/postgres/postgres.go:850-853. *)
Definition with_enqueued (now : Z) (o : OutboxRow) : OutboxRow :=
  mkOutboxRow (ob_ID o) (ob_Aggregate o) (ob_AggregateID o) (ob_Kind o) (ob_Payload o)
    (ob_IdempotencyKey o) (Some now) (ob_CreatedAt o).
Definition pending (o : OutboxRow) : bool :=
  match ob_EnqueuedAt o with None => true | Some _ => false end.

(** [SELECT ... WHERE enqueued_at IS NULL ORDER BY created_at ASC LIMIT $1].
    The query of [ListPendingOutbox], internal/store/postgres/postgres.go:799-820. *)
Definition pending_outbox (limit : Z) (db : DB) : list OutboxRow :=
  take (Z.to_nat limit) (order_by_created ob_CreatedAt (rows_where (t_outbox db) pending)).

(** [UPDATE outbox SET payload = $1 WHERE idempotency_key = $2 AND enqueued_at IS NULL].
    The query of [UpdateOutboxPayload], internal/store/postgres/postgres.go:825-843. *)
Definition sql_update_outbox_payload (key : string) (pl : payload_map) : sql unit := fun _ db =>
  match pl with
  | None => if bool_decide (map_Exists (fun _ o => ob_IdempotencyKey o = key /\ pending o = true) (t_outbox db))
            then Err (PgError pgNotNullViolation) else Ok (tt, db)
  | Some _ =>
      Ok (tt, set_outbox ((fun o => if bool_decide (ob_IdempotencyKey o = key) && pending o
                                    then with_payload pl o else o) <$> t_outbox db) db)
  end.

(** [UPDATE outbox SET enqueued_at = now() WHERE id = ANY($1)].
    The query of [StampOutboxEnqueued], internal/store/postgres/postgres.go:846-858. *)
Definition sql_stamp_outbox (ids : list string) : sql unit := fun st db =>
  Ok (tt, set_outbox (map_imap (fun id o => Some (if bool_decide (id ∈ ids)
                                                  then with_enqueued (st_now st) o else o))
                               (t_outbox db)) db).

(** [INSERT INTO space_members]: UNIQUE (space_id, user_id), three references.
    The query of [CreateSpaceMember], internal/store/postgres/postgres.go:885-901. *)
Definition sql_insert_space_member (p : CreateSpaceMemberParams) : sql (option SpaceMember) :=
  sql_insert space_members_T 0 None
    (fun db id => negb (taken (fun s => Some (sm_SpaceID s, sm_UserID s))
                          (csm_SpaceID p, csm_UserID p) id (t_space_members db)))
    (fun db _ => fk (Some (csm_SpaceID p)) (t_spaces db) && fk (Some (csm_UserID p)) (t_users db) &&
                 fk (csm_InvitedBy p) (t_users db))
    (fun now id => mkSpaceMember id (csm_SpaceID p) (csm_UserID p) (csm_Role p) false
                     (csm_InvitedBy p) now None).

(** The SET clause of [SetSpaceMemberOverwriteApplied], internal/store/postgres/postgres.go:912-918. *)
Definition with_overwrite_applied (_ : Z) (s : SpaceMember) : SpaceMember :=
  mkSpaceMember (sm_ID s) (sm_SpaceID s) (sm_UserID s) (sm_Role s) true (sm_InvitedBy s)
    (sm_CreatedAt s) (sm_RevokedAt s).
(** The SET clause of [RevokeSpaceMember], internal/store/postgres/postgres.go:921-927. *)
Definition with_revoked (now : Z) (s : SpaceMember) : SpaceMember :=
  mkSpaceMember (sm_ID s) (sm_SpaceID s) (sm_UserID s) (sm_Role s) (sm_OverwriteApplied s)
    (sm_InvitedBy s) (sm_CreatedAt s) (Some now).

Definition member_active (s : SpaceMember) : bool :=
  match sm_RevokedAt s with None => true | Some _ => false end.

(** [SELECT ... FROM space_members WHERE space_id = $1 AND revoked_at IS NULL].
    The query of [ListActiveSpaceMembers], internal/store/postgres/postgres.go:959-969. *)
Definition active_members (spaceID : string) (db : DB) : list SpaceMember :=
  rows_where (t_space_members db) (fun s => bool_decide (sm_SpaceID s = spaceID) && member_active s).

(** [SELECT ... FROM space_members WHERE space_id = $1 AND user_id = $2].
    The query of [GetSpaceMemberBySpaceAndUser], internal/store/postgres/postgres.go:904-909. *)
Definition member_by_space_user (spaceID userID : string) (db : DB) : option SpaceMember :=
  head (rows_where (t_space_members db) (fun s => bool_decide (sm_SpaceID s = spaceID) &&
                                                  bool_decide (sm_UserID s = userID))).

(** [INSERT INTO audit_log]: five references and the expulsion_scope enum.
    The query of [InsertAuditEntry], internal/store/postgres/postgres.go:677-691. *)
Definition sql_insert_audit (p : InsertAuditEntryParams) : sql unit := fun st db =>
  if match iae_Scope p with
     | Some s => negb (bool_decide (s = ExpulsionScopeChannel) || bool_decide (s = ExpulsionScopeServer))
     | None => false
     end
  then Err (PgError pgInvalidText)
  else if negb (fk (iae_ActorAPIKeyID p) (t_api_keys db) && fk (iae_ActorUserID p) (t_users db) &&
                fk (iae_MerchantID p) (t_merchants db) && fk (iae_SpaceID p) (t_spaces db) &&
                fk (iae_TargetUserID p) (t_users db))
  then Err (PgError pgForeignKeyViolation)
  else
    let n := t_audit_seq db + 1 in
    Ok (tt, set_audit (mkAuditEntry n (iae_ActorAPIKeyID p) (iae_ActorUserID p) (iae_Action p)
                         (iae_MerchantID p) (iae_SpaceID p) (iae_TargetUserID p) (iae_Scope p)
                         (iae_Detail p) (st_now st) :: t_audit_log db) n db).

(** The statements of [CreateSpaceWithOutbox] in one transaction. A unique violation of the first
    one is reported as [ErrConflict]; the other errors keep their SQLSTATE.
    The query of [CreateSpaceWithOutbox], internal/store/postgres/postgres.go:747-796. *)
Definition sql_create_space_with_outbox (sp : CreateSpaceParams) (ob : CreateOutboxParams)
    : sql (Space * OutboxRow) := fun st db =>
  match sql_insert_space 0 sp st db with
  | Err e => Err (if bool_decide (As_PgError e = Some pgUniqueViolation) then ErrConflict
                  else Wrap "postgres: scan space: " e)
  | Ok (None, _) => Err ErrNotFound
  | Ok (Some space, db1) =>
      match sql_insert_outbox 1 ob st db1 with
      | Err e => Err (Wrap "postgres: scan outbox: " e)
      | Ok (None, _) => Err ErrNotFound
      | Ok (Some row, db2) => Ok ((space, row), db2)
      end
  end.

Lemma rows_where_elem {A} (tab : gmap string A) (p : A -> bool) a :
  a ∈ rows_where tab p <-> exists id, tab !! id = Some a /\ p a = true.
Proof.
  unfold rows_where. rewrite list_elem_of_filter, list_elem_of_fmap. split.
  - intros [Hp [[id a'] [-> Hin]]]. apply elem_of_map_to_list in Hin. eauto.
  - intros (id & Hl & Hp). split; [done|]. exists (id, a). split; [done|].
    by apply elem_of_map_to_list.
Qed.
