(* ===== verification/Services.v ===== *)
(** * Services: the systems the hub talks to, as an interface with laws

    Postgres, Valkey, the Discord REST API (through discordgo), the asynq queue, Prometheus and
    the operating system (clock, random bytes) are not part of the repository. [Env] has one
    operation per call the code makes; [EnvLaws] states what the code relies on, relative to a
    [View] of the remote states. A remote call may fail at any point: it then reports an [opaque]
    error, and the remote state is either unchanged or changed as if the call had succeeded (the
    answer was lost). *)
From S2P Require Import Prelude Errors Domain Schema.
From Stdlib Require Export QArith.
#[global] Open Scope Z_scope.

(** ** Discord's side *)
Inductive PermissionOverwriteType : Type :=
| PermissionOverwriteTypeRole | PermissionOverwriteTypeMember.
#[export] Instance PermissionOverwriteType_eq_dec : EqDecision PermissionOverwriteType.
Proof. solve_decision. Defined.

(** An entry of a channel's permission overwrites; [ow_ID] is a role or a member. *)
Record PermissionOverwrite : Type := mkOverwrite {
  ow_ID : string;
  ow_Type : PermissionOverwriteType;
  ow_Allow : Z;
  ow_Deny : Z
}.
#[export] Instance PermissionOverwrite_eq_dec : EqDecision PermissionOverwrite.
Proof. solve_decision. Defined.

Record Guild : Type := mkGuild {
  g_overwrites : gmap string (gmap string PermissionOverwrite);   (* channel -> target -> entry *)
  g_members : gset string;
  g_roles : gmap string (gset string);                            (* user -> roles *)
  g_nicks : gmap string string;
  g_topics : gmap string string;
  g_messages : gmap string (gmap string string);                  (* channel -> message -> text *)
  g_pins : gset (string * string)
}.
Definition empty_Guild : Guild := mkGuild ∅ ∅ ∅ ∅ ∅ ∅ ∅.

Definition g_set_overwrites x g := mkGuild x (g_members g) (g_roles g) (g_nicks g) (g_topics g)
  (g_messages g) (g_pins g).
Definition g_set_members x g := mkGuild (g_overwrites g) x (g_roles g) (g_nicks g) (g_topics g)
  (g_messages g) (g_pins g).
Definition g_set_roles x g := mkGuild (g_overwrites g) (g_members g) x (g_nicks g) (g_topics g)
  (g_messages g) (g_pins g).
Definition g_set_nicks x g := mkGuild (g_overwrites g) (g_members g) (g_roles g) x (g_topics g)
  (g_messages g) (g_pins g).
Definition g_set_topics x g := mkGuild (g_overwrites g) (g_members g) (g_roles g) (g_nicks g) x
  (g_messages g) (g_pins g).
Definition g_set_messages x g := mkGuild (g_overwrites g) (g_members g) (g_roles g) (g_nicks g)
  (g_topics g) x (g_pins g).
Definition g_set_pins x g := mkGuild (g_overwrites g) (g_members g) (g_roles g) (g_nicks g)
  (g_topics g) (g_messages g) x.

(** Effects of the REST calls. *)
Definition permission_set (ch : string) (ow : PermissionOverwrite) (g : Guild) : Guild :=
  g_set_overwrites (alter (fun m => <[ow_ID ow := ow]> m) ch (g_overwrites g)) g.
Definition permission_delete (ch target : string) (g : Guild) : Guild :=
  g_set_overwrites (alter (fun m => delete target m) ch (g_overwrites g)) g.
Definition channel_create (ch : string) (ows : list PermissionOverwrite) (g : Guild) : Guild :=
  g_set_overwrites (<[ch := list_to_map ((fun ow => (ow_ID ow, ow)) <$> ows)]> (g_overwrites g)) g.
Definition role_add (user role : string) (g : Guild) : Guild :=
  g_set_roles (<[user := {[role]} ∪ default ∅ (g_roles g !! user)]> (g_roles g)) g.
Definition role_remove (user role : string) (g : Guild) : Guild :=
  g_set_roles (<[user := default ∅ (g_roles g !! user) ∖ {[role]}]> (g_roles g)) g.
Definition member_add (user : string) (g : Guild) : Guild :=
  g_set_members ({[user]} ∪ g_members g) g.
Definition member_delete (user : string) (g : Guild) : Guild :=
  g_set_members (g_members g ∖ {[user]}) (g_set_roles (delete user (g_roles g))
    (g_set_nicks (delete user (g_nicks g)) g)).
Definition topic_set (ch topic : string) (g : Guild) : Guild :=
  g_set_topics (<[ch := topic]> (g_topics g)) g.
Definition message_put (ch msg content : string) (g : Guild) : Guild :=
  g_set_messages (<[ch := <[msg := content]> (default ∅ (g_messages g !! ch))]> (g_messages g)) g.
Definition message_pin (ch msg : string) (g : Guild) : Guild :=
  g_set_pins ({[(ch, msg)]} ∪ g_pins g) g.
(** An empty nickname resets to the user name. *)
Definition nick_set (user nick : string) (g : Guild) : Guild :=
  g_set_nicks (if decide (nick = ""%string) then delete user (g_nicks g)
               else <[user := nick]> (g_nicks g)) g.

(** The overwrites of a channel ([∅] for a channel that does not exist). *)
Definition overwrites_of (ch : string) (g : Guild) : gmap string PermissionOverwrite :=
  default ∅ (g_overwrites g !! ch).

(** ** Valkey's side *)
Inductive rvalue : Type :=
| RStr (s : string)
| RHash (h : gmap string Q).
Record rentry : Type := mkEntry { re_value : rvalue; re_expire : option Z }.   (* unix ms *)
Notation Keyspace := (gmap string rentry).

(** The value of a key at time [now]: an expired key is absent. *)
Definition klive (now : Z) (ks : Keyspace) (k : string) : option rvalue :=
  match ks !! k with
  | Some e => match re_expire e with
              | Some t => if now <? t then Some (re_value e) else None
              | None => Some (re_value e)
              end
  | None => None
  end.

(** A command or script: sees the server's clock, runs atomically. *)
Definition redis (A : Type) : Type := Z -> Keyspace -> result error (A * Keyspace).

(** ** The queue's side

    The queue of a view holds what the queue server has accepted and keeps: no call of the hub removes a
    task. That the server forgets a completed task, after which its id and its uniqueness are free
    again, is a step of its own ([forgets] of Relay.v). *)
Record AsynqTask : Type := mkTask {
  tk_Type : string;
  tk_Payload : payload_map;
  tk_Queue : string;
  tk_TaskID : option string;
  tk_Unique : option Z;
  tk_MaxRetry : option Z
}.

(** Two tasks are duplicates under [Unique] when type, payload and queue agree. *)
Definition same_work (a b : AsynqTask) : Prop :=
  tk_Type a = tk_Type b /\ tk_Payload a = tk_Payload b /\ tk_Queue a = tk_Queue b.
Definition same_id (a b : AsynqTask) : Prop :=
  exists id, tk_TaskID a = Some id /\ tk_TaskID b = Some id.

(** ** Prometheus' side *)
Record Metrics : Type := mkMetrics {
  mt_ProvisioningLatency : list (string * Z);   (* observations, ns *)
  mt_ActiveSpaces : Z;
  mt_RateLimitHits : Z;
  mt_Errors : gmap string Z
}.
Definition empty_Metrics : Metrics := mkMetrics [] 0 0 ∅.

(** ** The whole *)
Record View : Type := mkView {
  v_db : DB;
  v_guild : Guild;
  v_kv : Keyspace;
  v_queue : list AsynqTask;
  v_metrics : Metrics
}.
Definition with_db x v := mkView x (v_guild v) (v_kv v) (v_queue v) (v_metrics v).
Definition with_guild x v := mkView (v_db v) x (v_kv v) (v_queue v) (v_metrics v).
Definition with_kv x v := mkView (v_db v) (v_guild v) x (v_queue v) (v_metrics v).
Definition with_queue x v := mkView (v_db v) (v_guild v) (v_kv v) x (v_metrics v).
Definition with_metrics x v := mkView (v_db v) (v_guild v) (v_kv v) (v_queue v) x.

Class Env (W : Type) : Type := {
  (* pgx *)
  pg_exec : forall {A : Type}, sql A -> M W (result error A);
  pg_timestamptz : string -> option Z;                  (* text to timestamptz *)
  citext_eq : string -> string -> bool;                 (* case-insensitive comparison *)
  (* go-redis *)
  redis_exec : forall {A : Type}, redis A -> M W (result error A);
  (* discordgo *)
  PermissionViewChannel : Z;
  PermissionSendMessages : Z;
  dg_ChannelPermissionSet : string -> string -> PermissionOverwriteType -> Z -> Z ->
                            M W (result error unit);
  dg_ChannelPermissionDelete : string -> string -> M W (result error unit);
  dg_GuildChannelCreateComplex : string -> string -> string -> list PermissionOverwrite ->
                                 M W (result error string);
  dg_Channel : string -> M W (result error (list PermissionOverwrite));
  dg_GuildMemberRoleAdd : string -> string -> string -> M W (result error unit);
  dg_GuildMemberRoleRemove : string -> string -> string -> M W (result error unit);
  dg_GuildMemberAdd : string -> string -> string -> M W (result error unit);
  dg_GuildMemberDelete : string -> string -> M W (result error unit);
  dg_ChannelEditTopic : string -> string -> M W (result error unit);
  dg_ChannelMessagePin : string -> string -> M W (result error unit);
  dg_ChannelMessageEditComplex : string -> string -> string -> M W (result error unit);
  dg_ChannelMessageSendComplex : string -> string -> M W (result error string);
  dg_GuildMemberNickname : string -> string -> string -> M W (result error unit);
  (* asynq *)
  asynq_Enqueue : AsynqTask -> M W (result error unit);
  (* prometheus *)
  prom_update : (Metrics -> Metrics) -> M W unit;
  (* the operating system *)
  time_Now : M W Z;
  rand_Read : nat -> M W (result error (list Ascii.ascii));
  map_range : forall {K V : Type}, list (K * V) -> M W (list (K * V))  (* order of a map range *)
}.

(** A statement was executed, or failed with a constraint error, or the infrastructure failed. *)
Definition pg_outcome {A} (q : sql A) (v : View) (r : result error A) (v' : View) : Prop :=
  (exists st a db', q st (v_db v) = Ok (a, db') /\ r = Ok a /\ v' = with_db db' v) \/
  (exists st e, q st (v_db v) = Err e /\ r = Err e /\ v' = v) \/
  (exists e, opaque e /\ r = Err e /\
     (v' = v \/ exists st a db', q st (v_db v) = Ok (a, db') /\ v' = with_db db' v)).

(** The statement as it runs when the ids it may draw are new. [gen_random_uuid()] is taken not to draw
    an id that is in use: otherwise the statement fails for no reason the hub knows of. *)
Definition on_new_ids {A} (q : sql A) : sql A := fun st db =>
  if ids_new st db then q st db else Err (External "id in use").

Definition redis_outcome {A} (c : redis A) (v : View) (r : result error A) (v' : View) : Prop :=
  (exists now a ks', c now (v_kv v) = Ok (a, ks') /\ r = Ok a /\ v' = with_kv ks' v) \/
  (exists now e, c now (v_kv v) = Err e /\ r = Err e /\ v' = v) \/
  (exists e, opaque e /\ r = Err e /\
     (v' = v \/ exists now a ks', c now (v_kv v) = Ok (a, ks') /\ v' = with_kv ks' v)).

(** A REST call without an answer body: done, or an error with or without the effect. *)
Definition rest_outcome (pre : Guild -> Prop) (eff : Guild -> Guild)
    (v : View) (r : result error unit) (v' : View) : Prop :=
  (r = Ok tt /\ pre (v_guild v) /\ v' = with_guild (eff (v_guild v)) v) \/
  (exists e, opaque e /\ r = Err e /\ (v' = v \/ v' = with_guild (eff (v_guild v)) v)).

Definition channel_exists (ch : string) (g : Guild) : Prop := is_Some (g_overwrites g !! ch).
Definition anything (g : Guild) : Prop := True.

Class EnvLaws {W : Type} (E : Env W) (view : W -> View) : Prop := {
  view_bit : PermissionViewChannel <> 0;
  pg_exec_new_law : forall A (q : sql A), Spec view (pg_exec q) (pg_outcome (on_new_ids q));
  redis_exec_law : forall A (c : redis A), Spec view (redis_exec c) (redis_outcome c);
  ChannelPermissionSet_law : forall ch t ty allow deny,
    Spec view (dg_ChannelPermissionSet ch t ty allow deny)
      (rest_outcome (channel_exists ch) (permission_set ch (mkOverwrite t ty allow deny)));
  ChannelPermissionDelete_law : forall ch t,
    Spec view (dg_ChannelPermissionDelete ch t)
      (rest_outcome (channel_exists ch) (permission_delete ch t));
  GuildChannelCreateComplex_law : forall g name parent ows,
    Spec view (dg_GuildChannelCreateComplex g name parent ows) (fun v r v' =>
      (exists id, r = Ok id /\ id <> ""%string /\ g_overwrites (v_guild v) !! id = None /\
                  v' = with_guild (channel_create id ows (v_guild v)) v) \/
      (exists e, opaque e /\ r = Err e /\
         (v' = v \/ exists id, g_overwrites (v_guild v) !! id = None /\
                      v' = with_guild (channel_create id ows (v_guild v)) v)));
  Channel_law : forall ch,
    Spec view (dg_Channel ch) (fun v r v' =>
      v' = v /\
      ((exists ows, r = Ok ows /\ channel_exists ch (v_guild v) /\
          (forall ow, ow ∈ ows <-> overwrites_of ch (v_guild v) !! ow_ID ow = Some ow)) \/
       (exists e, opaque e /\ r = Err e)));
  GuildMemberRoleAdd_law : forall g u role,
    Spec view (dg_GuildMemberRoleAdd g u role) (rest_outcome anything (role_add u role));
  GuildMemberRoleRemove_law : forall g u role,
    Spec view (dg_GuildMemberRoleRemove g u role) (rest_outcome anything (role_remove u role));
  GuildMemberAdd_law : forall g u token,
    Spec view (dg_GuildMemberAdd g u token) (rest_outcome anything (member_add u));
  GuildMemberDelete_law : forall g u,
    Spec view (dg_GuildMemberDelete g u) (rest_outcome anything (member_delete u));
  ChannelEditTopic_law : forall ch topic,
    Spec view (dg_ChannelEditTopic ch topic) (rest_outcome anything (topic_set ch topic));
  ChannelMessagePin_law : forall ch m,
    Spec view (dg_ChannelMessagePin ch m) (rest_outcome anything (message_pin ch m));
  ChannelMessageEditComplex_law : forall ch m content,
    Spec view (dg_ChannelMessageEditComplex ch m content)
      (rest_outcome anything (message_put ch m content));
  ChannelMessageSendComplex_law : forall ch content,
    Spec view (dg_ChannelMessageSendComplex ch content) (fun v r v' =>
      (exists id, r = Ok id /\ default ∅ (g_messages (v_guild v) !! ch) !! id = None /\
         v' = with_guild (message_put ch id content (v_guild v)) v) \/
      (exists e, opaque e /\ r = Err e /\
         (v' = v \/ exists id, v' = with_guild (message_put ch id content (v_guild v)) v)));
  GuildMemberNickname_law : forall g u nick,
    Spec view (dg_GuildMemberNickname g u nick) (rest_outcome anything (nick_set u nick));
  asynq_Enqueue_law : forall t,
    Spec view (asynq_Enqueue t) (fun v r v' =>
      (r = Ok tt /\ v' = with_queue (v_queue v ++ [t]) v /\
         (forall t', t' ∈ v_queue v -> ~ same_id t t')) \/
      (r = Err ErrTaskIDConflict /\ v' = v /\ exists t', t' ∈ v_queue v /\ same_id t t') \/
      (r = Err ErrDuplicateTask /\ v' = v /\ is_Some (tk_Unique t) /\
         exists t', t' ∈ v_queue v /\ same_work t t') \/
      (exists e, opaque e /\ r = Err e /\
         (v' = v \/ v' = with_queue (v_queue v ++ [t]) v /\
                   (forall t', t' ∈ v_queue v -> ~ same_id t t'))));
  prom_update_law : forall f,
    Spec view (prom_update f) (fun v _ v' => v' = with_metrics (f (v_metrics v)) v);
  time_Now_law : Spec view time_Now (fun v _ v' => v' = v);
  rand_Read_law : forall n,
    Spec view (rand_Read n) (fun v r v' => v' = v /\
      ((exists bs, r = Ok bs /\ length bs = n) \/ (exists e, opaque e /\ r = Err e)));
  map_range_law : forall K V (l : list (K * V)),
    Spec view (map_range l) (fun v r v' => v' = v /\ r ≡ₚ l)
}.

(** What a statement does at all, whatever ids it draws. *)
Lemma on_new_ids_outcome {A} (q : sql A) v r v' : pg_outcome (on_new_ids q) v r v' -> pg_outcome q v r v'.
Proof.
  assert (Hok : forall st db x, on_new_ids q st db = Ok x -> q st db = Ok x).
  { unfold on_new_ids. intros st db x. by destruct (ids_new st db). }
  intros [H|[H|H]].
  - destruct H as (st & a & db & Hq%Hok & Hr). left. eauto.
  - destruct H as (st & e & Hq & -> & ->). unfold on_new_ids in Hq. destruct (ids_new st (v_db v)).
    + right; left. eauto.
    + right; right. injection Hq as <-. exists (External "id in use"). split; [apply opaque_External|auto].
  - destruct H as (e & He & -> & Hv). right; right. exists e. split; [done|]. split; [done|].
    destruct Hv as [?|(st & a & db & Hq%Hok & Hv)]; [by left|right; eauto].
Qed.
Lemma pg_exec_law {W} {E : Env W} {view : W -> View} {L : EnvLaws E view} A (q : sql A) :
  Spec view (pg_exec q) (pg_outcome q).
Proof. intros w. apply on_new_ids_outcome, pg_exec_new_law. Qed.
#[export] Existing Instances pg_exec_law redis_exec_law ChannelPermissionSet_law
  ChannelPermissionDelete_law GuildChannelCreateComplex_law Channel_law GuildMemberRoleAdd_law
  GuildMemberRoleRemove_law GuildMemberAdd_law GuildMemberDelete_law ChannelEditTopic_law
  ChannelMessagePin_law ChannelMessageEditComplex_law ChannelMessageSendComplex_law
  GuildMemberNickname_law asynq_Enqueue_law prom_update_law time_Now_law rand_Read_law
  map_range_law.

(** ** Time

    The laws leave the servers' clocks open. What a deadline promises is said of a state in which
    the server that is called answers before the deadline: what the call would do later makes no
    difference to its result. *)
Definition pg_before {W} `{Env W} (T : Z) (w : W) : Prop :=
  forall A (q q' : sql A), (forall st db, st_now st < T -> q st db = q' st db) -> pg_exec q w = pg_exec q' w.
Definition redis_before {W} `{Env W} (T : Z) (w : W) : Prop :=
  forall A (c c' : redis A), (forall now ks, now < T -> c now ks = c' now ks) -> redis_exec c w = redis_exec c' w.

Section Time.
Context {W : Type} {E : Env W} {view : W -> View} {L : EnvLaws E view}.

(** Such a call has an outcome of the statement as it runs before the deadline. *)
Definition pg_until {A} (T : Z) (q : sql A) : sql A := fun st db =>
  if st_now st <? T then q st db else Err (External "late").
Definition redis_until {A} (T : Z) (c : redis A) : redis A := fun now ks =>
  if now <? T then c now ks else Err (External "late").

Lemma pg_exec_until {A} T (q : sql A) w : pg_before T w ->
  pg_outcome (pg_until T q) (view w) (pg_exec q w).1 (view (pg_exec q w).2).
Proof.
  intros Hb. rewrite (Hb A q (pg_until T q)); [apply pg_exec_law|].
  intros st db Hst. unfold pg_until. by rewrite (proj2 (Z.ltb_lt _ _) Hst).
Qed.
Lemma redis_exec_until {A} T (c : redis A) w : redis_before T w ->
  redis_outcome (redis_until T c) (view w) (redis_exec c w).1 (view (redis_exec c w).2).
Proof.
  intros Hb. rewrite (Hb A c (redis_until T c)); [apply redis_exec_law|].
  intros now ks Hn. unfold redis_until. by rewrite (proj2 (Z.ltb_lt _ _) Hn).
Qed.
End Time.
