(* ===== verification/InMemory.v ===== *)
(** * InMemory: an implementation of [Env] by pure state, with scripted faults

    It satisfies the laws, so the hypotheses the theorems make on the services can hold; the
    witnesses run the handlers on it. Each remote call takes the next entry of the fault script:
    [Fine] executes it, [Before e] fails without effect, [After e] executes it and loses the
    answer. An exhausted script means no more faults. *)
From S2P Require Import Prelude Errors Domain Schema Services.

Inductive fault : Type := Fine | Before (e : error) | After (e : error).

Record World : Type := mkWorld {
  w_view : View;
  w_clock : Z;          (* ns; every statement takes a tick *)
  w_fresh : nat;        (* next generated identifier *)
  w_script : list fault
}.

Definition empty_View : View := mkView empty_DB empty_Guild ∅ [] empty_Metrics.
Definition world (v : View) (script : list fault) : World := mkWorld v Second 0 script.

(** Errors without a sentinel of the hub pass; anything else becomes a plain failure. *)
Definition infra_error (e : error) : error := if decide (opaque e) then e else External "fault".
Lemma infra_error_opaque e : opaque (infra_error e).
Proof. unfold infra_error. case_decide; [done|apply opaque_External]. Qed.

Definition next_fault (w : World) : fault * World :=
  match w_script w with
  | [] => (Fine, w)
  | f :: rest => (f, mkWorld (w_view w) (w_clock w) (w_fresh w) rest)
  end.
Definition tick (w : World) : World :=
  mkWorld (w_view w) (w_clock w + Millisecond) (S (S (w_fresh w))) (w_script w).
Definition put_view (v : View) (w : World) : World :=
  mkWorld v (w_clock w) (w_fresh w) (w_script w).

Lemma next_fault_view w : w_view (next_fault w).2 = w_view w.
Proof. unfold next_fault. by destruct (w_script w). Qed.

(** A remote call: [f] is its effect on the view when it runs in [w]. *)
Definition remote {A} (f : World -> result error (A * View)) : M World (result error A) := fun w =>
  let '(flt, w1) := next_fault w in
  match flt with
  | Before e => (Err (infra_error e), tick w1)
  | Fine => match f w1 with
            | Ok (a, v) => (Ok a, tick (put_view v w1))
            | Err e => (Err e, tick w1)
            end
  | After e => match f w1 with
               | Ok (_, v) => (Err (infra_error e), tick (put_view v w1))
               | Err e' => (Err e', tick w1)
               end
  end.

Lemma remote_outcome {A} (f : World -> result error (A * View)) w :
  let r := (remote f w).1 in let v' := w_view (remote f w).2 in
  (exists w1 a v, w_view w1 = w_view w /\ f w1 = Ok (a, v) /\ r = Ok a /\ v' = v) \/
  (exists w1 e, w_view w1 = w_view w /\ f w1 = Err e /\ r = Err e /\ v' = w_view w) \/
  (exists e, opaque e /\ r = Err e /\
     (v' = w_view w \/
      exists w1 a v, w_view w1 = w_view w /\ f w1 = Ok (a, v) /\ v' = v)).
Proof.
  unfold remote. pose proof (next_fault_view w) as Hv.
  destruct (next_fault w) as [flt w1]; simpl in *.
  destruct flt as [|e|e].
  - destruct (f w1) as [[a v]|e] eqn:Hf; simpl.
    + left. by exists w1, a, v.
    + right; left. by exists w1, e.
  - right; right. exists (infra_error e). simpl.
    split; [apply infra_error_opaque|]. by rewrite Hv; auto.
  - destruct (f w1) as [[a v]|e'] eqn:Hf; simpl.
    + right; right. exists (infra_error e). split; [apply infra_error_opaque|].
      split; [done|]. right. by exists w1, a, v.
    + right; left. by exists w1, e'.
Qed.

Definition fresh_id (n : nat) : string := "id-" +:+ pretty n.

Definition on_guild (pre : Guild -> bool) (eff : Guild -> Guild) (w : World)
    : result error (unit * View) :=
  if pre (v_guild (w_view w)) then Ok (tt, with_guild (eff (v_guild (w_view w))) (w_view w))
  else Err (RESTError 404 None).

Definition no_pre (g : Guild) : bool := true.
Definition has_channel (ch : string) (g : Guild) : bool :=
  bool_decide (is_Some (g_overwrites g !! ch)).

(** Insert under a generated snowflake; a (never observed) collision is a failure. *)
Definition with_snowflake {A} (m : gmap string A) (k : string -> View) (w : World)
    : result error (string * View) :=
  let id := "snowflake-" +:+ pretty (w_fresh w) in
  if decide (m !! id = None) then Ok (id, k id) else Err (External "snowflake collision").

(** The time of an RFC 3339 text in UTC, with or without a fraction of a second. *)
Fixpoint number (acc : Z) (cs : list Z) : option Z :=
  match cs with
  | [] => Some acc
  | c :: cs => if (48 <=? c) && (c <=? 57) then number (acc * 10 + (c - 48)) cs else None
  end.
Definition days_from_civil (y m d : Z) : Z :=
  let y := if m <=? 2 then y - 1 else y in
  let yoe := y mod 400 in
  let doy := (153 * (if 2 <? m then m - 3 else m + 9) + 2) / 5 + d - 1 in
  y / 400 * 146097 + (yoe * 365 + yoe / 4 - yoe / 100 + doy) - 719468.
Definition fraction (cs : list Z) : option Z :=
  match cs with
  | [90] => Some 0
  | 46 :: ds =>
      match reverse ds with
      | 90 :: rs => n ← number 0 (take 9 (reverse rs ++ replicate 9 48)); Some n
      | _ => None
      end
  | _ => None
  end.
Definition parse_RFC3339 (s : string) : option Z :=
  match (fun a => Z.of_nat (Ascii.nat_of_ascii a)) <$> String.list_ascii_of_string s with
  | y1 :: y2 :: y3 :: y4 :: _ :: m1 :: m2 :: _ :: d1 :: d2 :: _ :: h1 :: h2 :: _ :: n1 :: n2 :: _ :: s1 :: s2 :: rest =>
      y ← number 0 [y1; y2; y3; y4]; m ← number 0 [m1; m2]; d ← number 0 [d1; d2];
      h ← number 0 [h1; h2]; n ← number 0 [n1; n2]; s ← number 0 [s1; s2]; f ← fraction rest;
      Some ((((days_from_civil y m d * 24 + h) * 60 + n) * 60 + s) * Second + f)
  | _ => None
  end.

(** The stamp of a statement: numbered ids as long as they are new, some other new id when they are not. *)
Definition used_ids (db : DB) : gset string :=
  dom (t_merchants db) ∪ dom (t_users db) ∪ dom (t_spaces db) ∪ dom (t_space_members db) ∪
  dom (t_oauth_tokens db) ∪ dom (t_api_keys db) ∪ dom (t_jobs db) ∪ dom (t_outbox db).
Definition stamp (w : World) (db : DB) : Stamp :=
  let numbered n := fresh_id (w_fresh w + n) in
  mkStamp (w_clock w) (if id_new (numbered 0%nat) db && id_new (numbered 1%nat) db then numbered
                       else fun _ => fresh (used_ids db)).

Lemma id_new_fresh db : id_new (fresh (used_ids db)) db = true.
Proof.
  pose proof (is_fresh (used_ids db)) as Hf. revert Hf. generalize (fresh (used_ids db)). intros id Hf.
  apply bool_decide_eq_true. unfold used_ids in Hf.
  rewrite !not_elem_of_union, !not_elem_of_dom in Hf. tauto.
Qed.
Lemma on_stamp {A} (q : sql A) w db : on_new_ids q (stamp w db) db = q (stamp w db) db.
Proof.
  unfold on_new_ids. enough (ids_new (stamp w db) db = true) as -> by done. unfold ids_new, stamp. cbn [st_uuid].
  destruct (id_new (fresh_id (w_fresh w + 0)) db && id_new (fresh_id (w_fresh w + 1)) db) eqn:Hn; [exact Hn|].
  by rewrite !id_new_fresh.
Qed.

#[export] Instance env_world : Env World := {
  pg_exec A q := remote (fun w =>
    match q (stamp w (v_db (w_view w))) (v_db (w_view w)) with
    | Ok (a, db) => Ok (a, with_db db (w_view w))
    | Err e => Err e
    end);
  pg_timestamptz := parse_RFC3339;
  citext_eq a b := bool_decide (a = b);
  redis_exec A c := remote (fun w =>
    match c (w_clock w / Millisecond) (v_kv (w_view w)) with
    | Ok (a, ks) => Ok (a, with_kv ks (w_view w))
    | Err e => Err e
    end);
  PermissionViewChannel := 1024;
  PermissionSendMessages := 2048;
  dg_ChannelPermissionSet ch t ty allow deny :=
    remote (on_guild (has_channel ch) (permission_set ch (mkOverwrite t ty allow deny)));
  dg_ChannelPermissionDelete ch t := remote (on_guild (has_channel ch) (permission_delete ch t));
  dg_GuildChannelCreateComplex _ name parent ows := remote (fun w =>
    let g := v_guild (w_view w) in
    with_snowflake (g_overwrites g)
      (fun id => with_guild (channel_create id ows g) (w_view w)) w);
  dg_Channel ch := remote (fun w =>
    let g := v_guild (w_view w) in
    if has_channel ch g then
      Ok (filter (fun ow => overwrites_of ch g !! ow_ID ow = Some ow)
            (map_to_list (overwrites_of ch g)).*2, w_view w)
    else Err (RESTError 404 None));
  dg_GuildMemberRoleAdd _ u r := remote (on_guild no_pre (role_add u r));
  dg_GuildMemberRoleRemove _ u r := remote (on_guild no_pre (role_remove u r));
  dg_GuildMemberAdd _ u _ := remote (on_guild no_pre (member_add u));
  dg_GuildMemberDelete _ u := remote (on_guild no_pre (member_delete u));
  dg_ChannelEditTopic ch t := remote (on_guild no_pre (topic_set ch t));
  dg_ChannelMessagePin ch m := remote (on_guild no_pre (message_pin ch m));
  dg_ChannelMessageEditComplex ch m c := remote (on_guild no_pre (message_put ch m c));
  dg_ChannelMessageSendComplex ch c := remote (fun w =>
    let g := v_guild (w_view w) in
    with_snowflake (default ∅ (g_messages g !! ch))
      (fun id => with_guild (message_put ch id c g) (w_view w)) w);
  dg_GuildMemberNickname _ u n := remote (on_guild no_pre (nick_set u n));
  asynq_Enqueue t := remote (fun w =>
    let q := v_queue (w_view w) in
    if existsb (fun t' => bool_decide (tk_TaskID t' = tk_TaskID t) && bool_decide (is_Some (tk_TaskID t))) q
    then Err ErrTaskIDConflict
    else Ok (tt, with_queue (q ++ [t]) (w_view w)));
  prom_update f w := (tt, put_view (with_metrics (f (v_metrics (w_view w))) (w_view w)) w);
  time_Now w := (w_clock w, tick w);
  rand_Read n := remote (fun w =>
    Ok (replicate n (Ascii.ascii_of_nat (w_fresh w)), w_view w));
  map_range K V l w := (l, w)
}.

Lemma opaque_404 : opaque (RESTError 404 None).
Proof. by vm_compute. Qed.

(** The REST calls of the instance have the outcomes the laws state. *)
Lemma remote_rest (pre : Guild -> bool) (P : Guild -> Prop) (eff : Guild -> Guild) :
  (forall g, pre g = true -> P g) ->
  Spec w_view (remote (on_guild pre eff)) (rest_outcome P eff).
Proof.
  intros HP w. destruct (remote_outcome (on_guild pre eff) w) as [H|[H|H]];
    destruct H as [x H]; unfold rest_outcome, on_guild in *.
  - destruct H as ([] & v & Hw & Hf & -> & ->). rewrite Hw in Hf.
    destruct (pre _) eqn:Hp; simplify_eq. left. eauto.
  - destruct H as (e & Hw & Hf & -> & ->). rewrite Hw in Hf.
    destruct (pre _) eqn:Hp; simplify_eq. right. exists (RESTError 404 None).
    split; [apply opaque_404|eauto].
  - right. exists x. destruct H as (Ho & -> & [->|(w1 & [] & v & Hw & Hf & ->)]); [by auto|].
    rewrite Hw in Hf. destruct (pre _) eqn:Hp; simplify_eq. eauto.
Qed.

Lemma remote_rest_any (eff : Guild -> Guild) :
  Spec w_view (remote (on_guild no_pre eff)) (rest_outcome anything eff).
Proof. by apply remote_rest. Qed.

Lemma remote_rest_channel ch (eff : Guild -> Guild) :
  Spec w_view (remote (on_guild (has_channel ch) eff)) (rest_outcome (channel_exists ch) eff).
Proof. apply remote_rest. unfold has_channel. intros g. by rewrite bool_decide_eq_true. Qed.

(** Statements and commands of the instance have the outcomes the laws state. *)
Lemma remote_stateful {A S} (get : View -> S) (put : S -> View -> View)
    (f : World -> S -> result error (A * S)) (w : World)
    (g := fun w => match f w (get (w_view w)) with
                   | Ok (a, s) => Ok (a, put s (w_view w)) | Err e => Err e end) :
  (exists w1 a s, f w1 (get (w_view w)) = Ok (a, s) /\ (remote g w).1 = Ok a /\
                  w_view (remote g w).2 = put s (w_view w)) \/
  (exists w1 e, f w1 (get (w_view w)) = Err e /\ (remote g w).1 = Err e /\
                w_view (remote g w).2 = w_view w) \/
  (exists e, opaque e /\ (remote g w).1 = Err e /\
     (w_view (remote g w).2 = w_view w \/
      exists w1 a s, f w1 (get (w_view w)) = Ok (a, s) /\ w_view (remote g w).2 = put s (w_view w))).
Proof.
  destruct (remote_outcome g w) as [H|[H|H]]; destruct H as [x H]; unfold g in H at 1.
  - destruct H as (a & v & Hw & Hf & Hr & Hv). left. exists x. rewrite Hw in Hf.
    destruct (f x (get (w_view w))) as [[a' s]|]; simplify_eq. eauto.
  - destruct H as (e & Hw & Hf & Hr & Hv). right; left. exists x, e. rewrite Hw in Hf.
    destruct (f x (get (w_view w))) as [[a' s]|]; simplify_eq. eauto.
  - right; right. exists x. destruct H as (Ho & Hr & H). split; [done|]. split; [exact Hr|].
    destruct H as [Hv|(w1 & a & v & Hw & Hf & Hv)]; [by left|right]. exists w1. unfold g in Hf.
    rewrite Hw in Hf.
    destruct (f w1 (get (w_view w))) as [[a' s]|]; simplify_eq. eauto.
Qed.

Ltac inv_ok Hf :=
  first [discriminate Hf | injection Hf as <- <- | injection Hf as <-].

Lemma existsb_no_id t q :
  existsb (fun t' => bool_decide (tk_TaskID t' = tk_TaskID t) && bool_decide (is_Some (tk_TaskID t))) q = false ->
  forall t', t' ∈ q -> ~ same_id t t'.
Proof.
  intros He t' Ht' (id & H1 & H2). apply not_true_iff_false in He. apply He.
  apply existsb_exists. exists t'. split; [by apply list_elem_of_In|].
  by rewrite H1, H2, !bool_decide_eq_true_2 by eauto.
Qed.

(** The three outcomes of a remote call, its [Spec] unfolded. *)
Ltac remote_cases :=
  match goal with |- context [remote ?f ?w] =>
    destruct (remote_outcome f w) as [(x & a & v & Hw & Hf & Hr & Hv)|[(x & e & Hw & Hf & Hr & Hv)|
                                      (x & Ho & Hr & [Hv|(w1 & a & v & Hw & Hf & Hv)])]]
  end.

Lemma remote_create g name parent ows :
  Spec w_view (dg_GuildChannelCreateComplex g name parent ows) (fun v r v' =>
    (exists id, r = Ok id /\ id <> ""%string /\ g_overwrites (v_guild v) !! id = None /\
                v' = with_guild (channel_create id ows (v_guild v)) v) \/
    (exists e, opaque e /\ r = Err e /\
       (v' = v \/ exists id, g_overwrites (v_guild v) !! id = None /\
                    v' = with_guild (channel_create id ows (v_guild v)) v))).
Proof.
  intros w. cbn [dg_GuildChannelCreateComplex env_world]. remote_cases;
    try rewrite Hw in Hf; try (unfold with_snowflake in Hf; case_decide; inv_ok Hf).
  - left. eexists. split; [exact Hr|]. split; [done|]. split; [done|exact Hv].
  - right. eexists. split; [apply opaque_External|]. eauto.
  - right. exists x. auto.
  - right. exists x. split; [done|]. split; [exact Hr|]. right. eexists. split; [done|exact Hv].
Qed.

Lemma remote_channel ch : Spec w_view (dg_Channel ch) (fun v r v' =>
  v' = v /\
  ((exists ows, r = Ok ows /\ channel_exists ch (v_guild v) /\
      (forall ow, ow ∈ ows <-> overwrites_of ch (v_guild v) !! ow_ID ow = Some ow)) \/
   (exists e, opaque e /\ r = Err e))).
Proof.
  intros w. cbn [dg_Channel env_world]. remote_cases;
    try rewrite Hw in Hf; try (unfold has_channel in Hf; case_bool_decide as Hc; inv_ok Hf); (split; [exact Hv|]); [left|right..].
  - eexists. split; [exact Hr|]. split; [exact Hc|]. intros ow. rewrite list_elem_of_filter. split; [tauto|].
    intros Ho. split; [done|]. apply list_elem_of_fmap. exists (ow_ID ow, ow).
    split; [done|]. by apply elem_of_map_to_list.
  - eexists. split; [apply opaque_404|exact Hr].
  - by exists x.
  - by exists x.
Qed.

Lemma remote_send ch content : Spec w_view (dg_ChannelMessageSendComplex ch content) (fun v r v' =>
  (exists id, r = Ok id /\ default ∅ (g_messages (v_guild v) !! ch) !! id = None /\
     v' = with_guild (message_put ch id content (v_guild v)) v) \/
  (exists e, opaque e /\ r = Err e /\
     (v' = v \/ exists id, v' = with_guild (message_put ch id content (v_guild v)) v))).
Proof.
  intros w. cbn [dg_ChannelMessageSendComplex env_world]. remote_cases;
    try rewrite Hw in Hf; try (unfold with_snowflake in Hf; case_decide; inv_ok Hf).
  - left. eexists. split; [exact Hr|]. split; [done|exact Hv].
  - right. eexists. split; [apply opaque_External|]. eauto.
  - right. exists x. auto.
  - right. exists x. split; [done|]. split; [exact Hr|]. right. eexists. exact Hv.
Qed.

Lemma remote_enqueue t : Spec w_view (asynq_Enqueue t) (fun v r v' =>
  (r = Ok tt /\ v' = with_queue (v_queue v ++ [t]) v /\ (forall t', t' ∈ v_queue v -> ~ same_id t t')) \/
  (r = Err ErrTaskIDConflict /\ v' = v /\ exists t', t' ∈ v_queue v /\ same_id t t') \/
  (r = Err ErrDuplicateTask /\ v' = v /\ is_Some (tk_Unique t) /\ exists t', t' ∈ v_queue v /\ same_work t t') \/
  (exists e, opaque e /\ r = Err e /\
     (v' = v \/ v' = with_queue (v_queue v ++ [t]) v /\ (forall t', t' ∈ v_queue v -> ~ same_id t t')))).
Proof.
  intros w. cbn [asynq_Enqueue env_world]. remote_cases; try rewrite Hw in Hf; try (destruct (existsb _ _) eqn:He; inv_ok Hf).
  - left. split; [exact Hr|]. split; [exact Hv|]. exact (existsb_no_id _ _ He).
  - right; left. split; [exact Hr|]. split; [exact Hv|].
    apply existsb_exists in He as (t' & Ht' & He). exists t'.
    split; [by apply list_elem_of_In|]. apply andb_prop in He as [H1 H2].
    apply bool_decide_eq_true in H1. apply bool_decide_eq_true in H2 as [id H2].
    exists id. by rewrite <-H2.
  - right; right; right. exists x. auto.
  - right; right; right. exists x. split; [done|]. split; [exact Hr|]. right. split; [exact Hv|].
    exact (existsb_no_id _ _ He).
Qed.

Lemma remote_rand n : Spec w_view (rand_Read n) (fun v r v' =>
  v' = v /\ ((exists bs, r = Ok bs /\ length bs = n) \/ (exists e, opaque e /\ r = Err e))).
Proof.
  intros w. cbn [rand_Read env_world]. remote_cases; try rewrite Hw in Hf; try inv_ok Hf.
  - split; [exact Hv|]. left. eexists. split; [exact Hr|]. by rewrite length_replicate.
  - split; [exact Hv|]. right. by exists x.
  - split; [exact Hv|]. right. by exists x.
Qed.

Lemma remote_pg A (q : sql A) : Spec w_view (pg_exec q) (pg_outcome (on_new_ids q)).
Proof.
  intros w. destruct (remote_stateful v_db with_db
    (fun w db => q (stamp w db) db) w) as [H|[H|H]].
  - destruct H as (w1 & a & s & H). rewrite <-on_stamp in H. left. eauto 6.
  - destruct H as (w1 & e & H). rewrite <-on_stamp in H. right; left. eauto 6.
  - destruct H as (e & Ho & Hr & H). right; right. exists e. split; [done|]. split; [done|].
    destruct H as [?|(w1 & a & s & H)]; [by left|right]. rewrite <-on_stamp in H. eauto 6.
Qed.
Lemma remote_redis A (q : redis A) : Spec w_view (redis_exec q) (redis_outcome q).
Proof.
  intros w. destruct (remote_stateful v_kv with_kv (fun w => q (w_clock w / Millisecond)) w) as [H|[H|H]].
  - destruct H as (w1 & a & s & H). left. eauto 6.
  - destruct H as (w1 & e & H). right; left. eauto 6.
  - destruct H as (e & Ho & Hr & H). right; right. exists e. split; [done|]. split; [done|].
    destruct H as [?|(w1 & a & s & H)]; [by left|right; eauto 6].
Qed.

#[export] Instance env_world_laws : EnvLaws env_world w_view.
Proof.
  constructor; try (intros; apply remote_rest_any); try (intros; apply remote_rest_channel); try done;
    auto using remote_pg, remote_redis, remote_create, remote_channel, remote_send, remote_enqueue, remote_rand.
Qed.

(** ** A small hub

    One merchant with a projected space [s1] on channel [c1]; collaborator [u1] (Discord [d1]) is
    a member whose overwrite is missing, [u2] (Discord [d2]) is not a member but has one. *)
Definition user_of (id : string) (ty : UserType) (d : option string) : User :=
  mkUser id ty false d None (Some id) None true 0 0.
Definition space_of (ch : option string) (acl : ACLState) : Space :=
  mkSpace "s1" "m1" ch (Some "cat"%string) "acme" SpaceLifecycleActive acl None None None 0 0 0 None.
Definition member_of (applied : bool) (revoked : option Z) : SpaceMember :=
  mkSpaceMember "sm1" "s1" "u1" SpaceMemberRoleCollaborator applied None 0 revoked.
Definition sample_DB (sp : Space) (sm : SpaceMember) : DB :=
  mkDB {["m1"%string := mkMerchant "m1" "ref" "Acme" None true 0 0]}
       {["u1"%string := user_of "u1" UserTypeCollaborator (Some "d1"%string);
         "u2"%string := user_of "u2" UserTypeCollaborator (Some "d2"%string)]}
       {["s1"%string := sp]} {["sm1"%string := sm]} ∅ ∅ ∅ ∅ ∅ [] 0.
Definition sample_Guild : Guild :=
  mkGuild {["c1"%string := {["everyone"%string := mkOverwrite "everyone" PermissionOverwriteTypeRole 0 1024;
                             "d2"%string := mkOverwrite "d2" PermissionOverwriteTypeMember 3072 0]};
            "cat"%string := ∅]} ∅ ∅ ∅ ∅ ∅ ∅.
Definition sample_View (sp : Space) (sm : SpaceMember) : View :=
  mkView (sample_DB sp sm) sample_Guild ∅ [] empty_Metrics.
Definition sample (script : list fault) : World :=
  world (sample_View (space_of (Some "c1"%string) ACLStateApplied) (member_of false None)) script.

(** The in-memory services answer at the time of their clock. *)
Lemma remote_ext {A} (f g : World -> result error (A * View)) w :
  (forall w', w_clock w' = w_clock w -> f w' = g w') -> remote f w = remote g w.
Proof.
  intros Hfg. unfold remote. destruct (next_fault w) as [flt w1] eqn:Hn.
  assert (w_clock w1 = w_clock w) as Hc.
  { unfold next_fault in Hn. by destruct (w_script w); injection Hn as _ <-. }
  by rewrite Hfg.
Qed.
Lemma world_pg_before T w : w_clock w < T -> pg_before T w.
Proof. intros Hc A q q' Hq. cbn. apply remote_ext. intros w' Hw'. by rewrite Hq by (cbn; lia). Qed.
Lemma world_redis_before T w : w_clock w / Millisecond < T -> redis_before T w.
Proof. intros Hc A q q' Hq. cbn. apply remote_ext. intros w' Hw'. by rewrite Hq by (rewrite Hw'; lia). Qed.
