(* ===== verification/Postgres.v ===== *)
(** * Postgres: the store of internal/store/postgres

    Every method of [Store] as the statement it runs, the mapping of its errors and the scan of
    its answer, followed by what each method promises to its callers. *)
From S2P Require Import Prelude Errors Domain Schema Services.

Section Store.
  Context {W : Type} {E : Env W}.

(** pgx's [QueryRow(...).Scan]: no row is [ErrNoRows]. *)
Definition QueryRow {A} (q : sql (option A)) : M W (result error A) :=
  r <- pg_exec q ;;
  ret (match r with
       | Ok (Some a) => Ok a
       | Ok None => Err ErrNoRows
       | Err e => Err e
       end).

(** The common shape of the [scanX] functions. *)
Definition scan_row {A} (what : string) (r : result error A) : result error A :=
  match r with
  | Ok a => Ok a
  | Err e => if errors_Is e ErrNoRows then Err ErrNotFound else Err (Wrap what e)
  end.

(** [scanMerchant], internal/store/postgres/postgres.go:139-152. *)
Definition scanMerchant (r : result error Merchant) : result error Merchant :=
  scan_row "postgres: scan merchant: " r.
(** [scanUser], internal/store/postgres/postgres.go:273-288. *)
Definition scanUser (r : result error User) : result error User :=
  scan_row "postgres: scan user: " r.
(** [scanAPIKey], internal/store/postgres/postgres.go:368-383. *)
Definition scanAPIKey (r : result error APIKey) : result error APIKey :=
  scan_row "postgres: scan api_key: " r.
(** [scanOAuthToken], internal/store/postgres/postgres.go:425-443. *)
Definition scanOAuthToken (r : result error OAuthToken) : result error OAuthToken :=
  scan_row "postgres: scan oauth_token: " r.
(** [scanSpace], internal/store/postgres/postgres.go:516-530. *)
Definition scanSpace (r : result error Space) : result error Space :=
  scan_row "postgres: scan space: " r.
(** [scanJob], internal/store/postgres/postgres.go:579-600. *)
Definition scanJob (r : result error Job) : result error Job :=
  scan_row "postgres: scan job: " r.
(** [scanIdempotencyKey], internal/store/postgres/postgres.go:652-671. *)
Definition scanIdempotencyKey (r : result error IdempotencyKey) : result error IdempotencyKey :=
  scan_row "postgres: scan idempotency_key: " r.
(** [scanSpaceMember], internal/store/postgres/postgres.go:983-996. *)
Definition scanSpaceMember (r : result error SpaceMember) : result error SpaceMember :=
  scan_row "postgres: scan space_member: " r.

(** [errors.As(err, &pgErr) && pgErr.Code == pgUniqueViolation] becomes [store.ErrConflict]. *)
Definition conflict {A} (r : result error A) : result error A :=
  match r with
  | Ok a => Ok a
  | Err e => Err (if bool_decide (As_PgError e = Some pgUniqueViolation) then ErrConflict else e)
  end.

(** [pool.Exec]/[pool.Query] with the error wrapped. *)
Definition exec_wrapped {A} (what : string) (q : sql A) : M W (result error A) :=
  r <- pg_exec q ;;
  ret (match r with Ok a => Ok a | Err e => Err (Wrap what e) end).

Definition page_limit (limit : Z) : Z := if limit <=? 0 then 50 else limit.

(** ** Merchants *)

(** [CreateMerchant], internal/store/postgres/postgres.go:64-79. *)
Definition CreateMerchant (p : CreateMerchantParams) : M W (result error Merchant) :=
  row <- QueryRow (sql_insert_merchant p) ;; ret (conflict (scanMerchant row)).

(** [GetMerchantByID], internal/store/postgres/postgres.go:82-87. *)
Definition GetMerchantByID (id : string) : M W (result error Merchant) :=
  row <- QueryRow (sql_read (fun db => t_merchants db !! id)) ;; ret (scanMerchant row).

(** [GetMerchantByExternalRef], internal/store/postgres/postgres.go:91-96. *)
Definition GetMerchantByExternalRef (ref : string) : M W (result error Merchant) :=
  row <- QueryRow (sql_read (fun db =>
           head (rows_where (t_merchants db) (fun m => bool_decide (m_ExternalRef m = ref))))) ;;
  ret (scanMerchant row).

(** A text cursor compared with [created_at]: text that is no timestamp is an SQL error. *)
Definition after_cursor {A} (cursor : option string) (created : A -> Z) (k : (A -> bool) -> sql (list A))
    : sql (list A) :=
  match cursor with
  | None => k (fun _ => true)
  | Some c => match pg_timestamptz c with
              | Some t => k (fun a => t <? created a)
              | None => fun _ _ => Err (PgError "22007")
              end
  end.

(** [ListMerchants], internal/store/postgres/postgres.go:100-137. *)
Definition ListMerchants (p : ListMerchantsParams) : M W (result error (list Merchant)) :=
  let limit := page_limit (lmp_Limit p) in
  exec_wrapped "postgres: list merchants: "
    (after_cursor (lmp_Cursor p) m_CreatedAt (fun newer =>
       sql_read (fun db => take (Z.to_nat limit) (order_by_created m_CreatedAt
         (rows_where (t_merchants db) (fun m =>
            match lmp_IsActive p with None => true | Some b => Bool.eqb (m_IsActive m) b end &&
            newer m)))))).

(** ** Users *)

(** [CreateUser], internal/store/postgres/postgres.go:158-174. *)
Definition CreateUser (p : CreateUserParams) : M W (result error User) :=
  row <- QueryRow (sql_insert_user p) ;; ret (conflict (scanUser row)).

(** [GetUserByID], internal/store/postgres/postgres.go:177-183. *)
Definition GetUserByID (id : string) : M W (result error User) :=
  row <- QueryRow (sql_read (fun db => t_users db !! id)) ;; ret (scanUser row).

(** [GetUserByDiscordID], internal/store/postgres/postgres.go:186-192. *)
Definition GetUserByDiscordID (d : string) : M W (result error User) :=
  row <- QueryRow (sql_read (fun db =>
           head (rows_where (t_users db) (fun u => bool_decide (u_DiscordUserID u = Some d))))) ;;
  ret (scanUser row).

(** [GetUserByEmail], internal/store/postgres/postgres.go:196-202. The column is citext and not unique. *)
Definition GetUserByEmail (email : string) : M W (result error User) :=
  row <- QueryRow (sql_read (fun db =>
           head (rows_where (t_users db) (fun u =>
             match u_Email u with Some e => citext_eq e email | None => false end)))) ;;
  ret (scanUser row).

(** [ListAgents], internal/store/postgres/postgres.go:205-229. *)
Definition ListAgents (includeInactive : bool) : M W (result error (list User)) :=
  exec_wrapped "postgres: list agents: " (sql_read (fun db =>
    order_by_created u_CreatedAt (rows_where (t_users db) (fun u =>
      bool_decide (u_Type u = UserTypeAgent) && (includeInactive || u_IsActive u))))).

(** [DeactivateUser], internal/store/postgres/postgres.go:232-239. *)
Definition DeactivateUser (id : string) : M W (result error User) :=
  row <- QueryRow (sql_update users_T id with_inactive) ;; ret (scanUser row).

(** [SetUserProvisionedAt], internal/store/postgres/postgres.go:242-249. *)
Definition SetUserProvisionedAt (id : string) : M W (result error User) :=
  row <- QueryRow (sql_update users_T id with_provisioned) ;; ret (scanUser row).

(** [UpdateDiscordUserID], internal/store/postgres/postgres.go:255-270. *)
Definition UpdateDiscordUserID (userID discordUserID : string) : M W (result error unit) :=
  tag <- pg_exec (sql_update_discord_user_id userID discordUserID) ;;
  ret (match tag with
       | Err e => if bool_decide (As_PgError e = Some pgUniqueViolation) then Err ErrConflict
                  else Err (Wrap "postgres: update discord_user_id: " e)
       | Ok n => if n =? 0 then Err ErrNotFound else Ok tt
       end).

(** ** API keys *)

(** [CreateAPIKey], internal/store/postgres/postgres.go:294-309. *)
Definition CreateAPIKey (p : CreateAPIKeyParams) : M W (result error APIKey) :=
  row <- QueryRow (sql_insert_api_key p) ;; ret (conflict (scanAPIKey row)).

(** [ListAPIKeys], internal/store/postgres/postgres.go:312-334. *)
Definition ListAPIKeys (activeOnly : bool) : M W (result error (list APIKey)) :=
  exec_wrapped "postgres: list api_keys: " (sql_read (fun db =>
    order_by_created ak_CreatedAt (rows_where (t_api_keys db) (fun k =>
      negb activeOnly || APIKey_IsActive k)))).

(** The row [LookupActiveAPIKeyByHash] selects, internal/store/postgres/postgres.go:338-341. *)
Definition active_key_by_hash (hash : string) (db : DB) : option APIKey :=
  head (rows_where (t_api_keys db) (fun k => bool_decide (ak_KeyHash k = hash) && APIKey_IsActive k)).

(** [LookupActiveAPIKeyByHash], internal/store/postgres/postgres.go:337-343. *)
Definition LookupActiveAPIKeyByHash (hash : string) : M W (result error APIKey) :=
  row <- QueryRow (sql_read (active_key_by_hash hash)) ;; ret (scanAPIKey row).

(** [RevokeAPIKey], internal/store/postgres/postgres.go:346-356. *)
Definition RevokeAPIKey (id : string) : M W (result error unit) :=
  tag <- pg_exec (sql_revoke_api_key id) ;;
  ret (match tag with
       | Err e => Err (Wrap "postgres: revoke api_key: " e)
       | Ok n => if n =? 0 then Err ErrNotFound else Ok tt
       end).

(** [TouchAPIKeyLastUsed], internal/store/postgres/postgres.go:359-366. *)
Definition TouchAPIKeyLastUsed (id : string) : M W (result error unit) :=
  r <-? exec_wrapped "postgres: touch api_key last_used: " (sql_update api_keys_T id with_key_used)
    onerr e => ret (Err e) ;;
  ret (Ok tt).

(** ** OAuth tokens *)

(** [UpsertOAuthToken], internal/store/postgres/postgres.go:388-413. *)
Definition UpsertOAuthToken (p : UpsertOAuthTokenParams) : M W (result error OAuthToken) :=
  row <- QueryRow (sql_upsert_oauth_token p) ;; ret (scanOAuthToken row).

(** The row [GetOAuthTokenByUserID] selects, internal/store/postgres/postgres.go:417-421. *)
Definition token_of_user (userID : string) (db : DB) : option OAuthToken :=
  head (rows_where (t_oauth_tokens db) (fun t => bool_decide (ot_UserID t = userID))).

(** [GetOAuthTokenByUserID], internal/store/postgres/postgres.go:416-423. *)
Definition GetOAuthTokenByUserID (userID : string) : M W (result error OAuthToken) :=
  row <- QueryRow (sql_read (token_of_user userID)) ;; ret (scanOAuthToken row).

(** ** Spaces *)

(** [CreateSpace], internal/store/postgres/postgres.go:448-466. *)
Definition CreateSpace (p : CreateSpaceParams) : M W (result error Space) :=
  row <- QueryRow (sql_insert_space 0 p) ;; ret (conflict (scanSpace row)).

(** [GetSpaceByID], internal/store/postgres/postgres.go:469-476. *)
Definition GetSpaceByID (id : string) : M W (result error Space) :=
  row <- QueryRow (sql_read (fun db => t_spaces db !! id)) ;; ret (scanSpace row).

(** [GetSpaceByMerchantID], internal/store/postgres/postgres.go:479-486. *)
Definition GetSpaceByMerchantID (merchantID : string) : M W (result error Space) :=
  row <- QueryRow (sql_read (fun db =>
           head (rows_where (t_spaces db) (fun s => bool_decide (sp_MerchantID s = merchantID))))) ;;
  ret (scanSpace row).

(** [UpdateSpaceDiscordChannel], internal/store/postgres/postgres.go:489-501. *)
Definition UpdateSpaceDiscordChannel (p : UpdateSpaceDiscordChannelParams) : M W (result error Space) :=
  row <- QueryRow (sql_update_space_channel p) ;; ret (scanSpace row).

(** [UpdateSpaceACLState], internal/store/postgres/postgres.go:504-514. *)
Definition UpdateSpaceACLState (spaceID : string) (state : ACLState) : M W (result error Space) :=
  row <- QueryRow (sql_update spaces_T spaceID (with_acl state)) ;; ret (scanSpace row).

(** [ListSpaces], internal/store/postgres/postgres.go:695-739. *)
Definition ListSpaces (p : ListSpacesParams) : M W (result error (list Space)) :=
  let limit := page_limit (lsp_Limit p) in
  exec_wrapped "postgres: list spaces: "
    (after_cursor (lsp_Cursor p) sp_CreatedAt (fun newer =>
       sql_read (fun db => take (Z.to_nat limit) (order_by_created sp_CreatedAt
         (rows_where (t_spaces db) (fun s =>
            match lsp_LifecycleState p with
            | None => true | Some lc => bool_decide (sp_LifecycleState s = lc) end &&
            match lsp_MerchantID p with
            | None => true | Some m => bool_decide (sp_MerchantID s = m) end &&
            newer s)))))).

(** [UpdateSpaceReconciledAt], internal/store/postgres/postgres.go:1059-1066. *)
Definition UpdateSpaceReconciledAt (spaceID : string) : M W (result error unit) :=
  r <-? exec_wrapped "postgres: update space reconciled_at: " (sql_update spaces_T spaceID with_reconciled)
    onerr e => ret (Err e) ;;
  ret (Ok tt).

(** [UpdateSpaceLifecycle], internal/store/postgres/postgres.go:1074-1091. *)
Definition UpdateSpaceLifecycle (p : UpdateSpaceLifecycleParams) : M W (result error Space) :=
  row <- QueryRow (sql_update_space_lifecycle p) ;; ret (scanSpace row).

(** [UpdateSpaceWelcomeMessageID], internal/store/postgres/postgres.go:1094-1104. *)
Definition UpdateSpaceWelcomeMessageID (spaceID messageID : string) : M W (result error Space) :=
  row <- QueryRow (sql_update spaces_T spaceID (with_welcome messageID)) ;; ret (scanSpace row).

(** The rows [ListActiveProvisionedSpaces] selects, internal/store/postgres/postgres.go:1209-1217. *)
Definition provisioned_spaces (db : DB) : list Space :=
  order_by_created sp_CreatedAt (rows_where (t_spaces db) (fun s =>
    bool_decide (sp_LifecycleState s = SpaceLifecycleActive) &&
    bool_decide (is_Some (sp_DiscordChannelID s)))).

(** [ListActiveProvisionedSpaces], internal/store/postgres/postgres.go:1208-1231. *)
Definition ListActiveProvisionedSpaces : M W (result error (list Space)) :=
  exec_wrapped "postgres: list active provisioned spaces: " (sql_read provisioned_spaces).

(** ** Jobs *)

(** [CreateJob], internal/store/postgres/postgres.go:535-548. *)
Definition CreateJob (p : CreateJobParams) : M W (result error Job) :=
  row <- QueryRow (sql_insert_job p) ;; ret (scanJob row).

(** [GetJobByID], internal/store/postgres/postgres.go:551-557. *)
Definition GetJobByID (id : string) : M W (result error Job) :=
  row <- QueryRow (sql_read (fun db => t_jobs db !! id)) ;; ret (scanJob row).

(** [UpdateJobStatus], internal/store/postgres/postgres.go:560-577. *)
Definition UpdateJobStatus (p : UpdateJobStatusParams) : M W (result error Job) :=
  row <- QueryRow (sql_update jobs_T (ujs_JobID p) (with_job_status p)) ;; ret (scanJob row).

(** [GetJobBySpaceIDAndKind], internal/store/postgres/postgres.go:1195-1204. *)
Definition GetJobBySpaceIDAndKind (spaceID kind : string) : M W (result error Job) :=
  row <- QueryRow (sql_read (job_by_space_kind spaceID kind)) ;; ret (scanJob row).

(** ** Idempotency keys *)

(** [InsertIdempotencyKey], internal/store/postgres/postgres.go:606-622. *)
Definition InsertIdempotencyKey (p : InsertIdempotencyKeyParams) : M W (result error IdempotencyKey) :=
  row <- QueryRow (sql_insert_idempotency_key p) ;; ret (conflict (scanIdempotencyKey row)).

(** [GetIdempotencyKey], internal/store/postgres/postgres.go:626-632. *)
Definition GetIdempotencyKey (key : string) : M W (result error IdempotencyKey) :=
  row <- QueryRow (sql_get_idempotency_key key) ;; ret (scanIdempotencyKey row).

(** [UpdateIdempotencyKeyResponse], internal/store/postgres/postgres.go:635-650. *)
Definition UpdateIdempotencyKeyResponse (p : UpdateIdempotencyKeyResponseParams)
    : M W (result error unit) :=
  exec_wrapped "postgres: update idempotency key response: " (sql_update_idempotency_key p).

(** ** Outbox *)

(** [CreateSpaceWithOutbox], internal/store/postgres/postgres.go:747-796. Begin, both statements and
    Commit; a failure of Begin or Commit is the failure of the transaction. *)
Definition CreateSpaceWithOutbox (sp : CreateSpaceParams) (ob : CreateOutboxParams)
    : M W (result error (Space * OutboxRow)) :=
  pg_exec (sql_create_space_with_outbox sp ob).

(** [ListPendingOutbox], internal/store/postgres/postgres.go:799-820. *)
Definition ListPendingOutbox (limit : Z) : M W (result error (list OutboxRow)) :=
  exec_wrapped "postgres: list pending outbox: " (sql_read (pending_outbox limit)).

(** [UpdateOutboxPayload], internal/store/postgres/postgres.go:825-843. *)
Definition UpdateOutboxPayload (idempotencyKey : string) (payload : payload_map)
    : M W (result error unit) :=
  exec_wrapped "postgres: update outbox payload: " (sql_update_outbox_payload idempotencyKey payload).

(** [StampOutboxEnqueued], internal/store/postgres/postgres.go:846-858. *)
Definition StampOutboxEnqueued (ids : list string) : M W (result error unit) :=
  match ids with
  | [] => ret (Ok tt)
  | _ => exec_wrapped "postgres: stamp outbox enqueued: " (sql_stamp_outbox ids)
  end.

(** ** Audit log *)

(** [InsertAuditEntry], internal/store/postgres/postgres.go:677-691. *)
Definition InsertAuditEntry (p : InsertAuditEntryParams) : M W (result error unit) :=
  exec_wrapped "postgres: insert audit entry: " (sql_insert_audit p).

(** The rows of one page of the audit log: newest first, [id < cursor];
    [ListAuditEntries], internal/store/postgres/postgres.go:1113-1147. *)
Definition audit_page (p : ListAuditEntriesParams) (newer : AuditEntry -> bool) (db : DB)
    : list AuditEntry :=
  take (Z.to_nat (page_limit (lap_Limit p))) (filter (fun e =>
    match lap_MerchantID p with None => true | Some m => bool_decide (ae_MerchantID e = Some m) end &&
    match lap_SpaceID p with None => true | Some s => bool_decide (ae_SpaceID e = Some s) end &&
    match lap_Action p with None => true | Some a => bool_decide (ae_Action e = a) end &&
    match lap_Cursor p with None => true | Some c => ae_ID e <? c end &&
    newer e = true) (t_audit_log db)).

(** [ListAuditEntries], internal/store/postgres/postgres.go:1109-1161. *)
Definition ListAuditEntries (p : ListAuditEntriesParams) : M W (result error (list AuditEntry)) :=
  exec_wrapped "postgres: list audit entries: "
    (after_cursor (lap_Since p) ae_CreatedAt (fun newer => sql_read (audit_page p newer))).

(** ** Space members *)

(** [CreateSpaceMember], internal/store/postgres/postgres.go:885-901. *)
Definition CreateSpaceMember (p : CreateSpaceMemberParams) : M W (result error SpaceMember) :=
  row <- QueryRow (sql_insert_space_member p) ;; ret (conflict (scanSpaceMember row)).

(** [GetSpaceMemberBySpaceAndUser], internal/store/postgres/postgres.go:904-909. *)
Definition GetSpaceMemberBySpaceAndUser (spaceID userID : string) : M W (result error SpaceMember) :=
  row <- QueryRow (sql_read (member_by_space_user spaceID userID)) ;; ret (scanSpaceMember row).

(** [SetSpaceMemberOverwriteApplied], internal/store/postgres/postgres.go:912-918. *)
Definition SetSpaceMemberOverwriteApplied (id : string) : M W (result error SpaceMember) :=
  row <- QueryRow (sql_update space_members_T id with_overwrite_applied) ;; ret (scanSpaceMember row).

(** [RevokeSpaceMember], internal/store/postgres/postgres.go:921-927. *)
Definition RevokeSpaceMember (id : string) : M W (result error SpaceMember) :=
  row <- QueryRow (sql_update space_members_T id with_revoked) ;; ret (scanSpaceMember row).

(** [ListSpaceMembers], internal/store/postgres/postgres.go:930-941. *)
Definition ListSpaceMembers (spaceID : string) : M W (result error (list SpaceMember)) :=
  exec_wrapped "postgres: list space_members: "
    (sql_read (fun db => order_by_created sm_CreatedAt (active_members spaceID db))).

(** [ListCollaboratorChannels], internal/store/postgres/postgres.go:944-955. *)
Definition ListCollaboratorChannels (userID : string) : M W (result error (list SpaceMember)) :=
  exec_wrapped "postgres: list collaborator channels: "
    (sql_read (fun db => order_by_created sm_CreatedAt (rows_where (t_space_members db)
       (fun s => bool_decide (sm_UserID s = userID) && member_active s)))).

(** [ListActiveSpaceMembers], internal/store/postgres/postgres.go:959-969. *)
Definition ListActiveSpaceMembers (spaceID : string) : M W (result error (list SpaceMember)) :=
  exec_wrapped "postgres: list active space_members: " (sql_read (active_members spaceID)).

(** ** Directory *)

(** The joined row of a membership: absent when a join partner is missing. *)
Definition directory_entry (db : DB) (s : SpaceMember) : option DirectoryEntry :=
  match t_spaces db !! sm_SpaceID s, t_users db !! sm_UserID s with
  | Some sp, Some u =>
      match t_merchants db !! sp_MerchantID sp with
      | Some m => Some (mkDirectoryEntry (sm_SpaceID s) (sp_Name sp) (sp_MerchantID sp) (m_Name m)
                          (sm_UserID s) (u_DisplayName u) (u_Type u))
      | None => None
      end
  | _, _ => None
  end.

(** [ListDirectory], internal/store/postgres/postgres.go:1001-1056. *)
Definition ListDirectory (p : ListDirectoryParams) : M W (result error (list DirectoryEntry)) :=
  let limit := page_limit (ldp_Limit p) in
  r <- pg_exec (fun st db =>
         match after_cursor (ldp_Cursor p) sm_CreatedAt (fun newer =>
           sql_read (fun db => order_by_created sm_CreatedAt
             (rows_where (t_space_members db) (fun s =>
                member_active s &&
                opt_eqb (ldp_UserID p) (sm_UserID s) && opt_eqb (ldp_SpaceID p) (sm_SpaceID s) &&
                match directory_entry db s with
                | Some e => opt_eqb (ldp_MerchantID p) (de_MerchantID e)
                | None => false
                end && newer s)))) st db with
         | Ok (members, db') => Ok (take (Z.to_nat limit) (omap (directory_entry db) members), db')
         | Err e => Err e
         end) ;;
  ret (match r with Ok es => Ok es | Err e => Err (Wrap "postgres: list directory: " e) end).

(** [Ping], internal/store/postgres/postgres.go:56-58. *)
Definition Ping : M W (result error unit) := pg_exec (sql_ret tt).

End Store.
