(* ===== verification/StoreSpec.v ===== *)
(** * StoreSpec: what the store promises to the components that call it

    Each method is related to the tables before and after it. The relations are the instances of
    [Spec] the proofs about the handlers step with. *)
From S2P Require Import Prelude Errors Domain Schema Services Postgres.

(** A query for one row. *)
Definition get_outcome {A} (f : DB -> option A) (v : View) (r : result error A) (v' : View) : Prop :=
  v' = v /\
  ((exists a, r = Ok a /\ f (v_db v) = Some a) \/
   (r = Err ErrNotFound /\ f (v_db v) = None) \/
   (exists e, opaque e /\ r = Err e)).

(** A query for many rows. *)
Definition list_outcome {A} (f : DB -> A) (v : View) (r : result error A) (v' : View) : Prop :=
  v' = v /\ (r = Ok (f (v_db v)) \/ exists e, opaque e /\ r = Err e).

(** An update of one row by primary key. *)
Definition update_outcome {A} (T : Table A) (id : string) (f : Z -> A -> A)
    (v : View) (r : result error A) (v' : View) : Prop :=
  (exists now a, tget T (v_db v) !! id = Some a /\ r = Ok (f now a) /\
     v' = with_db (tset T (<[id := f now a]> (tget T (v_db v))) (v_db v)) v) \/
  (r = Err ErrNotFound /\ tget T (v_db v) !! id = None /\ v' = v) \/
  (exists e, opaque e /\ r = Err e /\
     (v' = v \/
      exists now a, tget T (v_db v) !! id = Some a /\
        v' = with_db (tset T (<[id := f now a]> (tget T (v_db v))) (v_db v)) v)).

(** Appending to the audit log: nothing else changes, whatever the answer. *)
Definition audit_outcome (p : InsertAuditEntryParams) (v : View) (r : result error unit) (v' : View) : Prop :=
  (v' = v \/
   exists now, let n := t_audit_seq (v_db v) + 1 in
     v' = with_db (set_audit (mkAuditEntry n (iae_ActorAPIKeyID p) (iae_ActorUserID p)
            (iae_Action p) (iae_MerchantID p) (iae_SpaceID p) (iae_TargetUserID p) (iae_Scope p)
            (iae_Detail p) now :: t_audit_log (v_db v)) n (v_db v)) v) /\
  (r = Ok tt -> v' <> v).

Lemma with_db_same v : with_db (v_db v) v = v.
Proof. by destruct v. Qed.

Lemma opaque_not_unique e : opaque e -> bool_decide (As_PgError e = Some pgUniqueViolation) = false.
Proof. intros (_ & _ & _ & _ & _ & _ & _ & _ & ->). done. Qed.

(** Scanning the row of an infrastructure failure. *)
Lemma scan_row_opaque {A} what (e : error) :
  opaque e -> exists e', opaque e' /\ scan_row (A := A) what (Err e) = Err e'.
Proof.
  intros He. exists (Wrap what e). split; [by apply opaque_Wrap|]. unfold scan_row.
  destruct He as (_ & _ & _ & -> & _). done.
Qed.

Lemma conflict_opaque {A} (e : error) : opaque e -> conflict (A := A) (Err e) = Err e.
Proof. intros He. unfold conflict. by rewrite opaque_not_unique. Qed.

Section Specs.
Context {W : Type} {E : Env W} {view : W -> View} {L : EnvLaws E view}.

(** Calls are a statement followed by a pure treatment of its outcome. *)
Lemma spec_pg {A B} (q : sql A) (k : result error A -> B) (R : View -> B -> View -> Prop) :
  (forall v r v', pg_outcome q v r v' -> R v (k r) v') ->
  Spec view (r <- pg_exec q ;; ret (k r)) R.
Proof. intros HR w. apply HR, pg_exec_law. Qed.

Lemma spec_query {A B} (q : sql (option A)) (k : result error A -> B)
    (R : View -> B -> View -> Prop) :
  (forall v r v', pg_outcome q v r v' ->
     R v (k (match r with Ok (Some a) => Ok a | Ok None => Err ErrNoRows | Err e => Err e end)) v') ->
  Spec view (row <- QueryRow q ;; ret (k row)) R.
Proof. intros HR w. apply HR, pg_exec_law. Qed.

(** The same when the ids the statement may draw are new. *)
Lemma spec_query_new {A B} (q : sql (option A)) (k : result error A -> B)
    (R : View -> B -> View -> Prop) :
  (forall v r v', pg_outcome (on_new_ids q) v r v' ->
     R v (k (match r with Ok (Some a) => Ok a | Ok None => Err ErrNoRows | Err e => Err e end)) v') ->
  Spec view (row <- QueryRow q ;; ret (k row)) R.
Proof. intros HR w. apply HR, pg_exec_new_law. Qed.

Lemma spec_get {A} (f : DB -> option A) what :
  Spec view (row <- QueryRow (sql_read f) ;; ret (scan_row what row)) (get_outcome f).
Proof.
  apply spec_query. intros v r v' [H|[H|H]]; unfold sql_read, get_outcome in *.
  - destruct H as (st & a & db' & Hq & -> & ->). simplify_eq. rewrite with_db_same.
    split; [done|]. destruct (f (v_db v)) as [a|]; [by eauto|by auto].
  - by destruct H as (st & e & Hq & _).
  - destruct H as (e & He & -> & Hv). split.
    + destruct Hv as [->|(st & a & db' & Hq & ->)]; [done|]. simplify_eq. apply with_db_same.
    + right; right. by destruct (scan_row_opaque (A := A) what e He) as (e' & He' & ->); eauto.
Qed.

Lemma spec_list {A} (f : DB -> A) what :
  Spec view (exec_wrapped what (sql_read f)) (list_outcome f).
Proof.
  apply spec_pg. intros v r v' [H|[H|H]]; unfold sql_read, list_outcome in *.
  - destruct H as (st & a & db' & Hq & -> & ->). simplify_eq. rewrite with_db_same. by auto.
  - by destruct H as (st & e & Hq & _).
  - destruct H as (e & He & -> & Hv). split; [|eauto with errors].
    destruct Hv as [->|(st & a & db' & Hq & ->)]; [done|]. simplify_eq. apply with_db_same.
Qed.

Lemma spec_update {A} (T : Table A) id f what :
  Spec view (row <- QueryRow (sql_update T id f) ;; ret (scan_row what row)) (update_outcome T id f).
Proof.
  apply spec_query. intros v r v' [H|[H|H]]; unfold sql_update, update_outcome in *.
  - destruct H as (st & a & db' & Hq & -> & ->).
    destruct (tget T (v_db v) !! id) as [x|] eqn:Hx; simplify_eq.
    + left. by exists (st_now st), x.
    + right; left. by rewrite with_db_same.
  - destruct H as (st & e & Hq & _). by destruct (tget T (v_db v) !! id).
  - destruct H as (e & He & -> & Hv).
    destruct (scan_row_opaque (A := A) what e He) as (e' & He' & ->).
    right; right. exists e'. split; [done|]. split; [done|].
    destruct Hv as [->|(st & a & db' & Hq & ->)]; [by left|].
    destruct (tget T (v_db v) !! id) as [x|] eqn:Hx; simplify_eq.
    + right. by exists (st_now st), x.
    + left. apply with_db_same.
Qed.

#[export] Instance GetSpaceByID_spec id :
  Spec view (GetSpaceByID id) (get_outcome (fun db => t_spaces db !! id)).
Proof. apply spec_get. Qed.
#[export] Instance GetUserByID_spec id :
  Spec view (GetUserByID id) (get_outcome (fun db => t_users db !! id)).
Proof. apply spec_get. Qed.
#[export] Instance GetMerchantByID_spec id :
  Spec view (GetMerchantByID id) (get_outcome (fun db => t_merchants db !! id)).
Proof. apply spec_get. Qed.
#[export] Instance GetJobByID_spec id :
  Spec view (GetJobByID id) (get_outcome (fun db => t_jobs db !! id)).
Proof. apply spec_get. Qed.
#[export] Instance GetSpaceMemberBySpaceAndUser_spec s u :
  Spec view (GetSpaceMemberBySpaceAndUser s u) (get_outcome (member_by_space_user s u)).
Proof. apply spec_get. Qed.
#[export] Instance GetJobBySpaceIDAndKind_spec s k :
  Spec view (GetJobBySpaceIDAndKind s k) (get_outcome (job_by_space_kind s k)).
Proof. apply spec_get. Qed.
#[export] Instance GetOAuthTokenByUserID_spec u :
  Spec view (GetOAuthTokenByUserID u) (get_outcome (token_of_user u)).
Proof. apply spec_get. Qed.
#[export] Instance LookupActiveAPIKeyByHash_spec h :
  Spec view (LookupActiveAPIKeyByHash h) (get_outcome (active_key_by_hash h)).
Proof. apply spec_get. Qed.
#[export] Instance ListActiveSpaceMembers_spec s :
  Spec view (ListActiveSpaceMembers s) (list_outcome (active_members s)).
Proof. apply spec_list. Qed.
#[export] Instance ListActiveProvisionedSpaces_spec :
  Spec view ListActiveProvisionedSpaces (list_outcome provisioned_spaces).
Proof. apply spec_list. Qed.
#[export] Instance ListPendingOutbox_spec n :
  Spec view (ListPendingOutbox n) (list_outcome (pending_outbox n)).
Proof. apply spec_list. Qed.

#[export] Instance UpdateSpaceACLState_spec id st :
  Spec view (UpdateSpaceACLState id st) (update_outcome spaces_T id (with_acl st)).
Proof. apply spec_update. Qed.
#[export] Instance UpdateSpaceWelcomeMessageID_spec id m :
  Spec view (UpdateSpaceWelcomeMessageID id m) (update_outcome spaces_T id (with_welcome m)).
Proof. apply spec_update. Qed.
#[export] Instance UpdateJobStatus_spec p :
  Spec view (UpdateJobStatus p) (update_outcome jobs_T (ujs_JobID p) (with_job_status p)).
Proof. apply spec_update. Qed.
#[export] Instance SetSpaceMemberOverwriteApplied_spec id :
  Spec view (SetSpaceMemberOverwriteApplied id)
    (update_outcome space_members_T id with_overwrite_applied).
Proof. apply spec_update. Qed.
#[export] Instance RevokeSpaceMember_spec id :
  Spec view (RevokeSpaceMember id) (update_outcome space_members_T id with_revoked).
Proof. apply spec_update. Qed.
#[export] Instance SetUserProvisionedAt_spec id :
  Spec view (SetUserProvisionedAt id) (update_outcome users_T id with_provisioned).
Proof. apply spec_update. Qed.
#[export] Instance DeactivateUser_spec id :
  Spec view (DeactivateUser id) (update_outcome users_T id with_inactive).
Proof. apply spec_update. Qed.

(** The lifecycle of a space is never written: the statement fails, and the task may be retried. *)
#[export] Instance UpdateSpaceLifecycle_spec p :
  Spec view (UpdateSpaceLifecycle p) (fun v r v' =>
    v' = v /\ exists e, r = Err e /\ errors_Is e SkipRetry = false).
Proof.
  apply spec_query. intros v r v' H.
  assert (Hq : forall st db, sql_update_space_lifecycle p st db = Err (PgError pgAmbiguousParameter))
    by (intros; by apply prepared_refused).
  destruct H as [H|[H|H]].
  - destruct H as (st & a & db & Hx & _). by rewrite Hq in Hx.
  - destruct H as (st & e & Hx & -> & ->). rewrite Hq in Hx. injection Hx as <-. split; [done|]. eexists.
    split; [reflexivity|]. by vm_compute.
  - destruct H as (e & He & -> & Hv). split; [destruct Hv as [->|(st & a & db & Hx & _)]; [done|by rewrite Hq in Hx]|].
    destruct (scan_row_opaque (A := Space) "postgres: scan space: " e He) as (e' & He' & Hs).
    exists e'. split; [exact Hs|]. by eapply opaque_not_SkipRetry.
Qed.

(** An update run for its effect only. *)
Lemma spec_exec_update {A} (T : Table A) id f what :
  Spec view (exec_wrapped what (sql_update T id f)) (fun v r v' =>
    v' = v \/ exists now a, tget T (v_db v) !! id = Some a /\
      v' = with_db (tset T (<[id := f now a]> (tget T (v_db v))) (v_db v)) v).
Proof.
  apply spec_pg. unfold sql_update.
  assert (Hex : forall v st a db',
    match tget T (v_db v) !! id with
    | Some a => Ok (Some (f (st_now st) a), tset T (<[id:=f (st_now st) a]> (tget T (v_db v))) (v_db v))
    | None => Ok (None, v_db v) end = Ok (E := error) (a, db') ->
    with_db db' v = v \/ exists now a, tget T (v_db v) !! id = Some a /\
      with_db db' v = with_db (tset T (<[id := f now a]> (tget T (v_db v))) (v_db v)) v).
  { intros v st a db' Hq. destruct (tget T (v_db v) !! id) as [x|]; simplify_eq.
    - right. by exists (st_now st), x.
    - left. apply with_db_same. }
  intros v r v' [H|[H|H]].
  - destruct H as (st & a & db' & Hq & _ & ->). by apply Hex in Hq.
  - destruct H as (_ & _ & _ & _ & ->). by left.
  - destruct H as (e & _ & _ & [->|(st & a & db' & Hq & ->)]); [by left|]. by apply Hex in Hq.
Qed.

(** [reconciled_at] is stamped or nothing changes. *)
#[export] Instance UpdateSpaceReconciledAt_spec id :
  Spec view (UpdateSpaceReconciledAt id) (fun v r v' =>
    v' = v \/ exists now s, t_spaces (v_db v) !! id = Some s /\
      v' = with_db (set_spaces (<[id := with_reconciled now s]> (t_spaces (v_db v))) (v_db v)) v).
Proof.
  apply spec_of_wp. intros w. eapply wp_step; [apply spec_exec_update|].
  intros r w' H. by destruct r.
Qed.

#[export] Instance InsertAuditEntry_spec p :
  Spec view (InsertAuditEntry p) (audit_outcome p).
Proof.
  apply spec_pg. unfold audit_outcome, sql_insert_audit.
  assert (Hlen : forall v l n, length l <> length (t_audit_log (v_db v)) ->
            with_db (set_audit l n (v_db v)) v <> v).
  { intros v l n Hl Heq. apply (f_equal (fun v => length (t_audit_log (v_db v)))) in Heq. done. }
  intros v r v' [H|[H|H]].
  - destruct H as (st & a & db' & Hq & -> & ->). repeat case_match; simplify_eq.
    all: split; [right; by exists (st_now st)|intros _; apply Hlen; simpl; lia].
  - destruct H as (st & e & Hq & -> & ->). split; [by left|done].
  - destruct H as (e & He & -> & Hv). split; [|done].
    destruct Hv as [->|(st & a & db' & Hq & ->)]; [by left|]. right. exists (st_now st).
    repeat case_match; by simplify_eq.
Qed.
End Specs.
