(* ===== verification/Discord.v ===== *)
(** * Discord: the discordgo-backed client of internal/discord

    Every method of [Session] as the REST call it makes and the error it wraps. The permission
    overwrites it writes are the values the isolation properties speak about. *)
From S2P Require Import Prelude Errors Domain Schema Services.

Section Session.
  Context {W : Type} {E : Env W}.

(** [if err := call; err != nil { return fmt.Errorf("what%w", err) }; return nil]. *)
Definition wrapped {A} (what : string) (m : M W (result error A)) : M W (result error A) :=
  r <- m ;; ret (match r with Ok a => Ok a | Err e => Err (Wrap what e) end).

(** The bits a collaborator is granted, internal/discord/discord.go:219, and an archived channel denies (line 279). *)
Definition VIEW_SEND : Z := Z.lor PermissionViewChannel PermissionSendMessages.

(** The overwrites the session writes: in [CreateChannelDenied], internal/discord/discord.go:183-189; *)
Definition everyone_deny (everyoneRoleID : string) : PermissionOverwrite :=
  mkOverwrite everyoneRoleID PermissionOverwriteTypeRole 0 PermissionViewChannel.
(** in [ApplyCategoryAgentAllow], internal/discord/discord.go:203-209; *)
Definition agent_allow (agentRoleID : string) : PermissionOverwrite :=
  mkOverwrite agentRoleID PermissionOverwriteTypeRole PermissionViewChannel 0.
(** in [SetCollaboratorOverwrite], internal/discord/discord.go:219-226; *)
Definition collaborator_allow (discordUserID : string) : PermissionOverwrite :=
  mkOverwrite discordUserID PermissionOverwriteTypeMember VIEW_SEND 0.
(** in [ArchiveChannel], internal/discord/discord.go:279-286. *)
Definition archive_deny (everyoneRoleID : string) : PermissionOverwrite :=
  mkOverwrite everyoneRoleID PermissionOverwriteTypeRole 0 VIEW_SEND.

(** [Ping], internal/discord/discord.go:140-142. *)
Definition Discord_Ping : M W (result error unit) := ret (Ok tt).

(** [AssignAgentRole], internal/discord/discord.go:148-153. *)
Definition AssignAgentRole (guildID discordUserID agentRoleID : string) : M W (result error unit) :=
  wrapped "discord: assign agent role to user: "
    (dg_GuildMemberRoleAdd guildID discordUserID agentRoleID).

(** [RemoveAgentRole], internal/discord/discord.go:157-162. *)
Definition RemoveAgentRole (guildID discordUserID agentRoleID : string) : M W (result error unit) :=
  wrapped "discord: remove agent role from user: "
    (dg_GuildMemberRoleRemove guildID discordUserID agentRoleID).

(** [CreateChannelDenied], internal/discord/discord.go:173-197. *)
Definition CreateChannelDenied (guildID name categoryID everyoneRoleID : string)
    : M W (result error string) :=
  wrapped "discord: create channel denied: "
    (dg_GuildChannelCreateComplex guildID name categoryID [everyone_deny everyoneRoleID]).

(** [ApplyCategoryAgentAllow], internal/discord/discord.go:202-213. *)
Definition ApplyCategoryAgentAllow (categoryID agentRoleID : string) : M W (result error unit) :=
  wrapped "discord: apply category agent allow: "
    (dg_ChannelPermissionSet categoryID agentRoleID PermissionOverwriteTypeRole
       PermissionViewChannel 0).

(** [SetCollaboratorOverwrite], internal/discord/discord.go:218-231. *)
Definition SetCollaboratorOverwrite (channelID discordUserID : string) : M W (result error unit) :=
  wrapped "discord: set collaborator overwrite: "
    (dg_ChannelPermissionSet channelID discordUserID PermissionOverwriteTypeMember VIEW_SEND 0).

(** [DeleteCollaboratorOverwrite], internal/discord/discord.go:235-241. *)
Definition DeleteCollaboratorOverwrite (channelID discordUserID : string) : M W (result error unit) :=
  wrapped "discord: delete collaborator overwrite: "
    (dg_ChannelPermissionDelete channelID discordUserID).

(** [AddGuildMember], internal/discord/discord.go:246-256. *)
Definition AddGuildMember (guildID discordUserID accessToken : string) : M W (result error unit) :=
  wrapped "discord: add guild member: " (dg_GuildMemberAdd guildID discordUserID accessToken).

(** [RemoveGuildMember], internal/discord/discord.go:259-264. *)
Definition RemoveGuildMember (guildID discordUserID : string) : M W (result error unit) :=
  wrapped "discord: remove guild member: " (dg_GuildMemberDelete guildID discordUserID).

(** [GetChannelOverwrites], internal/discord/discord.go:268-274. *)
Definition GetChannelOverwrites (channelID : string) : M W (result error (list PermissionOverwrite)) :=
  wrapped "discord: get channel: " (dg_Channel channelID).

(** [ArchiveChannel], internal/discord/discord.go:278-290. *)
Definition ArchiveChannel (channelID everyoneRoleID : string) : M W (result error unit) :=
  wrapped "discord: archive channel: "
    (dg_ChannelPermissionSet channelID everyoneRoleID PermissionOverwriteTypeRole 0 VIEW_SEND).

(** [UnarchiveChannel], internal/discord/discord.go:294-303. *)
Definition UnarchiveChannel (channelID everyoneRoleID : string) : M W (result error unit) :=
  wrapped "discord: unarchive channel: " (dg_ChannelPermissionDelete channelID everyoneRoleID).

(** [SetChannelTopic], internal/discord/discord.go:306-312. *)
Definition SetChannelTopic (channelID topic : string) : M W (result error unit) :=
  wrapped "discord: set channel topic: " (dg_ChannelEditTopic channelID topic).

(** [PinMessage], internal/discord/discord.go:315-320. *)
Definition PinMessage (channelID messageID : string) : M W (result error unit) :=
  wrapped "discord: pin message: " (dg_ChannelMessagePin channelID messageID).

(** [EditMessage], internal/discord/discord.go:325-336. *)
Definition EditMessage (channelID messageID content : string) : M W (result error unit) :=
  wrapped "discord: edit message: " (dg_ChannelMessageEditComplex channelID messageID content).

(** [SendMessage], internal/discord/discord.go:341-351. *)
Definition SendMessage (channelID content : string) : M W (result error string) :=
  wrapped "discord: send message: " (dg_ChannelMessageSendComplex channelID content).

(** [SetNickname], internal/discord/discord.go:355-360. *)
Definition SetNickname (guildID discordUserID nickname : string) : M W (result error unit) :=
  wrapped "discord: set nickname: " (dg_GuildMemberNickname guildID discordUserID nickname).

(** [SetChannelPermissionDeny], internal/discord/discord.go:364-379. *)
Definition SetChannelPermissionDeny (channelID targetID : string) (ty : PermissionOverwriteType)
    : M W (result error unit) :=
  wrapped "discord: set channel permission deny: "
    (dg_ChannelPermissionSet channelID targetID ty 0 PermissionViewChannel).

End Session.

(** ** Access as Discord computes it for the overwrites of one channel

    A member overwrite that allows VIEW_CHANNEL makes the channel visible to that member; the
    @everyone role is denied when its overwrite denies VIEW_CHANNEL. *)
Definition allows `{Env W} (p : Z) (ow : PermissionOverwrite) : bool :=
  negb (Z.land (ow_Allow ow) p =? 0).
Definition denies `{Env W} (p : Z) (ow : PermissionOverwrite) : bool :=
  negb (Z.land (ow_Deny ow) p =? 0).

(** A member overwrite for [d] on [ch]. *)
Definition member_overwrite (g : Guild) (ch d : string) : Prop :=
  exists ow, overwrites_of ch g !! d = Some ow /\ ow_ID ow = d /\
             ow_Type ow = PermissionOverwriteTypeMember.

(** [ch] denies VIEW_CHANNEL to the role [r]. *)
Definition view_denied `{Env W} (g : Guild) (ch r : string) : Prop :=
  exists ow, overwrites_of ch g !! r = Some ow /\ denies PermissionViewChannel ow = true.

#[export] Instance member_overwrite_dec g ch d : Decision (member_overwrite g ch d).
Proof.
  refine (match overwrites_of ch g !! d as o return overwrites_of ch g !! d = o -> _ with
          | Some ow => fun Ho =>
              if decide (ow_ID ow = d /\ ow_Type ow = PermissionOverwriteTypeMember)
              then left _ else right _
          | None => fun Ho => right _
          end eq_refl); unfold member_overwrite; naive_solver.
Defined.

Lemma overwrites_of_set ch ow g ch' :
  overwrites_of ch' (permission_set ch ow g) =
  if decide (ch = ch' /\ channel_exists ch g) then <[ow_ID ow := ow]> (overwrites_of ch g)
  else overwrites_of ch' g.
Proof.
  unfold overwrites_of, permission_set, channel_exists; cbn.
  destruct (decide (ch = ch')) as [->|Hne].
  - rewrite lookup_alter_eq. destruct (g_overwrites g !! ch') eqn:Hl; case_decide as Hd; try done.
    + destruct Hd. split; [done|eauto].
    + by destruct Hd as [_ []].
  - rewrite lookup_alter_ne by done. case_decide; [naive_solver|done].
Qed.

Lemma overwrites_of_delete ch t g ch' :
  overwrites_of ch' (permission_delete ch t g) =
  if decide (ch = ch') then delete t (overwrites_of ch g) else overwrites_of ch' g.
Proof.
  unfold overwrites_of, permission_delete; cbn. destruct (decide (ch = ch')) as [->|Hne].
  - rewrite lookup_alter_eq. destruct (g_overwrites g !! ch'); cbn; [done|]. by rewrite delete_empty.
  - by rewrite lookup_alter_ne.
Qed.

Lemma overwrites_of_create ch ows g ch' :
  overwrites_of ch' (channel_create ch ows g) =
  if decide (ch = ch') then list_to_map ((fun ow => (ow_ID ow, ow)) <$> ows)
  else overwrites_of ch' g.
Proof.
  unfold overwrites_of, channel_create; cbn. case_decide as Hd.
  - subst. by rewrite lookup_insert_eq.
  - by rewrite lookup_insert_ne.
Qed.

Lemma member_overwrite_set ch ow g ch' d :
  member_overwrite (permission_set ch ow g) ch' d <->
  (if decide (ch = ch' /\ channel_exists ch g /\ ow_ID ow = d)
   then ow_Type ow = PermissionOverwriteTypeMember else member_overwrite g ch' d).
Proof.
  unfold member_overwrite. rewrite overwrites_of_set.
  destruct (decide (ch = ch' /\ channel_exists ch g)) as [[<- Hex]|Hn].
  - destruct (decide (ow_ID ow = d)) as [<-|Hd].
    + rewrite decide_True by done. setoid_rewrite lookup_insert_eq. naive_solver.
    + rewrite decide_False by naive_solver. setoid_rewrite lookup_insert_ne; naive_solver.
  - rewrite decide_False by naive_solver. done.
Qed.

Lemma member_overwrite_delete ch t g ch' d :
  member_overwrite (permission_delete ch t g) ch' d <->
  ~ (ch = ch' /\ t = d) /\ member_overwrite g ch' d.
Proof.
  unfold member_overwrite. rewrite overwrites_of_delete.
  destruct (decide (ch = ch')) as [<-|Hn]; [|naive_solver].
  destruct (decide (t = d)) as [<-|Hd].
  - setoid_rewrite lookup_delete_eq. naive_solver.
  - setoid_rewrite lookup_delete_ne; naive_solver.
Qed.

Section Specs.
Context {W : Type} {E : Env W} {view : W -> View} {L : EnvLaws E view}.

Lemma wrapped_spec {A} what (m : M W (result error A)) (R : View -> result error A -> View -> Prop) :
  Spec view m R ->
  Spec view (wrapped what m) (fun v r v' =>
    exists r0, R v r0 v' /\
      r = match r0 with Ok a => Ok a | Err e => Err (Wrap what e) end).
Proof. intros HS w. exists (m w).1. split; [apply HS|done]. Qed.

Lemma wrapped_rest what m P eff :
  Spec view m (rest_outcome P eff) -> Spec view (wrapped what m) (rest_outcome P eff).
Proof.
  intros HS. eapply spec_mono; [by apply wrapped_spec|].
  intros v r v' (r0 & [(-> & H)|(e & He & -> & H)] & ->); [by left|right].
  exists (Wrap what e). split; [by apply opaque_Wrap|]. done.
Qed.

#[export] Instance SetCollaboratorOverwrite_spec ch d :
  Spec view (SetCollaboratorOverwrite ch d)
    (rest_outcome (channel_exists ch) (permission_set ch (collaborator_allow d))).
Proof. apply wrapped_rest, _. Qed.
#[export] Instance DeleteCollaboratorOverwrite_spec ch d :
  Spec view (DeleteCollaboratorOverwrite ch d)
    (rest_outcome (channel_exists ch) (permission_delete ch d)).
Proof. apply wrapped_rest, _. Qed.
#[export] Instance ApplyCategoryAgentAllow_spec ch r :
  Spec view (ApplyCategoryAgentAllow ch r)
    (rest_outcome (channel_exists ch) (permission_set ch (agent_allow r))).
Proof. apply wrapped_rest, _. Qed.
#[export] Instance ArchiveChannel_spec ch r :
  Spec view (ArchiveChannel ch r)
    (rest_outcome (channel_exists ch) (permission_set ch (archive_deny r))).
Proof. apply wrapped_rest, _. Qed.
#[export] Instance UnarchiveChannel_spec ch r :
  Spec view (UnarchiveChannel ch r) (rest_outcome (channel_exists ch) (permission_delete ch r)).
Proof. apply wrapped_rest, _. Qed.
#[export] Instance AddGuildMember_spec g d tok :
  Spec view (AddGuildMember g d tok) (rest_outcome anything (member_add d)).
Proof. apply wrapped_rest, _. Qed.
#[export] Instance RemoveGuildMember_spec g d :
  Spec view (RemoveGuildMember g d) (rest_outcome anything (member_delete d)).
Proof. apply wrapped_rest, _. Qed.
#[export] Instance AssignAgentRole_spec g d r :
  Spec view (AssignAgentRole g d r) (rest_outcome anything (role_add d r)).
Proof. apply wrapped_rest, _. Qed.
#[export] Instance RemoveAgentRole_spec g d r :
  Spec view (RemoveAgentRole g d r) (rest_outcome anything (role_remove d r)).
Proof. apply wrapped_rest, _. Qed.
#[export] Instance SetNickname_spec g d n :
  Spec view (SetNickname g d n) (rest_outcome anything (nick_set d n)).
Proof. apply wrapped_rest, _. Qed.
#[export] Instance SetChannelTopic_spec ch t :
  Spec view (SetChannelTopic ch t) (rest_outcome anything (topic_set ch t)).
Proof. apply wrapped_rest, _. Qed.
#[export] Instance PinMessage_spec ch m :
  Spec view (PinMessage ch m) (rest_outcome anything (message_pin ch m)).
Proof. apply wrapped_rest, _. Qed.
#[export] Instance EditMessage_spec ch m c :
  Spec view (EditMessage ch m c) (rest_outcome anything (message_put ch m c)).
Proof. apply wrapped_rest, _. Qed.

#[export] Instance GetChannelOverwrites_spec ch :
  Spec view (GetChannelOverwrites ch) (fun v r v' =>
    v' = v /\
    ((exists ows, r = Ok ows /\ channel_exists ch (v_guild v) /\
        (forall ow, ow ∈ ows <-> overwrites_of ch (v_guild v) !! ow_ID ow = Some ow)) \/
     (exists e, opaque e /\ r = Err e))).
Proof.
  eapply spec_mono; [apply wrapped_spec, _|].
  intros v r v' (r0 & (-> & H) & ->). split; [done|].
  destruct H as [(ows & -> & H)|(e & He & ->)]; eauto with errors.
Qed.

(** A channel is born denied to @everyone, and nothing else is touched. *)
#[export] Instance CreateChannelDenied_spec g name cat everyone :
  Spec view (CreateChannelDenied g name cat everyone) (fun v r v' =>
    (exists id, r = Ok id /\ id <> ""%string /\ g_overwrites (v_guild v) !! id = None /\
        v' = with_guild (channel_create id [everyone_deny everyone] (v_guild v)) v) \/
    (exists e, opaque e /\ r = Err e /\
       (v' = v \/ exists id, g_overwrites (v_guild v) !! id = None /\
          v' = with_guild (channel_create id [everyone_deny everyone] (v_guild v)) v))).
Proof.
  eapply spec_mono; [apply wrapped_spec, _|].
  intros v r v' (r0 & [(id & -> & H)|(e & He & -> & H)] & ->); [by eauto|right].
  eauto with errors.
Qed.

#[export] Instance SendMessage_spec ch content :
  Spec view (SendMessage ch content) (fun v r v' =>
    (exists id, r = Ok id /\ default ∅ (g_messages (v_guild v) !! ch) !! id = None /\
       v' = with_guild (message_put ch id content (v_guild v)) v) \/
    (exists e, opaque e /\ r = Err e /\
       (v' = v \/ exists id, v' = with_guild (message_put ch id content (v_guild v)) v))).
Proof.
  eapply spec_mono; [apply wrapped_spec, _|].
  intros v r v' (r0 & [(id & -> & H)|(e & He & -> & H)] & ->); [by eauto|right].
  eauto with errors.
Qed.
End Specs.
