(* ===== verification/Lock.v ===== *)
(** * Lock: the distributed locks of internal/lock

    [Locker] is the interface the workers are written against; [ValKeyLocker] implements it with
    SET NX PX and a compare-and-delete script, [NoopLocker] always grants. The interface's law is
    that locking never touches anything but the key-value store; mutual exclusion and fencing are
    theorems about the script and SET commands themselves, at explicit server times. *)
From S2P Require Import Prelude Errors Domain Schema Services.

(** [Locker], internal/lock/lock.go:26-41. A token and whether the lock was taken. *)
Record Locker (W : Type) : Type := mkLocker {
  AcquireSpace : string -> M W (result error (string * bool));
  ReleaseSpace : string -> string -> M W (result error unit);
  AcquireMerchant : string -> M W (result error (string * bool));
  ReleaseMerchant : string -> string -> M W (result error unit)
}.
Arguments AcquireSpace {W}. Arguments ReleaseSpace {W}.
Arguments AcquireMerchant {W}. Arguments ReleaseMerchant {W}.

(** The key-value store may have changed, nothing else. *)
Definition only_kv {A} (v : View) (r : A) (v' : View) : Prop := exists ks, v' = with_kv ks v.

(** What the workers rely on: an operation touches only the key-value store, and its errors are
    infrastructure errors. *)
Definition lock_outcome {A} (v : View) (r : result error A) (v' : View) : Prop :=
  (exists ks, v' = with_kv ks v) /\ (forall e, r = Err e -> opaque e).

Class LockerLaws {W} (view : W -> View) (l : Locker W) : Prop := {
  AcquireSpace_law : forall id, Spec view (AcquireSpace l id) lock_outcome;
  ReleaseSpace_law : forall id t, Spec view (ReleaseSpace l id t) lock_outcome;
  AcquireMerchant_law : forall id, Spec view (AcquireMerchant l id) lock_outcome;
  ReleaseMerchant_law : forall id t, Spec view (ReleaseMerchant l id t) lock_outcome
}.
#[export] Existing Instances AcquireSpace_law ReleaseSpace_law AcquireMerchant_law
  ReleaseMerchant_law.

(** A nil interface value or a locker that keeps its law. *)
Definition locker_ok {W} (view : W -> View) (l : option (Locker W)) : Prop :=
  match l with Some l => LockerLaws view l | None => True end.

(** ** Commands *)

(** The command of [acquire], internal/lock/lock.go:111-115. SET key token NX PX ttl: [true] when the key was absent. *)
Definition setnx (key token : string) (ttl_ms : Z) : redis bool := fun now ks =>
  match klive now ks key with
  | Some _ => Ok (false, ks)
  | None => Ok (true, <[key := mkEntry (RStr token) (Some (now + ttl_ms))]> ks)
  end.

(** [releaseScript], internal/lock/lock.go:56-62. A GET on a hash is a WRONGTYPE error. *)
Definition releaseScript (key token : string) : redis Z := fun now ks =>
  match klive now ks key with
  | None => Ok (-1, ks)
  | Some (RStr v) => if decide (v = token) then Ok (1, delete key ks) else Ok (0, ks)
  | Some (RHash _) => Err (External "WRONGTYPE")
  end.

(** [encoding/hex.EncodeToString] *)
Definition hex_digit (n : nat) : ascii :=
  Ascii.ascii_of_nat (if Nat.ltb n 10 then 48 + n else 87 + n)%nat.
Fixpoint hex_encode (bs : list ascii) : string :=
  match bs with
  | [] => EmptyString
  | b :: rest =>
      let n := Ascii.nat_of_ascii b in
      String (hex_digit (n / 16)%nat) (String (hex_digit (n mod 16)%nat) (hex_encode rest))
  end.

Lemma hex_encode_length bs : String.length (hex_encode bs) = (2 * length bs)%nat.
Proof. induction bs as [|b bs IH]; [done|]. cbn [hex_encode String.length length]. lia. Qed.

(** [defaultTTL], internal/lock/lock.go:44. *)
Definition defaultTTL : Z := 30 * Second.
(** [keyPrefixSpace], internal/lock/lock.go:45. *)
Definition keyPrefixSpace : string := "lock:space:".
(** [keyPrefixMerchant], internal/lock/lock.go:46. *)
Definition keyPrefixMerchant : string := "lock:merchant:".

Section ValKey.
Context {W : Type} {E : Env W}.

(** [newFencingToken], internal/lock/lock.go:134-140. *)
Definition newFencingToken : M W (result error string) :=
  b <-? rand_Read 16 onerr e => ret (Err e) ;;
  ret (Ok (hex_encode b)).

(** [ValKeyLocker.acquire], internal/lock/lock.go:105-120. go-redis sends PX in milliseconds. *)
Definition lock_acquire (ttl : Z) (key : string) : M W (result error (string * bool)) :=
  token <-? newFencingToken onerr e => ret (Err (Wrap "lock: generate fencing token: " e)) ;;
  ok <-? redis_exec (setnx key token (ttl / Millisecond))
     onerr e => ret (Err (Wrap "lock: acquire: " e)) ;;
  ret (if ok : bool then Ok (token, true) else Ok (""%string, false)).

(** [ValKeyLocker.release], internal/lock/lock.go:122-131. *)
Definition lock_release (key token : string) : M W (result error unit) :=
  r <-? redis_exec (releaseScript key token) onerr e => ret (Err (Wrap "lock: release: " e)) ;;
  ret (Ok tt).

(** [ValKeyLocker.AcquireSpace], internal/lock/lock.go:86-88. *)
Definition ValKey_AcquireSpace ttl (spaceID : string) := lock_acquire ttl (keyPrefixSpace +:+ spaceID).
(** [ValKeyLocker.ReleaseSpace], internal/lock/lock.go:91-93. *)
Definition ValKey_ReleaseSpace (spaceID token : string) := lock_release (keyPrefixSpace +:+ spaceID) token.
(** [ValKeyLocker.AcquireMerchant], internal/lock/lock.go:96-98. *)
Definition ValKey_AcquireMerchant ttl (m : string) := lock_acquire ttl (keyPrefixMerchant +:+ m).
(** [ValKeyLocker.ReleaseMerchant], internal/lock/lock.go:101-103. *)
Definition ValKey_ReleaseMerchant (m token : string) := lock_release (keyPrefixMerchant +:+ m) token.

(** [NewWithTTL], internal/lock/lock.go:77-83. *)
Definition NewWithTTL (ttl : Z) : Locker W :=
  mkLocker W (ValKey_AcquireSpace ttl) ValKey_ReleaseSpace
    (ValKey_AcquireMerchant ttl) ValKey_ReleaseMerchant.

(** [NoopLocker], internal/lock/lock.go:142-153. *)
Definition NoopLocker : Locker W :=
  mkLocker W (fun _ => ret (Ok ("noop"%string, true))) (fun _ _ => ret (Ok tt))
    (fun _ => ret (Ok ("noop"%string, true))) (fun _ _ => ret (Ok tt)).
End ValKey.

Lemma with_kv_same v : with_kv (v_kv v) v = v.
Proof. by destruct v. Qed.

(** ** Both implementations keep the law *)
Section Laws.
Context {W : Type} {E : Env W} {view : W -> View} {L : EnvLaws E view}.

#[export] Instance Noop_laws : LockerLaws view (NoopLocker (W := W)).
Proof.
  split; intros; apply spec_of_wp; intros w; apply wp_ret; unfold lock_outcome;
    (split; [exists (v_kv (view w)); by rewrite with_kv_same|done]).
Qed.

Lemma redis_outcome_only_kv {A} (c : redis A) v r v' :
  (forall now ks e, c now ks = Err e -> opaque e) ->
  redis_outcome c v r v' -> lock_outcome v r v'.
Proof.
  intros Hc [H|[H|H]]; unfold lock_outcome.
  - destruct H as (now & a & ks & _ & -> & ->). split; [eauto|done].
  - destruct H as (now & e & He & -> & ->). split; [exists (v_kv v); by rewrite with_kv_same|].
    intros e' [= <-]. eauto.
  - destruct H as (e & He & -> & Hv). split; [|by intros e' [= <-]].
    destruct Hv as [->|(now & a & ks & _ & ->)]; [exists (v_kv v); by rewrite with_kv_same|eauto].
Qed.

#[export] Instance newFencingToken_spec :
  Spec view newFencingToken (fun v r v' => v' = v /\
    ((exists t, r = Ok t /\ String.length t = 32%nat) \/ (exists e, opaque e /\ r = Err e))).
Proof.
  apply spec_of_wp. intros w. unfold newFencingToken. go_step. destruct H as [Hv H].
  destruct H as [(bs & -> & Hl)|(e & He & ->)]; apply wp_ret; (split; [done|]).
  - left. eexists. split; [done|]. by rewrite hex_encode_length, Hl.
  - right. eauto.
Qed.

Lemma lock_acquire_spec ttl key : Spec view (lock_acquire ttl key) lock_outcome.
Proof.
  apply spec_of_wp. intros w. unfold lock_acquire, lock_outcome.
  go_step. destruct H as [Hv [(bs & -> & _)|(e & He & ->)]]; cbn.
  - go_step. apply redis_outcome_only_kv in H as [[ks Hk] He].
    + rewrite Hv in Hk. destruct a as [[]|e]; apply wp_ret; rewrite Hk;
        (split; [eauto|intros ? [= <-]; eauto with errors]).
    + unfold setnx. intros. by case_match.
  - apply wp_ret. rewrite Hv. split; [exists (v_kv (view w)); by rewrite with_kv_same|].
    intros ? [= <-]. eauto with errors.
Qed.

Lemma lock_release_spec key token : Spec view (lock_release key token) lock_outcome.
Proof.
  apply spec_of_wp. intros w. unfold lock_release, lock_outcome. go_step.
  apply redis_outcome_only_kv in H as [[ks Hk] He].
  - destruct a as [z|e]; apply wp_ret; rewrite Hk; (split; [eauto|intros ? [= <-]; eauto with errors]).
  - unfold releaseScript. intros ??? Hr. repeat case_match; simplify_eq. apply opaque_External.
Qed.

#[export] Instance ValKey_laws ttl : LockerLaws view (NewWithTTL (W := W) ttl).
Proof. split; intros; first [apply lock_acquire_spec | apply lock_release_spec]. Qed.
End Laws.

(** ** Mutual exclusion and fencing

    A history of acquire and release commands on one lock, at non-decreasing server times. *)
Inductive lock_event : Type :=
| LAcquire (token : string) (now : Z)
| LRelease (token : string) (now : Z).
Definition ev_time (e : lock_event) : Z :=
  match e with LAcquire _ t | LRelease _ t => t end.

(** Run the events; collect the tokens whose acquire answered [true], with the grant times. *)
Fixpoint lock_run (key : string) (ttl_ms : Z) (evs : list lock_event) (ks : Keyspace)
    : list (string * Z) * Keyspace :=
  match evs with
  | [] => ([], ks)
  | LAcquire token now :: rest =>
      match setnx key token ttl_ms now ks with
      | Ok (true, ks') => let '(g, ks'') := lock_run key ttl_ms rest ks' in ((token, now) :: g, ks'')
      | Ok (false, ks') => lock_run key ttl_ms rest ks'
      | Err _ => lock_run key ttl_ms rest ks
      end
  | LRelease token now :: rest =>
      match releaseScript key token now ks with
      | Ok (_, ks') => lock_run key ttl_ms rest ks'
      | Err _ => lock_run key ttl_ms rest ks
      end
  end.

(** The token that holds the lock at [now]. *)
Definition holder (key : string) (now : Z) (ks : Keyspace) : option string :=
  match klive now ks key with Some (RStr t) => Some t | _ => None end.

Lemma klive_mono now now' ks k v :
  now <= now' -> klive now' ks k = Some v -> klive now ks k = Some v.
Proof.
  unfold klive. intros Hle Hl. destruct (ks !! k) as [e|]; [|done].
  destruct (re_expire e) as [t|]; [|done]. destruct (Z.ltb now' t) eqn:H1; [|done].
  assert (Z.ltb now t = true) as -> by lia. done.
Qed.

(** While a token holds the lock, no other acquire is granted and no release with another
    token frees it: at any later time before the TTL of the grant, after any events that do not
    release that very token, the holder is unchanged. A release by the holder frees the lock. *)
Theorem lock_fencing (key token : string) (ttl_ms : Z) (evs : list lock_event) (ks ks1 : Keyspace)
    (t0 : Z) :
  setnx key token ttl_ms t0 ks = Ok (true, ks1) ->
  Forall (fun e => t0 <= ev_time e < t0 + ttl_ms) evs ->
  (forall now, LRelease token now ∉ evs) ->
  let '(granted, ks2) := lock_run key ttl_ms evs ks1 in
  granted = [] /\
  (forall now, now < t0 + ttl_ms -> holder key now ks2 = Some token) /\
  (forall now, now < t0 + ttl_ms ->
     exists ks3, releaseScript key token now ks2 = Ok (1, ks3) /\ holder key now ks3 = None) /\
  (forall now, t0 + ttl_ms <= now -> holder key now ks2 = None).
Proof.
  intros Hset Hev Hrel.
  assert (ks1 !! key = Some (mkEntry (RStr token) (Some (t0 + ttl_ms)))) as Hk.
  { unfold setnx in Hset. destruct (klive t0 ks key); simplify_eq. apply lookup_insert_eq. }
  clear Hset. revert ks1 Hk. induction evs as [|ev evs IH]; intros ks1 Hk; cbn.
  - unfold holder, releaseScript, klive. rewrite Hk; cbn. split; [done|]. split; [|split].
    + intros now Hn. by assert ((now <? t0 + ttl_ms) = true) as -> by lia.
    + intros now Hn. assert ((now <? t0 + ttl_ms) = true) as -> by lia. rewrite decide_True by done.
      exists (delete key ks1). split; [done|]. by rewrite lookup_delete_eq.
    + intros now Hn. by assert ((now <? t0 + ttl_ms) = false) as -> by lia.
  - apply Forall_cons in Hev as [Ht Hev].
    assert (Hrel' : forall now, LRelease token now ∉ evs).
    { intros now Hin. apply (Hrel now). by right. }
    specialize (IH Hev Hrel').
    assert (Hlive : klive (ev_time ev) ks1 key = Some (RStr token)).
    { unfold klive. rewrite Hk; cbn. by assert ((ev_time ev <? t0 + ttl_ms) = true) as -> by lia. }
    destruct ev as [tok now|tok now]; cbn in Hlive; unfold setnx, releaseScript; rewrite Hlive.
    + by apply IH.
    + rewrite decide_False; [by apply IH|]. intros ->. apply (Hrel now). by left.
Qed.

Lemma lock_fencing_witness :
  exists ks1, setnx "lock:space:s" "a" 30000 1000 ∅ = Ok (true, ks1) /\
    (lock_run "lock:space:s" 30000 [LAcquire "b" 2000; LRelease "b" 2500] ks1).1 = [].
Proof.
  eexists. split; [reflexivity|].
  pose proof (lock_fencing "lock:space:s" "a" 30000 [LAcquire "b" 2000; LRelease "b" 2500] ∅
    _ 1000 eq_refl) as H.
  apply H.
  - repeat constructor; cbn; lia.
  - intros now Hin. repeat (apply elem_of_cons in Hin as [Hin|Hin]; [discriminate|]).
    by apply not_elem_of_nil in Hin.
Defined.
