(* ===== verification/LockSpec.v ===== *)
(** * LockSpec: the Valkey locks refine a table of leases

    What internal/lock promises to its callers is a table of leases: who holds a lock, and until
    when. The commands on the key space implement it, for all locks at once and next to the other
    users of the key space. *)
From S2P Require Import Prelude Errors Domain Schema Services Lock.

(** ** The specification *)

(** A lease: its token and when it ends. *)
Notation leases := (gmap string (string * Z)).
Definition leased (now : Z) (st : leases) (key : string) : option string :=
  match st !! key with Some (t, e) => if now <? e then Some t else None | None => None end.

(** Acquiring grants a lease on a lock nobody holds; releasing ends the lease of that very token. *)
Definition spec_acquire (key token : string) (ttl now : Z) (st : leases) : bool * leases :=
  match leased now st key with
  | Some _ => (false, st)
  | None => (true, <[key := (token, now + ttl)]> st)
  end.
Definition spec_release (key token : string) (now : Z) (st : leases) : Z * leases :=
  match leased now st key with
  | None => (-1, st)
  | Some t => if decide (t = token) then (1, delete key st) else (0, st)
  end.

(** ** The calls of many processes *)

(** Calls in the order the server runs them, each with the time it meets. [Other] is any command that
    leaves the locks' keys alone. *)
Inductive lock_call : Type :=
| Acquire (key token : string) (ttl now : Z)
| Release (key token : string) (now : Z)
| Other (f : Keyspace -> Keyspace).
(** The answers: whether a lock was granted, what the release script returned. *)
Inductive lock_answer : Type := Granted (b : bool) | Released (r : result error Z) | Done.

(** The key spaces of locks. *)
Definition is_lock (key : string) : Prop :=
  String.prefix keyPrefixSpace key = true \/ String.prefix keyPrefixMerchant key = true.
#[export] Instance is_lock_dec key : Decision (is_lock key).
Proof. unfold is_lock. apply _. Defined.

Definition about_locks (c : lock_call) : Prop :=
  match c with
  | Acquire key _ _ _ | Release key _ _ => is_lock key
  | Other f => forall ks key, is_lock key -> f ks !! key = ks !! key
  end.

(** The server runs a call. *)
Definition run_call (c : lock_call) (ks : Keyspace) : lock_answer * Keyspace :=
  match c with
  | Acquire key token ttl now =>
      match setnx key token ttl now ks with
      | Ok (b, ks') => (Granted b, ks')
      | Err e => (Granted false, ks)
      end
  | Release key token now =>
      match releaseScript key token now ks with
      | Ok (n, ks') => (Released (Ok n), ks')
      | Err e => (Released (Err e), ks)
      end
  | Other f => (Done, f ks)
  end.
(** The specification does. *)
Definition spec_call (c : lock_call) (st : leases) : lock_answer * leases :=
  match c with
  | Acquire key token ttl now => let '(b, st') := spec_acquire key token ttl now st in (Granted b, st')
  | Release key token now => let '(n, st') := spec_release key token now st in (Released (Ok n), st')
  | Other _ => (Done, st)
  end.

(** A list of calls, one after the other. *)
Fixpoint run_calls {S} (step : lock_call -> S -> lock_answer * S) (cs : list lock_call) (s : S)
    : list lock_answer * S :=
  match cs with
  | [] => ([], s)
  | c :: cs => let '(a, s1) := step c s in let '(rest, s2) := run_calls step cs s1 in (a :: rest, s2)
  end.

(** ** The refinement *)

(** The key space holds exactly the leases under the locks' keys. *)
Definition represents (ks : Keyspace) (st : leases) : Prop :=
  forall key, is_lock key -> ks !! key = (fun l => mkEntry (RStr l.1) (Some l.2)) <$> st !! key.

Lemma represents_live ks st key now : represents ks st -> is_lock key ->
  klive now ks key = RStr <$> leased now st key.
Proof.
  intros Hr Hk. unfold klive, leased. rewrite (Hr key Hk).
  destruct (st !! key) as [[t e]|]; [|done]. cbn. by destruct (now <? e).
Qed.

Lemma represents_insert ks st key t e : represents ks st ->
  represents (<[key := mkEntry (RStr t) (Some e)]> ks) (<[key := (t, e)]> st).
Proof.
  intros Hr k Hk. destruct (decide (k = key)) as [->|Hne]; [rewrite !lookup_insert_eq; reflexivity|].
  rewrite !lookup_insert_ne by congruence. by apply Hr.
Qed.

Lemma represents_delete ks st key : represents ks st -> represents (delete key ks) (delete key st).
Proof.
  intros Hr k Hk. destruct (decide (k = key)) as [->|Hne]; [by rewrite !lookup_delete_eq|].
  rewrite !lookup_delete_ne by congruence. by apply Hr.
Qed.

(** One call: the same answer, and the relation holds again. *)
Lemma call_refines c ks st : about_locks c -> represents ks st ->
  (run_call c ks).1 = (spec_call c st).1 /\ represents (run_call c ks).2 (spec_call c st).2.
Proof.
  intros Hc Hr. destruct c as [key token ttl now|key token now|f]; cbn [run_call spec_call about_locks] in *.
  - unfold setnx, spec_acquire. rewrite (represents_live ks st key now Hr Hc).
    destruct (leased now st key); cbn; split; try done. by apply represents_insert.
  - unfold releaseScript, spec_release. rewrite (represents_live ks st key now Hr Hc).
    destruct (leased now st key) as [t|]; cbn; [|done]. case_decide; cbn; [|done].
    split; [done|]. by apply represents_delete.
  - split; [done|]. cbn. intros key Hk. by rewrite Hc, Hr.
Qed.

(** C25: the locks are leases. Whatever calls the processes make on the locks of spaces and merchants, in
    whatever order and at whatever times, next to whatever other use of the key space: each call gets
    the answer the table of leases gives, and the key space represents that table afterwards. *)
Theorem locks_refine_leases (cs : list lock_call) (ks : Keyspace) (st : leases) :
  Forall about_locks cs -> represents ks st ->
  let '(answers, ks') := run_calls run_call cs ks in
  let '(expected, st') := run_calls spec_call cs st in
  answers = expected /\ represents ks' st'.
Proof.
  intros Hcs. revert ks st. induction Hcs as [|c cs Hc Hcs IH]; intros ks st Hr; [done|]. cbn [run_calls].
  destruct (call_refines c ks st Hc Hr) as [Ha Hr'].
  destruct (run_call c ks) as [a ks1], (spec_call c st) as [b st1]. cbn [fst snd] in *. subst b.
  specialize (IH ks1 st1 Hr'). destruct (run_calls run_call cs ks1), (run_calls spec_call cs st1).
  destruct IH as [-> IH]. done.
Qed.

(** ** Witness: two workers and an expiry *)
Definition sample_calls : list lock_call :=
  [Acquire "lock:space:s" "a" 30 0; Acquire "lock:space:s" "b" 30 10; Other (insert "spaces:list" (mkEntry (RStr "x") None));
   Acquire "lock:space:s" "b" 30 40; Release "lock:space:s" "a" 50; Release "lock:space:s" "b" 60]%string.
Lemma locks_refine_leases_witness :
  (run_calls spec_call sample_calls ∅).1 =
    [Granted true; Granted false; Done; Granted true; Released (Ok 0); Released (Ok 1)] /\
  let '(answers, ks') := run_calls run_call sample_calls ∅ in
  let '(expected, st') := run_calls spec_call sample_calls ∅ in
  answers = expected /\ represents ks' st'.
Proof.
  split; [vm_compute; reflexivity|]. apply (locks_refine_leases sample_calls ∅ ∅).
  - unfold sample_calls. repeat (apply Forall_cons; split); try apply Forall_nil; cbn; try exact I;
      try (by vm_compute; left).
    intros ks key Hk. rewrite lookup_insert_ne; [done|]. intros <-. by destruct Hk.
  - intros key _. by rewrite !lookup_empty.
Defined.
