(* ===== verification/Doubles.v ===== *)
(** * Doubles: the floating point numbers of the scripts

    Lua computes with IEEE 754 doubles. A finite double is the rational it stands for, and the result of an
    operation is the exact result rounded to 53 significant bits, to nearest with ties to even. The range of
    the exponent is not bounded here: the scripts neither overflow nor reach subnormal numbers as long as
    their rates are ordinary positive numbers. *)
From S2P Require Import Prelude.
From Stdlib Require Import QArith Qcanon Qround Lqa Field.
#[global] Open Scope Z_scope.

(** The integer nearest to [a / b], the even one of two. *)
Definition round_even (a b : Z) : Z :=
  let q := a / b in
  let r := a mod b in
  if 2 * r <? b then q else if b <? 2 * r then q + 1 else if Z.even q then q else q + 1.

(** [n / d * 2^k] as a fraction. *)
Definition scale_num (n k : Z) : Z := n * 2 ^ Z.max 0 k.
Definition scale_den (d k : Z) : Z := d * 2 ^ Z.max 0 (- k).

(** The scaling that gives [n / d] a significand of 53 bits. *)
Definition significand_scale (n d : Z) : Z :=
  let k := 52 + Z.log2 d - Z.log2 n in
  if 2 ^ 52 * scale_den d k <=? scale_num n k then k else k + 1.

(** Rounding to a double. *)
Definition double (q : Q) : Q :=
  let q := Qred q in
  if Qnum q =? 0 then 0%Q
  else
    let n := Z.abs (Qnum q) in
    let d := Z.pos (Qden q) in
    let k := significand_scale n d in
    let m := round_even (scale_num n k) (scale_den d k) in
    Qred (Qmake (Z.sgn (Qnum q) * m * 2 ^ Z.max 0 (- k)) (Z.to_pos (2 ^ Z.max 0 k))).

(** Half a unit in the last place, relative to the number. *)
Definition half_ulp : Q := 1 # 9007199254740992.   (* 2^53 *)

(** ** What rounding does *)

Lemma round_even_near a b : 0 < b -> 2 * Z.abs (round_even a b * b - a) <= b.
Proof.
  intros Hb. unfold round_even. pose proof (Z.div_mod a b ltac:(lia)). pose proof (Z.mod_pos_bound a b Hb).
  destruct (Z.ltb_spec (2 * (a mod b)) b); [|destruct (Z.ltb_spec b (2 * (a mod b)))]; [nia..|].
  destruct (Z.even _); nia.
Qed.

Lemma pow2_max_pos k : 0 < 2 ^ Z.max 0 k.
Proof. apply Z.pow_pos_nonneg; lia. Qed.
Lemma scale_num_pos n k : 0 < n -> 0 < scale_num n k.
Proof. intros. unfold scale_num. pose proof (pow2_max_pos k). nia. Qed.
Lemma scale_den_pos d k : 0 < d -> 0 < scale_den d k.
Proof. intros. unfold scale_den. pose proof (pow2_max_pos (- k)). nia. Qed.

(** One more step of the scaling doubles the fraction. *)
Lemma scale_step n d k : 0 < n -> 0 < d ->
  scale_num n (k + 1) * scale_den d k = 2 * scale_num n k * scale_den d (k + 1).
Proof.
  intros Hn Hd. unfold scale_num, scale_den. destruct (Z_le_gt_dec 0 k) as [Hk|Hk].
  - rewrite (Z.max_r 0 (k + 1)), (Z.max_r 0 k), (Z.max_l 0 (- k)), (Z.max_l 0 (- (k + 1))) by lia.
    rewrite Z.pow_add_r by lia. lia.
  - rewrite (Z.max_l 0 (k + 1)), (Z.max_l 0 k), (Z.max_r 0 (- k)), (Z.max_r 0 (- (k + 1))) by lia.
    replace (- k) with (1 + - (k + 1)) by lia. rewrite Z.pow_add_r by lia. lia.
Qed.

(** The significand has 53 bits at least. *)
Lemma significand_large n d : 0 < n -> 0 < d ->
  2 ^ 52 * scale_den d (significand_scale n d) <= scale_num n (significand_scale n d).
Proof.
  intros Hn Hd. unfold significand_scale. set (k := 52 + Z.log2 d - Z.log2 n).
  destruct (Z.leb_spec (2 ^ 52 * scale_den d k) (scale_num n k)) as [Hk|_]; [exact Hk|].
  pose proof (scale_step n d k Hn Hd) as Hs. pose proof (scale_den_pos d k Hd). pose proof (scale_den_pos d (k + 1) Hd).
  enough (2 ^ 51 * scale_den d k <= scale_num n k) as Hh.
  { apply (Z.mul_le_mono_pos_r _ _ (scale_den d k)); [done|]. rewrite Hs.
    apply (Z.mul_le_mono_pos_r _ _ (2 * scale_den d (k + 1))) in Hh; [|lia]. change (2 ^ 52) with (2 ^ 51 * 2). lia. }
  destruct (Z.log2_spec n Hn) as [Hn1 _]. destruct (Z.log2_spec d Hd) as [_ Hd2].
  pose proof (Z.log2_nonneg n). pose proof (Z.log2_nonneg d). unfold scale_num, scale_den.
  assert (Hp : 2 ^ 51 * 2 ^ Z.succ (Z.log2 d) * 2 ^ Z.max 0 (- k) = 2 ^ Z.log2 n * 2 ^ Z.max 0 k).
  { rewrite <-!Z.pow_add_r by lia. f_equal. lia. }
  pose proof (pow2_max_pos k). pose proof (pow2_max_pos (- k)). nia.
Qed.

Lemma double_proper p q : (p == q)%Q -> double p = double q.
Proof. intros H. unfold double. by rewrite (Qred_complete p q H). Qed.

Lemma Qmake_num z p : (z # p == inject_Z z / inject_Z (Z.pos p))%Q.
Proof. rewrite Qmake_Qdiv. reflexivity. Qed.

(** The relative error of rounding. *)
Lemma double_error q : exists e, (- half_ulp <= e <= half_ulp)%Q /\ (double q == q * (1 + e))%Q.
Proof.
  enough (forall r, r = Qred q -> exists e, (- half_ulp <= e <= half_ulp)%Q /\ (double q == r * (1 + e))%Q) as Hr.
  { destruct (Hr _ eq_refl) as (e & He & Hd). exists e. split; [done|]. by rewrite <-(Qred_correct q) at 2. }
  intros r Hq. unfold double. rewrite <-Hq. clear q Hq. destruct r as [num den]. cbn [Qnum Qden].
  destruct (Z.eqb_spec num 0) as [->|Hnum].
  { exists 0%Q. split; [by split|]. unfold Qeq; cbn; lia. }
  set (n := Z.abs num). set (d := Z.pos den). assert (Hn : 0 < n) by lia. assert (Hd : 0 < d) by lia.
  pose proof (significand_large n d Hn Hd) as Hl. set (k := significand_scale n d) in *.
  pose proof (round_even_near (scale_num n k) (scale_den d k) (scale_den_pos d k Hd)) as Hr.
  pose proof (scale_num_pos n k Hn) as HA. pose proof (scale_den_pos d k Hd) as HB.
  set (m := round_even _ _) in *.
  exists (inject_Z (m * scale_den d k - scale_num n k) / inject_Z (scale_num n k))%Q. split.
  - assert (0 < inject_Z (scale_num n k))%Q as HAq by (by rewrite <-(Zlt_Qlt 0)).
    split; [apply Qle_shift_div_l|apply Qle_shift_div_r]; try exact HAq;
      unfold half_ulp, Qle; cbn [Qnum Qden Qmult Qopp inject_Z]; lia.
  - rewrite Qred_correct, !Qmake_num. fold d. rewrite Z2Pos.id by apply pow2_max_pos.
    assert (Hsq : (inject_Z num == inject_Z (Z.sgn num) * inject_Z n)%Q)
      by (rewrite <-inject_Z_mult; apply inject_Z_injective; unfold n; lia).
    rewrite Hsq. unfold scale_num, scale_den, Z.sub in *. rewrite !inject_Z_plus, !inject_Z_opp, !inject_Z_mult.
    assert (Hnz : forall z, 0 < z -> ~ (inject_Z z == 0)%Q).
    { intros z Hz. change 0%Q with (inject_Z 0). rewrite inject_Z_injective. lia. }
    pose proof (Hnz n Hn). pose proof (Hnz d Hd). pose proof (Hnz _ (pow2_max_pos k)). pose proof (Hnz _ (pow2_max_pos (- k))).
    field. by split_and!.
Qed.

(** The same as bounds, by the sign of the number. *)
Lemma double_pos q : (0 <= q -> q * (1 - half_ulp) <= double q <= q * (1 + half_ulp))%Q.
Proof.
  destruct (double_error q) as (e & [H1 H2] & ->). intros Hq.
  assert (0 <= q * (e + half_ulp))%Q by (apply Qmult_le_0_compat; lra).
  assert (0 <= q * (half_ulp - e))%Q by (apply Qmult_le_0_compat; lra). split; lra.
Qed.
Lemma double_neg q : (q <= 0 -> q * (1 + half_ulp) <= double q <= q * (1 - half_ulp))%Q.
Proof.
  destruct (double_error q) as (e & [H1 H2] & ->). intros Hq.
  assert (0 <= - q * (e + half_ulp))%Q by (apply Qmult_le_0_compat; lra).
  assert (0 <= - q * (half_ulp - e))%Q by (apply Qmult_le_0_compat; lra). split; lra.
Qed.
Lemma double_sign q : (0 < double q -> 0 < q)%Q.
Proof.
  intros H. destruct (Qlt_le_dec 0 q) as [|Hq]; [done|]. pose proof (double_neg q Hq) as [_ Hd].
  unfold half_ulp in Hd. lra.
Qed.

(** Small integers are doubles. *)
Lemma double_int q z : (q == inject_Z z)%Q -> Z.abs z < 2 ^ 53 -> (double q == inject_Z z)%Q.
Proof.
  intros Hq Hz. rewrite (double_proper q (inject_Z z) Hq). unfold double.
  assert (Qred (inject_Z z) = inject_Z z) as -> by (apply Qcanon.Qred_identity; cbn; apply Z.gcd_1_r).
  cbn [Qnum Qden inject_Z]. destruct (Z.eqb_spec z 0) as [->|Hnz]; [done|]. rewrite Qred_correct.
  set (n := Z.abs z). assert (Hn : 0 < n) by lia. destruct (Z.log2_spec n Hn) as [Hn1 Hn2].
  assert (Z.log2 n < 53) by (apply Z.log2_lt_pow2; lia). pose proof (Z.log2_nonneg n).
  assert (Hk : significand_scale n 1 = 52 - Z.log2 n).
  { unfold significand_scale. change (Z.log2 1) with 0. rewrite Z.add_0_r. unfold scale_num, scale_den.
    rewrite (Z.max_r 0 (52 - _)), (Z.max_l 0 (- _)) by lia. rewrite Z.pow_0_r.
    assert (2 ^ Z.log2 n * 2 ^ (52 - Z.log2 n) = 2 ^ 52) by (rewrite <-Z.pow_add_r by lia; f_equal; lia).
    assert (0 < 2 ^ (52 - Z.log2 n)) by (apply Z.pow_pos_nonneg; lia).
    destruct (Z.leb_spec (2 ^ 52 * (1 * 1)) (n * 2 ^ (52 - Z.log2 n))); [done|nia]. }
  rewrite Hk. unfold scale_num, scale_den. rewrite (Z.max_r 0 (52 - _)), (Z.max_l 0 (- _)) by lia. rewrite Z.pow_0_r.
  unfold round_even. rewrite Z.mul_1_l, Zmod_1_r, Zdiv_1_r. change (2 * 0 <? 1) with true. cbv iota.
  rewrite Qmake_num, Z2Pos.id by (apply Z.pow_pos_nonneg; lia).
  replace (Z.sgn z * (n * 2 ^ (52 - Z.log2 n)) * 1) with (z * 2 ^ (52 - Z.log2 n)) by (unfold n; assert (z = Z.sgn z * Z.abs z) as Hz' by lia; rewrite Hz' at 1; ring).
  rewrite inject_Z_mult. field. change 0%Q with (inject_Z 0). rewrite inject_Z_injective.
  pose proof (Z.pow_pos_nonneg 2 (52 - Z.log2 n)). lia.
Qed.
