(* ===== verification/RateLimit.v ===== *)
(** * RateLimit: the distributed token buckets of internal/ratelimit

    [Limiter] is the interface the workers consult; [ValKeyLimiter] runs the Lua take script on
    hashes in Valkey, [NoopLimiter] always allows. Lua computes with doubles (Doubles.v); the
    server writes a number into a hash field with 17 digits, which read back as the same double, and a
    Go integer with all of its digits, which read back rounded. Rates are positive: with a rate of zero
    the script would divide by it. *)
From S2P Require Import Prelude Errors Domain Schema Services Lock Doubles.
From Stdlib Require Import Qround Lqa.
#[global] Open Scope Z_scope.

(** [Limiter], internal/ratelimit/ratelimit.go:51-67. *)
Record Limiter (W : Type) : Type := mkLimiter {
  TakeGlobal : M W (result error unit);
  TakeRoute : string -> M W (result error unit);
  UpdateFromHeaders : string -> Z -> Z -> Z -> M W (result error unit);
  PenalizeUntil : string -> Z -> M W (result error unit)
}.
Arguments TakeGlobal {W}. Arguments TakeRoute {W}.
Arguments UpdateFromHeaders {W}. Arguments PenalizeUntil {W}.

(** What the workers rely on: the limiter touches only the key-value store and its errors do not
    ask asynq to drop the task. *)
Definition limit_outcome {A} (v : View) (r : result error A) (v' : View) : Prop :=
  (exists ks, v' = with_kv ks v) /\ (forall e, r = Err e -> errors_Is e SkipRetry = false).

Class LimiterLaws {W} (view : W -> View) (l : Limiter W) : Prop := {
  TakeGlobal_law : Spec view (TakeGlobal l) limit_outcome;
  TakeRoute_law : forall k, Spec view (TakeRoute l k) limit_outcome;
  UpdateFromHeaders_law : forall k n r t, Spec view (UpdateFromHeaders l k n r t) limit_outcome;
  PenalizeUntil_law : forall k d, Spec view (PenalizeUntil l k d) limit_outcome
}.
#[export] Existing Instances TakeGlobal_law TakeRoute_law UpdateFromHeaders_law PenalizeUntil_law.

(** [Config], internal/ratelimit/ratelimit.go:70-84. *)
Record LimitConfig : Type := mkLimitConfig {
  GlobalRefillRate : Q;
  GlobalCapacity : Z;
  DefaultRouteCapacity : Z;
  KeyPrefix : string
}.

(** [DefaultConfig], internal/ratelimit/ratelimit.go:87-94. *)
Definition DefaultConfig : LimitConfig := mkLimitConfig 45 45 5 "rl:".

(** ** The script *)

(** [math.min]. *)
Definition lua_min (a b : Q) : Q := if Qle_bool a b then a else b.

(** [tonumber] of an integer argument. *)
Definition lua_int (n : Z) : Q := double (inject_Z n).

(** [takeLuaScript], internal/ratelimit/ratelimit.go:128-140: the bucket a hash describes at [now_ms], refilled;
    every operation rounds. *)
Definition bucket_tokens (capacity : Z) (rate : Q) (now_ms : Z) (state : option (gmap string Q)) : Q :=
  match state with
  | None => lua_int capacity
  | Some h =>
      let tokens := default (lua_int capacity) (double <$> h !! "tokens"%string) in
      let last_ms := default (lua_int now_ms) (double <$> h !! "last_ms"%string) in
      let elapsed_s := double (double (lua_int now_ms - last_ms) / inject_Z 1000) in
      lua_min (lua_int capacity) (double (tokens + double (elapsed_s * rate)))
  end.

(** [takeLuaScript], internal/ratelimit/ratelimit.go:146-146: its [ttl_ms]. *)
Definition bucket_ttl (capacity : Z) (rate : Q) : Z :=
  Qfloor (double (inject_Z (Qceiling (double (double (lua_int capacity / rate) * inject_Z 1000))) + inject_Z 5000)).

(** HGETALL: an absent key reads as no fields, another type is an error. *)
Definition hgetall (now : Z) (ks : Keyspace) (key : string) : result error (option (gmap string Q)) :=
  match klive now ks key with
  | None => Ok None
  | Some (RHash h) => Ok (Some h)
  | Some (RStr _) => Err (External "WRONGTYPE")
  end.

(** [takeLuaScript], internal/ratelimit/ratelimit.go:122-155. [now_ms] is the caller's clock; the server's
    decides when the key expires. *)
Definition takeLuaScript (key : string) (capacity : Z) (rate : Q) (now_ms : Z) : redis (list Z) :=
  fun now ks =>
    match hgetall now ks key with
    | Err e => Err e
    | Ok state =>
        let tokens := bucket_tokens capacity rate now_ms state in
        if Qle_bool 1 tokens then
          let left := double (tokens - 1) in
          let h := <["tokens"%string := left]> (<["last_ms"%string := lua_int now_ms]> (default ∅ state)) in
          Ok ([1; Qfloor left; 0],
              <[key := mkEntry (RHash h) (Some (now + bucket_ttl capacity rate))]> ks)
        else
          let need_s := double (double (1 - tokens) / rate) in
          let wait_ms := Qceiling (double (need_s * inject_Z 1000)) in
          Ok ([0; 0; wait_ms], ks)
    end.

(** [HSET key field value ...]: the expiry of an existing key is kept. *)
Definition hset (key : string) (fields : list (string * Q)) : redis unit := fun now ks =>
  match klive now ks key with
  | Some (RStr _) => Err (External "WRONGTYPE")
  | Some (RHash h) =>
      Ok (tt, <[key := mkEntry (RHash (foldr (fun fv m => <[fv.1 := fv.2]> m) h fields))
                         (ks !! key ≫= re_expire)]> ks)
  | None => Ok (tt, <[key := mkEntry (RHash (foldr (fun fv m => <[fv.1 := fv.2]> m) ∅ fields)) None]> ks)
  end.

(** [PEXPIRE key ttl]. *)
Definition pexpire (key : string) (ttl_ms : Z) : redis unit := fun now ks =>
  match klive now ks key with
  | Some v => Ok (tt, <[key := mkEntry v (Some (now + ttl_ms))]> ks)
  | None => Ok (tt, ks)
  end.

(** [maxPenaltyDuration], internal/ratelimit/ratelimit.go:198-198. *)
Definition maxPenaltyDuration : Z := 5 * Minute.

Section ValKey.
Context {W : Type} {E : Env W} (cfg : LimitConfig).

(** A pipeline: the commands in order, each in its own round; the first error is reported. *)
Fixpoint pipe_Exec (cmds : list (redis unit)) : M W (result error unit) :=
  match cmds with
  | [] => ret (Ok tt)
  | c :: rest =>
      r1 <- redis_exec c ;;
      r2 <- pipe_Exec rest ;;
      ret (match r1 with Err e => Err e | Ok _ => r2 end)
  end.

(** [take], internal/ratelimit/ratelimit.go:169-193. The script's three integers arrive as int64. *)
Definition take (key : string) (capacity : Z) (rate : Q) : M W (result error unit) :=
  t <- time_Now ;;
  res <-? redis_exec (takeLuaScript key capacity rate (t / Millisecond))
     onerr e => ret (Err (Wrap "ratelimit: eval take script: " e)) ;;
  ret (match res with
       | allowed :: _ :: waitMS :: _ =>
           if allowed =? 1 then Ok tt
           else
             let retryAfter := wrap64 (waitMS * Millisecond) in
             Err (RateLimitError (if retryAfter <? Millisecond then Millisecond else retryAfter) key)
       | _ => Err (New "ratelimit: unexpected script result length")
       end).

(** [ValKeyLimiter.TakeGlobal], internal/ratelimit/ratelimit.go:158-161. *)
Definition ValKey_TakeGlobal : M W (result error unit) :=
  take (KeyPrefix cfg +:+ "global") (GlobalCapacity cfg) (GlobalRefillRate cfg).

(** [ValKeyLimiter.TakeRoute], internal/ratelimit/ratelimit.go:164-167. *)
Definition ValKey_TakeRoute (routeKey : string) : M W (result error unit) :=
  take (KeyPrefix cfg +:+ "route:" +:+ routeKey) (DefaultRouteCapacity cfg)
    (double (inject_Z (DefaultRouteCapacity cfg))).

(** The TTL [UpdateFromHeaders] gives the bucket. *)
Definition header_ttl (until : Z) : Z :=
  let ttl := wrap64 (until + 5 * Second) in
  let ttl := if ttl <=? 0 then 5 * Second else ttl in
  if ttl >? maxPenaltyDuration then maxPenaltyDuration else ttl.

(** [ValKeyLimiter.UpdateFromHeaders], internal/ratelimit/ratelimit.go:207-240. *)
Definition ValKey_UpdateFromHeaders (routeKey : string) (limit remaining resetAt : Z)
    : M W (result error unit) :=
  let remaining := if remaining <? 0 then 0 else remaining in
  let key := KeyPrefix cfg +:+ "route:" +:+ routeKey in
  t <- time_Now ;;
  let ttl := header_ttl (resetAt - t) in
  now <- time_Now ;;
  r <-? pipe_Exec [hset key [("tokens"%string, inject_Z remaining);
                             ("last_ms"%string, inject_Z (now / Millisecond));
                             ("capacity"%string, inject_Z limit)];
                   pexpire key (ttl / Millisecond)]
     onerr e => ret (Err (Wrap "ratelimit: update from headers: " e)) ;;
  ret (Ok tt).

(** The commands that freeze one bucket in [PenalizeUntil], internal/ratelimit/ratelimit.go:265-269. *)
Definition penalize_cmds (futureMS ttlMS : Z) (k : string) : list (redis unit) :=
  [hset k [("tokens"%string, 0%Q); ("last_ms"%string, inject_Z futureMS)]; pexpire k ttlMS].

(** [ValKeyLimiter.PenalizeUntil], internal/ratelimit/ratelimit.go:248-275. *)
Definition ValKey_PenalizeUntil (routeKey : string) (retryAfter : Z) : M W (result error unit) :=
  if retryAfter <=? 0 then ret (Ok tt)
  else
    let retryAfter := if retryAfter >? maxPenaltyDuration then maxPenaltyDuration else retryAfter in
    t <- time_Now ;;
    let futureMS := (t + retryAfter) / Millisecond in
    let ttlMS := (retryAfter + 10 * Second) / Millisecond in
    r <-? pipe_Exec (penalize_cmds futureMS ttlMS (KeyPrefix cfg +:+ "global") ++
                     penalize_cmds futureMS ttlMS (KeyPrefix cfg +:+ "route:" +:+ routeKey))
       onerr e => ret (Err (Wrap "ratelimit: penalize: " e)) ;;
    ret (Ok tt).

(** [New], internal/ratelimit/ratelimit.go:104-110. *)
Definition ValKeyLimiter : Limiter W :=
  mkLimiter W ValKey_TakeGlobal ValKey_TakeRoute ValKey_UpdateFromHeaders ValKey_PenalizeUntil.

(** [NoopLimiter], internal/ratelimit/ratelimit.go:280-287. *)
Definition NoopLimiter : Limiter W :=
  mkLimiter W (ret (Ok tt)) (fun _ => ret (Ok tt)) (fun _ _ _ _ => ret (Ok tt))
    (fun _ _ => ret (Ok tt)).
End ValKey.

(** ** Both implementations keep the law *)
Section Laws.
Context {W : Type} {E : Env W} {view : W -> View} {L : EnvLaws E view}.

Lemma limit_unchanged {A} (r : result error A) v :
  (forall e, r = Err e -> errors_Is e SkipRetry = false) -> limit_outcome v r v.
Proof. intros H. split; [exists (v_kv v); by rewrite with_kv_same|done]. Qed.

Lemma limit_redis {A} (c : redis A) :
  (forall now ks e, c now ks = Err e -> opaque e) ->
  Spec view (redis_exec c) limit_outcome.
Proof.
  intros Hc. eapply spec_mono; [apply redis_exec_law|]. intros v r v' H.
  apply redis_outcome_only_kv in H as [Hk He]; [|done]. split; [done|]. eauto with errors.
Qed.

Lemma pipe_Exec_spec cmds :
  Forall (fun c : redis unit => forall now ks e, c now ks = Err e -> opaque e) cmds ->
  Spec view (pipe_Exec cmds) limit_outcome.
Proof.
  induction cmds as [|c cmds IH]; intros Hf.
  - intros w. by apply limit_unchanged.
  - apply Forall_cons in Hf as [Hc Hf]. apply spec_of_wp. intros w. cbn.
    eapply wp_step; [by apply limit_redis|]. intros r1 w1 [[ks1 H1] He1].
    eapply wp_step; [by apply IH|]. intros r2 w2 [[ks2 H2] He2]. apply wp_ret.
    rewrite H2, H1. split; [by exists ks2|]. destruct r1; eauto.
Qed.

Lemma take_err_opaque key capacity rate now_ms now ks e :
  takeLuaScript key capacity rate now_ms now ks = Err e -> opaque e.
Proof.
  unfold takeLuaScript, hgetall. intros H. repeat case_match; simplify_eq. apply opaque_External.
Qed.
Lemma hset_err_opaque key fs now ks e : hset key fs now ks = Err e -> opaque e.
Proof. unfold hset. intros H. repeat case_match; simplify_eq. apply opaque_External. Qed.
Lemma pexpire_err_opaque key t now ks e : pexpire key t now ks = Err e -> opaque e.
Proof. unfold pexpire. intros H. by repeat case_match. Qed.

Ltac commands_ok :=
  repeat (apply Forall_cons; split;
          [intros ???; first [apply hset_err_opaque | apply pexpire_err_opaque]|]);
  by apply Forall_nil.

Lemma take_spec key capacity rate : Spec view (take key capacity rate) limit_outcome.
Proof.
  apply spec_of_wp. intros w. unfold take. go_step. subst.
  eapply wp_step; [apply limit_redis, take_err_opaque|]. intros r w2 [[ks Hk] He].
  rewrite H in Hk. destruct r as [l|e]; apply wp_ret; rewrite Hk; (split; [by eexists|]).
  - intros e. repeat case_match; intros; simplify_eq/=; done.
  - intros ? [= <-]. cbn. by apply He.
Qed.

#[export] Instance Noop_limiter_laws : LimiterLaws view (NoopLimiter (W := W)).
Proof. split; intros; intros w; by apply limit_unchanged. Qed.

Lemma penalize_cmds_ok f t k :
  Forall (fun c : redis unit => forall now ks e, c now ks = Err e -> opaque e) (penalize_cmds f t k).
Proof.
  commands_ok.
Qed.

#[export] Instance ValKey_limiter_laws cfg : LimiterLaws view (ValKeyLimiter (W := W) cfg).
Proof.
  split; intros; cbn; [apply take_spec|apply take_spec| |].
  - apply spec_of_wp. intros w. unfold ValKey_UpdateFromHeaders. go_step. subst. go_step.
    eapply wp_step; [apply pipe_Exec_spec|].
    { commands_ok. }
    intros x w2 [[ks Hk] He]. rewrite H0, H in Hk.
    destruct x; apply wp_ret; rewrite Hk; (split; [by eexists|]); [done|].
    intros ? [= <-]. cbn. by apply He.
  - apply spec_of_wp. intros w. unfold ValKey_PenalizeUntil. case_match; [by apply limit_unchanged|].
    go_step. eapply wp_step; [apply pipe_Exec_spec, Forall_app; split; apply penalize_cmds_ok|].
    intros x w2 [[ks Hk] He]. rewrite H0 in Hk.
    destruct x; apply wp_ret; rewrite Hk; (split; [by eexists|]); [done|].
    intros ? [= <-]. cbn. by apply He.
Qed.
End Laws.

(** ** The bucket never over-grants *)
Lemma lua_min_cases a b : ((a <= b)%Q /\ lua_min a b = a) \/ ((b < a)%Q /\ lua_min a b = b).
Proof.
  unfold lua_min. destruct (Qle_bool a b) eqn:H; [left|right]; (split; [|done]).
  - by apply Qle_bool_iff.
  - apply Qnot_le_lt. intros Hl. apply Qle_bool_iff in Hl. congruence.
Qed.

(** What the roundings of one take amount to at most, in parts of the capacity. *)
Definition slack (capacity : Z) : Q := (inject_Z capacity * (1 # 562949953421312))%Q.   (* 2^49 *)

(** The rounded refill is hardly more than the exact one, unless that fills the bucket. *)
Lemma rounded_refill (cap tok e rate : Q) : (0 <= tok <= cap -> 0 < rate ->
  let s := double (double tok + double (double e * rate)) in
  1 <= s -> s <= tok + e * rate + 8 * half_ulp * cap \/ cap <= tok + e * rate)%Q.
Proof.
  intros [Ht1 Ht2] Hr. cbv zeta. intros Hs. pose proof (double_pos tok Ht1) as [_ Htok].
  assert (0 < double tok + double (double e * rate))%Q as Hsum by (apply double_sign; lra).
  destruct (Qlt_le_dec (tok + e * rate) cap) as [Hlt|]; [left|by right].
  pose proof (double_pos _ (Qlt_le_weak _ _ Hsum)) as [_ Hdbl]. unfold half_ulp in *.
  destruct (Qlt_le_dec e 0) as [He|He].
  - pose proof (double_neg e (Qlt_le_weak _ _ He)) as [_ He2]. unfold half_ulp in *.
    assert (double e * rate <= e * rate * (1 - (1 # 9007199254740992)))%Q as H1.
    { assert (e * rate * (1 - (1 # 9007199254740992)) == e * (1 - (1 # 9007199254740992)) * rate)%Q as -> by ring.
      apply Qmult_le_compat_r; lra. }
    assert (double e * rate <= 0 * rate)%Q as H00 by (apply Qmult_le_compat_r; lra).
    assert (double e * rate <= 0)%Q as H0 by lra.
    pose proof (double_neg _ H0) as [_ H2]. unfold half_ulp in *. lra.
  - pose proof (double_pos e He) as [He0 He2]. unfold half_ulp in *.
    assert (double e * rate <= e * rate * (1 + (1 # 9007199254740992)))%Q as H1.
    { assert (e * rate * (1 + (1 # 9007199254740992)) == e * (1 + (1 # 9007199254740992)) * rate)%Q as -> by ring.
      apply Qmult_le_compat_r; lra. }
    assert (0 <= double e * rate)%Q as H0 by (apply Qmult_le_0_compat; lra).
    assert (0 <= e * rate)%Q as H3 by (apply Qmult_le_0_compat; lra).
    pose proof (double_pos _ H0) as [_ H2]. unfold half_ulp in *. lra.
Qed.

Section Bucket.
Context (key : string) (capacity : Z) (rate : Q).

(** Takes as they reach the server, each with its caller's clock and the server's, in milliseconds: the
    callers' times of those that were allowed. *)
Fixpoint take_run (takes : list (Z * Z)) (ks : Keyspace) : list Z * Keyspace :=
  match takes with
  | [] => ([], ks)
  | (now_ms, now) :: rest =>
      match takeLuaScript key capacity rate now_ms now ks with
      | Ok (allowed :: _, ks') =>
          let '(granted, ks'') := take_run rest ks' in
          (if allowed =? 1 then now_ms :: granted else granted, ks'')
      | _ => take_run rest ks
      end
  end.

(** The server's clock does not go back, and the callers' clocks are within 2.5 seconds of it. *)
Fixpoint clocks_ok (s0 : Z) (takes : list (Z * Z)) : Prop :=
  match takes with
  | [] => True
  | (c, s) :: rest => s0 <= s /\ 0 <= c < 2 ^ 52 /\ Z.abs (c - s) <= 2500 /\ clocks_ok s rest
  end.

(** Tokens refilled between two times. *)
Definition refill (a b : Z) : Q := (((inject_Z b - inject_Z a) / inject_Z 1000) * rate)%Q.

(** The bucket after [n] takes that were allowed, the first at [c1] and the last at [last], by [s]. *)
Definition bucket_inv (n : nat) (c1 last s : Z) (ks : Keyspace) : Prop :=
  exists h tok lastq sl, ks !! key = Some (mkEntry (RHash h) (Some (sl + bucket_ttl capacity rate))) /\
    h !! "tokens"%string = Some tok /\ h !! "last_ms"%string = Some lastq /\ (lastq == inject_Z last)%Q /\
    0 <= last < 2 ^ 52 /\ Z.abs (last - sl) <= 2500 /\ sl <= s /\ (0 <= tok <= inject_Z capacity)%Q /\
    (tok <= inject_Z capacity - inject_Z (Z.of_nat n) + inject_Z (Z.of_nat n) * slack capacity + refill c1 last)%Q.

Hypothesis Hcap : 0 <= capacity < 2 ^ 53.
Hypothesis Hrate : (0 < rate)%Q.
(** An empty bucket is full again within 2^40 seconds. *)
Hypothesis Hfull : (inject_Z capacity <= rate * inject_Z (2 ^ 40))%Q.

Lemma capacity_nonneg : (0 <= inject_Z capacity)%Q.
Proof. rewrite <-(Zle_Qle 0). lia. Qed.
Lemma capacity_exact : (lua_int capacity == inject_Z capacity)%Q.
Proof. apply double_int; [done|lia]. Qed.
Lemma time_exact c : 0 <= c < 2 ^ 52 -> (lua_int c == inject_Z c)%Q.
Proof. intros Hc. apply double_int; [done|lia]. Qed.

Lemma inject_Z_sub a b : inject_Z (a - b) = (inject_Z a - inject_Z b)%Q.
Proof. unfold Z.sub, Qminus. by rewrite inject_Z_plus, inject_Z_opp. Qed.

Lemma refill_split a b c : (refill a c == refill a b + refill b c)%Q.
Proof. unfold refill. field. Qed.
Lemma refill_mono a b b' : b <= b' -> (refill a b <= refill a b')%Q.
Proof.
  intros H. unfold refill. apply Qmult_le_compat_r; [|lra]. rewrite Zle_Qle in H.
  apply Qmult_le_compat_r; [lra|done].
Qed.

(** A key lives long enough for the bucket to be full again, and five seconds more. *)
Lemma ttl_refills last : (inject_Z capacity * (1 - 4 * half_ulp) <= refill last (last + bucket_ttl capacity rate - 5000))%Q.
Proof.
  pose proof capacity_nonneg as H0. unfold bucket_ttl.
  rewrite (double_proper (lua_int capacity / rate) (inject_Z capacity / rate)) by (by rewrite capacity_exact).
  set (t := (inject_Z capacity / rate)%Q).
  assert (t * rate == inject_Z capacity)%Q as Htr by (unfold t; field; lra).
  assert (0 <= t)%Q as Ht0 by (unfold t; apply Qle_shift_div_l; lra).
  assert (t <= inject_Z (2 ^ 40))%Q as Ht1 by (unfold t; apply Qle_shift_div_r; lra).
  pose proof (double_pos t Ht0) as [Ha Hb]. assert (0 <= double t * inject_Z 1000)%Q as Hc0.
  { apply Qmult_le_0_compat; [|done]. unfold half_ulp in Ha. lra. }
  pose proof (double_pos _ Hc0) as [Hd He]. set (x := double (double t * inject_Z 1000)) in *.
  pose proof (Qle_ceiling x) as Hceil. set (n := Qceiling x) in *.
  change (inject_Z 1000) with (1000 # 1)%Q in Hd, He. change (inject_Z (2 ^ 40)) with (1099511627776 # 1)%Q in Ht1.
  unfold half_ulp in *.
  assert (Hn0 : 0 <= n) by (apply (Qceiling_resp_le 0); lra).
  assert (Hn1 : n <= 2 ^ 51).
  { change (2 ^ 51) with (Qceiling (inject_Z (2 ^ 51))). apply Qceiling_resp_le.
    change (inject_Z (2 ^ 51)) with (2251799813685248 # 1)%Q. lra. }
  assert (Hx : (double (inject_Z n + inject_Z 5000) == inject_Z (n + 5000))%Q)
    by (apply double_int; [by rewrite inject_Z_plus|lia]).
  assert (Qfloor (double (inject_Z n + inject_Z 5000)) = n + 5000) as -> by (by rewrite Hx, Qfloor_Z).
  replace (last + (n + 5000) - 5000) with (last + n) by lia. unfold refill. rewrite inject_Z_plus.
  assert ((inject_Z last + inject_Z n - inject_Z last) / inject_Z 1000 * rate == inject_Z n * rate * (1 # 1000))%Q as ->
    by (change (inject_Z 1000) with (1000 # 1)%Q; field).
  assert (t * (1000 # 1) * (1 - 4 * (1 # 9007199254740992)) * rate <= inject_Z n * rate)%Q as Hm
    by (apply Qmult_le_compat_r; lra).
  assert (t * (1000 # 1) * (1 - 4 * (1 # 9007199254740992)) * rate ==
          inject_Z capacity * (1000 # 1) * (1 - 4 * (1 # 9007199254740992)))%Q as Heq by (rewrite <-Htr; ring).
  rewrite Heq in Hm.
  lra.
Qed.

(** One token less, rounded. *)
Lemma spend_one (a : Q) : (1 <= a <= inject_Z capacity)%Q ->
  (0 <= double (a - 1) <= inject_Z capacity)%Q /\ (double (a - 1) <= a - 1 + half_ulp * inject_Z capacity)%Q.
Proof.
  intros [H1 H2]. assert (inject_Z capacity <= 9007199254740992 # 1)%Q as Hb.
  { change (9007199254740992 # 1)%Q with (inject_Z (2 ^ 53)). rewrite <-Zle_Qle. lia. }
  pose proof (double_pos (a - 1) ltac:(lra)) as [Ha Hd]. unfold half_ulp in *. split_and!; lra.
Qed.

(** What a refused take leaves, and what one that is allowed writes. *)
Lemma take_cases now_ms now ks state : hgetall now ks key = Ok state ->
  let tokens := bucket_tokens capacity rate now_ms state in
  if Qle_bool 1 tokens
  then exists left h, takeLuaScript key capacity rate now_ms now ks =
         Ok ([1; Qfloor left; 0], <[key := mkEntry (RHash h) (Some (now + bucket_ttl capacity rate))]> ks) /\
       left = double (tokens - 1) /\ h !! "tokens"%string = Some left /\ h !! "last_ms"%string = Some (lua_int now_ms)
  else exists w, takeLuaScript key capacity rate now_ms now ks = Ok ([0; 0; w], ks).
Proof.
  intros Hg. unfold takeLuaScript. rewrite Hg. cbv zeta. destruct (Qle_bool 1 _); [|by eexists].
  eexists _, _. split; [reflexivity|]. split; [done|].
  by rewrite lookup_insert_eq, lookup_insert_ne, lookup_insert_eq.
Qed.

(** The bucket between takes: absent, or as the invariant says after [n] that were allowed. *)
Definition bucket_state (n : nat) (c1 last s : Z) (ks : Keyspace) : Prop :=
  match n with O => ks !! key = None | _ => bucket_inv n c1 last s ks end.

(** The tokens a take finds: the capacity in a new or forgotten bucket; otherwise hardly more than are
    refilled. *)
Lemma tokens_live tok lastq last c h :
  h !! "tokens"%string = Some tok -> h !! "last_ms"%string = Some lastq -> (lastq == inject_Z last)%Q ->
  0 <= last < 2 ^ 52 -> 0 <= c < 2 ^ 52 -> (0 <= tok <= inject_Z capacity)%Q ->
  let a := bucket_tokens capacity rate c (Some h) in
  (1 <= a -> a <= inject_Z capacity /\ a <= tok + refill last c + 8 * half_ulp * inject_Z capacity)%Q.
Proof.
  intros Ht Hl Hlq Hlast Hc Htok. cbv zeta. unfold bucket_tokens. rewrite Ht, Hl. cbn.
  assert (double (double (lua_int c - double lastq) / inject_Z 1000) = double ((inject_Z c - inject_Z last) / inject_Z 1000)) as ->.
  { apply double_proper. rewrite (double_int (lua_int c - double lastq) (c - last)); [by rewrite inject_Z_sub| |lia].
    rewrite time_exact, (double_int lastq last) by (done || lia). by rewrite inject_Z_sub. }
  fold (refill last c). pose proof capacity_exact as Hce.
  pose proof (rounded_refill (inject_Z capacity) tok ((inject_Z c - inject_Z last) / inject_Z 1000) rate Htok Hrate) as Hr.
  cbv zeta in Hr. fold (refill last c) in Hr. pose proof capacity_nonneg as H0.
  set (s := double (double tok + _)) in *. unfold half_ulp in *.
  destruct (lua_min_cases (lua_int capacity) s) as [[Hle ->]|[Hlt ->]]; intros H1.
  - destruct Hr; [lra|lra|]. split; lra.
  - destruct Hr; [lra|lra|]. split; lra.
Qed.

Lemma live_or_expired s ks h sl : ks !! key = Some (mkEntry (RHash h) (Some (sl + bucket_ttl capacity rate))) ->
  (hgetall s ks key = Ok (Some h)) \/ (hgetall s ks key = Ok None /\ sl + bucket_ttl capacity rate <= s).
Proof.
  intros Hk. unfold hgetall, klive. rewrite Hk. cbn. destruct (s <? _) eqn:E; [by left|right]. split; [done|lia].
Qed.

Lemma tokens_absent c : bucket_tokens capacity rate c None = lua_int capacity.
Proof. done. Qed.

(** One take: a refused one changes nothing, one that is allowed keeps the account. *)
Lemma bucket_step n c1 last s0 c s ks : bucket_state n c1 last s0 ks ->
  s0 <= s -> 0 <= c < 2 ^ 52 -> Z.abs (c - s) <= 2500 ->
  (exists w, takeLuaScript key capacity rate c s ks = Ok ([0; 0; w], ks)) \/
  (exists r l ks', takeLuaScript key capacity rate c s ks = Ok (1 :: r :: l, ks') /\
     bucket_inv (S n) (match n with O => c | _ => c1 end) c s ks').
Proof.
  intros Hst Hs Hc Hcl. pose proof capacity_exact as Hce. pose proof capacity_nonneg as H0.
  pose proof (time_exact c Hc) as Hce'.
  assert (forall state (c0 : Z), hgetall s ks key = Ok state ->
    (1 <= bucket_tokens capacity rate c state -> bucket_tokens capacity rate c state <= inject_Z capacity /\
     bucket_tokens capacity rate c state <= inject_Z capacity - inject_Z (Z.of_nat n)
       + inject_Z (Z.of_nat n) * slack capacity + refill c0 c + 15 * half_ulp * inject_Z capacity)%Q ->
    (exists w, takeLuaScript key capacity rate c s ks = Ok ([0; 0; w], ks)) \/
    (exists r l ks', takeLuaScript key capacity rate c s ks = Ok (1 :: r :: l, ks') /\ bucket_inv (S n) c0 c s ks')) as Hgo.
  { intros state c0 Hg Htok. pose proof (take_cases c s ks state Hg) as Hcase. cbv zeta in Hcase.
    destruct (Qle_bool 1 _) eqn:E; [right|left; exact Hcase].
    apply Qle_bool_iff in E. destruct Hcase as (left & h & -> & -> & Ht & Hl). destruct (Htok E) as [Ha1 Ha2].
    destruct (spend_one _ (conj E Ha1)) as [Hd Hd2]. do 3 eexists. split; [reflexivity|].
    eexists h, _, (lua_int c), s. rewrite lookup_insert_eq. split_and!; [done|exact Ht|done|done|lia|lia|done|lia|apply Hd|apply Hd|].
    rewrite Nat2Z.inj_succ. unfold Z.succ. rewrite inject_Z_plus. change (inject_Z 1) with 1%Q.
    unfold slack, half_ulp in *. lra. }
  destruct n as [|n]; cbn in Hst.
  - apply (Hgo None); [by unfold hgetall, klive; rewrite Hst|]. rewrite tokens_absent. intros _.
    assert (refill c c == 0)%Q as -> by (unfold refill; field).
    change (inject_Z (Z.of_nat 0)) with 0%Q. unfold half_ulp. split; lra.
  - destruct Hst as (h & tok & lastq & sl & Hk & Ht & Hl & Hlq & Hlast & Hsl & Hsl2 & Htok & Hinv).
    destruct (live_or_expired s ks h sl Hk) as [Hg|[Hg Hexp]]; apply (Hgo _ c1 Hg); intros H1.
    + destruct (tokens_live tok lastq last c h Ht Hl Hlq Hlast Hc Htok H1) as [Ha1 Ha2].
      split; [done|]. rewrite (refill_split c1 last c). unfold half_ulp in *. lra.
    + rewrite tokens_absent. pose proof (ttl_refills last) as Httl.
      pose proof (refill_mono last (last + bucket_ttl capacity rate - 5000) c ltac:(lia)) as Hmono.
      rewrite (refill_split c1 last c). unfold half_ulp in *. split; lra.
Qed.

Lemma bucket_state_later n c1 last s s' ks : bucket_state n c1 last s ks -> s <= s' -> bucket_state n c1 last s' ks.
Proof.
  destruct n; cbn; [done|]. intros (h & tok & lastq & sl & Hk & Ht & Hl & Hq & Hr & Hd & Hs & H) Hle.
  exists h, tok, lastq, sl. do 6 (split; [done|]). split; [lia|done].
Qed.

(** The account over a run. *)
Lemma take_run_account takes : forall n c1 lst s0 ks,
  bucket_state n c1 lst s0 ks -> clocks_ok s0 takes ->
  let g := (take_run takes ks).1 in
  exists s', bucket_state (n + length g) (match n with O => default c1 (head g) | _ => c1 end)
               (default lst (last g)) s' (take_run takes ks).2.
Proof.
  induction takes as [|[c s] takes IH]; intros n c1 lst s0 ks Hst Hok; cbn.
  - exists s0. rewrite Nat.add_0_r. by destruct n.
  - destruct Hok as (Hs & Hc & Hcl & Hok).
    destruct (bucket_step n c1 lst s0 c s ks Hst Hs Hc Hcl) as [(w & ->)|(r & l & ks' & -> & Hinv)]; cbn.
    + destruct (IH n c1 lst s ks) as [s' IHs]; [by eapply bucket_state_later|done|].
      destruct (take_run takes ks) as [g ks']; cbn in *. by exists s'.
    + destruct (IH (S n) (match n with O => c | _ => c1 end) c s ks' Hinv Hok) as [s' IHs].
      destruct (take_run takes ks') as [g ks'']; cbn in *. exists s'.
      replace (n + S (length g))%nat with (S (n + length g)) by lia.
      rewrite last_cons. destruct n, (last g); exact IHs.
Qed.
End Bucket.

(** C30: A bucket that is absent at first and that only takes touch (no header updates, no penalties) grants at
    most its capacity plus what the refill rate allows between the first and the last take it grants, on their
    callers' clocks, plus for each of them the capacity over 2^49, which the rounding of the script's doubles
    amounts to at most. The server may forget the bucket in between. The callers' clocks may disagree and go
    back, but each is within 2.5 seconds of the server's, which does not go back; a bucket is refilled within
    2^40 seconds. *)
Theorem bucket_never_overgrants (key : string) (capacity : Z) (rate : Q) (s0 : Z) (takes : list (Z * Z)) (ks : Keyspace) :
  0 <= capacity < 2 ^ 53 -> (0 < rate)%Q -> (inject_Z capacity <= rate * inject_Z (2 ^ 40))%Q ->
  ks !! key = None -> clocks_ok s0 takes ->
  match (take_run key capacity rate takes ks).1 with
  | [] => True
  | c1 :: rest =>
      let n := inject_Z (Z.of_nat (S (length rest))) in
      (n <= inject_Z capacity + refill rate c1 (default c1 (last rest)) + n * slack capacity)%Q
  end.
Proof.
  intros Hcap Hrate Hfull Hk Hok.
  destruct (take_run_account key capacity rate Hcap Hrate Hfull takes 0 0 0 s0 ks Hk Hok) as [s' Hinv].
  destruct (take_run key capacity rate takes ks) as [[|c1 rest] ks']; cbn in *; [done|].
  destruct Hinv as (h & tok & lastq & sl & _ & _ & _ & _ & _ & _ & _ & Htok & Hinv).
  rewrite last_cons in Hinv. destruct (last rest); cbn in *; lra.
Qed.

Lemma bucket_never_overgrants_witness :
  (take_run "rl:global" 2 45 [(1000, 1010); (1005, 1010); (1001, 1012); (1100, 1100)] ∅).1 = [1000; 1005; 1100] /\
  (inject_Z 3 <= inject_Z 2 + refill 45 1000 1100 + inject_Z 3 * slack 2)%Q.
Proof.
  set (takes := [(1000, 1010); (1005, 1010); (1001, 1012); (1100, 1100)]).
  assert ((take_run "rl:global" 2 45 takes ∅).1 = [1000; 1005; 1100]) as Hg by (by vm_compute).
  split; [exact Hg|].
  assert (clocks_ok 1000 takes) as Hok by (cbn; lia).
  pose proof (bucket_never_overgrants "rl:global" 2 45 1000 takes ∅ ltac:(lia) ltac:(lra) ltac:(by vm_compute) eq_refl Hok) as H.
  rewrite Hg in H. exact H.
Defined.

(** ** Penalties *)

(** The commands of a pipeline at one server time. *)
Fixpoint run_cmds (now : Z) (cmds : list (redis unit)) (ks : Keyspace) : result error Keyspace :=
  match cmds with
  | [] => Ok ks
  | c :: rest => match c now ks with Ok (_, ks') => run_cmds now rest ks' | Err e => Err e end
  end.

(** The bucket a penalty leaves. *)
Lemma penalize_bucket (key : string) (f ttl now : Z) (ks : Keyspace) :
  (forall s, klive now ks key <> Some (RStr s)) ->
  exists ks', run_cmds now (penalize_cmds f ttl key) ks = Ok ks' /\
    exists h, ks' !! key = Some (mkEntry (RHash h) (Some (now + ttl))) /\
      h !! "tokens"%string = Some 0%Q /\ h !! "last_ms"%string = Some (inject_Z f).
Proof.
  intros Hty. unfold penalize_cmds, run_cmds, hset, pexpire.
  destruct (klive now ks key) as [[s|h]|] eqn:Hl; [by edestruct Hty| |]; cbn.
  - assert (klive now (<[key := mkEntry (RHash (<["tokens"%string := 0%Q]>
      (<["last_ms"%string := inject_Z f]> h))) (ks !! key ≫= re_expire)]> ks) key =
      Some (RHash (<["tokens"%string := 0%Q]> (<["last_ms"%string := inject_Z f]> h)))) as ->.
    { unfold klive in *. rewrite lookup_insert_eq. cbn. destruct (ks !! key) as [[v [x|]]|]; cbn in *;
        repeat case_match; by simplify_eq. }
    eexists. split; [done|]. rewrite lookup_insert_eq. eexists. split; [done|].
    by rewrite lookup_insert_eq, lookup_insert_ne, lookup_insert_eq by done.
  - unfold klive. rewrite lookup_insert_eq. cbn. eexists. split; [done|].
    rewrite lookup_insert_eq. eexists. split; [done|].
    by rewrite lookup_insert_eq, lookup_insert_ne, lookup_insert_eq by done.
Qed.

(** An empty bucket stamped in the future is in debt. *)
Lemma frozen_tokens capacity rate f t h : (0 < rate)%Q -> 0 <= t <= f -> f < 2 ^ 52 ->
  h !! "tokens"%string = Some 0%Q -> h !! "last_ms"%string = Some (inject_Z f) ->
  (bucket_tokens capacity rate t (Some h) <= - (refill rate t f * (1 - 3 * half_ulp)))%Q.
Proof.
  intros Hr Ht Hf Htok Hl. unfold bucket_tokens. rewrite Htok, Hl. cbn.
  set (u := refill rate t f).
  assert (0 <= u)%Q as Hu.
  { pose proof (refill_mono rate Hr t t f ltac:(lia)) as Hm.
    assert (refill rate t t == 0)%Q as H0 by (unfold refill; field). unfold u. lra. }
  set (e := ((inject_Z t - inject_Z f) / inject_Z 1000)%Q).
  assert (double (double (lua_int t - double (inject_Z f)) / inject_Z 1000) = double e) as ->.
  { apply double_proper. rewrite (double_int (lua_int t - double (inject_Z f)) (t - f)); [by rewrite inject_Z_sub| |lia].
    rewrite time_exact, (double_int (inject_Z f) f) by (done || lia). by rewrite inject_Z_sub. }
  assert (e * rate == - u)%Q as Heu by (unfold e, u, refill; field).
  assert (e <= 0)%Q as He.
  { unfold e. apply Qle_shift_div_r; [done|]. assert (inject_Z t <= inject_Z f)%Q by (rewrite <-Zle_Qle; lia). lra. }
  pose proof (double_neg e He) as [_ H1].
  assert (double e * rate <= - u * (1 - half_ulp))%Q as H2.
  { rewrite <-Heu. assert (e * rate * (1 - half_ulp) == e * (1 - half_ulp) * rate)%Q as -> by ring.
    apply Qmult_le_compat_r; lra. }
  unfold half_ulp in *.
  pose proof (double_neg (double e * rate) ltac:(lra)) as [_ H3]. unfold half_ulp in *.
  assert (double 0 == 0)%Q as Hz by (by apply (double_int 0 0)).
  pose proof (double_neg (double 0 + double (double e * rate)) ltac:(lra)) as [_ H4]. unfold half_ulp in *.
  destruct (lua_min_cases (lua_int capacity) (double (double 0 + double (double e * rate)))) as [[? ->]|[? ->]]; lra.
Qed.

(** A penalty on a bucket (whatever hash or nothing it held) until a time [f] denies every take that
    reaches the server before its TTL, by a caller whose clock has not passed [f], and the wait each denial asks
    for reaches [f]. *)
Theorem penalty_freezes (key : string) (capacity : Z) (rate : Q) (f ttl now t s : Z) (ks : Keyspace) :
  (0 < rate)%Q -> (forall v, klive now ks key <> Some (RStr v)) -> s < now + ttl ->
  0 <= t <= f -> f < 2 ^ 52 -> f - t <= 2 ^ 40 ->
  exists ks' w, run_cmds now (penalize_cmds f ttl key) ks = Ok ks' /\
    takeLuaScript key capacity rate t s ks' = Ok ([0; 0; w], ks') /\ f - t <= w.
Proof.
  intros Hrate Hty Hs Ht Hf Hd.
  destruct (penalize_bucket key f ttl now ks Hty) as (ks' & Hrun & h & Hk & Htok & Hlast).
  exists ks'. unfold takeLuaScript, hgetall, klive. rewrite Hk. cbn [re_expire re_value].
  assert ((s <? now + ttl) = true) as -> by lia.
  pose proof (frozen_tokens capacity rate f t h Hrate Ht Hf Htok Hlast) as Hx.
  set (x := bucket_tokens capacity rate t (Some h)) in *.
  assert (inject_Z (f - t) == (refill rate t f / rate) * inject_Z 1000)%Q as HD.
  { unfold refill. rewrite inject_Z_sub. field. lra. }
  set (u := refill rate t f) in *.
  assert (0 <= u)%Q as Hu.
  { pose proof (refill_mono rate Hrate t t f ltac:(lia)) as Hm.
    assert (refill rate t t == 0)%Q as H0 by (unfold refill; field). unfold u. lra. }
  unfold half_ulp in *.
  destruct (Qle_bool 1 x) eqn:Hb; [apply Qle_bool_iff in Hb; lra|].
  eexists. split; [done|]. split; [done|].
  pose proof (double_pos (1 - x) ltac:(lra)) as [H1 _]. set (y := double (1 - x)) in *. unfold half_ulp in *.
  set (v := (u / rate)%Q) in *.
  assert (v * (1 - 4 * (1 # 9007199254740992)) <= y / rate)%Q as H2.
  { apply Qle_shift_div_l; [done|]. assert (v * (1 - 4 * (1 # 9007199254740992)) * rate == u * (1 - 4 * (1 # 9007199254740992)))%Q as ->
      by (unfold v; field; lra). lra. }
  assert (0 <= v)%Q as Hv by (unfold v; apply Qle_shift_div_l; lra).
  pose proof (double_pos (y / rate) ltac:(lra)) as [H3 _]. set (z := double (y / rate)) in *. unfold half_ulp in *.
  change (inject_Z 1000) with (1000 # 1)%Q in *.
  pose proof (double_pos (z * (1000 # 1)) ltac:(lra)) as [H4 _]. unfold half_ulp in *.
  assert (inject_Z (f - t) <= 1099511627776 # 1)%Q as H5.
  { change (1099511627776 # 1)%Q with (inject_Z (2 ^ 40)). rewrite <-Zle_Qle. lia. }
  pose proof (Qle_ceiling (double (z * (1000 # 1)))) as H6. set (w := Qceiling _) in *.
  assert (inject_Z (f - t - 1) < inject_Z w)%Q as H7.
  { rewrite inject_Z_sub. change (inject_Z 1) with 1%Q. lra. }
  rewrite <-Zlt_Qlt in H7. lia.
Qed.

Lemma penalty_freezes_witness :
  exists ks' w, run_cmds 100 (penalize_cmds 5000 15000 "rl:global") ∅ = Ok ks' /\
    takeLuaScript "rl:global" 45 45 2100 2050 ks' = Ok ([0; 0; w], ks') /\ 2900 <= w.
Proof.
  apply (penalty_freezes "rl:global" 45 45 5000 15000 100 2100 2050 ∅); [reflexivity | discriminate | lia ..].
Defined.
