(* ===== verification/Observability.v ===== *)
(** * Observability: the Prometheus metrics of internal/observability

    The collectors and their registration, and what recording does. A nil [*Metrics] records nothing:
    components hold a flag that says whether one was attached. *)
From S2P Require Import Prelude Errors Domain Schema Services.

(** ** The collectors *)

(** What client_golang's constructors are given. *)
Inductive Collector : Type :=
| HistogramVec (name help : string) (buckets : list Q) (labels : list string)
| Gauge (name help : string)
| Counter (name help : string)
| CounterVec (name help : string) (labels : list string).
Definition collector_name (c : Collector) : string :=
  match c with HistogramVec n _ _ _ | Gauge n _ | Counter n _ | CounterVec n _ _ => n end.
Definition collector_labels (c : Collector) : list string :=
  match c with HistogramVec _ _ _ ls | CounterVec _ _ ls => ls | _ => [] end.

(** The names Prometheus accepts: [[a-zA-Z_:][a-zA-Z0-9_:]*], and no colon in a label. *)
Definition name_start (colon : bool) (a : Ascii.ascii) : bool :=
  let n := Ascii.nat_of_ascii a in
  (Nat.leb 97 n && Nat.leb n 122) || (Nat.leb 65 n && Nat.leb n 90) || Nat.eqb n 95 || (colon && Nat.eqb n 58).
Definition name_char (colon : bool) (a : Ascii.ascii) : bool :=
  name_start colon a || (Nat.leb 48 (Ascii.nat_of_ascii a) && Nat.leb (Ascii.nat_of_ascii a) 57).
Definition name_ok (colon : bool) (s : string) : bool :=
  match s with
  | EmptyString => false
  | String a s => name_start colon a && forallb (name_char colon) (String.list_ascii_of_string s)
  end.
Fixpoint increasing (qs : list Q) : bool :=
  match qs with a :: (b :: _) as rest => negb (Qle_bool b a) && increasing rest | _ => true end.
(** A collector that can be made and registered: proper names, distinct labels, increasing buckets, and
    no label of the user's called [le] on a histogram. *)
Definition collector_ok (c : Collector) : bool :=
  name_ok true (collector_name c) && forallb (name_ok false) (collector_labels c) && bool_decide (NoDup (collector_labels c)) &&
  match c with
  | HistogramVec _ _ bs ls => increasing bs && negb (bool_decide ("le"%string ∈ ls))
  | _ => true
  end.

(** client_golang's registries; [None] is the panic of [MustRegister]. *)
Class Prometheus (Registry : Type) : Type := {
  prom_NewRegistry : Registry;
  prom_MustRegister : Collector -> Registry -> option Registry;
  prom_names : Registry -> list string
}.
(** A registry refuses a name that it has already, and takes a proper collector otherwise. *)
Class PrometheusLaws {Registry} (P : Prometheus Registry) : Prop := {
  NewRegistry_law : prom_names prom_NewRegistry = [];
  MustRegister_law : forall c r, collector_ok c = true -> collector_name c ∉ prom_names r ->
    exists r', prom_MustRegister c r = Some r' /\ prom_names r' = prom_names r ++ [collector_name c]
}.

Section Registration.
Context {Registry : Type} {P : Prometheus Registry}.

(** [Metrics], internal/observability/metrics.go:22-28. *)
Record Instruments : Type := mkInstruments {
  ins_ProvisioningLatency : Collector;
  ins_ActiveSpaces : Collector;
  ins_RateLimitHits : Collector;
  ins_Errors : Collector;
  ins_registry : Registry
}.

(** [NewMetrics], internal/observability/metrics.go:36-77. *)
Definition NewMetrics : option Instruments :=
  let reg := prom_NewRegistry in
  let provisioningLatency := HistogramVec "hub_provisioning_latency_seconds"
    "End-to-end latency of space provisioning jobs in seconds."
    [1#10; 1#2; 1#1; 5#2; 5#1; 10#1; 30#1]%Q ["status"%string] in
  reg ← prom_MustRegister provisioningLatency reg;
  let activeSpaces := Gauge "hub_active_spaces_total" "Current number of spaces in lifecycle state=active." in
  reg ← prom_MustRegister activeSpaces reg;
  let rateLimitHits := Counter "hub_ratelimit_hits_total"
    "Total number of times a worker was denied by the distributed token bucket." in
  reg ← prom_MustRegister rateLimitHits reg;
  let errors := CounterVec "hub_errors_total" "Total number of worker errors by kind." ["kind"%string] in
  reg ← prom_MustRegister errors reg;
  Some (mkInstruments provisioningLatency activeSpaces rateLimitHits errors reg).

(** [DefaultMetrics], internal/observability/metrics.go:31. *)
Definition DefaultMetrics : Type := option Instruments.
(** [InitMetrics], internal/observability/metrics.go:86-89: what it returns, and the variable after it. *)
Definition InitMetrics (_ : DefaultMetrics) : option (Instruments * DefaultMetrics) :=
  m ← NewMetrics; Some (m, Some m).

(** [Handler], internal/observability/metrics.go:80-82, with [promhttp.HandlerFor]. *)
Definition Metrics_Handler {H : Type} (promhttp_HandlerFor : Registry -> H) (m : Instruments) : H :=
  promhttp_HandlerFor (ins_registry m).
End Registration.

(** What a start leaves: the four collectors under names of their own, with as many labels as the recording
    functions give values for. *)
Definition metrics_ready `{Prometheus Registry} (m : Instruments) : Prop :=
  prom_names (ins_registry m) = ["hub_provisioning_latency_seconds"; "hub_active_spaces_total";
                                 "hub_ratelimit_hits_total"; "hub_errors_total"]%string /\
  length (collector_labels (ins_ProvisioningLatency m)) = 1%nat /\ length (collector_labels (ins_Errors m)) = 1%nat.

Section Register.
Context {Registry : Type} {P : Prometheus Registry} {PL : PrometheusLaws P}.

Lemma register_then {A} (Q : A -> Prop) c r names (k : Registry -> option A) :
  prom_names r = names -> collector_ok c && bool_decide (collector_name c ∉ names) = true ->
  (forall r', prom_names r' = names ++ [collector_name c] -> exists m, k r' = Some m /\ Q m) ->
  exists m, (prom_MustRegister c r ≫= k) = Some m /\ Q m.
Proof.
  intros <- [Hc Hn%bool_decide_eq_true]%andb_prop Hk. destruct (MustRegister_law c r Hc Hn) as (r' & -> & Hr'). by apply Hk.
Qed.

(** Starting never panics: a registry of its own takes the collectors, whatever was called before. *)
Lemma metrics_register (before : DefaultMetrics) :
  exists m, InitMetrics before = Some (m, Some m) /\ metrics_ready m.
Proof.
  unfold InitMetrics. enough (exists m, NewMetrics = Some m /\ metrics_ready m) as (m & -> & Hm) by by exists m.
  eapply register_then; [exact NewRegistry_law|vm_compute; reflexivity|]. intros r1 H1.
  eapply register_then; [exact H1|vm_compute; reflexivity|]. intros r2 H2.
  eapply register_then; [exact H2|vm_compute; reflexivity|]. intros r3 H3.
  eapply register_then; [exact H3|vm_compute; reflexivity|]. intros r4 H4.
  eexists. split; [reflexivity|]. by split; [exact H4|].
Qed.
End Register.

(** A list of names is a registry. *)
#[export] Instance list_registry : Prometheus (list string) := {|
  prom_NewRegistry := [];
  prom_MustRegister c r := if collector_ok c && bool_decide (collector_name c ∉ r) then Some (r ++ [collector_name c]) else None;
  prom_names r := r |}.
#[export] Instance list_registry_laws : PrometheusLaws list_registry.
Proof. split; [done|]. intros c r Hc Hn. cbn. rewrite Hc, bool_decide_eq_true_2 by done. cbn. eauto. Qed.

(** ** Recording *)

Section Metrics.
Context {W : Type} {E : Env W}.

(** [RecordProvisioningLatency], internal/observability/metrics.go:93-102. *)
Definition RecordProvisioningLatency (m : bool) (elapsed : Z) (success : bool) : M W unit :=
  if negb m then ret tt
  else
    let status := if negb success then "failure"%string else "success"%string in
    prom_update (fun x => mkMetrics (mt_ProvisioningLatency x ++ [(status, elapsed)])
                            (mt_ActiveSpaces x) (mt_RateLimitHits x) (mt_Errors x)).

(** [IncRateLimitHit], internal/observability/metrics.go:106-111. *)
Definition IncRateLimitHit (m : bool) : M W unit :=
  if negb m then ret tt
  else prom_update (fun x => mkMetrics (mt_ProvisioningLatency x) (mt_ActiveSpaces x)
                               (mt_RateLimitHits x + 1) (mt_Errors x)).

(** [IncError], internal/observability/metrics.go:114-119. *)
Definition IncError (m : bool) (kind : string) : M W unit :=
  if negb m then ret tt
  else prom_update (fun x => mkMetrics (mt_ProvisioningLatency x) (mt_ActiveSpaces x)
                               (mt_RateLimitHits x)
                               (<[kind := default 0 (mt_Errors x !! kind) + 1]> (mt_Errors x))).

(** [SetActiveSpaces], internal/observability/metrics.go:122-127. *)
Definition SetActiveSpaces (m : bool) (n : Z) : M W unit :=
  if negb m then ret tt
  else prom_update (fun x => mkMetrics (mt_ProvisioningLatency x) n (mt_RateLimitHits x) (mt_Errors x)).
End Metrics.

(** Recording changes the metrics only. *)
Definition only_metrics {A} (v : View) (_ : A) (v' : View) : Prop := exists m, v' = with_metrics m v.

Lemma with_metrics_same v : with_metrics (v_metrics v) v = v.
Proof. by destruct v. Qed.

Section Specs.
Context {W : Type} {E : Env W} {view : W -> View} {L : EnvLaws E view}.

Lemma metrics_spec (m : bool) f :
  Spec view (if negb m then ret tt else prom_update f) only_metrics.
Proof.
  destruct m; cbn.
  - eapply spec_mono; [apply _|]. intros v a v' ->. by eexists.
  - intros w. exists (v_metrics (view w)). by rewrite with_metrics_same.
Qed.

#[export] Instance RecordProvisioningLatency_spec m t s :
  Spec view (RecordProvisioningLatency m t s) only_metrics.
Proof. apply metrics_spec. Qed.
#[export] Instance IncRateLimitHit_spec m : Spec view (IncRateLimitHit m) only_metrics.
Proof. apply metrics_spec. Qed.
#[export] Instance IncError_spec m k : Spec view (IncError m k) only_metrics.
Proof. apply metrics_spec. Qed.
#[export] Instance SetActiveSpaces_spec m n : Spec view (SetActiveSpaces m n) only_metrics.
Proof. apply metrics_spec. Qed.
End Specs.
