(* ===== verification/Queue.v ===== *)
(** * Queue: task kinds, payloads and the asynq client of internal/queue

    A task's payload is the JSON document it carries; [None] stands for bytes that are no JSON.
    A decoder reads the fields of a struct by their exact tags. *)
From S2P Require Import Prelude Errors Domain Schema Services.

(** Queue names and task kinds, internal/queue/queue.go. *)
(** [QueueProvision], internal/queue/queue.go:15. *)
Definition QueueProvision : string := "provision".
(** [QueueMembership], internal/queue/queue.go:16. *)
Definition QueueMembership : string := "membership".
(** [QueueReconcile], internal/queue/queue.go:17. *)
Definition QueueReconcile : string := "reconcile".
(** [QueueMarking], internal/queue/queue.go:18. *)
Definition QueueMarking : string := "marking".
(** [KindProvisionSpace], internal/queue/queue.go:24. *)
Definition KindProvisionSpace : string := "space:provision".
(** [KindInviteCollaborator], internal/queue/queue.go:25. *)
Definition KindInviteCollaborator : string := "membership:invite_collaborator".
(** [KindExpelCollaborator], internal/queue/queue.go:26. *)
Definition KindExpelCollaborator : string := "membership:expel_collaborator".
(** [KindProjectAgentRole], internal/queue/queue.go:27. *)
Definition KindProjectAgentRole : string := "membership:project_agent_role".
(** [KindChangeLifecycle], internal/queue/queue.go:28. *)
Definition KindChangeLifecycle : string := "space:change_lifecycle".
(** [KindReconcileGuild], internal/queue/queue.go:29. *)
Definition KindReconcileGuild : string := "reconcile:guild".
(** [KindReconcileSpace], internal/queue/queue.go:30. *)
Definition KindReconcileSpace : string := "reconcile:space".
(** [KindSyncWelcome], internal/queue/queue.go:31. *)
Definition KindSyncWelcome : string := "space:sync_welcome".
(** [KindApplyNicknameSuffix], internal/queue/queue.go:32. *)
Definition KindApplyNicknameSuffix : string := "marking:apply_nickname_suffix".

(** [ProvisionSpacePayload], internal/queue/queue.go:36-42. *)
Record ProvisionSpacePayload : Type := mkProvisionSpacePayload {
  pp_MerchantID : string; pp_SpaceID : string; pp_SpaceName : string;
  pp_CategoryID : string; pp_WelcomeMessage : string }.
(** [InviteCollaboratorPayload], internal/queue/queue.go:45-49. *)
Record InviteCollaboratorPayload : Type := mkInviteCollaboratorPayload {
  ip_SpaceID : string; ip_UserID : string; ip_InvitedBy : string }.
(** [ExpelCollaboratorPayload], internal/queue/queue.go:52-56. *)
Record ExpelCollaboratorPayload : Type := mkExpelCollaboratorPayload {
  ep_SpaceID : string; ep_UserID : string; ep_Scope : string }.
(** [ProjectAgentRolePayload], internal/queue/queue.go:59-62. *)
Record ProjectAgentRolePayload : Type := mkProjectAgentRolePayload {
  ap_UserID : string; ap_Add : bool }.
(** [ChangeLifecyclePayload], internal/queue/queue.go:65-68. *)
Record ChangeLifecyclePayload : Type := mkChangeLifecyclePayload {
  clp_SpaceID : string; clp_Action : string }.
(** [ReconcileSpacePayload], internal/queue/queue.go:71-73. *)
Record ReconcileSpacePayload : Type := mkReconcileSpacePayload { rp_SpaceID : string }.
(** [SyncWelcomePayload], internal/queue/queue.go:76-79. *)
Record SyncWelcomePayload : Type := mkSyncWelcomePayload {
  wp_SpaceID : string; wp_Message : string }.
(** [ApplyNicknameSuffixPayload], internal/queue/queue.go:82-86. *)
Record ApplyNicknameSuffixPayload : Type := mkApplyNicknameSuffixPayload {
  np_UserID : string; np_GuildID : string; np_Suffix : string }.

(** [json.Unmarshal] into a struct accepts an object or null. *)
Definition struct_fields (raw : option json) : option (list (string * json)) :=
  match raw with
  | Some JNull => Some []
  | Some (JObj fs) => Some fs
  | _ => None
  end.

(** Decoding by the tags of [ProvisionSpacePayload], internal/queue/queue.go:36-42. *)
Definition decode_ProvisionSpace (raw : option json) : option ProvisionSpacePayload :=
  fs ← struct_fields raw;
  m ← jstring "merchant_id" fs; s ← jstring "space_id" fs; n ← jstring "space_name" fs;
  c ← jstring "category_id" fs; w ← jstring "welcome_message" fs;
  Some (mkProvisionSpacePayload m s n c w).
(** Decoding by the tags of [InviteCollaboratorPayload], internal/queue/queue.go:45-49. *)
Definition decode_Invite (raw : option json) : option InviteCollaboratorPayload :=
  fs ← struct_fields raw;
  s ← jstring "space_id" fs; u ← jstring "user_id" fs; i ← jstring "invited_by" fs;
  Some (mkInviteCollaboratorPayload s u i).
(** Decoding by the tags of [ExpelCollaboratorPayload], internal/queue/queue.go:52-56. *)
Definition decode_Expel (raw : option json) : option ExpelCollaboratorPayload :=
  fs ← struct_fields raw;
  s ← jstring "space_id" fs; u ← jstring "user_id" fs; c ← jstring "scope" fs;
  Some (mkExpelCollaboratorPayload s u c).
(** Decoding by the tags of [ProjectAgentRolePayload], internal/queue/queue.go:59-62. *)
Definition decode_ProjectAgentRole (raw : option json) : option ProjectAgentRolePayload :=
  fs ← struct_fields raw;
  u ← jstring "user_id" fs; a ← jbool "add" fs; Some (mkProjectAgentRolePayload u a).
(** Decoding by the tags of [ChangeLifecyclePayload], internal/queue/queue.go:65-68. *)
Definition decode_ChangeLifecycle (raw : option json) : option ChangeLifecyclePayload :=
  fs ← struct_fields raw;
  s ← jstring "space_id" fs; a ← jstring "action" fs; Some (mkChangeLifecyclePayload s a).
(** Decoding by the tags of [ReconcileSpacePayload], internal/queue/queue.go:71-73. *)
Definition decode_ReconcileSpace (raw : option json) : option ReconcileSpacePayload :=
  fs ← struct_fields raw; s ← jstring "space_id" fs; Some (mkReconcileSpacePayload s).
(** Decoding by the tags of [SyncWelcomePayload], internal/queue/queue.go:76-79. *)
Definition decode_SyncWelcome (raw : option json) : option SyncWelcomePayload :=
  fs ← struct_fields raw;
  s ← jstring "space_id" fs; m ← jstring "message" fs; Some (mkSyncWelcomePayload s m).
(** Decoding by the tags of [ApplyNicknameSuffixPayload], internal/queue/queue.go:82-86. *)
Definition decode_ApplyNicknameSuffix (raw : option json) : option ApplyNicknameSuffixPayload :=
  fs ← struct_fields raw;
  u ← jstring "user_id" fs; g ← jstring "guild_id" fs; x ← jstring "suffix" fs;
  Some (mkApplyNicknameSuffixPayload u g x).

(** The encoders: the payload the API hands to [Enqueue] (empty [omitempty] fields are left out). *)
Definition omitempty (k s : string) : list (string * json) :=
  if decide (s = ""%string) then [] else [(k, JStr s)].
(** Encoding by the tags of [ProvisionSpacePayload], internal/queue/queue.go:36-42. *)
Definition encode_ProvisionSpace (p : ProvisionSpacePayload) : list (string * json) :=
  [("merchant_id"%string, JStr (pp_MerchantID p)); ("space_id"%string, JStr (pp_SpaceID p));
   ("space_name"%string, JStr (pp_SpaceName p))] ++
  omitempty "category_id" (pp_CategoryID p) ++ omitempty "welcome_message" (pp_WelcomeMessage p).
(** Encoding by the tags of [InviteCollaboratorPayload], internal/queue/queue.go:45-49. *)
Definition encode_Invite (p : InviteCollaboratorPayload) : list (string * json) :=
  [("space_id"%string, JStr (ip_SpaceID p)); ("user_id"%string, JStr (ip_UserID p));
   ("invited_by"%string, JStr (ip_InvitedBy p))].
(** Encoding by the tags of [ExpelCollaboratorPayload], internal/queue/queue.go:52-56. *)
Definition encode_Expel (p : ExpelCollaboratorPayload) : list (string * json) :=
  [("space_id"%string, JStr (ep_SpaceID p)); ("user_id"%string, JStr (ep_UserID p));
   ("scope"%string, JStr (ep_Scope p))].
(** Encoding by the tags of [ProjectAgentRolePayload], internal/queue/queue.go:59-62. *)
Definition encode_ProjectAgentRole (p : ProjectAgentRolePayload) : list (string * json) :=
  [("user_id"%string, JStr (ap_UserID p)); ("add"%string, JBool (ap_Add p))].
(** Encoding by the tags of [ChangeLifecyclePayload], internal/queue/queue.go:65-68. *)
Definition encode_ChangeLifecycle (p : ChangeLifecyclePayload) : list (string * json) :=
  [("space_id"%string, JStr (clp_SpaceID p)); ("action"%string, JStr (clp_Action p))].
(** Encoding by the tags of [ReconcileSpacePayload], internal/queue/queue.go:71-73. *)
Definition encode_ReconcileSpace (p : ReconcileSpacePayload) : list (string * json) :=
  [("space_id"%string, JStr (rp_SpaceID p))].
(** Encoding by the tags of [SyncWelcomePayload], internal/queue/queue.go:76-79. *)
Definition encode_SyncWelcome (p : SyncWelcomePayload) : list (string * json) :=
  [("space_id"%string, JStr (wp_SpaceID p))] ++ omitempty "message" (wp_Message p).
(** Encoding by the tags of [ApplyNicknameSuffixPayload], internal/queue/queue.go:82-86. *)
Definition encode_ApplyNicknameSuffix (p : ApplyNicknameSuffixPayload) : list (string * json) :=
  [("user_id"%string, JStr (np_UserID p)); ("guild_id"%string, JStr (np_GuildID p));
   ("suffix"%string, JStr (np_Suffix p))].

Section Client.
Context {W : Type} {E : Env W}.

(** Options of [asynq.Client.Enqueue]: [TaskIDOpt] and [UniqueOpt], internal/queue/queue.go:128-135, and a retry limit. *)
Record EnqueueOpts : Type := mkEnqueueOpts {
  eo_TaskID : option string;
  eo_Unique : option Z;
  eo_MaxRetry : option Z }.

(** [Enqueue], internal/queue/queue.go:111-125. A [map[string]any] or a payload struct always marshals. *)
Definition Enqueue (taskType queue : string) (payload : payload_map) (o : EnqueueOpts)
    : M W (result error unit) :=
  r <- asynq_Enqueue (mkTask taskType payload queue (eo_TaskID o) (eo_Unique o) (eo_MaxRetry o)) ;;
  ret (match r with Ok _ => Ok tt | Err e => Err (Wrap "queue: enqueue: " e) end).
End Client.

Lemma decode_encode_ProvisionSpace p :
  decode_ProvisionSpace (Some (JObj (encode_ProvisionSpace p))) = Some p.
Proof.
  destruct p. unfold decode_ProvisionSpace, encode_ProvisionSpace, omitempty; cbn.
  repeat case_decide; by subst.
Qed.

(** Every payload the API enqueues is decoded by its worker to the same values, the fields left
    out when empty included. *)
Theorem payload_roundtrip :
  (forall p, decode_ProvisionSpace (Some (JObj (encode_ProvisionSpace p))) = Some p) /\
  (forall p, decode_Invite (Some (JObj (encode_Invite p))) = Some p) /\
  (forall p, decode_Expel (Some (JObj (encode_Expel p))) = Some p) /\
  (forall p, decode_ProjectAgentRole (Some (JObj (encode_ProjectAgentRole p))) = Some p) /\
  (forall p, decode_ChangeLifecycle (Some (JObj (encode_ChangeLifecycle p))) = Some p) /\
  (forall p, decode_ReconcileSpace (Some (JObj (encode_ReconcileSpace p))) = Some p) /\
  (forall p, decode_SyncWelcome (Some (JObj (encode_SyncWelcome p))) = Some p) /\
  (forall p, decode_ApplyNicknameSuffix (Some (JObj (encode_ApplyNicknameSuffix p))) = Some p).
Proof.
  split; [exact decode_encode_ProvisionSpace|]. repeat split; intros []; try reflexivity.
  unfold decode_SyncWelcome, encode_SyncWelcome, omitempty; cbn.
  case_decide; by subst.
Qed.
