(* ===== verification/Cache.v ===== *)
(** * Cache: the write-invalidated cache of internal/cache *)
From S2P Require Import Prelude Errors Domain Schema Services Lock.

(** [Cache], internal/cache/cache.go:16-25. A miss is [None]. *)
Record Cache (W : Type) : Type := mkCache {
  CacheGet : string -> M W (result error (option string));
  CacheSet : string -> string -> Z -> M W (result error unit);
  CacheDel : list string -> M W (result error unit)
}.
Arguments CacheGet {W}. Arguments CacheSet {W}. Arguments CacheDel {W}.

(** What the callers rely on: the cache touches only the key-value store. *)
Class CacheLaws {W} (view : W -> View) (c : Cache W) : Prop := {
  CacheGet_law : forall k, Spec view (CacheGet c k) lock_outcome;
  CacheSet_law : forall k v t, Spec view (CacheSet c k v t) lock_outcome;
  CacheDel_law : forall ks, Spec view (CacheDel c ks) lock_outcome
}.
#[export] Existing Instances CacheGet_law CacheSet_law CacheDel_law.

(** GET, SET with PX and DEL. *)
Definition redis_get (key : string) : redis (option string) := fun now ks =>
  match klive now ks key with
  | None => Ok (None, ks)
  | Some (RStr s) => Ok (Some s, ks)
  | Some (RHash _) => Err (External "WRONGTYPE")
  end.
Definition redis_set (key value : string) (ttl_ms : Z) : redis unit := fun now ks =>
  Ok (tt, <[key := mkEntry (RStr value) (Some (now + ttl_ms))]> ks).
Definition redis_del (keys : list string) : redis unit := fun _ ks =>
  Ok (tt, foldr delete ks keys).

Section ValKey.
Context {W : Type} {E : Env W}.

(** [ValKeyCache.Get], internal/cache/cache.go:38-47. *)
Definition ValKeyCache_Get (key : string) : M W (result error (option string)) :=
  r <-? redis_exec (redis_get key) onerr e => ret (Err (Wrap "cache: get: " e)) ;;
  ret (Ok r).
(** [ValKeyCache.Set], internal/cache/cache.go:50-55. *)
Definition ValKeyCache_Set (key value : string) (ttl : Z) : M W (result error unit) :=
  r <-? redis_exec (redis_set key value (ttl / Millisecond)) onerr e => ret (Err (Wrap "cache: set: " e)) ;;
  ret (Ok tt).
(** [ValKeyCache.Del], internal/cache/cache.go:58-66. *)
Definition ValKeyCache_Del (keys : list string) : M W (result error unit) :=
  match keys with
  | [] => ret (Ok tt)
  | _ => r <-? redis_exec (redis_del keys) onerr e => ret (Err (Wrap "cache: del: " e)) ;;
         ret (Ok tt)
  end.

(** [ValKeyCache], internal/cache/cache.go:28-30. *)
Definition ValKeyCache : Cache W := mkCache W ValKeyCache_Get ValKeyCache_Set ValKeyCache_Del.
(** [NoopCache], internal/cache/cache.go:69-73. *)
Definition NoopCache : Cache W :=
  mkCache W (fun _ => ret (Ok None)) (fun _ _ _ => ret (Ok tt)) (fun _ => ret (Ok tt)).
End ValKey.

Section Laws.
Context {W : Type} {E : Env W} {view : W -> View} {L : EnvLaws E view}.

Lemma cache_redis {A B} (c : redis A) (f : A -> B) what :
  (forall now ks e, c now ks = Err e -> opaque e) ->
  Spec view (r <-? redis_exec c onerr e => ret (Err (Wrap what e)) ;; ret (Ok (f r))) lock_outcome.
Proof.
  intros Hc. apply spec_of_wp. intros w. go_step.
  apply redis_outcome_only_kv in H as [Hk He]; [|done].
  destruct a; apply wp_ret; (split; [done|]); [done|]. intros e' [= <-]. apply opaque_Wrap. auto.
Qed.

#[export] Instance Noop_cache_laws : CacheLaws view (NoopCache (W := W)).
Proof.
  split; intros; intros w; (split; [exists (v_kv (view w)); cbn; by rewrite with_kv_same|done]).
Qed.

#[export] Instance ValKey_cache_laws : CacheLaws view (ValKeyCache (W := W)).
Proof.
  split; intros; cbn.
  - apply (cache_redis _ (fun x => x)). unfold redis_get. intros ??? H. repeat case_match; simplify_eq.
    apply opaque_External.
  - apply (cache_redis _ (fun _ => tt)). done.
  - destruct ks; [|by apply (cache_redis _ (fun _ => tt))].
    intros w. split; [exists (v_kv (view w)); cbn; by rewrite with_kv_same|done].
Qed.
End Laws.
