(* ===== verification/Reconcile.v ===== *)
(** * Reconcile: the desired-versus-real diff and repair engine of internal/reconcile

    Postgres' active memberships are the desired member overwrites of a space's channel; the
    engine revokes what is not backed and re-applies what is missing. *)
From S2P Require Import Prelude Errors Domain Schema Services Postgres StoreSpec Discord Lock.
From S2P Require Import Observability InMemory.

(** [Engine], internal/reconcile/reconcile.go:69-74. The store and the Discord session are the ones
    of [Env]; the locker and the metrics may be nil. *)
Record Engine (W : Type) : Type := mkEngine {
  en_locker : option (Locker W);
  en_metrics : bool
}.
Arguments en_locker {W}. Arguments en_metrics {W}.

(** [NewEngine], internal/reconcile/reconcile.go:78-80. *)
Definition NewEngine {W} : Engine W := mkEngine W None false.
(** [NewEngineWithLocker], internal/reconcile/reconcile.go:85-87. *)
Definition NewEngineWithLocker {W} (l : Locker W) : Engine W := mkEngine W (Some l) false.
(** [WithMetrics], internal/reconcile/reconcile.go:91-94. *)
Definition WithMetrics {W} (e : Engine W) (m : bool) : Engine W := mkEngine W (en_locker e) m.

(** The entries a repair writes: internal/reconcile/reconcile.go:262-269. *)
Definition repair_entry (spaceID action discordUserID : string) : InsertAuditEntryParams :=
  mkInsertAuditEntryParams None None "reconcile.repair" None (Some spaceID) None None
    (Some [("action"%string, JStr action); ("discord_user_id"%string, JStr discordUserID)]).

Section Engine.
Context {W : Type} {E : Env W}.

(** One turn of the loop that builds [desiredByDiscordID], internal/reconcile/reconcile.go:193-212.
    A missing user is skipped; any other error leaves the function. *)
Definition desired_step (acc : gmap string string) (sm : SpaceMember)
    : M W (gmap string string + error) :=
  u <- GetUserByID (sm_UserID sm) ;;
  ret (match u with
       | Err e => if errors_Is e ErrNotFound then inl acc
                  else inr (Wrap "reconcile: get user: " e)
       | Ok u => match u_DiscordUserID u with
                 | None => inl acc
                 | Some d => inl (<[d := sm_ID sm]> acc)
                 end
       end).

(** [realMemberOverwrites], internal/reconcile/reconcile.go:221-226. *)
Definition realMemberOverwrites (ows : list PermissionOverwrite) : gmap string bool :=
  foldl (fun acc ow => if decide (ow_Type ow = PermissionOverwriteTypeMember)
                       then <[ow_ID ow := true]> acc else acc) ∅ ows.

(** One turn of Rule 1, internal/reconcile/reconcile.go:252-272; the accumulator is
    [(driftFound, driftRepaired)]. *)
Definition rule1_step (spaceID channelID : string) (desired : gmap string string)
    (acc : Z * Z) (kv : string * bool) : M W (Z * Z) :=
  let '(found, repaired) := acc in
  let discordUserID := kv.1 in
  match desired !! discordUserID with
  | Some _ => ret acc
  | None =>
      r <- DeleteCollaboratorOverwrite channelID discordUserID ;;
      match r with
      | Err _ => ret (found + 1, repaired)
      | Ok _ =>
          a <- InsertAuditEntry (repair_entry spaceID "revoke_unbacked_overwrite" discordUserID) ;;
          ret (found + 1, repaired + 1)
      end
  end.

(** One turn of Rule 2, internal/reconcile/reconcile.go:275-300. *)
Definition rule2_step (spaceID channelID : string) (real : gmap string bool)
    (acc : Z * Z) (kv : string * string) : M W (Z * Z) :=
  let '(found, repaired) := acc in
  let '(discordUserID, smID) := kv in
  match real !! discordUserID with
  | Some true => ret acc
  | _ =>
      r <- SetCollaboratorOverwrite channelID discordUserID ;;
      match r with
      | Err _ => ret (found + 1, repaired)
      | Ok _ =>
          m <- SetSpaceMemberOverwriteApplied smID ;;
          a <- InsertAuditEntry (repair_entry spaceID "reapply_missing_overwrite" discordUserID) ;;
          ret (found + 1, repaired + 1)
      end
  end.

(** The body of [ReconcileSpace] under the lock, internal/reconcile/reconcile.go:169-308. It
    answers the drift counters the closing log line reports ([None]: the space was skipped). *)
Definition reconcile_body (spaceID : string) : M W (result error (option (Z * Z))) :=
  sp <-? GetSpaceByID spaceID onerr e => ret (Err (Wrap "reconcile: load space: " e)) ;;
  match sp_DiscordChannelID sp, decide (sp_ACLState sp = ACLStateApplied) with
  | Some channelID, left _ =>
      members <-? ListActiveSpaceMembers spaceID
        onerr e => ret (Err (Wrap "reconcile: list active space_members: " e)) ;;
      d <- for_ret members desired_step ∅ ;;
      match d with
      | inr e => ret (Err e)
      | inl desired =>
          overwrites <-? GetChannelOverwrites channelID
            onerr e => ret (Err (Wrap "reconcile: get channel overwrites: " e)) ;;
          let real := realMemberOverwrites overwrites in
          if bool_decide (members <> []) && bool_decide (desired = ∅) && bool_decide (real <> ∅) then
            ret (Err (New "reconcile: circuit breaker"))
          else
            ks1 <- map_range (map_to_list real) ;;
            acc1 <- for_each ks1 (rule1_step spaceID channelID desired) (0, 0) ;;
            ks2 <- map_range (map_to_list desired) ;;
            acc2 <- for_each ks2 (rule2_step spaceID channelID real) acc1 ;;
            u <- UpdateSpaceReconciledAt spaceID ;;
            ret (Ok (Some acc2))
      end
  | _, _ => ret (Ok None)
  end.

(** [Engine.ReconcileSpace], internal/reconcile/reconcile.go:152-309. *)
Definition ReconcileSpace (en : Engine W) (spaceID : string) : M W (result error unit) :=
  match en_locker en with
  | None => r <- reconcile_body spaceID ;; ret (result_map (fun _ => tt) r)
  | Some l =>
      lk <-? AcquireSpace l spaceID onerr e => ret (Err (Wrap "reconcile: acquire space lock: " e)) ;;
      (if negb lk.2 then ret (Ok tt)
       else
         r <- reconcile_body spaceID ;;
         rel <- ReleaseSpace l spaceID lk.1 ;;
         ret (result_map (fun _ => tt) r))
  end.

(** [Engine.ReconcileGuild], internal/reconcile/reconcile.go:103-138. The guild id is only logged. *)
Definition ReconcileGuild (en : Engine W) (guildID : string) : M W (result error unit) :=
  spaces <-? ListActiveProvisionedSpaces
    onerr e => ret (Err (Wrap "reconcile: guild sweep: list spaces: " e)) ;;
  g <- SetActiveSpaces (en_metrics en) (Z.of_nat (length spaces)) ;;
  errs <- for_each spaces (fun (errs : list error) sp =>
            r <- ReconcileSpace en (sp_ID sp) ;;
            ret (match r with Ok _ => errs | Err e => errs ++ [Wrap "space: " e] end)) [] ;;
  ret (match errs with
       | [] => Ok tt
       | _ => Err (New "reconcile: guild sweep: space(s) failed")
       end).

End Engine.

(** ** The specification: which Discord users a space's memberships back *)
Definition backed (db : DB) (spaceID d : string) : Prop :=
  exists id sm u, t_space_members db !! id = Some sm /\ sm_SpaceID sm = spaceID /\
    member_active sm = true /\ t_users db !! sm_UserID sm = Some u /\ u_DiscordUserID u = Some d.

(** What a sweep may do to a channel, entry by entry: remove the overwrite of a member no
    membership backs, add the overwrite of a member one backs; everything else stays. *)
Definition repairs `{Env W} (ch : string) (back : string -> Prop) (g g' : Guild) : Prop :=
  g' = g_set_overwrites (g_overwrites g') g /\
  (channel_exists ch g -> channel_exists ch g') /\
  (forall ch', ch' <> ch -> overwrites_of ch' g' = overwrites_of ch' g) /\
  (forall t, overwrites_of ch g' !! t = overwrites_of ch g !! t \/
     (member_overwrite g ch t /\ ~ back t /\ overwrites_of ch g' !! t = None) \/
     (~ member_overwrite g ch t /\ back t /\ overwrites_of ch g' !! t = Some (collaborator_allow t))).

(** ** Lemmas on the specification *)
Lemma repairs_refl `{Env W} ch back g : repairs ch back g g.
Proof. split; [by destruct g|]. split; [done|]. split; [done|]. by left. Qed.

Lemma repairs_delete `{Env W} ch back g0 g t :
  repairs ch back g0 g -> member_overwrite g0 ch t -> ~ back t ->
  repairs ch back g0 (permission_delete ch t g).
Proof.
  intros (Hg & Hex & Hoth & Ht) Hm Hb. split; [|split; [|split]].
  - rewrite Hg. by destruct g0.
  - intros Hc. unfold channel_exists, permission_delete; cbn. rewrite lookup_alter_eq.
    destruct (Hex Hc) as [x Hx]. by rewrite Hx.
  - intros ch' Hne. rewrite overwrites_of_delete, decide_False by done. by apply Hoth.
  - intros t'. rewrite overwrites_of_delete, decide_True by done.
    destruct (decide (t = t')) as [<-|Hn].
    + right; left. by rewrite lookup_delete_eq.
    + rewrite lookup_delete_ne by done. apply Ht.
Qed.

Lemma repairs_set `{Env W} ch back g0 g t :
  repairs ch back g0 g -> ~ member_overwrite g0 ch t -> back t ->
  repairs ch back g0 (permission_set ch (collaborator_allow t) g).
Proof.
  intros (Hg & Hex & Hoth & Ht) Hm Hb. split; [|split; [|split]].
  - rewrite Hg. by destruct g0.
  - intros Hc. unfold channel_exists, permission_set; cbn. rewrite lookup_alter_eq.
    destruct (Hex Hc) as [x Hx]. by rewrite Hx.
  - intros ch' Hne. rewrite overwrites_of_set, decide_False by naive_solver. by apply Hoth.
  - intros t'. rewrite overwrites_of_set. case_decide as Hd; [|apply Ht]. cbn.
    destruct (decide (t = t')) as [<-|Hn].
    + right; right. by rewrite lookup_insert_eq.
    + rewrite lookup_insert_ne by done. apply Ht.
Qed.

Lemma backed_members db s d :
  backed db s d <-> exists sm u, sm ∈ active_members s db /\
    t_users db !! sm_UserID sm = Some u /\ u_DiscordUserID u = Some d.
Proof.
  unfold backed, active_members. split.
  - intros (id & sm & u & Hl & Hs & Ha & Hu & Hd). exists sm, u. split; [|done].
    apply rows_where_elem. exists id. split; [done|]. by rewrite bool_decide_eq_true_2.
  - intros (sm & u & Hin & Hu & Hd). apply rows_where_elem in Hin as (id & Hl & Hp).
    apply andb_prop in Hp as [Hs Ha]. apply bool_decide_eq_true in Hs. eauto 10.
Qed.

(** Marking a membership as projected changes no backing. *)
Lemma backed_overwrite_applied db id now sm s d :
  t_space_members db !! id = Some sm ->
  backed (set_space_members (<[id := with_overwrite_applied now sm]> (t_space_members db)) db) s d <->
  backed db s d.
Proof.
  intros Hl. unfold backed; cbn. split.
  - intros (id' & sm' & u & Hl' & H). destruct (decide (id = id')) as [<-|Hn].
    + rewrite lookup_insert_eq in Hl'. simplify_eq. by exists id, sm, u.
    + rewrite lookup_insert_ne in Hl' by done. by exists id', sm', u.
  - intros (id' & sm' & u & Hl' & H). destruct (decide (id = id')) as [<-|Hn].
    + assert (sm' = sm) as -> by congruence. exists id, (with_overwrite_applied now sm), u. by rewrite lookup_insert_eq.
    + exists id', sm', u. by rewrite lookup_insert_ne.
Qed.

Lemma realMemberOverwrites_spec ows d b :
  realMemberOverwrites ows !! d = Some b <->
  b = true /\ exists ow, ow ∈ ows /\ ow_Type ow = PermissionOverwriteTypeMember /\ ow_ID ow = d.
Proof.
  unfold realMemberOverwrites.
  enough (forall acc : gmap string bool, (forall x c, acc !! x = Some c -> c = true) ->
    foldl (fun acc ow => if decide (ow_Type ow = PermissionOverwriteTypeMember)
                         then <[ow_ID ow := true]> acc else acc) acc ows !! d = Some b <->
    b = true /\ (acc !! d = Some true \/
      exists ow, ow ∈ ows /\ ow_Type ow = PermissionOverwriteTypeMember /\ ow_ID ow = d)) as H.
  { rewrite H by (intros ?? He; by rewrite lookup_empty in He). rewrite lookup_empty. naive_solver. }
  induction ows as [|ow ows IH]; intros acc Hacc; cbn.
  - split.
    + intros Hl. pose proof (Hacc _ _ Hl). subst. eauto.
    + intros [-> [Hl|(ow & Hin & _)]]; [done|]. by apply not_elem_of_nil in Hin.
  - case_decide as Hty.
    + rewrite IH.
      * split; intros [-> H]; (split; [done|]).
        -- destruct H as [H|(ow' & Hin & H)]; [|right; exists ow'; split; [by right|done]].
           destruct (decide (ow_ID ow = d)); [right; exists ow; split; [by left|done]|].
           rewrite lookup_insert_ne in H by done. by left.
        -- destruct (decide (ow_ID ow = d)) as [<-|Hn]; [left; by rewrite lookup_insert_eq|].
           rewrite lookup_insert_ne by done. destruct H as [H|(ow' & Hin & H)]; [by left|].
           apply elem_of_cons in Hin as [->|Hin]; [naive_solver|]. right. by exists ow'.
      * intros x c. destruct (decide (ow_ID ow = x)) as [<-|Hn];
          [rewrite lookup_insert_eq; congruence|rewrite lookup_insert_ne by done; apply Hacc].
    + rewrite IH by done. split; intros [-> H]; (split; [done|]).
      * destruct H as [H|(ow' & Hin & H)]; [by left|]. right. exists ow'. split; [by right|done].
      * destruct H as [H|(ow' & Hin & H)]; [by left|].
        apply elem_of_cons in Hin as [->|Hin]; [by destruct H|]. right. by exists ow'.
Qed.

(** ** The sweep of one space *)
Section Proofs.
Context {W : Type} {E : Env W} {view : W -> View} {L : EnvLaws E view}.

(** Memberships back the same users, and spaces project onto the same channels. *)
Definition db_kept (db db' : DB) : Prop :=
  (forall s d, backed db' s d <-> backed db s d) /\
  (forall id, sp_DiscordChannelID <$> t_spaces db' !! id = sp_DiscordChannelID <$> t_spaces db !! id).

(** Everything a sweep may change: repairs on the channel, audit rows, projection flags. *)
Definition sweep_rel (ch : string) (back : string -> Prop) (v v' : View) : Prop :=
  repairs ch back (v_guild v) (v_guild v') /\
  db_kept (v_db v) (v_db v') /\
  v_kv v' = v_kv v /\ v_queue v' = v_queue v /\ v_metrics v' = v_metrics v.

Lemma sweep_refl ch back v : sweep_rel ch back v v.
Proof. split; [apply repairs_refl|done]. Qed.

Lemma sweep_audit ch back v0 v p (r : result error unit) v' :
  sweep_rel ch back v0 v -> audit_outcome p v r v' -> sweep_rel ch back v0 v'.
Proof. intros (Hg & Hb & Hr) [[->|(now & ->)] _]; done. Qed.

Lemma sweep_mark ch back v0 v id (r : result error SpaceMember) v' :
  sweep_rel ch back v0 v -> update_outcome space_members_T id with_overwrite_applied v r v' ->
  sweep_rel ch back v0 v'.
Proof.
  intros (Hg & Hb & Hr) H.
  enough (v' = v \/ exists now sm, t_space_members (v_db v) !! id = Some sm /\
    v' = with_db (set_space_members (<[id := with_overwrite_applied now sm]> (t_space_members (v_db v))) (v_db v)) v) as [->|(now & sm & Hl & ->)].
  - done.
  - split; [done|]. split; [|done]. split; [|apply Hb].
    intros s d. cbn. rewrite backed_overwrite_applied by done. apply Hb.
  - destruct H as [(now & sm & Hl & _ & ->)|[(_ & _ & ->)|(e & _ & _ & [->|(now & sm & Hl & ->)])]]; eauto 6.
Qed.

Lemma sweep_rest ch back v0 v pre eff (r : result error unit) v' :
  sweep_rel ch back v0 v -> rest_outcome pre eff v r v' ->
  repairs ch back (v_guild v0) (eff (v_guild v)) -> sweep_rel ch back v0 v'.
Proof.
  intros (Hg & Hb & Hr) H Heff.
  destruct H as [(_ & _ & ->)|(e & _ & _ & [->| ->])]; done.
Qed.

(** The desired set: exactly the backed users, or an error of the store. *)
Lemma desired_loop spaceID w :
  wp view (for_ret (active_members spaceID (v_db (view w))) desired_step ∅)
    (fun r v' => v' = view w /\
       match r with
       | inl D => forall d, is_Some (D !! d) <-> backed (v_db (view w)) spaceID d
       | inr e => errors_Is e ErrNotFound = false
       end) w.
Proof.
  set (v0 := view w). set (ms := active_members spaceID (v_db v0)).
  eapply wp_mono; [apply (wp_for_ret view desired_step
    (fun done (D : gmap string string) v => v = v0 /\ forall d, is_Some (D !! d) <->
       exists sm u, sm ∈ done /\ t_users (v_db v0) !! sm_UserID sm = Some u /\ u_DiscordUserID u = Some d)
    (fun e v => v = v0 /\ errors_Is e ErrNotFound = false))|].
  - split; [done|]. intros d. rewrite lookup_empty. split; [by intros [? ?]|].
    intros (sm & u & Hin & _). by apply not_elem_of_nil in Hin.
  - intros done sm rest D w' _ [Hv HD]. unfold desired_step. go_step.
    destruct H as [Hv' H]. rewrite Hv in H, Hv'. apply wp_ret.
    rewrite Hv'. destruct H as [(u & -> & Hu)|[[-> Hu]|(e & He & ->)]].
    + destruct (u_DiscordUserID u) as [d0|] eqn:Hd0; (split; [done|]); intros d;
        setoid_rewrite elem_of_app; setoid_rewrite list_elem_of_singleton.
      * destruct (decide (d0 = d)) as [<-|Hn].
        -- rewrite lookup_insert_eq. split; [eauto 10|by eauto].
        -- rewrite lookup_insert_ne, HD by done. naive_solver.
      * rewrite HD. naive_solver.
    + cbn. split; [done|]. intros d. rewrite HD. setoid_rewrite elem_of_app.
      setoid_rewrite list_elem_of_singleton. naive_solver.
    + rewrite (opaque_not_NotFound e) by done. split; [done|]. by apply opaque_not_NotFound, opaque_Wrap.
  - intros [D|e] v; [|done]. intros [-> HD]. split; [done|]. intros d.
    by rewrite HD, backed_members.
Qed.
Section Rules.
Context (spaceID ch : string) (v0 : View) (D : gmap string string) (real : gmap string bool)
  (ks1 : list (string * bool)).
Let back := backed (v_db v0) spaceID.
Context (HD : forall d, is_Some (D !! d) <-> back d)
  (Hreal : forall d b, real !! d = Some b <-> b = true /\ member_overwrite (v_guild v0) ch d)
  (Hks1 : forall kv, kv ∈ ks1 -> member_overwrite (v_guild v0) ch kv.1).

(** After the members of [done] were treated by Rule 1. *)
Definition rule1_inv (done : list (string * bool)) (acc : Z * Z) (v : View) : Prop :=
  sweep_rel ch back v0 v /\ acc.2 <= acc.1 /\
  (acc.1 = acc.2 -> forall kv, kv ∈ done -> D !! kv.1 = None ->
     overwrites_of ch (v_guild v) !! kv.1 = None) /\
  ((forall kv, kv ∈ done -> D !! kv.1 <> None) -> acc = (0, 0) /\ v = v0).

Lemma rule1_loop w : view w = v0 ->
  wp view (for_each ks1 (rule1_step spaceID ch D) (0, 0)) (rule1_inv ks1) w.
Proof.
  intros Hw. apply (wp_for_each view _ rule1_inv).
  - rewrite Hw. split; [apply sweep_refl|]. split; [done|]. split; [|done].
    intros _ kv Hin. by apply not_elem_of_nil in Hin.
  - intros done kv rest [f r] w' Hks (Hsw & Hle & Hdone & Hid). cbn in Hle, Hdone.
    unfold rule1_step. cbn [fst snd].
    destruct (D !! kv.1) as [id|] eqn:HDk.
    + apply wp_ret. split; [done|]. split; [done|]. split.
      * intros Heq kv' Hin HDn. apply elem_of_app in Hin as [Hin|Hin]; [by apply Hdone|].
        apply list_elem_of_singleton in Hin. congruence.
      * intros Hall. apply Hid. intros kv' Hin. apply Hall, elem_of_app. by left.
    + assert (Hm : member_overwrite (v_guild v0) ch kv.1).
      { apply Hks1. rewrite Hks. apply elem_of_app. right. by left. }
      assert (Hnb : ~ back kv.1) by (rewrite <-HD, HDk; by intros [? ?]).
      assert (Hnid : forall P : Prop, (forall x, x ∈ done ++ [kv] -> D !! x.1 <> None) -> P).
      { intros P Hall. exfalso. by apply (Hall kv); [apply elem_of_app; right; left|]. }
      go_step. pose proof (sweep_rest _ _ _ _ _ _ _ _ Hsw H (repairs_delete _ _ _ _ _ (proj1 Hsw) Hm Hnb)) as Hsw'.
      destruct H as [(-> & _ & Hv)|(e & _ & -> & _)].
      * go_step. pose proof (sweep_audit _ _ _ _ _ _ _ Hsw' H) as Hsw''. apply wp_ret.
        assert (v_guild (view w'1) = permission_delete ch kv.1 (v_guild (view w'))) as Hg.
        { destruct H as [[->|(now & ->)] _]; by rewrite Hv. }
        split; [done|]. split; [cbn; lia|]. split; [|intros Hall; by apply Hnid].
        cbn. intros Heq kv' Hin HDn. rewrite Hg, overwrites_of_delete, decide_True by done.
        destruct (decide (kv.1 = kv'.1)) as [->|Hne]; [apply lookup_delete_eq|].
        rewrite lookup_delete_ne by done. apply elem_of_app in Hin as [Hin|Hin].
        -- apply Hdone; [lia|done|done].
        -- by apply list_elem_of_singleton in Hin as ->.
      * apply wp_ret. split; [done|]. split; [cbn; lia|].
        split; [cbn; lia|intros Hall; by apply Hnid].
Qed.

(** After the backed users of [done] were treated by Rule 2. *)
Definition rule2_inv (done : list (string * string)) (acc : Z * Z) (v : View) : Prop :=
  sweep_rel ch back v0 v /\ acc.2 <= acc.1 /\
  (acc.1 = acc.2 ->
     (forall kv, kv ∈ ks1 -> D !! kv.1 = None -> overwrites_of ch (v_guild v) !! kv.1 = None) /\
     (forall kv, kv ∈ done -> real !! kv.1 = None ->
        overwrites_of ch (v_guild v) !! kv.1 = Some (collaborator_allow kv.1))) /\
  ((forall kv, kv ∈ ks1 -> D !! kv.1 <> None) -> (forall kv, kv ∈ done -> real !! kv.1 <> None) ->
     acc = (0, 0) /\ v = v0).

Lemma rule2_loop ks2 acc w : (forall kv, kv ∈ ks2 -> is_Some (D !! kv.1)) ->
  rule1_inv ks1 acc (view w) ->
  wp view (for_each ks2 (rule2_step spaceID ch real) acc) (rule2_inv ks2) w.
Proof.
  intros Hks2 (Hs1 & Hl1 & Hd1 & Hi1). apply (wp_for_each view _ rule2_inv).
  - split; [done|]. split; [done|]. split; [|by intros Hall _; apply Hi1].
    intros Heq. split; [by apply Hd1|]. intros kv Hin. by apply not_elem_of_nil in Hin.
  - intros done kv rest [f r] w' Hks (Hsw & Hle & Hdone & Hid). cbn in Hle, Hdone.
    unfold rule2_step. destruct kv as [d smID]. cbn [fst snd].
    destruct (real !! d) as [b|] eqn:Hrd.
    + pose proof (proj1 (Hreal d b) Hrd) as [-> Hm]. apply wp_ret. split; [done|]. split; [done|].
      split.
      * intros Heq. destruct (Hdone Heq) as [Ha Hb]. split; [done|]. intros kv' Hin HDn.
        apply elem_of_app in Hin as [Hin|Hin]; [by apply Hb|].
        apply list_elem_of_singleton in Hin as ->. cbn in HDn. congruence.
      * intros Ha Hall. apply Hid; [done|]. intros kv' Hin. apply Hall, elem_of_app. by left.
    + assert (Hb : back d).
      { apply HD, (Hks2 (d, smID)). rewrite Hks. apply elem_of_app. right. by left. }
      assert (Hnm : ~ member_overwrite (v_guild v0) ch d).
      { intros Hm. rewrite (proj2 (Hreal d true)) in Hrd; [done|by split]. }
      assert (Hnid : forall P : Prop, (forall x, x ∈ done ++ [(d, smID)] -> real !! x.1 <> None) -> P).
      { intros P Hall. exfalso. by apply (Hall (d, smID)); [apply elem_of_app; right; left|]. }
      go_step. pose proof (sweep_rest _ _ _ _ _ _ _ _ Hsw H (repairs_set _ _ _ _ _ (proj1 Hsw) Hnm Hb)) as Hsw'.
      destruct H as [(-> & Hex & Hv)|(e & _ & -> & _)].
      * go_step. pose proof (sweep_mark _ _ _ _ _ _ _ Hsw' H) as Hsw2.
        assert (v_guild (view w'1) = v_guild (view w'0)) as Hg1.
        { destruct H as [(?&?&_&_&->)|[(_&_&->)|(?&_&_&[->|(?&?&_&->)])]]; done. }
        go_step. pose proof (sweep_audit _ _ _ _ _ _ _ Hsw2 H0) as Hsw3. apply wp_ret.
        assert (v_guild (view w'2) = permission_set ch (collaborator_allow d) (v_guild (view w'))) as Hg.
        { destruct H0 as [[->|(now & ->)] _]; cbn; by rewrite Hg1, Hv. }
        split; [done|]. split; [cbn; lia|]. split; [|intros _ Hall; by apply Hnid].
        cbn. intros Heq. destruct Hdone as [Ha Hb']; [lia|].
        rewrite Hg, overwrites_of_set, decide_True by done. cbn. split.
        -- intros kv' Hin HDn. destruct (decide (d = kv'.1)) as [->|Hne].
           { apply HD in Hb as [? ?]. congruence. }
           rewrite lookup_insert_ne by done. by apply Ha.
        -- intros kv' Hin Hr. destruct (decide (d = kv'.1)) as [->|Hne]; [apply lookup_insert_eq|].
           rewrite lookup_insert_ne by done. apply elem_of_app in Hin as [Hin|Hin]; [by apply Hb'|].
           by apply list_elem_of_singleton in Hin as ->.
      * apply wp_ret. split; [done|]. split; [cbn; lia|].
        split; [cbn; lia|intros _ Hall; by apply Hnid].
Qed.
End Rules.

(** What the body promises from any state, whatever fails. *)
Definition body_post (spaceID : string) (v : View) (r : result error (option (Z * Z))) (v' : View) : Prop :=
  let back := backed (v_db v) spaceID in
  match r with
  | Err _ => v' = v
  | Ok None => v' = v
  | Ok (Some (found, repaired)) =>
      exists sp ch, t_spaces (v_db v) !! spaceID = Some sp /\ sp_DiscordChannelID sp = Some ch /\
        sp_ACLState sp = ACLStateApplied /\ sweep_rel ch back v v' /\ repaired <= found /\
        (found = repaired -> forall d, member_overwrite (v_guild v') ch d <-> back d) /\
        ((forall d, member_overwrite (v_guild v) ch d <-> back d) ->
           found = 0 /\ repaired = 0 /\ v_guild v' = v_guild v) /\
        ~ (active_members spaceID (v_db v) <> [] /\ (forall d, ~ back d) /\
           exists d, member_overwrite (v_guild v) ch d)
  end.

Lemma real_of_overwrites v ch ows :
  (forall ow, ow ∈ ows <-> overwrites_of ch (v_guild v) !! ow_ID ow = Some ow) ->
  forall d b, realMemberOverwrites ows !! d = Some b <-> b = true /\ member_overwrite (v_guild v) ch d.
Proof.
  intros Hows d b. rewrite realMemberOverwrites_spec. unfold member_overwrite. split.
  - intros [-> (ow & Hin & Hty & <-)]. split; [done|]. exists ow. by apply Hows in Hin.
  - intros [-> (ow & Hl & <- & Hty)]. split; [done|]. exists ow. by rewrite Hows.
Qed.

(** Both rules after each other, from a diff computed on [v]. *)
Lemma rules_converge v spaceID ch D real ks1 ks2 acc v' :
  (forall d, is_Some (D !! d) <-> backed (v_db v) spaceID d) ->
  (forall d b, real !! d = Some b <-> b = true /\ member_overwrite (v_guild v) ch d) ->
  ks1 ≡ₚ map_to_list real -> ks2 ≡ₚ map_to_list D ->
  rule2_inv spaceID ch v D real ks1 ks2 acc v' ->
  (acc.1 = acc.2 -> forall d, member_overwrite (v_guild v') ch d <-> backed (v_db v) spaceID d) /\
  ((forall d, member_overwrite (v_guild v) ch d <-> backed (v_db v) spaceID d) ->
     acc = (0, 0) /\ v' = v).
Proof.
  intros HD Hreal H1 H2 (((_ & _ & _ & Ht) & _) & _ & Hconv & Hid).
  assert (Hin1 : forall d b, (d, b) ∈ ks1 <-> real !! d = Some b).
  { intros. rewrite H1. apply elem_of_map_to_list. }
  assert (Hin2 : forall d b, (d, b) ∈ ks2 <-> D !! d = Some b).
  { intros. rewrite H2. apply elem_of_map_to_list. }
  split.
  - intros Heq d. destruct (Hconv Heq) as [Ha Hb]. split; intros Hm.
    + destruct (Ht d) as [Hs|[(_ & _ & Hn)|(_ & ? & _)]]; [| |done].
      * destruct (D !! d) as [id|] eqn:HDd; [apply HD; by rewrite HDd|].
        assert (member_overwrite (v_guild v) ch d) as Hm0 by (by unfold member_overwrite in *; rewrite <-Hs).
        destruct Hm as (ow & Hl & _). pose proof (Ha (d, true)) as Hx. cbn in Hx. rewrite Hx in Hl; [done| |done].
        by apply Hin1, Hreal.
      * destruct Hm as (ow & Hl & _). congruence.
    + apply HD in Hm as [id HDd]. destruct (real !! d) as [b|] eqn:Hrd.
      * apply Hreal in Hrd as [_ Hm0]. destruct (Ht d) as [Hs|[(_ & Hnb & _)|(Hn & _)]]; [| |done].
        -- unfold member_overwrite in *. by rewrite Hs.
        -- destruct Hnb. apply HD. by rewrite HDd.
      * exists (collaborator_allow d). split; [|done]. apply (Hb (d, id)); [by apply Hin2|done].
  - intros Hc. apply Hid.
    + intros [d b] Hin. apply Hin1, Hreal in Hin as [_ Hm]. apply Hc, HD in Hm as [? Hm]. cbn. congruence.
    + intros [d b] Hin. apply Hin2 in Hin. assert (is_Some (D !! d)) as HDd by eauto.
      apply HD, Hc in HDd. cbn. rewrite (proj2 (Hreal d true)); [done|by split].
Qed.

Lemma sweep_stamp ch back v0 v id v' :
  sweep_rel ch back v0 v ->
  (v' = v \/ exists now s, t_spaces (v_db v) !! id = Some s /\
     v' = with_db (set_spaces (<[id := with_reconciled now s]> (t_spaces (v_db v))) (v_db v)) v) ->
  sweep_rel ch back v0 v' /\ v_guild v' = v_guild v.
Proof.
  intros Hs [->|(now & s & Hl & ->)]; [done|]. split; [|done].
  destruct Hs as (Hg & [Hb Hc] & Hr). split; [done|]. split; [|done]. split; [done|].
  intros id'. rewrite <-Hc. cbn. destruct (decide (id = id')) as [<-|Hn].
  - by rewrite lookup_insert_eq, Hl.
  - by rewrite lookup_insert_ne.
Qed.

#[export] Instance reconcile_body_spec spaceID :
  Spec view (reconcile_body spaceID) (body_post spaceID).
Proof.
  apply spec_of_wp. intros w. unfold reconcile_body. go_step. destruct H as [Hv H].
  destruct H as [(sp & -> & Hsp)|[[-> Hsp]|(e & He & ->)]]; [|by apply wp_ret|by apply wp_ret].
  destruct (sp_DiscordChannelID sp) as [ch|] eqn:Hch; [|by apply wp_ret].
  destruct (decide (sp_ACLState sp = ACLStateApplied)) as [Hacl|]; [|by apply wp_ret].
  go_step. destruct H as [Hv1 H]. rewrite Hv in H, Hv1.
  destruct H as [->|(e & He & ->)]; [|by apply wp_ret].
  pose proof (desired_loop spaceID w'0) as Hdl. rewrite Hv1 in Hdl.
  eapply wp_seq; [exact Hdl|]. intros [D|e] w2 [Hv2 HD]; [|by apply wp_ret].
  go_step. destruct H as [Hv3 H]. rewrite Hv2 in H, Hv3.
  destruct H as [(ows & -> & Hex & Hows)|(e & He & ->)]; [|by apply wp_ret].
  pose proof (real_of_overwrites _ _ _ Hows) as Hreal.
  set (real := realMemberOverwrites ows) in *.
  destruct (bool_decide (active_members spaceID (v_db (view w)) <> []) && bool_decide (D = ∅) &&
            bool_decide (real <> ∅)) eqn:Hcb; [by apply wp_ret|].
  go_step. destruct H as [Hv4 Hp1]. rewrite Hv3 in Hv4.
  eapply wp_seq; [apply (rule1_loop spaceID ch (view w) D a HD)|].
  { intros [d b] Hin. rewrite Hp1 in Hin. by apply elem_of_map_to_list, Hreal in Hin as [_ ?]. }
  { done. }
  intros acc1 w5 Hr1. go_step. destruct H as [Hv5 Hp2]. rewrite <-Hv5 in Hr1.
  eapply wp_seq; [eapply (rule2_loop spaceID ch (view w) D real a HD Hreal); [|exact Hr1]|].
  { intros [d b] Hin. rewrite Hp2 in Hin. apply elem_of_map_to_list in Hin. by exists b. }
  intros [found repaired] w6 Hr2. go_step.
  destruct (rules_converge _ _ _ _ _ _ _ _ _ HD Hreal Hp1 Hp2 Hr2) as [Hconv Hid].
  destruct Hr2 as (Hsw & Hle & _). destruct (sweep_stamp _ _ _ _ _ _ Hsw H) as [Hsw' Hg].
  apply wp_ret. exists sp, ch. cbn in *. rewrite Hg.
  split; [done|]. split; [done|]. split; [done|]. split; [done|]. split; [done|].
  split; [done|]. split.
  - intros Hc. destruct (Hid Hc) as [[= -> ->] ->]. done.
  - intros (Hne & Hnb & d & Hm). apply not_true_iff_false in Hcb. apply Hcb.
    rewrite !andb_true_iff, !bool_decide_eq_true. split; [split; [done|]|].
    + apply map_empty. intros x. destruct (D !! x) eqn:HDx; [|done].
      destruct (Hnb x). apply HD. by rewrite HDx.
    + intros He. assert (real !! d = Some true) as Hx by by apply Hreal. by rewrite He in Hx.
Qed.

(** ** [ReconcileSpace] and the guild sweep *)

(** The lock only moves the key-value store before and after the body. *)
Definition kv_step (v v' : View) : Prop := exists ks, v' = with_kv ks v.

Lemma ReconcileSpace_cases (en : Engine W) spaceID :
  locker_ok view (en_locker en) ->
  Spec view (ReconcileSpace en spaceID) (fun v r v' =>
    kv_step v v' /\ (forall e, r = Err e -> v_guild v' = v_guild v) \/
    exists v1 r1 v2, kv_step v v1 /\ body_post spaceID v1 r1 v2 /\ kv_step v2 v' /\
      r = result_map (fun _ => tt) r1).
Proof.
  intros Hl. apply spec_of_wp. intros w. unfold ReconcileSpace.
  assert (Hrefl : forall v, kv_step v v) by (intros v; exists (v_kv v); by rewrite with_kv_same).
  destruct (en_locker en) as [l|]; cbn in Hl.
  - go_step. destruct H as [[ks Hk] He]. destruct a as [[token ok]|e]; cbn.
    + destruct ok; cbn.
      * go_step. go_step. destruct H0 as [[ks2 Hk2] _]. apply wp_ret. right.
        exists (view w'), a, (view w'0). split; [by exists ks|]. split; [done|]. split; [by exists ks2|done].
      * apply wp_ret. left. split; [by exists ks|done].
    + apply wp_ret. left. split; [by exists ks|]. intros. by rewrite Hk.
  - go_step. apply wp_ret. right. exists (view w), a, (view w'). auto.
Qed.

(** The run behind [reconcile_space_safe]. *)
Lemma reconcile_space_run (en : Engine W) (spaceID : string) (w : W) :
  locker_ok view (en_locker en) ->
  let v := view w in
  let r := (ReconcileSpace en spaceID w).1 in
  let v' := view (ReconcileSpace en spaceID w).2 in
  (v_guild v' = v_guild v \/
   exists sp ch, t_spaces (v_db v) !! spaceID = Some sp /\ sp_DiscordChannelID sp = Some ch /\
     sp_ACLState sp = ACLStateApplied /\
     repairs ch (backed (v_db v) spaceID) (v_guild v) (v_guild v')) /\
  (forall e, r = Err e -> v_guild v' = v_guild v) /\
  db_kept (v_db v) (v_db v') /\ v_queue v' = v_queue v.
Proof.
  intros Hl v r v'. pose proof (ReconcileSpace_cases en spaceID Hl w) as H. subst v r v'. revert H.
  generalize (view w) (ReconcileSpace en spaceID w).1 (view (ReconcileSpace en spaceID w).2).
  intros v r v' [[[ks ->] He]|(v1 & r1 & v2 & [ks1 ->] & Hb & [ks2 ->] & ->)].
  - split; [by left|]. done.
  - destruct r1 as [[[f p]|]|e]; cbn in Hb.
    + destruct Hb as (sp & ch & Hsp & Hch & Hacl & (Hg & Hback & _ & Hq & _) & _).
      split; [right; by exists sp, ch|]. done.
    + subst v2. by split; [left|].
    + subst v2. by split; [left|].
Qed.

(** C9: whatever fails on the way, a sweep changes Discord only by removing, from the channel of a
    fully projected space, overwrites of members no active membership backs, and by granting the
    collaborator overwrite to members one backs and that lack it: no other channel, role
    overwrite, guild member, role or message is touched, no backed access is ever revoked and no
    unbacked one ever granted; a sweep that reports an error changed nothing on Discord; and the
    memberships themselves are what they were. *)
Theorem reconcile_space_safe (en : Engine W) (spaceID : string) (w : W) :
  locker_ok view (en_locker en) ->
  let v := view w in
  let r := (ReconcileSpace en spaceID w).1 in
  let v' := view (ReconcileSpace en spaceID w).2 in
  (v_guild v' = v_guild v \/
   exists sp ch, t_spaces (v_db v) !! spaceID = Some sp /\ sp_DiscordChannelID sp = Some ch /\
     sp_ACLState sp = ACLStateApplied /\
     repairs ch (backed (v_db v) spaceID) (v_guild v) (v_guild v')) /\
  (forall e, r = Err e -> v_guild v' = v_guild v) /\
  db_kept (v_db v) (v_db v') /\ v_queue v' = v_queue v.
Proof. exact (reconcile_space_run en spaceID w). Qed.

(** C21: a sweep whose log reports as many repairs as drifts leaves on the channel exactly the member
    overwrites the memberships back; on a channel that is already so it finds no drift and changes
    nothing on Discord. *)
Theorem reconcile_converges (spaceID : string) (w : W) (found repaired : Z) :
  (reconcile_body spaceID w).1 = Ok (Some (found, repaired)) ->
  let v := view w in
  let v' := view (reconcile_body spaceID w).2 in
  exists sp ch, t_spaces (v_db v) !! spaceID = Some sp /\ sp_DiscordChannelID sp = Some ch /\
    repaired <= found /\
    (found = repaired ->
       forall d, member_overwrite (v_guild v') ch d <-> backed (v_db v') spaceID d) /\
    ((forall d, member_overwrite (v_guild v) ch d <-> backed (v_db v) spaceID d) ->
       found = 0 /\ repaired = 0 /\ v_guild v' = v_guild v).
Proof.
  intros Hr v v'. subst v v'. pose proof (reconcile_body_spec spaceID w) as H. rewrite Hr in H.
  destruct H as (sp & ch & Hsp & Hch & _ & (_ & [Hb _] & _) & Hle & Hc & Hid & _).
  exists sp, ch. split; [done|]. split; [done|]. split; [done|]. split; [|done].
  intros Heq d. rewrite Hb. by apply Hc.
Qed.

(** The circuit breaker: memberships that all resolve to nobody, while the channel has member
    overwrites, never lead to a repair: the sweep leaves every remote state as it was. *)
Theorem reconcile_breaker (spaceID : string) (w : W) :
  let v := view w in
  active_members spaceID (v_db v) <> [] -> (forall d, ~ backed (v_db v) spaceID d) ->
  (forall sp ch, t_spaces (v_db v) !! spaceID = Some sp -> sp_DiscordChannelID sp = Some ch ->
     exists d, member_overwrite (v_guild v) ch d) ->
  view (reconcile_body spaceID w).2 = v /\
  forall counters, (reconcile_body spaceID w).1 <> Ok (Some counters).
Proof.
  intros v Hne Hnb Hm. pose proof (reconcile_body_spec spaceID w) as H.
  destruct ((reconcile_body spaceID w).1) as [[[f p]|]|e]; cbn in H; [|done|done].
  destruct H as (sp & ch & Hsp & Hch & _ & _ & _ & _ & _ & []). split; [done|]. split; [done|].
  by apply (Hm sp).
Qed.

(** What any number of sweeps may have done to the guild. *)
Definition guild_repairs (v0 : View) (g' : Guild) : Prop :=
  g' = g_set_overwrites (g_overwrites g') (v_guild v0) /\
  forall ch t, overwrites_of ch g' !! t = overwrites_of ch (v_guild v0) !! t \/
    exists id, sp_DiscordChannelID <$> t_spaces (v_db v0) !! id = Some (Some ch) /\
      ((~ backed (v_db v0) id t /\ overwrites_of ch g' !! t = None) \/
       (backed (v_db v0) id t /\ overwrites_of ch g' !! t = Some (collaborator_allow t))).

Definition sweeps_inv (v0 v : View) : Prop :=
  guild_repairs v0 (v_guild v) /\ db_kept (v_db v0) (v_db v) /\ v_queue v = v_queue v0.

Lemma db_kept_trans db1 db2 db3 : db_kept db1 db2 -> db_kept db2 db3 -> db_kept db1 db3.
Proof.
  intros [H1 H2] [H3 H4]. split.
  - intros s d. by rewrite H3.
  - intros id. by rewrite H4.
Qed.

Lemma sweeps_step v0 v v' id :
  sweeps_inv v0 v ->
  (v_guild v' = v_guild v \/
   exists sp ch, t_spaces (v_db v) !! id = Some sp /\ sp_DiscordChannelID sp = Some ch /\
     repairs ch (backed (v_db v) id) (v_guild v) (v_guild v')) ->
  db_kept (v_db v) (v_db v') -> v_queue v' = v_queue v ->
  sweeps_inv v0 v'.
Proof.
  intros ((Hg & Ht) & Hdb & Hq) Hstep Hdb' Hq'. split; [|split; [by eapply db_kept_trans|congruence]].
  destruct Hstep as [->|(sp & ch & Hsp & Hch & Hg' & _ & Hoth & Hrep)]; [done|]. split.
  - rewrite Hg', Hg. by destruct (v_guild v0).
  - intros ch' t. destruct (decide (ch' = ch)) as [->|Hne]; [|rewrite Hoth by done; apply Ht].
    destruct Hdb as [Hb Hc].
    destruct (Hrep t) as [->|[(_ & Hn & He)|(_ & Hn & He)]]; [apply Ht| |]; right; exists id;
      rewrite <-Hc, Hsp; cbn; rewrite Hch, <-Hb; auto.
Qed.

(** The run behind [reconcile_guild_safe]. *)
Lemma reconcile_guild_run (en : Engine W) (guildID : string) (w : W) :
  locker_ok view (en_locker en) ->
  let v := view w in
  let v' := view (ReconcileGuild en guildID w).2 in
  guild_repairs v (v_guild v') /\ db_kept (v_db v) (v_db v') /\ v_queue v' = v_queue v.
Proof.
  intros Hl v v'. apply (fun H => H). change (wp view (ReconcileGuild en guildID)
    (fun _ v' => sweeps_inv v v') w). unfold ReconcileGuild.
  assert (Hrefl : sweeps_inv v v).
  { split; [|done]. split; [by destruct (v_guild v)|]. by left. }
  go_step. destruct H as [Hv _]. destruct a as [spaces|e]; [|apply wp_ret; by rewrite Hv].
  go_step. destruct H as [m Hm]. rewrite Hv in Hm.
  eapply wp_seq; [apply (wp_for_each view _ (fun _ _ v' => sweeps_inv v v'))|].
  - by rewrite Hm.
  - intros done sp rest errs w3 _ Hinv. apply wp_bind, wp_ret.
    destruct (reconcile_space_run en (sp_ID sp) w3 Hl) as (Hcase & _ & Hdb & Hq).
    eapply sweeps_step; [done| |done|done].
    destruct Hcase as [?|(sp' & ch & ? & ? & _ & ?)]; [by left|right; eauto 6].
  - intros errs w4 Hinv. destruct errs; by apply wp_ret.
Qed.

(** A guild sweep is as safe as the sweeps of the single spaces, however many of them fail: every
    overwrite entry of every channel is as before, or was removed from the channel of a space that
    does not back it, or granted on the channel of a space that does; nothing else on Discord, no
    membership and no task changes. *)
Theorem reconcile_guild_safe (en : Engine W) (guildID : string) (w : W) :
  locker_ok view (en_locker en) ->
  let v := view w in
  let v' := view (ReconcileGuild en guildID w).2 in
  guild_repairs v (v_guild v') /\ db_kept (v_db v) (v_db v') /\ v_queue v' = v_queue v.
Proof. exact (reconcile_guild_run en guildID w). Qed.
End Proofs.

(** ** Witnesses: the sweep of the sample hub *)
Definition sample_engine : Engine InMemory.World :=
  NewEngineWithLocker (NewWithTTL defaultTTL).

Lemma sample_engine_ok : locker_ok w_view (en_locker sample_engine).
Proof. cbn. apply _. Defined.

Lemma reconcile_space_safe_witness :
  let w := sample [] in
  let v' := w_view (ReconcileSpace sample_engine "s1" w).2 in
  (ReconcileSpace sample_engine "s1" w).1 = Ok tt /\
  overwrites_of "c1" (v_guild v') !! "d2"%string = None /\
  overwrites_of "c1" (v_guild v') !! "d1"%string = Some (collaborator_allow "d1") /\
  db_kept (v_db (w_view w)) (v_db v').
Proof.
  split; [vm_compute; reflexivity|]. split; [vm_compute; reflexivity|].
  split; [vm_compute; reflexivity|].
  apply (reconcile_space_safe sample_engine "s1" (sample []) sample_engine_ok).
Defined.

Lemma reconcile_converges_witness :
  let w := sample [] in
  let v' := w_view (reconcile_body "s1" w).2 in
  exists sp ch, t_spaces (v_db (w_view w)) !! "s1"%string = Some sp /\ sp_DiscordChannelID sp = Some ch /\
    2 <= 2 /\
    (2 = 2 -> forall d, member_overwrite (v_guild v') ch d <-> backed (v_db v') "s1" d) /\
    ((forall d, member_overwrite (v_guild (w_view w)) ch d <-> backed (v_db (w_view w)) "s1" d) ->
       2 = 0 /\ 2 = 0 /\ v_guild v' = v_guild (w_view w)).
Proof. apply (reconcile_converges (view := w_view) "s1" (sample []) 2 2). vm_compute. reflexivity. Defined.

(** The only member of the space lost its Discord identity. *)
Definition breaker_world : InMemory.World :=
  world (mkView (set_users ∅ (sample_DB (space_of (Some "c1"%string) ACLStateApplied) (member_of false None)))
           sample_Guild ∅ [] empty_Metrics) [].

Lemma reconcile_breaker_witness :
  (reconcile_body "s1" breaker_world).1 = Err (New "reconcile: circuit breaker") /\
  w_view (reconcile_body "s1" breaker_world).2 = w_view breaker_world.
Proof.
  split; [vm_compute; reflexivity|].
  apply (reconcile_breaker (view := w_view) "s1" breaker_world).
  - vm_compute. discriminate.
  - intros d (id & sm & u & _ & _ & _ & Hu & _). cbn in Hu. by rewrite lookup_empty in Hu.
  - intros sp ch Hsp Hch. exists "d2"%string. vm_compute in Hsp. injection Hsp as <-.
    injection Hch as <-. vm_compute. eauto.
Defined.

Lemma reconcile_guild_safe_witness :
  let w := sample [Fine; Fine; Before (External "down")] in
  let v' := w_view (ReconcileGuild sample_engine "g" w).2 in
  (ReconcileGuild sample_engine "g" w).1 = Err (New "reconcile: guild sweep: space(s) failed") /\
  guild_repairs (w_view w) (v_guild v') /\ db_kept (v_db (w_view w)) (v_db v') /\ v_queue v' = [].
Proof.
  split; [vm_compute; reflexivity|].
  apply (reconcile_guild_safe sample_engine "g"
           (sample [Fine; Fine; Before (External "down")]) sample_engine_ok).
Defined.
