(* ===== verification/Provision.v ===== *)
(** * Provision: the worker of KindProvisionSpace, internal/worker/provision_space.go

    A space's channel is created already denied to @everyone, the Agent role is allowed on its
    category, and only then is the space marked applied; any failure of the access-control steps is
    terminal and leaves the channel invisible (fail closed). *)
From S2P Require Import Prelude Errors Domain Schema Services Postgres StoreSpec Discord Lock.
From S2P Require Import RateLimit Cache Observability Queue InMemory.

(** [provisionSpaceConfig], internal/worker/provision_space.go:49-60. The store and the Discord client
    are flags (nil or the ones of [Env]). *)
Record provisionSpaceConfig (W : Type) : Type := mkProvisionSpaceConfig {
  pc_store : bool;
  pc_discord : bool;
  pc_limiter : option (Limiter W);
  pc_locker : option (Locker W);
  pc_cache : option (Cache W);
  pc_metrics : bool;
  pc_guildID : string;
  pc_everyoneRoleID : string;
  pc_agentRoleID : string;
  pc_defaultCategory : string
}.
Arguments pc_store {W}. Arguments pc_discord {W}. Arguments pc_limiter {W}.
Arguments pc_locker {W}. Arguments pc_cache {W}. Arguments pc_metrics {W}.
Arguments pc_guildID {W}. Arguments pc_everyoneRoleID {W}. Arguments pc_agentRoleID {W}.
Arguments pc_defaultCategory {W}.

(** [cacheKeySpaces], internal/worker/provision_space.go:37. *)
Definition cacheKeySpaces : string := "spaces:list".
(** [cacheKeySpace], internal/worker/provision_space.go:40. *)
Definition cacheKeySpace : string := "spaces:id:".
(** [cacheKeySpacesGen], internal/worker/provision_space.go:46. *)
Definition cacheKeySpacesGen : string := "spaces:list:gen".

Section Handler.
Context {W : Type} {E : Env W}.

(** A task handler: the task's payload document to an error. *)
Definition HandlerFunc : Type := option json -> M W (result error unit).

(** [stubHandler], internal/worker/worker.go:203-214. It only logs. *)
Definition stubHandler (kind : string) : HandlerFunc := fun _ => ret (Ok tt).

(** [lookupJobBySpaceID], internal/worker/provision_space.go:348-356. *)
Definition lookupJobBySpaceID (spaceID : string) : M W (option Job) :=
  job <-? GetJobBySpaceIDAndKind spaceID KindProvisionSpace onerr e => ret None ;;
  ret (Some job).

(** [transitionJob], internal/worker/provision_space.go:319-342. *)
Definition transitionJob (spaceID : string) (status : JobStatus) (cause : option error) : M W unit :=
  job <- lookupJobBySpaceID spaceID ;;
  match job with
  | None => ret tt
  | Some job =>
      r <- UpdateJobStatus (mkUpdateJobStatusParams (j_ID job) status cause None
                              (bool_decide (status = JobStatusCompleted))) ;;
      ret tt
  end.

(** The handler proper, with the defaults of its constructor filled in. *)
Section Run.
Context (cfg : provisionSpaceConfig W) (limiter : Limiter W) (locker : Locker W) (cache : Cache W).

(** [takeTokens], internal/worker/provision_space.go:249-259. *)
Definition takeTokens (routeKey : string) : M W (result error unit) :=
  g <-? TakeGlobal limiter onerr e => (i <- IncRateLimitHit (pc_metrics cfg) ;; ret (Err e)) ;;
  t <-? TakeRoute limiter routeKey onerr e => (i <- IncRateLimitHit (pc_metrics cfg) ;; ret (Err e)) ;;
  ret (Ok tt).

(** [handle429], internal/worker/provision_space.go:262-269. *)
Definition handle429 (routeKey : string) (discordErr : error) : M W (result error unit) :=
  let ra := extractDiscord429RetryAfter discordErr in
  let retryAfter := if ra <=? 0 then 5 * Second else ra in
  p <- PenalizeUntil limiter routeKey retryAfter ;;
  ret (Err (RateLimitError retryAfter routeKey)).

Definition acl_text (a : ACLState) : string :=
  match a with
  | ACLStatePending => "pending" | ACLStateApplied => "applied"
  | ACLStateDegraded => "degraded" | ACLStateFailed => "failed"
  end.

(** [failClosed], internal/worker/provision_space.go:279-314. *)
Definition failClosed (spaceID merchantID channelID reason : string) (cause : error)
    : M W (result error unit) :=
  i <- IncError (pc_metrics cfg) "fatal" ;;
  let newState := if decide (channelID = ""%string) then ACLStateFailed else ACLStateDegraded in
  s <- UpdateSpaceACLState spaceID newState ;;
  j <- transitionJob spaceID JobStatusArchived (Some cause) ;;
  a <- InsertAuditEntry (mkInsertAuditEntryParams None None "space.provision.failed" (Some merchantID)
         (Some spaceID) None None
         (Some [("reason"%string, JStr reason); ("acl_state"%string, JStr (acl_text newState))])) ;;
  ret (Err (SkipRetryError (Wrap "provision_space fail-closed: " cause))).

(** [invalidateSpaceCache], internal/worker/provision_space.go:361-371. *)
Definition invalidateSpaceCache (spaceID : string) : M W unit :=
  r <- CacheDel cache [cacheKeySpaces; cacheKeySpace +:+ spaceID; cacheKeySpacesGen] ;; ret tt.

(** Steps 2 to 4, once the channel exists; [handle], internal/worker/provision_space.go:195-244. *)
Definition provision_apply (p : ProvisionSpacePayload) (categoryID channelID : string)
    : M W (result error unit) :=
  let route := ("PUT/channels/" +:+ categoryID +:+ "/permissions")%string in
  t <-? takeTokens route onerr e => ret (Err e) ;;
  acl <- ApplyCategoryAgentAllow categoryID (pc_agentRoleID cfg) ;;
  match acl with
  | Err e => if isDiscord429 e then handle429 route e
             else failClosed (pp_SpaceID p) (pp_MerchantID p) channelID "acl_apply_failed" e
  | Ok _ =>
      let catPtr := if decide (categoryID = ""%string) then None else Some categoryID in
      u <-? UpdateSpaceDiscordChannel
              (mkUpdateSpaceDiscordChannelParams (pp_SpaceID p) channelID catPtr ACLStateApplied)
        onerr e => ret (Err (Wrap "provision_space: persist discord channel: " e)) ;;
      j <- transitionJob (pp_SpaceID p) JobStatusCompleted None ;;
      a <- InsertAuditEntry (mkInsertAuditEntryParams None None "space.provision"
             (Some (pp_MerchantID p)) (Some (pp_SpaceID p)) None None
             (Some [("discord_channel_id"%string, JStr channelID);
                    ("category_id"%string, JStr categoryID)])) ;;
      c <- invalidateSpaceCache (pp_SpaceID p) ;;
      ret (Ok tt)
  end.

(** The category the channel goes under, internal/worker/provision_space.go:156-163. *)
Definition category_of (p : ProvisionSpacePayload) : string :=
  if decide (pp_CategoryID p = ""%string) then pc_defaultCategory cfg else pp_CategoryID p.

(** From the idempotency check on, under the merchant lock; [handle],
    internal/worker/provision_space.go:145-193. *)
Definition provision_locked (p : ProvisionSpacePayload) : M W (result error unit) :=
  sp <-? GetSpaceByID (pp_SpaceID p) onerr e => ret (Err (Wrap "provision_space: load space: " e)) ;;
  (if bool_decide (is_Some (sp_DiscordChannelID sp)) && bool_decide (sp_ACLState sp = ACLStateApplied)
   then ret (Ok tt)
   else
     let categoryID := category_of p in
     if decide (categoryID = ""%string) then
       failClosed (pp_SpaceID p) (pp_MerchantID p) "" "no_category_for_agent_allow"
         (New "provision_space: space has no category_id and DISCORD_CATEGORY_ID is not configured")
     else
       t <-? takeTokens "POST/channels" onerr e => ret (Err e) ;;
       ch <- CreateChannelDenied (pc_guildID cfg) (pp_SpaceName p) categoryID (pc_everyoneRoleID cfg) ;;
       match ch with
       | Err e => if isDiscord429 e then handle429 "POST/channels" e
                  else failClosed (pp_SpaceID p) (pp_MerchantID p) "" "channel_create_failed" e
       | Ok channelID => provision_apply p categoryID channelID
       end).

(** The lock and what it guards; [handle], internal/worker/provision_space.go:126-143. *)
Definition provision_run (p : ProvisionSpacePayload) : M W (result error unit) :=
  j <- transitionJob (pp_SpaceID p) JobStatusActive None ;;
  lk <-? AcquireMerchant locker (pp_MerchantID p)
    onerr e => ret (Err (Wrap "provision_space: acquire merchant lock: " e)) ;;
  (if negb lk.2 then ret (Err (New "provision_space: merchant lock held; retry later"))
   else
     r <- provision_locked p ;;
     rel <- ReleaseMerchant locker (pp_MerchantID p) lk.1 ;;
     ret r).

(** [provisionSpaceHandler.handle], internal/worker/provision_space.go:99-124. *)
Definition provisionSpace_handle : HandlerFunc := fun raw =>
  match decode_ProvisionSpace raw with
  | None =>
      i <- IncError (pc_metrics cfg) "fatal" ;;
      ret (Err (WrapV SkipRetry ": decode provision payload: " (External "json")))
  | Some p =>
      if decide (pp_SpaceID p = ""%string) then
        i <- IncError (pc_metrics cfg) "fatal" ;;
        ret (Err (WrapMsg SkipRetry ": provision_space: payload missing space_id"))
      else
        jobStart <- time_Now ;;
        r <- provision_run p ;;
        (if match r with Ok _ => true | Err e => errors_Is e SkipRetry end then
           now <- time_Now ;;
           m <- RecordProvisioningLatency (pc_metrics cfg) (now - jobStart) (is_Ok r) ;;
           ret r
         else ret r)
  end.
End Run.

(** The everyone role the handler uses. *)
Definition with_everyone (cfg : provisionSpaceConfig W) : provisionSpaceConfig W :=
  mkProvisionSpaceConfig W (pc_store cfg) (pc_discord cfg) (pc_limiter cfg) (pc_locker cfg)
    (pc_cache cfg) (pc_metrics cfg) (pc_guildID cfg)
    (if decide (pc_everyoneRoleID cfg = ""%string) then pc_guildID cfg else pc_everyoneRoleID cfg)
    (pc_agentRoleID cfg) (pc_defaultCategory cfg).

(** [newProvisionSpaceHandler], internal/worker/provision_space.go:66-94. *)
Definition newProvisionSpaceHandler (cfg : provisionSpaceConfig W) : HandlerFunc :=
  if negb (pc_store cfg) || negb (pc_discord cfg) then stubHandler KindProvisionSpace
  else
    let limiter := default NoopLimiter (pc_limiter cfg) in
    let locker := default NoopLocker (pc_locker cfg) in
    let cache := default NoopCache (pc_cache cfg) in
    if bool_decide (pc_agentRoleID cfg = ""%string) ||
       bool_decide (pc_agentRoleID cfg = pc_guildID cfg)
    then stubHandler KindProvisionSpace
    else provisionSpace_handle (with_everyone cfg) limiter locker cache.
End Handler.
Arguments HandlerFunc : clear implicits.

(** ** What provisioning may do *)

(** Discord and the spaces are as before. *)
Definition quiet (v v' : View) : Prop :=
  v_guild v' = v_guild v /\ t_spaces (v_db v') = t_spaces (v_db v) /\ v_queue v' = v_queue v.

Lemma quiet_refl v : quiet v v.
Proof. done. Qed.
Lemma quiet_trans v1 v2 v3 : quiet v1 v2 -> quiet v2 v3 -> quiet v1 v3.
Proof. unfold quiet. intuition congruence. Qed.
Lemma quiet_kv v ks : quiet v (with_kv ks v).
Proof. done. Qed.
Lemma quiet_audit p v (r : result error unit) v' : audit_outcome p v r v' -> quiet v v'.
Proof. intros [[->|(now & ->)] _]; done. Qed.
Lemma quiet_metrics {A} v (a : A) v' : only_metrics v a v' -> quiet v v'.
Proof. by intros [m ->]. Qed.
Lemma quiet_limit {A} v (r : result error A) v' : limit_outcome v r v' -> quiet v v'.
Proof. intros [[ks ->] _]. done. Qed.
Lemma quiet_lock {A} v (r : result error A) v' : lock_outcome v r v' -> quiet v v'.
Proof. intros [[ks ->] _]. done. Qed.
Lemma quiet_job id f v (r : result error Job) v' : update_outcome jobs_T id f v r v' -> quiet v v'.
Proof.
  intros [(now & a & _ & _ & ->)|[(_ & _ & ->)|(e & _ & _ & [->|(now & a & _ & ->)])]]; done.
Qed.

(** Entry by entry: an overwrite is as before, or the Agent role's allow on the category, or the
    @everyone deny of a channel that did not exist; and every new channel has that deny. *)
Definition born_denied `{Env W} (everyone cat agent : string) (g g' : Guild) : Prop :=
  g' = g_set_overwrites (g_overwrites g') g /\
  (forall ch, channel_exists ch g -> channel_exists ch g') /\
  (forall ch t, overwrites_of ch g' !! t = overwrites_of ch g !! t \/
     (ch = cat /\ t = agent /\ overwrites_of ch g' !! t = Some (agent_allow agent)) \/
     (~ channel_exists ch g /\ t = everyone /\ overwrites_of ch g' !! t = Some (everyone_deny everyone))) /\
  (forall ch, ~ channel_exists ch g -> channel_exists ch g' ->
     overwrites_of ch g' !! everyone = Some (everyone_deny everyone)).

(** What becomes of the space row. *)
Inductive space_fate `{Env W} (everyone cat agent : string) (v v' : View) (id : string)
    (r : result error unit) : Prop :=
| fate_same : t_spaces (v_db v') = t_spaces (v_db v) ->
    (r = Ok tt -> v_guild v' = v_guild v /\ exists sp ch, t_spaces (v_db v) !! id = Some sp /\
       sp_DiscordChannelID sp = Some ch /\ sp_ACLState sp = ACLStateApplied) ->
    space_fate everyone cat agent v v' id r
| fate_closed sp st now e : t_spaces (v_db v) !! id = Some sp ->
    t_spaces (v_db v') = <[id := with_acl st now sp]> (t_spaces (v_db v)) ->
    st = ACLStateDegraded \/ st = ACLStateFailed -> r = Err e -> errors_Is e SkipRetry = true ->
    space_fate everyone cat agent v v' id r
| fate_applied sp now ch : t_spaces (v_db v) !! id = Some sp ->
    t_spaces (v_db v') = <[id := with_channel ch (Some cat) ACLStateApplied now sp]> (t_spaces (v_db v)) ->
    ~ channel_exists ch (v_guild v) ->
    overwrites_of ch (v_guild v') !! everyone = Some (everyone_deny everyone) ->
    overwrites_of cat (v_guild v') !! agent = Some (agent_allow agent) ->
    (forall d, ~ member_overwrite (v_guild v') ch d) ->
    space_fate everyone cat agent v v' id r.

Lemma born_denied_refl `{Env W} everyone cat agent g : born_denied everyone cat agent g g.
Proof. split; [by destruct g|]. split; [done|]. split; [by left|done]. Qed.

Lemma born_denied_create `{Env W} everyone cat agent g id :
  g_overwrites g !! id = None ->
  born_denied everyone cat agent g (channel_create id [everyone_deny everyone] g).
Proof.
  intros Hid.
  assert (Hne : ~ channel_exists id g) by (unfold channel_exists; rewrite Hid; by intros [? ?]).
  assert (Hex : forall ch, channel_exists ch (channel_create id [everyone_deny everyone] g) <->
                           ch = id \/ channel_exists ch g).
  { intros ch. unfold channel_exists, channel_create; cbn. destruct (decide (id = ch)) as [<-|Hn].
    - rewrite lookup_insert_eq. split; [by left|by eexists].
    - rewrite lookup_insert_ne by done. naive_solver. }
  split; [by destruct g|]. split; [intros ch ?; apply Hex; by right|]. split.
  - intros ch t. rewrite overwrites_of_create. case_decide as Hd; [subst ch|by left].
    cbn. destruct (decide (everyone = t)) as [<-|Hn].
    + right; right. by rewrite lookup_insert_eq.
    + left. rewrite lookup_insert_ne, lookup_empty by done. unfold overwrites_of.
      by rewrite Hid.
  - intros ch Hn [->|?]%Hex; [|done]. rewrite overwrites_of_create, decide_True by done. cbn.
    by rewrite lookup_insert_eq.
Qed.

Lemma born_denied_allow `{Env W} everyone cat agent g0 g :
  agent <> everyone -> born_denied everyone cat agent g0 g ->
  born_denied everyone cat agent g0 (permission_set cat (agent_allow agent) g).
Proof.
  intros Hae (Hg & Hex & Hent & Hnew).
  assert (Hex' : forall ch, channel_exists ch (permission_set cat (agent_allow agent) g) <-> channel_exists ch g).
  { intros ch. unfold channel_exists, permission_set; cbn. destruct (decide (cat = ch)) as [<-|Hn].
    - rewrite lookup_alter_eq. by destruct (g_overwrites g !! cat); cbn; split; intros [? ?]; eauto.
    - by rewrite lookup_alter_ne. }
  split; [rewrite Hg; by destruct g0|]. split; [intros ch ?; by apply Hex', Hex|]. split.
  - intros ch t. rewrite overwrites_of_set. case_decide as Hd; [|apply Hent]. destruct Hd as [<- _].
    cbn. destruct (decide (agent = t)) as [<-|Hn].
    + right; left. by rewrite lookup_insert_eq.
    + rewrite lookup_insert_ne by done. apply Hent.
  - intros ch Hn He%Hex'. rewrite overwrites_of_set. case_decide as Hd; [|by apply Hnew].
    destruct Hd as [<- _]. cbn. rewrite lookup_insert_ne by done. by apply Hnew.
Qed.

Section Proofs.
Context {W : Type} {E : Env W} {view : W -> View} {L : EnvLaws E view}.

#[export] Instance lookupJob_spec id :
  Spec view (lookupJobBySpaceID id) (fun v _ v' => quiet v v').
Proof.
  apply spec_of_wp. intros w. unfold lookupJobBySpaceID. go_step. destruct H as [Hv _].
  destruct a; apply wp_ret; by rewrite Hv.
Qed.

#[export] Instance transitionJob_spec id st c :
  Spec view (transitionJob id st c) (fun v _ v' => quiet v v').
Proof.
  apply spec_of_wp. intros w. unfold transitionJob. go_step. destruct a; [|by apply wp_ret].
  go_step. apply wp_ret. eapply quiet_trans; [done|]. by eapply quiet_job.
Qed.

Section Run.
Context (cfg : provisionSpaceConfig W) (limiter : Limiter W) (locker : Locker W) (cache : Cache W).
Context {HL : LimiterLaws view limiter} {HK : LockerLaws view locker} {HC : CacheLaws view cache}.
Let everyone := pc_everyoneRoleID cfg.
Let agent := pc_agentRoleID cfg.
Context (Hagent : agent <> everyone).

#[local] Instance takeTokens_spec route :
  Spec view (takeTokens cfg limiter route) (fun v r v' => quiet v v').
Proof.
  apply spec_of_wp. intros w. unfold takeTokens. go_step. apply quiet_limit in H.
  destruct a as [[]|e].
  - go_step. apply quiet_limit in H0. destruct a as [[]|e]; [apply wp_ret; by eapply quiet_trans|].
    go_step. apply quiet_metrics in H1. apply wp_ret. eauto using quiet_trans.
  - go_step. apply quiet_metrics in H0. apply wp_ret. by eapply quiet_trans.
Qed.

#[local] Instance handle429_spec route e :
  Spec view (handle429 limiter route e) (fun v r v' => quiet v v' /\ r <> Ok tt).
Proof.
  apply spec_of_wp. intros w. unfold handle429. go_step. apply wp_ret.
  split; [by eapply quiet_limit|done].
Qed.

#[local] Instance invalidate_spec id :
  Spec view (invalidateSpaceCache cache id) (fun v _ v' => quiet v v').
Proof.
  apply spec_of_wp. intros w. unfold invalidateSpaceCache. go_step. apply wp_ret.
  by eapply quiet_lock.
Qed.

(** A failure that was closed: the row is degraded or failed (or could not be written), Discord is
    untouched, and the task is archived. *)
#[local] Instance failClosed_spec id m ch reason cause :
  Spec view (failClosed cfg id m ch reason cause) (fun v r v' =>
    v_guild v' = v_guild v /\ v_queue v' = v_queue v /\
    exists e, r = Err e /\ errors_Is e SkipRetry = true /\
      (t_spaces (v_db v') = t_spaces (v_db v) \/
       exists sp st now, t_spaces (v_db v) !! id = Some sp /\
         (st = ACLStateDegraded \/ st = ACLStateFailed) /\
         t_spaces (v_db v') = <[id := with_acl st now sp]> (t_spaces (v_db v)))).
Proof.
  apply spec_of_wp. intros w. unfold failClosed. go_step. apply quiet_metrics in H as (Hg & Hs & Hq).
  go_step. set (st := if decide _ then _ else _) in H.
  assert (Hst : st = ACLStateDegraded \/ st = ACLStateFailed) by (subst st; case_decide; auto).
  assert (v_guild (view w'0) = v_guild (view w') /\ v_queue (view w'0) = v_queue (view w') /\
    (t_spaces (v_db (view w'0)) = t_spaces (v_db (view w')) \/
     exists sp now, t_spaces (v_db (view w')) !! id = Some sp /\
       t_spaces (v_db (view w'0)) = <[id := with_acl st now sp]> (t_spaces (v_db (view w')))))
    as (Hg1 & Hq1 & Hs1).
  { destruct H as [(now & sp & Hl & _ & ->)|[(_ & _ & ->)|(e & _ & _ & [->|(now & sp & Hl & ->)])]];
      (split; [done|]; split; [done|]; eauto). }
  clear H. go_step. destruct H as (Hg2 & Hs2 & Hq2). go_step.
  apply quiet_audit in H as (Hg3 & Hs3 & Hq3). apply wp_ret.
  split; [congruence|]. split; [congruence|]. eexists. split; [done|]. split; [done|].
  rewrite Hs3, Hs2, <-Hs. destruct Hs1 as [?|(sp & now & Hl & Hs1)]; [by left|right].
  exists sp, st, now. done.
Qed.

Lemma fate_err v v' id cat e : t_spaces (v_db v') = t_spaces (v_db v) ->
  space_fate everyone cat agent v v' id (Err e).
Proof. intros H. by apply fate_same. Qed.

(** Reaching the end of [failClosed] from a state where the spaces are still the initial ones. *)
Lemma failClosed_wp v0 id m ch reason cause cat w :
  t_spaces (v_db (view w)) = t_spaces (v_db v0) -> v_queue (view w) = v_queue v0 ->
  born_denied everyone cat agent (v_guild v0) (v_guild (view w)) ->
  wp view (failClosed cfg id m ch reason cause) (fun r v' =>
    born_denied everyone cat agent (v_guild v0) (v_guild v') /\ v_queue v' = v_queue v0 /\
    space_fate everyone cat agent v0 v' id r) w.
Proof.
  intros Hs Hq Hb. go_last. destruct H as (Hg & Hq' & e & -> & Hskip & Hfate).
  split; [by rewrite Hg|]. split; [congruence|]. rewrite Hs in Hfate.
  destruct Hfate as [?|(sp & st & now & Hl & Hst & Hs')]; [by apply fate_err|].
  by eapply fate_closed.
Qed.

(** The persist statement: done, refused by a constraint, or lost. *)
#[local] Instance UpdateSpaceDiscordChannel_spec p :
  Spec view (UpdateSpaceDiscordChannel p) (fun v r v' =>
    v_guild v' = v_guild v /\ v_queue v' = v_queue v /\
    ((exists now sp, t_spaces (v_db v) !! usd_SpaceID p = Some sp /\
        t_spaces (v_db v') = <[usd_SpaceID p := with_channel (usd_DiscordChannelID p)
          (usd_DiscordCategoryID p) (usd_ACLState p) now sp]> (t_spaces (v_db v))) \/
     (is_Ok r = false /\ t_spaces (v_db v') = t_spaces (v_db v)))).
Proof.
  apply spec_query. unfold sql_update_space_channel, sql_update. intros v r v' H.
  assert (Hup : forall st a db', (if bool_decide (is_Some (t_spaces (v_db v) !! usd_SpaceID p)) &&
      taken sp_DiscordChannelID (usd_DiscordChannelID p) (usd_SpaceID p) (t_spaces (v_db v))
    then Err (PgError pgUniqueViolation)
    else match tget spaces_T (v_db v) !! usd_SpaceID p with
         | None => Ok (None, v_db v)
         | Some a => Ok (Some (with_channel (usd_DiscordChannelID p) (usd_DiscordCategoryID p) (usd_ACLState p) (st_now st) a),
             tset spaces_T (<[usd_SpaceID p := with_channel (usd_DiscordChannelID p) (usd_DiscordCategoryID p)
               (usd_ACLState p) (st_now st) a]> (tget spaces_T (v_db v))) (v_db v)) end) = Ok (a, db') ->
    (exists now sp, t_spaces (v_db v) !! usd_SpaceID p = Some sp /\
        t_spaces db' = <[usd_SpaceID p := with_channel (usd_DiscordChannelID p)
          (usd_DiscordCategoryID p) (usd_ACLState p) now sp]> (t_spaces (v_db v))) \/
    a = None /\ t_spaces db' = t_spaces (v_db v)).
  { intros st a db' Hq. cbn in Hq. destruct (_ && _); [done|].
    destruct (t_spaces (v_db v) !! usd_SpaceID p) as [sp|] eqn:Hl; simplify_eq; [left|by right].
    by exists (st_now st), sp. }
  destruct H as [(st & a & db' & Hq & -> & ->)|[(st & e & _ & -> & ->)|(e & _ & -> & Hv)]].
  - apply Hup in Hq. split; [done|]. split; [done|]. destruct Hq as [?|[-> Hq]]; [by left|by right].
  - split; [done|]. split; [done|]. right. split; [|done]. cbn. by destruct (errors_Is e ErrNoRows).
  - assert (is_Ok (scanSpace (Err e)) = false) as Hn by (cbn; by destruct (errors_Is e ErrNoRows)).
    destruct Hv as [->|(st & a & db' & Hq & ->)]; (split; [done|]; split; [done|]).
    + by right.
    + apply Hup in Hq as [?|[_ Hq]]; [by left|by right].
Qed.

(** What every part of the handler establishes about the initial view [v0]. *)
Definition prov_post (cat id : string) (v0 : View) (r : result error unit) (v' : View) : Prop :=
  born_denied everyone cat agent (v_guild v0) (v_guild v') /\ v_queue v' = v_queue v0 /\
  space_fate everyone cat agent v0 v' id r.

Lemma prov_post_err cat id v0 v v' e :
  born_denied everyone cat agent (v_guild v0) (v_guild v) -> v_queue v = v_queue v0 ->
  t_spaces (v_db v) = t_spaces (v_db v0) -> quiet v v' -> prov_post cat id v0 (Err e) v'.
Proof.
  intros Hb Hq Hs (Hg & Hs' & Hq'). split; [by rewrite Hg|]. split; [congruence|].
  apply fate_err. congruence.
Qed.

Lemma prov_post_quiet cat id v0 r v v' :
  prov_post cat id v0 r v -> quiet v v' -> prov_post cat id v0 r v'.
Proof.
  intros (Hb & Hq & Hf) (Hg & Hs & Hq'). split; [by rewrite Hg|]. split; [congruence|].
  destruct Hf.
  - apply fate_same; [congruence|]. by rewrite Hg.
  - eapply fate_closed; try eassumption. rewrite Hs. eassumption.
  - eapply fate_applied; rewrite ?Hg, ?Hs; eassumption.
Qed.

Lemma apply_allow_state cat ch v0 g :
  born_denied everyone cat agent (v_guild v0) g -> channel_exists cat g ->
  ~ channel_exists ch (v_guild v0) -> channel_exists ch g ->
  (forall d, ~ member_overwrite g ch d) ->
  let g' := permission_set cat (agent_allow agent) g in
  overwrites_of ch g' !! everyone = Some (everyone_deny everyone) /\
  overwrites_of cat g' !! agent = Some (agent_allow agent) /\
  (forall d, ~ member_overwrite g' ch d).
Proof.
  intros Hb Hcat Hn Hch Hm g'. pose proof (born_denied_allow _ _ _ _ _ Hagent Hb) as Hb'.
  split; [|split].
  - destruct Hb' as (_ & _ & _ & Hnew). apply Hnew; [done|]. unfold channel_exists; cbn.
    destruct (decide (cat = ch)) as [<-|?];
      [rewrite lookup_alter_eq; destruct Hch as [x ->]; by eexists|by rewrite lookup_alter_ne].
  - unfold g'. rewrite overwrites_of_set, decide_True by done. by rewrite lookup_insert_eq.
  - intros d Hd. apply member_overwrite_set in Hd. case_decide; [done|by apply (Hm d)].
Qed.

Lemma provision_apply_wp v0 p cat ch sp w :
  cat <> ""%string ->
  t_spaces (v_db v0) !! pp_SpaceID p = Some sp ->
  t_spaces (v_db (view w)) = t_spaces (v_db v0) -> v_queue (view w) = v_queue v0 ->
  born_denied everyone cat agent (v_guild v0) (v_guild (view w)) ->
  ~ channel_exists ch (v_guild v0) -> channel_exists ch (v_guild (view w)) ->
  (forall d, ~ member_overwrite (v_guild (view w)) ch d) ->
  wp view (provision_apply cfg limiter cache p cat ch) (prov_post cat (pp_SpaceID p) v0) w.
Proof.
  intros Hcat Hsp Hs Hq Hb Hn Hch Hm. unfold provision_apply.
  go_step. destruct a as [[]|e]; [|apply wp_ret; by eapply prov_post_err].
  destruct H as (Hg1 & Hs1 & Hq1). rewrite <-Hg1 in Hb, Hch, Hm. rewrite <-Hs1 in Hs. rewrite <-Hq1 in Hq.
  go_step. destruct H as [(-> & Hex & Hv)|(e & He & -> & Hv)].
  - destruct (apply_allow_state cat ch v0 _ Hb Hex Hn Hch Hm) as (Hden & Hall & Hmem).
    pose proof (born_denied_allow _ _ _ _ _ Hagent Hb) as Hb2.
    assert (v_guild (view w'0) = permission_set cat (agent_allow agent) (v_guild (view w'))) as Hg2
      by (by rewrite Hv).
    assert (t_spaces (v_db (view w'0)) = t_spaces (v_db v0)) as Hs2 by (by rewrite Hv).
    assert (v_queue (view w'0) = v_queue v0) as Hq2 by (by rewrite Hv).
    rewrite <-Hg2 in Hden, Hall, Hmem, Hb2. clear Hv.
    rewrite decide_False by done. go_step. cbn in H. destruct H as (Hg3 & Hq3 & Hup).
    rewrite Hs2 in Hup. rewrite <-Hg3 in Hden, Hall, Hmem, Hb2.
    assert (Hfate : forall r', (r' = Ok tt -> is_Ok a = true) ->
      prov_post cat (pp_SpaceID p) v0 r' (view w'1)).
    { intros r' Hr. split; [done|]. split; [congruence|].
      destruct Hup as [(now & sp' & Hl & Hup)|[Hna Hup]].
      - by eapply (fate_applied _ _ _ _ _ _ _ sp' now ch).
      - apply fate_same; [done|]. intros ->. rewrite Hr in Hna; done. }
    destruct a as [sp1|e]; [|apply wp_ret; by apply Hfate].
    assert (Hok := Hfate (Ok tt) (fun _ => eq_refl)). clear Hfate.
    go_step. go_step. go_step. apply wp_ret. eapply prov_post_quiet; [done|].
    eauto using quiet_trans, quiet_audit.
  - assert (Hb2 : born_denied everyone cat agent (v_guild v0) (v_guild (view w'0))).
    { destruct Hv as [-> | ->]; [done|]. by apply born_denied_allow. }
    assert (t_spaces (v_db (view w'0)) = t_spaces (v_db v0) /\ v_queue (view w'0) = v_queue v0)
      as [Hs2 Hq2] by (destruct Hv as [-> | ->]; done).
    destruct (isDiscord429 e).
    + go_last. destruct H as [Hqu Hr]. destruct a as [[]|e']; [done|]. by eapply prov_post_err.
    + by apply failClosed_wp.
Qed.

Lemma provision_locked_wp p v0 w :
  quiet v0 (view w) ->
  wp view (provision_locked cfg limiter cache p) (prov_post (category_of cfg p) (pp_SpaceID p) v0) w.
Proof.
  intros (Hg & Hs & Hq). unfold provision_locked.
  pose proof (born_denied_refl everyone (category_of cfg p) agent (v_guild v0)) as Hb.
  go_step. destruct H as [Hv H]. rewrite <-Hg in Hb at 2.
  destruct H as [(sp & -> & Hsp)|[[-> Hsp]|(e & He & ->)]]; try (cbv beta in Hsp; rewrite Hs in Hsp);
    [|apply wp_ret; eapply prov_post_err; [done..|]; by rewrite Hv
     |apply wp_ret; eapply prov_post_err; [done..|]; by rewrite Hv].
  rewrite <-Hv in Hb, Hs, Hq, Hg.
  destruct (bool_decide (is_Some (sp_DiscordChannelID sp)) && bool_decide (sp_ACLState sp = ACLStateApplied)) eqn:Hdone.
  - apply andb_prop in Hdone as [[ch Hch]%bool_decide_eq_true Hacl%bool_decide_eq_true].
    apply wp_ret. split; [done|]. split; [done|]. apply fate_same; [done|]. intros _.
    split; [done|]. by exists sp, ch.
  - set (cat := category_of cfg p) in *. destruct (decide (cat = ""%string)) as [Hc|Hc].
    { by apply failClosed_wp. }
    go_step. destruct a as [[]|e]; [|apply wp_ret; by eapply prov_post_err].
    destruct H as (Hg1 & Hs1 & Hq1). rewrite <-Hg1 in Hb, Hg. rewrite <-Hs1 in Hs. rewrite <-Hq1 in Hq.
    go_step. destruct H as [(id & -> & Hid & Hnew & Hv2)|(e & He & -> & Hv2)].
    + rewrite Hg in Hnew.
      assert (Hn : ~ channel_exists id (v_guild v0)) by (unfold channel_exists; rewrite Hnew; by intros [? ?]).
      apply (provision_apply_wp v0 p cat id sp); try done; rewrite Hv2; try done; cbn; rewrite ?Hg.
      * by apply born_denied_create.
      * unfold channel_exists; cbn. rewrite lookup_insert_eq. by eexists.
      * intros d (ow & Ho & Hd & Hty). rewrite overwrites_of_create, decide_True in Ho by done. cbn in Ho.
        apply lookup_insert_Some in Ho as [[_ <-]|[_ Ho]]; [done|by rewrite lookup_empty in Ho].
    + assert (Hb2 : born_denied everyone cat agent (v_guild v0) (v_guild (view w'1))).
      { destruct Hv2 as [->|(id & Hnew & ->)]; [done|]. cbn. rewrite Hg in *. by apply born_denied_create. }
      assert (t_spaces (v_db (view w'1)) = t_spaces (v_db v0) /\ v_queue (view w'1) = v_queue v0)
        as [Hs2 Hq2] by (destruct Hv2 as [->|(id & _ & ->)]; done).
      destruct (isDiscord429 e).
      * go_last. destruct H as [Hqu Hr]. destruct a as [[]|e']; [done|]. by eapply prov_post_err.
      * by apply failClosed_wp.
Qed.

Lemma provision_run_wp p w :
  wp view (provision_run cfg limiter locker cache p)
    (prov_post (category_of cfg p) (pp_SpaceID p) (view w)) w.
Proof.
  unfold provision_run.
  pose proof (born_denied_refl everyone (category_of cfg p) agent (v_guild (view w))) as Hb.
  go_step. go_step. apply quiet_lock in H0. pose proof (quiet_trans _ _ _ H H0) as Hq.
  destruct a0 as [[token ok]|e]; [|apply wp_ret; by eapply prov_post_err].
  destruct ok; cbn; [|apply wp_ret; by eapply prov_post_err].
  eapply wp_seq; [by apply provision_locked_wp|]. intros r w3 Hpost. go_step.
  apply quiet_lock in H1. apply wp_ret. by eapply prov_post_quiet.
Qed.

Lemma provisionSpace_handle_wp raw w :
  wp view (provisionSpace_handle cfg limiter locker cache raw) (fun r v' =>
    match decode_ProvisionSpace raw with
    | Some p => if decide (pp_SpaceID p = ""%string) then quiet (view w) v' /\ r <> Ok tt
                else prov_post (category_of cfg p) (pp_SpaceID p) (view w) r v'
    | None => quiet (view w) v' /\ r <> Ok tt
    end) w.
Proof.
  unfold provisionSpace_handle. destruct (decode_ProvisionSpace raw) as [p|].
  - case_decide.
    + go_step. apply quiet_metrics in H0. by apply wp_ret.
    + go_step. rename H0 into Hv.
      eapply wp_seq; [apply provision_run_wp|]. intros r w2 Hpost. rewrite Hv in Hpost.
      destruct (match r with Ok _ => true | Err e => errors_Is e SkipRetry end);
        [|by apply wp_ret]. go_step. go_step. apply quiet_metrics in H1. apply wp_ret.
      eapply prov_post_quiet; [done|]. by rewrite <-H0.
  - go_step. apply quiet_metrics in H. by apply wp_ret.
Qed.
End Run.

(** The optional dependencies of a worker keep their laws. *)
Definition deps_ok (cfg : provisionSpaceConfig W) : Prop :=
  match pc_limiter cfg with Some l => LimiterLaws view l | None => True end /\
  match pc_locker cfg with Some l => LockerLaws view l | None => True end /\
  match pc_cache cfg with Some c => CacheLaws view c | None => True end.

(** The configured handler, in terms of the initial view. *)
Lemma newProvisionSpaceHandler_post (cfg : provisionSpaceConfig W) raw w :
  deps_ok cfg -> pc_everyoneRoleID cfg = ""%string \/ pc_everyoneRoleID cfg = pc_guildID cfg ->
  pc_store cfg = true -> pc_discord cfg = true ->
  pc_agentRoleID cfg <> ""%string -> pc_agentRoleID cfg <> pc_guildID cfg ->
  wp view (newProvisionSpaceHandler cfg raw) (fun r v' =>
    match decode_ProvisionSpace raw with
    | Some p =>
        if decide (pp_SpaceID p = ""%string) then quiet (view w) v' /\ r <> Ok tt
        else
          born_denied (pc_guildID cfg) (category_of cfg p) (pc_agentRoleID cfg)
            (v_guild (view w)) (v_guild v') /\
          v_queue v' = v_queue (view w) /\
          space_fate (pc_guildID cfg) (category_of cfg p) (pc_agentRoleID cfg)
            (view w) v' (pp_SpaceID p) r
    | None => quiet (view w) v' /\ r <> Ok tt
    end) w.
Proof.
  intros (Hl & Hk & Hc) Hev Hst Hdc Hag1 Hag2. unfold newProvisionSpaceHandler.
  rewrite Hst, Hdc. cbn [negb orb]. rewrite !bool_decide_eq_false_2 by done. cbn [orb].
  assert (LimiterLaws view (default NoopLimiter (pc_limiter cfg))) by (destruct (pc_limiter cfg); [done|apply _]).
  assert (LockerLaws view (default NoopLocker (pc_locker cfg))) by (destruct (pc_locker cfg); [done|apply _]).
  assert (CacheLaws view (default NoopCache (pc_cache cfg))) by (destruct (pc_cache cfg); [done|apply _]).
  assert (He : pc_everyoneRoleID (with_everyone cfg) = pc_guildID cfg).
  { unfold with_everyone; cbn. case_decide as Hd; [done|]. by destruct Hev. }
  pose proof (provisionSpace_handle_wp (with_everyone cfg) (default NoopLimiter (pc_limiter cfg))
    (default NoopLocker (pc_locker cfg)) (default NoopCache (pc_cache cfg))) as Hwp.
  unfold prov_post in Hwp. rewrite He in Hwp. exact (Hwp Hag2 raw w).
Qed.

(** *** Which failures are retried *)

(** An error some run of an operation answers with. *)
Definition answers {A} (m : M W (result error A)) (e : error) : Prop := exists w, (m w).1 = Err e.

(** The errors a provisioning task is retried on: the lock or the space could not be had, the limiter refused,
    Discord answered 429, or the row could not be written. None is another failure of the access-control steps. *)
Inductive prov_retry (cfg : provisionSpaceConfig W) (limiter : Limiter W) (p : ProvisionSpacePayload) : error -> Prop :=
| retry_lock e : prov_retry cfg limiter p (Wrap "provision_space: acquire merchant lock: " e)
| retry_held : prov_retry cfg limiter p (New "provision_space: merchant lock held; retry later")
| retry_load e : prov_retry cfg limiter p (Wrap "provision_space: load space: " e)
| retry_global e : answers (TakeGlobal limiter) e -> prov_retry cfg limiter p e
| retry_route route e : answers (TakeRoute limiter route) e -> prov_retry cfg limiter p e
| retry_create e ra route :
    answers (CreateChannelDenied (pc_guildID cfg) (pp_SpaceName p) (category_of cfg p) (pc_everyoneRoleID cfg)) e ->
    isDiscord429 e = true -> prov_retry cfg limiter p (RateLimitError ra route)
| retry_allow e ra route : answers (ApplyCategoryAgentAllow (category_of cfg p) (pc_agentRoleID cfg)) e ->
    isDiscord429 e = true -> prov_retry cfg limiter p (RateLimitError ra route)
| retry_persist e : prov_retry cfg limiter p (Wrap "provision_space: persist discord channel: " e).

(** An answer is a success, a terminal error, or one of those. *)
Definition closed_or_retried (cfg : provisionSpaceConfig W) limiter p (r : result error unit) : Prop :=
  forall e, r = Err e -> errors_Is e SkipRetry = true \/ prov_retry cfg limiter p e.

Section Answers.
Context (cfg : provisionSpaceConfig W) (limiter : Limiter W) (locker : Locker W) (cache : Cache W).
Context (p : ProvisionSpacePayload).

(** The answer of a composition is that of its last part, run on an answer of the first. *)
Lemma answer_bind {A B} (m : M W A) (k : A -> M W B) (Q : B -> Prop) w :
  (forall a w0, (m w0).1 = a -> forall w', Q (k a w').1) -> Q (bind m k w).1.
Proof. intros H. unfold bind. destruct (m w) as [a w0] eqn:Hm. apply (H a w). by rewrite Hm. Qed.

Lemma retried e : prov_retry cfg limiter p e -> closed_or_retried cfg limiter p (Err e).
Proof. intros H ? [= <-]. by right. Qed.

Lemma failClosed_terminal id m ch reason cause w :
  closed_or_retried cfg limiter p (failClosed cfg id m ch reason cause w).1.
Proof. unfold failClosed. do 4 (apply answer_bind; intros). intros ? [= <-]. by left. Qed.

(** A 429 on a creation or an allow is retried after the time Discord gives. *)
Lemma handle429_retried route e w :
  (forall ra r, prov_retry cfg limiter p (RateLimitError ra r)) ->
  closed_or_retried cfg limiter p (handle429 limiter route e w).1.
Proof. intros H. unfold handle429. apply answer_bind; intros. apply retried, H. Qed.

Lemma takeTokens_answers route w e : (takeTokens cfg limiter route w).1 = Err e ->
  answers (TakeGlobal limiter) e \/ answers (TakeRoute limiter route) e.
Proof.
  unfold takeTokens. revert e. apply answer_bind. intros [[]|e1] w1 H1 w'.
  - apply answer_bind. intros [[]|e2] w2 H2 w''; [done|]. apply answer_bind. intros _ _ _ ? e [= <-].
    right. by exists w2.
  - apply answer_bind. intros _ _ _ ? e [= <-]. left. by exists w1.
Qed.

Lemma takeTokens_retried route w e : (takeTokens cfg limiter route w).1 = Err e -> prov_retry cfg limiter p e.
Proof. intros [H|H]%takeTokens_answers; [by apply retry_global|by eapply retry_route]. Qed.

Lemma apply_closed ch w :
  closed_or_retried cfg limiter p (provision_apply cfg limiter cache p (category_of cfg p) ch w).1.
Proof.
  unfold provision_apply. apply answer_bind. intros [[]|e] w1 H1 w'; [|by eapply retried, takeTokens_retried].
  apply answer_bind. intros [[]|e] w2 H2 w''.
  - apply answer_bind. intros [sp|e] w3 _ ?; [|apply retried, retry_persist].
    do 3 (apply answer_bind; intros). done.
  - destruct (isDiscord429 e) eqn:H429; [|apply failClosed_terminal].
    apply handle429_retried. intros. eapply (retry_allow _ _ _ e); [by eexists|done].
Qed.

Lemma locked_closed w : closed_or_retried cfg limiter p (provision_locked cfg limiter cache p w).1.
Proof.
  unfold provision_locked. apply answer_bind. intros [sp|e] w1 _ w'; [|apply retried, retry_load].
  destruct (_ && _); [done|]. destruct (decide _); [apply failClosed_terminal|].
  apply answer_bind. intros [[]|e] w2 H2 w''; [|by eapply retried, takeTokens_retried].
  apply answer_bind. intros [id|e] w3 H3 w3'; [apply apply_closed|].
  destruct (isDiscord429 e) eqn:H429; [|apply failClosed_terminal].
  apply handle429_retried. intros. eapply (retry_create _ _ _ e); [by eexists|done].
Qed.

Lemma run_closed w : closed_or_retried cfg limiter p (provision_run cfg limiter locker cache p w).1.
Proof.
  unfold provision_run. do 2 (apply answer_bind; intros). destruct a0 as [[tok ok]|e]; [|apply retried, retry_lock].
  destruct ok; cbn; [|apply retried, retry_held].
  apply locked_closed.
Qed.

Lemma handle_closed raw w : decode_ProvisionSpace raw = Some p -> pp_SpaceID p <> ""%string ->
  closed_or_retried cfg limiter p (provisionSpace_handle cfg limiter locker cache raw w).1.
Proof.
  intros Hp Hid. unfold provisionSpace_handle. rewrite Hp, decide_False by done.
  apply answer_bind. intros start _ _ w1. apply answer_bind. intros r w2 Hr w3.
  destruct (match r with Ok _ => _ | Err _ => _ end); cbn; rewrite <-Hr; apply run_closed.
Qed.
End Answers.

(** The payload a task must have: a document that names a space. *)
Definition provision_payload (raw : option json) : option ProvisionSpacePayload :=
  p ← decode_ProvisionSpace raw; if decide (pp_SpaceID p = ""%string) then None else Some p.

Lemma bad_payload_terminal cfg limiter locker cache raw w : provision_payload raw = None ->
  refused_for_good (provisionSpace_handle cfg limiter locker cache raw w).1.
Proof.
  unfold provision_payload, provisionSpace_handle. destruct (decode_ProvisionSpace raw) as [p|]; cbn [mbind option_bind].
  - case_decide; [|done]. intros _. apply answer_bind. intros _ _ _ ?. unfold refused_for_good. by eexists.
  - intros _. apply answer_bind. intros _ _ _ ?. unfold refused_for_good. by eexists.
Qed.

(** The handler does its work: it has a store, a Discord client, and an Agent role that is not @everyone. *)
Definition provision_enabled (cfg : provisionSpaceConfig W) : bool :=
  pc_store cfg && pc_discord cfg &&
  negb (bool_decide (pc_agentRoleID cfg = ""%string) || bool_decide (pc_agentRoleID cfg = pc_guildID cfg)).

(** C10: fail-closed provisioning. A handler without a store, a Discord client or an Agent role of its own does
    nothing; a task that names no space is refused for good. Otherwise, whatever fails on the way, a run
    changes Discord only by creating channels that deny VIEW_CHANNEL to @everyone from birth and by
    allowing the Agent role on the category; the space row either stays as it was, or becomes
    degraded or failed (and then the task is archived without retry), or becomes applied on a
    channel that is new, still denied to @everyone, visible to the Agent role through its category
    and open to no member; success leaves it applied; and an error is terminal unless it is the lock's, the
    limiter's, a 429 of Discord's, or one of loading or writing the row, so every other failure of creating the
    channel or of the Agent role's permission is terminal. *)
Theorem provision_fail_closed (cfg : provisionSpaceConfig W) (raw : option json) (w : W) :
  deps_ok cfg -> pc_everyoneRoleID cfg = ""%string \/ pc_everyoneRoleID cfg = pc_guildID cfg ->
  let v := view w in
  let r := (newProvisionSpaceHandler cfg raw w).1 in
  let v' := view (newProvisionSpaceHandler cfg raw w).2 in
  let everyone := pc_guildID cfg in
  let agent := pc_agentRoleID cfg in
  if provision_enabled cfg then
    match provision_payload raw with
    | None => quiet v v' /\ refused_for_good r
    | Some p =>
        let cat := category_of cfg p in
        born_denied everyone cat agent (v_guild v) (v_guild v') /\
        v_queue v' = v_queue v /\
        space_fate everyone cat agent v v' (pp_SpaceID p) r /\
        closed_or_retried (with_everyone cfg) (default NoopLimiter (pc_limiter cfg)) p r
    end
  else v' = v /\ r = Ok tt.
Proof.
  intros Hdeps Hev v r v' everyone agent. subst v r v' everyone agent. unfold provision_enabled.
  destruct (pc_store cfg) eqn:Hs; [|cbn; unfold newProvisionSpaceHandler; by rewrite Hs].
  destruct (pc_discord cfg) eqn:Hd; [|cbn; unfold newProvisionSpaceHandler; by rewrite Hs, Hd].
  cbn [andb]. destruct (bool_decide _ || bool_decide _) eqn:Hag; cbn [negb].
  { unfold newProvisionSpaceHandler. by rewrite Hs, Hd, Hag. }
  apply orb_false_iff in Hag as [Hag1%bool_decide_eq_false Hag2%bool_decide_eq_false].
  pose proof (newProvisionSpaceHandler_post cfg raw w Hdeps Hev Hs Hd Hag1 Hag2) as Hwp. unfold wp in Hwp.
  assert (newProvisionSpaceHandler cfg = provisionSpace_handle (with_everyone cfg)
    (default NoopLimiter (pc_limiter cfg)) (default NoopLocker (pc_locker cfg)) (default NoopCache (pc_cache cfg))) as Hh.
  { unfold newProvisionSpaceHandler. rewrite Hs, Hd. cbn [negb orb]. by rewrite !bool_decide_eq_false_2. }
  destruct (provision_payload raw) as [p|] eqn:Hp.
  - unfold provision_payload in Hp. destruct (decode_ProvisionSpace raw) as [p'|] eqn:Hdec; [|done].
    cbn [mbind option_bind] in Hp. case_decide as Hid; [done|]. injection Hp as ->.
    destruct Hwp as (Hb & Hq & Hf). do 3 (split; [done|]). rewrite Hh. by apply handle_closed.
  - split; [|rewrite Hh; by apply bad_payload_terminal].
    unfold provision_payload in Hp. destruct (decode_ProvisionSpace raw) as [p'|] eqn:Hdec; [|apply Hwp].
    cbn [mbind option_bind] in Hp. case_decide; [apply Hwp|done].
Qed.

(** A provisioning run of the configured handler that answers success leaves the space applied
    and linked to a channel; a handler whose Agent role is missing or is @everyone (the guild id)
    does nothing at all, whatever it is given. *)
Theorem provision_success (cfg : provisionSpaceConfig W) (p : ProvisionSpacePayload) (w : W) :
  deps_ok cfg -> pc_everyoneRoleID cfg = ""%string \/ pc_everyoneRoleID cfg = pc_guildID cfg ->
  pc_store cfg = true -> pc_discord cfg = true ->
  let raw := Some (JObj (encode_ProvisionSpace p)) in
  let r := (newProvisionSpaceHandler cfg raw w).1 in
  let v' := view (newProvisionSpaceHandler cfg raw w).2 in
  (pc_agentRoleID cfg <> ""%string -> pc_agentRoleID cfg <> pc_guildID cfg -> r = Ok tt ->
   exists sp ch, t_spaces (v_db v') !! pp_SpaceID p = Some sp /\
     sp_DiscordChannelID sp = Some ch /\ sp_ACLState sp = ACLStateApplied) /\
  (pc_agentRoleID cfg = ""%string \/ pc_agentRoleID cfg = pc_guildID cfg -> v' = view w).
Proof.
  intros Hdeps Hev Hst Hdc raw r v'. split.
  - intros Hag1 Hag2 Hr. subst r v'.
    pose proof (newProvisionSpaceHandler_post cfg raw w Hdeps Hev Hst Hdc Hag1 Hag2) as Hwp.
    unfold wp, raw in Hwp. rewrite (decode_encode_ProvisionSpace p) in Hwp.
    destruct (decide (pp_SpaceID p = ""%string)); [by destruct Hwp|].
    destruct Hwp as (_ & _ & Hf). fold raw in Hf. rewrite Hr in Hf.
    destruct Hf as [Hs Hok|? ? ? ? _ _ _ Hx|sp now ch Hsp Hs].
    + destruct (Hok eq_refl) as (_ & sp & ch & Hsp & Hch & Hacl). exists sp, ch. by rewrite Hs.
    + done.
    + rewrite Hs, lookup_insert_eq. by eexists _, ch.
  - intros Hag. subst v'. unfold newProvisionSpaceHandler. rewrite Hst, Hdc. cbn [negb orb].
    by rewrite (proj2 (orb_true_iff _ _)) by (rewrite !bool_decide_eq_true; exact Hag).
Qed.
End Proofs.

(** ** Witnesses and a limit of the retry *)
Definition sample_provision_config : provisionSpaceConfig InMemory.World :=
  mkProvisionSpaceConfig _ true true (Some (ValKeyLimiter DefaultConfig)) (Some (NewWithTTL defaultTTL))
    (Some ValKeyCache) true "everyone" "" "agents" "".
Definition sample_provision_payload : ProvisionSpacePayload :=
  mkProvisionSpacePayload "m1" "s1" "acme" "cat" "".
Definition sample_pending (script : list fault) : InMemory.World :=
  world (sample_View (space_of None ACLStatePending) (member_of false None)) script.
Definition sample_provision_task : option json :=
  Some (JObj (encode_ProvisionSpace sample_provision_payload)).

Lemma sample_provision_deps : deps_ok (view := w_view) sample_provision_config.
Proof. split; [|split]; cbn; apply _. Defined.

(** The Agent role's permission is refused: the task is archived, the space is degraded. *)
Lemma provision_fail_closed_witness :
  let w := sample_pending (replicate 9 Fine ++ [Before (RESTError 403 None)]) in
  let r := (newProvisionSpaceHandler sample_provision_config sample_provision_task w).1 in
  let v' := w_view (newProvisionSpaceHandler sample_provision_config sample_provision_task w).2 in
  match r with Err e => errors_Is e SkipRetry | Ok _ => false end = true /\
  sp_ACLState <$> t_spaces (v_db v') !! "s1"%string = Some ACLStateDegraded /\
  (born_denied "everyone" "cat" "agents" (v_guild (w_view w)) (v_guild v') /\
   v_queue v' = v_queue (w_view w) /\
   space_fate "everyone" "cat" "agents" (w_view w) v' "s1" r /\
   closed_or_retried (with_everyone sample_provision_config) (ValKeyLimiter DefaultConfig) sample_provision_payload r).
Proof.
  split; [vm_compute; reflexivity|]. split; [vm_compute; reflexivity|].
  apply (provision_fail_closed sample_provision_config sample_provision_task
    (sample_pending (replicate 9 Fine ++ [Before (RESTError 403 None)])) sample_provision_deps (or_introl eq_refl)).
Defined.

Lemma provision_success_witness :
  let v' := w_view (newProvisionSpaceHandler sample_provision_config sample_provision_task (sample_pending [])).2 in
  exists sp ch, t_spaces (v_db v') !! "s1"%string = Some sp /\
    sp_DiscordChannelID sp = Some ch /\ sp_ACLState sp = ACLStateApplied.
Proof.
  apply (provision_success sample_provision_config sample_provision_payload (sample_pending [])
    sample_provision_deps (or_introl eq_refl) eq_refl eq_refl);
    [discriminate | discriminate | vm_compute; reflexivity].
Defined.

(** The channels of a guild that deny @everyone and are not linked to a space. *)
Definition orphan_channels (v : View) : list string :=
  filter (fun ch => overwrites_of ch (v_guild v) !! "everyone"%string = Some (everyone_deny "everyone") /\
                    map_Forall (fun _ sp => sp_DiscordChannelID sp <> Some ch) (t_spaces (v_db v)))
    (map_to_list (g_overwrites (v_guild v))).*1.

(** The first [n] calls succeed, the next one is answered with an error. *)
Definition fail_at (n : nat) : list fault := replicate n Fine ++ [Before (External "connection reset")].

(** The retry after a failed persist is not idempotent on Discord: when the statement that links
    the created channel to the space fails, the task is retried, the retry creates a second
    channel and succeeds, and the first channel stays in the guild, linked to nothing. *)
Theorem provision_retry_orphans :
  let run := newProvisionSpaceHandler sample_provision_config sample_provision_task in
  let w := sample_pending (fail_at 10) in
  let first := run w in
  let second := run first.2 in
  (exists e, first.1 = Err e /\ errors_Is e SkipRetry = false) /\
  second.1 = Ok tt /\
  length (orphan_channels (w_view w)) = 1%nat /\
  length (orphan_channels (w_view second.2)) = 2%nat.
Proof. split; [eexists; split; [vm_compute; reflexivity|reflexivity]|]. vm_compute. auto. Qed.
