(* ===== verification/GoStrings.v ===== *)
(** * GoStrings: Go strings as byte sequences, their runes, and the string functions the hub uses

    A Go string is a sequence of bytes that usually holds UTF-8. Ranging over it, or converting to
    [[]rune], decodes with U+FFFD for every invalid byte; converting runes back encodes. *)
From S2P Require Import Prelude.

Definition bytes_of (s : string) : list Z := Z.of_nat ∘ Ascii.nat_of_ascii <$> String.list_ascii_of_string s.
Definition string_of_bytes (bs : list Z) : string :=
  String.string_of_list_ascii (Ascii.ascii_of_nat ∘ Z.to_nat <$> bs).

(** Bytes are in range. *)
Definition is_byte (b : Z) : Prop := 0 <= b < 256.

(** ** UTF-8 *)
Definition RuneError : Z := 65533.
Definition cont (b : Z) : bool := (128 <=? b) && (b <=? 191).

(** [utf8.DecodeRune] on a non-empty sequence: the rune and the rest. *)
Definition decode_rune (bs : list Z) : Z * list Z :=
  match bs with
  | [] => (RuneError, [])
  | b0 :: r0 =>
      let bad := (RuneError, r0) in
      if b0 <? 128 then (b0, r0)
      else if (194 <=? b0) && (b0 <=? 223) then
        match r0 with
        | b1 :: r1 => if cont b1 then ((b0 - 192) * 64 + (b1 - 128), r1) else bad
        | _ => bad
        end
      else if (224 <=? b0) && (b0 <=? 239) then
        match r0 with
        | b1 :: b2 :: r2 =>
            let lo := if b0 =? 224 then 160 else 128 in
            let hi := if b0 =? 237 then 159 else 191 in
            if (lo <=? b1) && (b1 <=? hi) && cont b2
            then ((b0 - 224) * 4096 + (b1 - 128) * 64 + (b2 - 128), r2) else bad
        | _ => bad
        end
      else if (240 <=? b0) && (b0 <=? 244) then
        match r0 with
        | b1 :: b2 :: b3 :: r3 =>
            let lo := if b0 =? 240 then 144 else 128 in
            let hi := if b0 =? 244 then 143 else 191 in
            if (lo <=? b1) && (b1 <=? hi) && cont b2 && cont b3
            then ((b0 - 240) * 262144 + (b1 - 128) * 4096 + (b2 - 128) * 64 + (b3 - 128), r3) else bad
        | _ => bad
        end
      else bad
  end.

Fixpoint runes_fuel (n : nat) (bs : list Z) : list Z :=
  match n, bs with
  | S n, _ :: _ => let '(r, rest) := decode_rune bs in r :: runes_fuel n rest
  | _, _ => []
  end.
(** [[]rune(s)], and the runes of [for _, r := range s]. Every step consumes a byte, so the length
    is fuel enough. *)
Definition runes (s : string) : list Z := let bs := bytes_of s in runes_fuel (length bs) bs.

(** [utf8.AppendRune]: surrogates and values out of range become U+FFFD. *)
Definition valid_rune (r : Z) : bool :=
  (0 <=? r) && (r <=? 1114111) && negb ((55296 <=? r) && (r <=? 57343)).
Definition encode_rune (r0 : Z) : list Z :=
  let r := if valid_rune r0 then r0 else RuneError in
  if r <? 128 then [r]
  else if r <? 2048 then [192 + r / 64; 128 + r mod 64]
  else if r <? 65536 then [224 + r / 4096; 128 + (r / 64) mod 64; 128 + r mod 64]
  else [240 + r / 262144; 128 + (r / 4096) mod 64; 128 + (r / 64) mod 64; 128 + r mod 64].
(** [string(rs)] *)
Definition string_of_runes (rs : list Z) : string := string_of_bytes (rs ≫= encode_rune).

(** ** Package strings *)
Fixpoint HasPrefix (s prefix : string) : bool :=
  match prefix, s with
  | EmptyString, _ => true
  | String a p, String b s' => bool_decide (a = b) && HasPrefix s' p
  | _, _ => false
  end.
(** [strings.HasSuffix]: some suffix of [s] is the whole of [suffix]. *)
Fixpoint HasSuffix (s suffix : string) : bool :=
  bool_decide (s = suffix) ||
  match s with EmptyString => false | String _ s' => HasSuffix s' suffix end.
(** [strings.Contains] *)
Fixpoint Contains (s sub : string) : bool :=
  HasPrefix s sub || match s with EmptyString => false | String _ s' => Contains s' sub end.

(** [strings.Cut(s, sep)] for a separator of one byte. *)
Fixpoint Cut (s : string) (sep : ascii) : option (string * string) :=
  match s with
  | EmptyString => None
  | String a s' =>
      if decide (a = sep) then Some (EmptyString, s')
      else match Cut s' sep with
           | Some (l, r) => Some (String a l, r)
           | None => None
           end
  end.

(** [s[strings.Index(s, sub)+len(sub):]], when [sub] occurs. *)
Fixpoint AfterFirst (s sub : string) : option string :=
  if HasPrefix s sub then Some (String.substring (String.length sub) (String.length s - String.length sub) s)
  else match s with EmptyString => None | String _ s' => AfterFirst s' sub end.

(** [unicode.IsSpace] *)
Definition IsSpace (r : Z) : bool :=
  ((9 <=? r) && (r <=? 13)) || (r =? 32) || (r =? 133) || (r =? 160) || (r =? 5760) ||
  ((8192 <=? r) && (r <=? 8202)) || (r =? 8232) || (r =? 8233) || (r =? 8239) || (r =? 8287) ||
  (r =? 12288).

(** [strings.Fields]: the maximal parts without white space. The bytes of a rune are the ones that
    decoding it took. *)
Fixpoint fields_fuel (n : nat) (cur bs : list Z) : list (list Z) :=
  let flush := if decide (cur = []) then [] else [cur] in
  match n, bs with
  | S n, _ :: _ =>
      let (r, rest) := decode_rune bs in
      if IsSpace r then flush ++ fields_fuel n [] rest
      else fields_fuel n (cur ++ take (length bs - length rest) bs) rest
  | _, _ => flush
  end.
Definition Fields (s : string) : list string :=
  string_of_bytes <$> fields_fuel (length (bytes_of s)) [] (bytes_of s).

Definition in_ranges (rs : list (Z * Z)) (r : Z) : bool :=
  existsb (fun '(lo, hi) => (lo <=? r) && (r <=? hi)) rs.

(** [unicode.Cf] (format characters, Unicode 15) and [unicode.Co] (private use). *)
Definition unicode_Cf : Z -> bool := in_ranges
  [(173, 173); (1536, 1541); (1564, 1564); (1757, 1757); (1807, 1807); (2192, 2193); (2274, 2274);
   (6158, 6158); (8203, 8207); (8234, 8238); (8288, 8292); (8294, 8303); (65279, 65279);
   (65529, 65531); (69821, 69821); (69837, 69837); (78896, 78911); (113824, 113827);
   (119155, 119162); (917505, 917505); (917536, 917631)].
Definition unicode_Co : Z -> bool := in_ranges [(57344, 63743); (983040, 1048573); (1048576, 1114109)].

(** Drop the leading runes that satisfy [p]. *)
Fixpoint drop_while (p : Z -> bool) (rs : list Z) : list Z :=
  match rs with
  | r :: rest => if p r then drop_while p rest else rs
  | [] => []
  end.
(** [strings.TrimSpace] of a string given by its runes; all white space is valid UTF-8. *)
Definition trim_runes (rs : list Z) : list Z :=
  reverse (drop_while IsSpace (reverse (drop_while IsSpace rs))).

(** ** Round trips *)
Lemma bytes_of_string_of_bytes bs : Forall is_byte bs -> bytes_of (string_of_bytes bs) = bs.
Proof.
  intros Hb. unfold bytes_of, string_of_bytes. rewrite String.list_ascii_of_string_of_list_ascii.
  rewrite <-list_fmap_compose. induction Hb as [|b bs [H1 H2] _ IH]; [done|].
  cbn. f_equal; [|exact IH]. unfold compose. rewrite nat_ascii_embedding by lia. lia.
Qed.

Lemma string_of_bytes_of s : string_of_bytes (bytes_of s) = s.
Proof.
  unfold bytes_of, string_of_bytes. rewrite <-list_fmap_compose.
  rewrite <-(String.string_of_list_ascii_of_string s) at 2. f_equal.
  induction (String.list_ascii_of_string s) as [|a l IH]; [done|]. cbn. f_equal; [|exact IH].
  unfold compose. rewrite Nat2Z.id. apply ascii_nat_embedding.
Qed.

Lemma bytes_of_app s t : bytes_of (s +:+ t) = bytes_of s ++ bytes_of t.
Proof.
  unfold bytes_of. rewrite <-fmap_app. f_equal.
  induction s as [|a s IH]; [done|]. simpl. by rewrite IH.
Qed.

Ltac div_lia := Z.to_euclidean_division_equations; lia.

Lemma encode_rune_bytes r : Forall is_byte (encode_rune r).
Proof.
  unfold encode_rune, is_byte, valid_rune, RuneError.
  destruct (_ && _ && _) eqn:Hv; repeat case_match;
    repeat (apply Forall_cons; split); try apply Forall_nil; try done;
    rewrite ?andb_true_iff, ?negb_true_iff in Hv; div_lia.
Qed.

Lemma encode_rune_nonempty r : encode_rune r <> [].
Proof. unfold encode_rune. by repeat case_match. Qed.

(** Decide the conditions in front by linear arithmetic. *)
Ltac decide_ifs :=
  repeat match goal with
  | |- context [if ?c then _ else _] =>
      let H := fresh "Hc" in destruct c eqn:H; try (exfalso; unfold cont in *; div_lia); clear H
  end.

Lemma decode_encode_rune r rest :
  valid_rune r = true -> decode_rune (encode_rune r ++ rest) = (r, rest).
Proof.
  intros Hv. unfold encode_rune. rewrite Hv.
  assert (Hr : 0 <= r < 55296 \/ 57343 < r <= 1114111) by (unfold valid_rune in Hv; lia). clear Hv.
  destruct (r <? 128) eqn:H1; [cbn; by rewrite H1|].
  destruct (r <? 2048) eqn:H2; [cbn [decode_rune app]; decide_ifs; f_equal; div_lia|].
  destruct (r <? 65536) eqn:H3.
  - cbn [decode_rune app].
    destruct (224 + r / 4096 =? 224) eqn:He; destruct (224 + r / 4096 =? 237) eqn:Hd;
      decide_ifs; f_equal; div_lia.
  - cbn [decode_rune app].
    destruct (240 + r / 262144 =? 240) eqn:He; destruct (240 + r / 262144 =? 244) eqn:Hd;
      decide_ifs; f_equal; div_lia.
Qed.

Lemma runes_fuel_encode rs : forall n, (length (rs ≫= encode_rune) <= n)%nat ->
  Forall (fun r => valid_rune r = true) rs -> runes_fuel n (rs ≫= encode_rune) = rs.
Proof.
  induction rs as [|r rs IH]; intros n Hn Hv; [by destruct n|].
  apply Forall_cons in Hv as [Hr Hv]. cbn in *. rewrite length_app in Hn.
  pose proof (encode_rune_nonempty r) as Hne. destruct n as [|n].
  { destruct (encode_rune r); [done|cbn in Hn; lia]. }
  cbn. destruct (encode_rune r ++ _) as [|b l] eqn:Hl; [by destruct (encode_rune r)|].
  rewrite <-Hl, decode_encode_rune by done. f_equal. apply IH; [|done].
  destruct (encode_rune r); [done|cbn in Hn; lia].
Qed.

(** Encoding valid runes and decoding gives them back. *)
Lemma runes_of_string_of_runes rs :
  Forall (fun r => valid_rune r = true) rs -> runes (string_of_runes rs) = rs.
Proof.
  intros Hv. unfold runes, string_of_runes. rewrite bytes_of_string_of_bytes.
  - by apply runes_fuel_encode.
  - clear Hv. induction rs as [|r rs IH]; [done|]. cbn. apply Forall_app. split; [apply encode_rune_bytes|done].
Qed.

Lemma decode_rune_valid bs : Forall is_byte bs -> bs <> [] ->
  valid_rune (decode_rune bs).1 = true /\ (length (decode_rune bs).2 < length bs)%nat /\
  Forall is_byte (decode_rune bs).2.
Proof.
  unfold is_byte. intros Hb Hne. destruct bs as [|b0 r0]; [done|]. apply Forall_cons in Hb as [H0 Hb].
  unfold decode_rune, RuneError.
  repeat match goal with
  | |- context [if ?c then _ else _] => destruct c eqn:?
  | H : Forall _ (_ :: _) |- _ => apply Forall_cons in H as [? H]
  | |- context [match ?l with [] => _ | _ :: _ => _ end] => destruct l
  end; cbn [fst snd length];
    (split; [unfold valid_rune, cont in *; lia|split; [cbn; lia|]]);
    repeat (apply Forall_cons; split); done || (by apply Forall_nil) || idtac.
Qed.

Lemma bytes_of_range s : Forall is_byte (bytes_of s).
Proof.
  unfold bytes_of. apply Forall_fmap, Forall_forall. intros a _. unfold is_byte, compose.
  pose proof (nat_ascii_bounded a). lia.
Qed.

Lemma runes_fuel_valid n : forall bs, Forall is_byte bs ->
  Forall (fun r => valid_rune r = true) (runes_fuel n bs).
Proof.
  induction n as [|n IH]; intros bs Hb; [by destruct bs|]. destruct bs as [|b bs]; [done|].
  cbn [runes_fuel]. pose proof (decode_rune_valid (b :: bs) Hb ltac:(done)) as (Hv & _ & Hr).
  destruct (decode_rune (b :: bs)) as [r rest]. apply Forall_cons. split; [done|by apply IH].
Qed.

(** Ranging over any string, valid UTF-8 or not, yields valid runes. *)
Lemma runes_valid s : Forall (fun r => valid_rune r = true) (runes s).
Proof. apply runes_fuel_valid, bytes_of_range. Qed.

(** What is cut at a separator put behind a part without it. *)
Lemma Cut_sep l r sep : Cut l sep = None -> Cut (l +:+ String sep r) sep = Some (l, r).
Proof.
  induction l as [|a l IH].
  - intros _. change ("" +:+ ?x) with x. cbn [Cut]. by rewrite decide_True.
  - change (String a l +:+ ?x) with (String a (l +:+ x)). cbn [Cut].
    case_decide; [done|]. destruct (Cut l sep) as [[? ?]|]; [done|]. intros _. by rewrite IH.
Qed.
