(* ===== verification/AgentRole.v ===== *)
(** * AgentRole: projection of the Agent role and nickname marking

    internal/worker/project_agent_role.go and internal/worker/apply_nickname_suffix.go. *)
From S2P Require Import Prelude Errors Domain Schema Services Postgres StoreSpec Discord Queue.
From S2P Require Import Provision GoStrings InMemory.


Definition discordNickMax : nat := 32.
Definition space_str : string := " ".

(** [buildNickname], internal/worker/apply_nickname_suffix.go:117-149. *)
Definition buildNickname (displayName suffix : string) : string :=
  if decide (displayName = ""%string) then suffix
  else
    let base := displayName in
    if HasSuffix base suffix then base
    else
      let candidate := base +:+ space_str +:+ suffix in
      let candidateRunes := runes candidate in
      if Nat.leb (length candidateRunes) discordNickMax then candidate
      else
        let suffixRunes := runes (space_str +:+ suffix) in
        let available := Z.of_nat discordNickMax - Z.of_nat (length suffixRunes) in
        if available <=? 0 then
          let sr := runes suffix in
          string_of_runes (if Nat.ltb discordNickMax (length sr) then take discordNickMax sr else sr)
        else
          let baseRunes := runes base in
          let baseRunes := if Z.of_nat (length baseRunes) >? available
                           then take (Z.to_nat available) baseRunes else baseRunes in
          string_of_runes baseRunes +:+ space_str +:+ suffix.

Section Handlers.
Context {W : Type} {E : Env W}.

(** [nickmarkingConfig], internal/worker/apply_nickname_suffix.go:30-36. *)
Record nickmarkingConfig : Type := mkNickmarkingConfig {
  nc_store : bool; nc_discord : bool; nc_guildID : string; nc_suffix : string }.

(** [handle], internal/worker/apply_nickname_suffix.go:57-111. *)
Definition applyNicknameSuffix_handle (cfg : nickmarkingConfig) : HandlerFunc W := fun raw =>
  match decode_ApplyNicknameSuffix raw with
  | None => ret (Err (WrapV SkipRetry ": decode nickname_suffix payload: " (External "json")))
  | Some p =>
      if decide (np_UserID p = ""%string) then
        ret (Err (WrapMsg SkipRetry ": apply_nickname_suffix: payload missing user_id"))
      else
        user <-? GetUserByID (np_UserID p)
          onerr e => ret (Err (Wrap "apply_nickname_suffix: load user: " e)) ;;
        match u_DiscordUserID user with
        | None => ret (Ok tt)
        | Some d =>
            let guildID := if decide (np_GuildID p = ""%string) then nc_guildID cfg else np_GuildID p in
            let displayName := default ""%string (u_DisplayName user) in
            let suffix := if decide (np_Suffix p = ""%string) then nc_suffix cfg else np_Suffix p in
            let nickname := buildNickname displayName suffix in
            r <-? SetNickname guildID d nickname
              onerr e => ret (Err (Wrap "apply_nickname_suffix: set nickname: " e)) ;;
            ret (Ok tt)
        end
  end.

(** [newApplyNicknameSuffixHandler], internal/worker/apply_nickname_suffix.go:42-55. *)
Definition newApplyNicknameSuffixHandler (cfg : nickmarkingConfig) : HandlerFunc W :=
  if negb (nc_store cfg) || negb (nc_discord cfg) then stubHandler KindApplyNicknameSuffix
  else if decide (nc_suffix cfg = ""%string) then (fun _ => ret (Ok tt))
  else applyNicknameSuffix_handle cfg.

(** [projectAgentRoleHandler], internal/worker/project_agent_role.go:28-36. *)
Record projectAgentRoleHandler : Type := mkProjectAgentRoleHandler {
  ph_store : bool; ph_discord : bool; ph_guildID : string; ph_agentRoleID : string;
  ph_agentNicknameSuffix : string }.

(** [assignRole], internal/worker/project_agent_role.go:116-145. [d] is the dereferenced Discord id. *)
Definition assignRole (h : projectAgentRoleHandler) (user : User) (d : string) : M W (result error unit) :=
  r <-? AssignAgentRole (ph_guildID h) d (ph_agentRoleID h)
    onerr e => ret (Err (Wrap "project_agent_role: assign role: " e)) ;;
  s <- SetUserProvisionedAt (u_ID user) ;;
  (if decide (ph_agentNicknameSuffix h = ""%string) then ret (Ok tt)
   else
     let displayName := default ""%string (u_DisplayName user) in
     n <- SetNickname (ph_guildID h) d (buildNickname displayName (ph_agentNicknameSuffix h)) ;;
     ret (Ok tt)).

(** [removeRole], internal/worker/project_agent_role.go:147-155. *)
Definition removeRole (h : projectAgentRoleHandler) (d : string) : M W (result error unit) :=
  r <-? RemoveAgentRole (ph_guildID h) d (ph_agentRoleID h)
    onerr e => ret (Err (Wrap "project_agent_role: remove role: " e)) ;;
  ret (Ok tt).

(** [handle], internal/worker/project_agent_role.go:75-114. *)
Definition projectAgentRole_handle (h : projectAgentRoleHandler) : HandlerFunc W := fun raw =>
  match decode_ProjectAgentRole raw with
  | None => ret (Err (WrapV SkipRetry ": decode payload: " (External "json")))
  | Some p =>
      u <- GetUserByID (ap_UserID p) ;;
      match u with
      | Err e => if errors_Is e ErrNotFound then ret (Ok tt)
                 else ret (Err (Wrap "project_agent_role: load user: " e))
      | Ok user =>
          if negb (bool_decide (u_Type user = UserTypeAgent)) then ret (Ok tt)
          else
            match u_DiscordUserID user with
            | None => ret (Err (New "project_agent_role: agent has not yet connected Discord; retry later"))
            | Some d =>
                if decide (d = ""%string)
                then ret (Err (New "project_agent_role: agent has not yet connected Discord; retry later"))
                else if ap_Add p then assignRole h user d else removeRole h d
            end
      end
  end.

(** [newProjectAgentRoleHandlerWithMarking], internal/worker/project_agent_role.go:57-73. *)
Definition newProjectAgentRoleHandlerWithMarking (h : projectAgentRoleHandler) : HandlerFunc W :=
  if negb (ph_store h) || negb (ph_discord h) then stubHandler KindProjectAgentRole
  else projectAgentRole_handle h.

(** [newProjectAgentRoleHandler], internal/worker/project_agent_role.go:38-54. *)
Definition newProjectAgentRoleHandler (h : projectAgentRoleHandler) : HandlerFunc W :=
  newProjectAgentRoleHandlerWithMarking
    (mkProjectAgentRoleHandler (ph_store h) (ph_discord h) (ph_guildID h) (ph_agentRoleID h) "").
End Handlers.

(** ** Nicknames *)
Lemma HasSuffix_refl s : HasSuffix s s = true.
Proof. destruct s; cbn; by rewrite bool_decide_eq_true_2. Qed.

Lemma HasSuffix_app p s : HasSuffix (p +:+ s) s = true.
Proof.
  induction p as [|a p IH]; [apply HasSuffix_refl|].
  change (bool_decide (String a (p +:+ s) = s) || HasSuffix (p +:+ s) s = true). rewrite IH. apply orb_true_r.
Qed.

Lemma string_app_assoc (a b c : string) : (a +:+ b) +:+ c = a +:+ b +:+ c.
Proof. induction a as [|x a IH]; [done|].
  change (String x ((a +:+ b) +:+ c) = String x (a +:+ b +:+ c)). by rewrite IH.
Qed.

Lemma runes_fuel_enough n m bs : Forall is_byte bs -> (length bs <= n)%nat -> (length bs <= m)%nat ->
  runes_fuel n bs = runes_fuel m bs.
Proof.
  revert m bs. induction n as [|n IH]; intros m bs Hb Hn Hm.
  - destruct bs; [by destruct m|cbn in Hn; lia].
  - destruct bs as [|b bs]; [by destruct m|]. destruct m as [|m]; [cbn in Hm; lia|].
    cbn [runes_fuel]. destruct (decode_rune_valid (b :: bs) Hb ltac:(done)) as (_ & Hl & Hr).
    destruct (decode_rune (b :: bs)) as [r rest]. cbn in *. f_equal. apply IH; [done|lia|lia].
Qed.

Lemma runes_fuel_encode_app rs tail : forall n, Forall (fun r => valid_rune r = true) rs ->
  Forall is_byte tail -> (length (rs ≫= encode_rune) + length tail <= n)%nat ->
  runes_fuel n ((rs ≫= encode_rune) ++ tail) = rs ++ runes_fuel n tail.
Proof.
  induction rs as [|r rs IH]; intros n Hv Ht Hn; [done|].
  apply Forall_cons in Hv as [Hr Hv]. cbn in *. rewrite length_app in Hn.
  pose proof (encode_rune_nonempty r) as Hne. rewrite <-app_assoc.
  destruct n as [|n]; [destruct (encode_rune r); [done|cbn in Hn; lia]|].
  cbn [runes_fuel]. destruct (encode_rune r ++ _) as [|b l] eqn:Hl; [by destruct (encode_rune r)|].
  rewrite <-Hl, decode_encode_rune by done. f_equal.
  assert (1 <= length (encode_rune r))%nat by (destruct (encode_rune r); [done|cbn; lia]).
  rewrite IH by (done || lia). f_equal. apply (runes_fuel_enough n (S n) tail); [done|lia|lia].
Qed.

(** Runes of encoded valid runes followed by any string. *)
Lemma runes_app rs t : Forall (fun r => valid_rune r = true) rs ->
  runes (string_of_runes rs +:+ t) = rs ++ runes t.
Proof.
  intros Hv. unfold runes. rewrite bytes_of_app. unfold string_of_runes.
  assert (Hb : Forall is_byte (rs ≫= encode_rune)).
  { clear Hv. induction rs as [|r rs IH]; [done|]. cbn. apply Forall_app.
    split; [apply encode_rune_bytes|done]. }
  rewrite bytes_of_string_of_bytes by done. rewrite runes_fuel_encode_app.
  - f_equal. apply runes_fuel_enough; [apply bytes_of_range|rewrite length_app; lia|lia].
  - done.
  - apply bytes_of_range.
  - rewrite length_app. lia.
Qed.

Lemma take_valid n s : Forall (fun r => valid_rune r = true) (take n (runes s)).
Proof. apply Forall_take, runes_valid. Qed.

(** The tail of [buildNickname] when the suffix leaves no room for the name, internal/worker/apply_nickname_suffix.go:137-143. *)
Definition only_suffix (s : string) : string :=
  let sr := runes s in
  string_of_runes (if Nat.ltb discordNickMax (length sr) then take discordNickMax sr else sr).

Lemma runes_only_suffix s :
  runes (only_suffix s) = if Nat.ltb discordNickMax (length (runes s)) then take discordNickMax (runes s) else runes s.
Proof.
  unfold only_suffix. rewrite runes_of_string_of_runes; [done|].
  destruct (Nat.ltb _ _); [apply take_valid|apply runes_valid].
Qed.

Lemma buildNickname_idem d s : buildNickname (buildNickname d s) s = buildNickname d s.
Proof.
  destruct (HasSuffix (buildNickname d s) s) eqn:Hb.
  { unfold buildNickname at 1. rewrite Hb. case_decide as He; [|done]. rewrite He in *.
    by destruct s. }
  revert Hb. unfold buildNickname at 1 3. destruct (decide (d = ""%string)) as [Hd|Hd].
  { by rewrite HasSuffix_refl. }
  destruct (HasSuffix d s) eqn:Hs; [by rewrite Hs|].
  assert (Hsuf : forall b, HasSuffix (b +:+ space_str +:+ s) s = true).
  { intros b. rewrite <-string_app_assoc. apply HasSuffix_app. }
  destruct (Nat.leb _ _) eqn:Hl; [by rewrite Hsuf|].
  destruct (_ <=? 0) eqn:Ha; [|by rewrite Hsuf].
  fold (only_suffix s). intros Hb.
  assert (Hbn : buildNickname d s = only_suffix s).
  { unfold buildNickname. rewrite decide_False, Hs, Hl, Ha by done. done. }
  rewrite Hbn. apply Z.leb_le in Ha. pose proof (runes_only_suffix s) as Hr.
  assert (Hsp : length (runes (space_str +:+ s)) = S (length (runes s))).
  { change space_str with (string_of_runes [32]). rewrite runes_app; [done|by repeat constructor]. }
  assert (Hlen : (1 <= length (runes (only_suffix s)))%nat).
  { rewrite Hr. unfold discordNickMax in *. destruct (Nat.ltb _ _) eqn:Hlt.
    - apply Nat.ltb_lt in Hlt. rewrite length_take. lia.
    - lia. }
  unfold buildNickname. rewrite decide_False by (intros He; rewrite He in Hlen; cbn in Hlen; lia).
  rewrite Hb. replace (Nat.leb (length (runes (only_suffix s +:+ space_str +:+ s))) discordNickMax) with false.
  - rewrite (proj2 (Z.leb_le _ _)) by exact Ha. done.
  - symmetry. apply Nat.leb_gt. unfold only_suffix at 1. rewrite runes_app.
    + rewrite length_app. unfold discordNickMax in *. fold (only_suffix s).
      assert (1 <= length (if Nat.ltb 32 (length (runes s)) then take 32 (runes s) else runes s))%nat.
      { by rewrite <-runes_only_suffix. }
      lia.
    + destruct (Nat.ltb _ _); [apply take_valid|apply runes_valid].
Qed.

(** C38: nickname marking respects Discord's limit of 32 code points whatever UTF-8 (or invalid
    bytes) the name and suffix hold, unless the name is empty or already ends with the suffix,
    where it is used as it is and may be longer; and marking is idempotent. *)
Theorem buildNickname_limit :
  (forall d s, d <> ""%string -> HasSuffix d s = false ->
     (length (runes (buildNickname d s)) <= 32)%nat) /\
  (forall d s, buildNickname (buildNickname d s) s = buildNickname d s) /\
  (exists d s, HasSuffix d s = true /\ (32 < length (runes (buildNickname d s)))%nat).
Proof.
  split; [|split].
  - intros d s Hd Hs. unfold buildNickname. rewrite decide_False, Hs by done.
    destruct (Nat.leb _ _) eqn:Hl; [by apply Nat.leb_le in Hl|].
    destruct (_ <=? 0) eqn:Ha.
    + destruct (Nat.ltb _ _) eqn:Hlt.
      * rewrite runes_of_string_of_runes by apply take_valid. rewrite length_take. unfold discordNickMax. lia.
      * apply Nat.ltb_ge in Hlt. rewrite runes_of_string_of_runes by apply runes_valid. done.
    + unfold discordNickMax in *. destruct (Z.gtb _ _) eqn:Hg.
      * rewrite runes_app, length_app, length_take by apply take_valid.
        revert Ha Hg. generalize (length (runes (space_str +:+ s))) (length (runes d)). intros x y Ha Hg. apply Z.leb_gt in Ha. clear Hg. pose proof (Nat.le_min_l (Z.to_nat (Z.of_nat 32 - Z.of_nat x)) y). lia.
      * rewrite runes_app, length_app by apply runes_valid. rewrite Z.gtb_ltb in Hg. apply Z.ltb_ge in Hg. lia.
  - apply buildNickname_idem.
  - exists (string_of_runes (replicate 40 65 ++ [32; 66])), "B"%string.
    split; [reflexivity|]. vm_compute. lia.
Qed.

(** ** Only agents hold the Agent role *)

(** The guild after the handler: possibly the role of one user, possibly their nickname. *)
Definition role_change (role : string) (d : string) (add : bool) (g g' : Guild) : Prop :=
  exists g1, (g1 = g \/ g1 = (if add then role_add d role g else role_remove d role g)) /\
    (g' = g1 \/ add = true /\ exists n, g' = nick_set d n g1).

Section Proofs.
Context {W : Type} {E : Env W} {view : W -> View} {L : EnvLaws E view}.

Lemma assignRole_wp h user d w :
  wp view (assignRole h user d) (fun r v' =>
    role_change (ph_agentRoleID h) d true (v_guild (view w)) (v_guild v') /\
    (r = Ok tt -> ph_agentRoleID h ∈ default ∅ (g_roles (v_guild v') !! d))) w.
Proof.
  unfold assignRole. go_step. destruct H as [(-> & _ & Hv)|(e & He & -> & Hv)].
  - go_step.
    assert (Hg : v_guild (view w'0) = role_add d (ph_agentRoleID h) (v_guild (view w))).
    { destruct H as [(?&?&_&_&->)|[(_&_&->)|(?&_&_&[->|(?&?&_&->)])]]; by rewrite Hv. }
    assert (Hrole : ph_agentRoleID h ∈ default ∅ (g_roles (v_guild (view w'0)) !! d)).
    { rewrite Hg. cbn. rewrite lookup_insert_eq. cbn. set_solver. }
    case_decide.
    + apply wp_ret. split; [exists (v_guild (view w'0)); rewrite Hg; auto|done].
    + go_step. apply wp_ret.
      assert (Hg' : v_guild (view w'1) = v_guild (view w'0) \/
                    exists n, v_guild (view w'1) = nick_set d n (v_guild (view w'0))).
      { destruct H1 as [(_ & _ & ->)|(e & _ & _ & [->| ->])]; eauto. }
      split.
      * exists (v_guild (view w'0)). rewrite Hg in *. split; [by right|].
        destruct Hg' as [->|[n ->]]; eauto.
      * intros _. destruct Hg' as [->|[n ->]]; exact Hrole.
  - apply wp_ret. split; [|done]. destruct Hv as [->| ->]; cbn.
    + exists (v_guild (view w)). auto.
    + exists (role_add d (ph_agentRoleID h) (v_guild (view w))). auto.
Qed.

Lemma removeRole_wp h d w :
  wp view (removeRole h d) (fun r v' =>
    role_change (ph_agentRoleID h) d false (v_guild (view w)) (v_guild v') /\
    (r = Ok tt -> ph_agentRoleID h ∉ default ∅ (g_roles (v_guild v') !! d))) w.
Proof.
  unfold removeRole. go_step. destruct H as [(-> & _ & Hv)|(e & He & -> & Hv)]; apply wp_ret.
  - split; [rewrite Hv; cbn; eexists; eauto|]. intros _. rewrite Hv. cbn.
    rewrite lookup_insert_eq. cbn. set_solver.
  - split; [|done]. destruct Hv as [->| ->]; cbn; eexists; eauto.
Qed.

(** The run behind [agent_role_only_agents]. *)
Lemma agent_role_run (h : projectAgentRoleHandler) (raw : option json) (w : W) :
  let g := v_guild (view w) in
  let r := (newProjectAgentRoleHandlerWithMarking h raw w).1 in
  let g' := v_guild (view (newProjectAgentRoleHandlerWithMarking h raw w).2) in
  g' = g \/
  exists p u d, decode_ProjectAgentRole raw = Some p /\
    t_users (v_db (view w)) !! ap_UserID p = Some u /\ u_Type u = UserTypeAgent /\
    u_DiscordUserID u = Some d /\ d <> ""%string /\
    role_change (ph_agentRoleID h) d (ap_Add p) g g' /\
    (r = Ok tt -> (ph_agentRoleID h ∈ default ∅ (g_roles g' !! d)) <-> ap_Add p = true).
Proof.
  intros g r g'. subst r g'. change (wp view (newProjectAgentRoleHandlerWithMarking h raw) (fun r v' =>
    v_guild v' = g \/ exists p u d, decode_ProjectAgentRole raw = Some p /\
    t_users (v_db (view w)) !! ap_UserID p = Some u /\ u_Type u = UserTypeAgent /\
    u_DiscordUserID u = Some d /\ d <> ""%string /\
    role_change (ph_agentRoleID h) d (ap_Add p) g (v_guild v') /\
    (r = Ok tt -> (ph_agentRoleID h ∈ default ∅ (g_roles (v_guild v') !! d)) <-> ap_Add p = true)) w).
  unfold newProjectAgentRoleHandlerWithMarking. destruct (_ || _); [apply wp_ret; by left|].
  unfold projectAgentRole_handle. destruct (decode_ProjectAgentRole raw) as [p|]; [|apply wp_ret; by left].
  go_step. destruct H as [Hv H].
  destruct H as [(u & -> & Hu)|[[-> Hu]|(e & He & ->)]];
    [|apply wp_ret; left; by rewrite Hv
     |rewrite (opaque_not_NotFound e He); apply wp_ret; left; by rewrite Hv].
  destruct (bool_decide (u_Type u = UserTypeAgent)) eqn:Hty; cbn [negb]; [|apply wp_ret; left; by rewrite Hv].
  apply bool_decide_eq_true in Hty.
  destruct (u_DiscordUserID u) as [d|] eqn:Hd; [|apply wp_ret; left; by rewrite Hv].
  case_decide as Hne; [apply wp_ret; left; by rewrite Hv|].
  subst g. rewrite <-Hv in *.
  destruct (ap_Add p) eqn:Hadd.
  - eapply wp_mono; [apply assignRole_wp|]. intros r v' [Hc Hr]. right. exists p, u, d.
    rewrite Hadd. split; [done|]. do 4 (split; [done|]). split; [done|]. intros Hok. split; [done|auto].
  - eapply wp_mono; [apply removeRole_wp|]. intros r v' [Hc Hr]. right. exists p, u, d.
    rewrite Hadd. split; [done|]. do 4 (split; [done|]). split; [done|]. intros Hok.
    split; [intros Hin; by destruct (Hr Hok)|done].
Qed.

(** C35: the Agent role is projected onto agents only (NFR-13): a run of the handler leaves Discord as
    it was, or the task names a user whose row in Postgres is of type agent with a Discord
    identity, and then only that identity's role (granted or revoked as the task says) and, on a
    grant, its nickname may change; success of the run means the role is indeed there, or gone. *)
Theorem agent_role_only_agents (h : projectAgentRoleHandler) (raw : option json) (w : W) :
  let g := v_guild (view w) in
  let r := (newProjectAgentRoleHandlerWithMarking h raw w).1 in
  let g' := v_guild (view (newProjectAgentRoleHandlerWithMarking h raw w).2) in
  g' = g \/
  exists p u d, decode_ProjectAgentRole raw = Some p /\
    t_users (v_db (view w)) !! ap_UserID p = Some u /\ u_Type u = UserTypeAgent /\
    u_DiscordUserID u = Some d /\ d <> ""%string /\
    role_change (ph_agentRoleID h) d (ap_Add p) g g' /\
    (r = Ok tt -> (ph_agentRoleID h ∈ default ∅ (g_roles g' !! d)) <-> ap_Add p = true).
Proof. exact (agent_role_run h raw w). Qed.
End Proofs.

(** A hub with one agent. *)
Definition agent_world (script : list fault) : InMemory.World :=
  world (mkView (set_users {["a1"%string := user_of "a1" UserTypeAgent (Some "da"%string)]} empty_DB)
           empty_Guild ∅ [] empty_Metrics) script.
Definition sample_agent_handler : projectAgentRoleHandler :=
  mkProjectAgentRoleHandler true true "everyone" "agents" "[SUPPORT]".
Definition sample_agent_task (add : bool) : option json :=
  Some (JObj (encode_ProjectAgentRole (mkProjectAgentRolePayload "a1" add))).

Lemma agent_role_only_agents_witness :
  let w := agent_world [] in
  let x := newProjectAgentRoleHandlerWithMarking sample_agent_handler (sample_agent_task true) w in
  x.1 = Ok tt /\ g_nicks (v_guild (w_view x.2)) !! "da"%string = Some "a1 [SUPPORT]"%string /\
  (v_guild (w_view x.2) = v_guild (w_view w) \/
   exists p u d, decode_ProjectAgentRole (sample_agent_task true) = Some p /\
    t_users (v_db (w_view w)) !! ap_UserID p = Some u /\ u_Type u = UserTypeAgent /\
    u_DiscordUserID u = Some d /\ d <> ""%string /\
    role_change "agents" d (ap_Add p) (v_guild (w_view w)) (v_guild (w_view x.2)) /\
    (x.1 = Ok tt -> ("agents"%string ∈ default ∅ (g_roles (v_guild (w_view x.2)) !! d)) <-> ap_Add p = true)).
Proof.
  split; [vm_compute; reflexivity|]. split; [vm_compute; reflexivity|].
  apply (agent_role_only_agents (view := w_view) sample_agent_handler (sample_agent_task true) (agent_world [])).
Defined.
