(* ===== verification/Encoding.v ===== *)
(** * Encoding: encoding/hex, encoding/base64 and net/url as internal/oauth, internal/secrets and
    internal/lock use them, with their round trips. *)
From S2P Require Import Prelude GoStrings Lock.

(** ** Hexadecimal *)
Definition from_hex (c : ascii) : option nat :=
  let n := Ascii.nat_of_ascii c in
  if (Nat.leb 48 n && Nat.leb n 57)%nat then Some (n - 48)%nat
  else if (Nat.leb 97 n && Nat.leb n 102)%nat then Some (n - 87)%nat
  else if (Nat.leb 65 n && Nat.leb n 70)%nat then Some (n - 55)%nat
  else None.
(** [hex.DecodeString]: [None] for an odd length or another character. *)
Fixpoint hex_decode (s : string) : option (list ascii) :=
  match s with
  | EmptyString => Some []
  | String a (String b rest) =>
      x ← from_hex a; y ← from_hex b; bs ← hex_decode rest;
      Some (Ascii.ascii_of_nat (x * 16 + y) :: bs)
  | String _ EmptyString => None
  end.

Lemma from_hex_digit n : (n < 16)%nat -> from_hex (hex_digit n) = Some n.
Proof. intros Hn. do 16 (destruct n as [|n]; [reflexivity|]). lia. Qed.

Lemma hex_decode_encode bs : hex_decode (hex_encode bs) = Some bs.
Proof.
  induction bs as [|b bs IH]; [done|]. cbn [hex_encode hex_decode].
  pose proof (nat_ascii_bounded b) as Hb.
  rewrite !from_hex_digit by
    (first [apply Nat.mod_upper_bound; lia | apply Nat.Div0.div_lt_upper_bound; lia]).
  rewrite IH. cbn [mbind option_bind].
  replace (Ascii.nat_of_ascii b / 16 * 16 + Ascii.nat_of_ascii b mod 16)%nat
    with (Ascii.nat_of_ascii b) by (rewrite (Nat.div_mod_eq (Ascii.nat_of_ascii b) 16) at 1; lia).
  by rewrite ascii_nat_embedding.
Qed.

(** ** Base64 *)

(** Three bytes are four sextets; a rest of one or two bytes is two or three. *)
Fixpoint to_sextets (bs : list Z) : list Z :=
  match bs with
  | a :: b :: c :: rest =>
      let v := a * 65536 + b * 256 + c in
      v / 262144 :: (v / 4096) mod 64 :: (v / 64) mod 64 :: v mod 64 :: to_sextets rest
  | [a; b] => let v := a * 65536 + b * 256 in [v / 262144; (v / 4096) mod 64; (v / 64) mod 64]
  | [a] => let v := a * 65536 in [v / 262144; (v / 4096) mod 64]
  | [] => []
  end.
(** Decoding is not strict: the unused low bits of the last sextet are ignored. *)
Fixpoint of_sextets (xs : list Z) : option (list Z) :=
  match xs with
  | a :: b :: c :: d :: rest =>
      let v := a * 262144 + b * 4096 + c * 64 + d in
      bs ← of_sextets rest; Some (v / 65536 :: (v / 256) mod 256 :: v mod 256 :: bs)
  | [a; b; c] => let v := a * 262144 + b * 4096 + c * 64 in Some [v / 65536; (v / 256) mod 256]
  | [a; b] => let v := a * 262144 + b * 4096 in Some [v / 65536]
  | [_] => None
  | [] => Some []
  end.

(** The alphabets: [c62] and [c63] are the two characters they differ in. *)
Definition b64_char (c62 c63 x : Z) : Z :=
  if x <? 26 then 65 + x else if x <? 52 then 71 + x else if x <? 62 then x - 4
  else if x =? 62 then c62 else c63.
Definition b64_index (c62 c63 c : Z) : option Z :=
  if (65 <=? c) && (c <=? 90) then Some (c - 65)
  else if (97 <=? c) && (c <=? 122) then Some (c - 71)
  else if (48 <=? c) && (c <=? 57) then Some (c + 4)
  else if c =? c62 then Some 62 else if c =? c63 then Some 63 else None.
Definition url_char := b64_char 45 95.
Definition url_index := b64_index 45 95.
Definition std_index := b64_index 43 47.

(** [base64.RawURLEncoding]; the decoder skips line ends. *)
Definition is_newline (b : Z) : bool := (b =? 10) || (b =? 13).
Definition RawURL_EncodeToString (s : string) : string :=
  string_of_bytes (url_char <$> to_sextets (bytes_of s)).
Definition RawURL_DecodeString (s : string) : option string :=
  xs ← mapM url_index (filter (fun b => is_newline b = false) (bytes_of s));
  bs ← of_sextets xs; Some (string_of_bytes bs).

(** [base64.StdEncoding.DecodeString]: padded with [=] to full quanta. *)
Fixpoint std_quanta (cs : list Z) : option (list Z) :=
  match cs with
  | [] => Some []
  | [a; b; 61; 61] => xs ← mapM std_index [a; b]; of_sextets xs
  | [a; b; c; 61] => xs ← mapM std_index [a; b; c]; of_sextets xs
  | a :: b :: c :: d :: rest =>
      xs ← mapM std_index [a; b; c; d]; bs ← of_sextets xs; cs ← std_quanta rest; Some (bs ++ cs)
  | _ => None
  end.
Definition Std_DecodeString (s : string) : option string :=
  bs ← std_quanta (filter (fun b => is_newline b = false) (bytes_of s)); Some (string_of_bytes bs).

Definition is_sextet (x : Z) : Prop := 0 <= x < 64.

(** Induction in steps of three. *)
Lemma list_ind3 {A} (P : list A -> Prop) :
  P [] -> (forall a, P [a]) -> (forall a b, P [a; b]) ->
  (forall a b c l, P l -> P (a :: b :: c :: l)) -> forall l, P l.
Proof.
  intros H0 H1 H2 H3. fix IH 1. intros [|a [|b [|c l]]]; [done|done|done|]. apply H3, IH.
Qed.

Lemma of_to_sextets bs : Forall is_byte bs -> of_sextets (to_sextets bs) = Some bs.
Proof.
  induction bs as [|a|a b|a b c l IH] using list_ind3; intros Hb; [done|..];
    repeat match goal with H : Forall _ (_ :: _) |- _ => apply Forall_cons in H as [? H] end;
    unfold is_byte in *; cbn [to_sextets of_sextets].
  - do 2 f_equal; div_lia.
  - do 2 f_equal; [|f_equal]; div_lia.
  - rewrite IH by done. cbn [mbind option_bind].
    f_equal; f_equal; [|f_equal; [|f_equal]]; div_lia.
Qed.

Lemma to_sextets_range bs : Forall is_byte bs -> Forall is_sextet (to_sextets bs).
Proof.
  unfold is_sextet. induction bs as [|a|a b|a b c l IH] using list_ind3; intros Hb; [done|..];
    repeat match goal with H : Forall _ (_ :: _) |- _ => apply Forall_cons in H as [? H] end;
    unfold is_byte in *; cbn [to_sextets]; repeat (apply Forall_cons; split); auto; div_lia.
Qed.

Lemma url_index_char x : is_sextet x -> url_index (url_char x) = Some x.
Proof.
  unfold is_sextet, url_index, url_char, b64_index, b64_char. intros Hx.
  destruct (x <? 26) eqn:H1; [|destruct (x <? 52) eqn:H2; [|destruct (x <? 62) eqn:H3;
    [|destruct (x =? 62) eqn:H4]]]; decide_ifs; f_equal; lia.
Qed.

(** The characters of the URL alphabet: letters, digits, [-] and [_]. *)
Definition url_safe (b : Z) : bool :=
  ((65 <=? b) && (b <=? 90)) || ((97 <=? b) && (b <=? 122)) || ((48 <=? b) && (b <=? 57)) ||
  (b =? 45) || (b =? 95).

Lemma url_char_safe x : is_sextet x -> url_safe (url_char x) = true.
Proof.
  unfold is_sextet, url_safe, url_char, b64_char. intros Hx.
  destruct (x <? 26) eqn:H1; [|destruct (x <? 52) eqn:H2; [|destruct (x <? 62) eqn:H3;
    [|destruct (x =? 62) eqn:H4]]]; lia.
Qed.

Lemma safe_chars_of s : Forall (fun b => url_safe b = true) (url_char <$> to_sextets (bytes_of s)).
Proof.
  apply Forall_fmap. eapply Forall_impl; [apply to_sextets_range, bytes_of_range|].
  intros x Hx. by apply url_char_safe.
Qed.

Lemma safe_is_byte b : url_safe b = true -> is_byte b.
Proof. unfold url_safe, is_byte. lia. Qed.

Lemma bytes_of_RawURL s : bytes_of (RawURL_EncodeToString s) = url_char <$> to_sextets (bytes_of s).
Proof.
  apply bytes_of_string_of_bytes. eapply Forall_impl; [apply safe_chars_of|]. apply safe_is_byte.
Qed.

Lemma filter_all {A} (P : A -> Prop) `{forall x, Decision (P x)} (l : list A) :
  Forall P l -> filter P l = l.
Proof. induction 1 as [|x l Hx _ IH]; [done|]. rewrite filter_cons_True by done. by rewrite IH. Qed.

Lemma filter_none {A} (P : A -> Prop) `{forall x, Decision (P x)} (l : list A) :
  Forall (fun x => ~ P x) l -> filter P l = [].
Proof. induction 1 as [|x l Hx _ IH]; [done|]. by rewrite filter_cons_False. Qed.

Lemma RawURL_roundtrip s : RawURL_DecodeString (RawURL_EncodeToString s) = Some s.
Proof.
  unfold RawURL_DecodeString. rewrite bytes_of_RawURL, filter_all.
  - assert (mapM url_index (url_char <$> to_sextets (bytes_of s)) = Some (to_sextets (bytes_of s))) as ->.
    { apply mapM_Some, Forall2_fmap_l, Forall_Forall2_diag.
      eapply Forall_impl; [apply to_sextets_range, bytes_of_range|]. apply url_index_char. }
    cbn [mbind option_bind]. rewrite of_to_sextets by apply bytes_of_range.
    cbn [mbind option_bind]. by rewrite string_of_bytes_of.
  - eapply Forall_impl; [apply safe_chars_of|]. intros b. unfold url_safe, is_newline. lia.
Qed.

(** ** Query strings *)

(** A byte [url.QueryEscape] keeps. *)
Definition unreserved (b : Z) : bool :=
  ((65 <=? b) && (b <=? 90)) || ((97 <=? b) && (b <=? 122)) || ((48 <=? b) && (b <=? 57)) ||
  (b =? 45) || (b =? 95) || (b =? 46) || (b =? 126).
Definition upper_hex (n : Z) : Z := if n <? 10 then 48 + n else 55 + n.
Definition escape_byte (b : Z) : list Z :=
  if unreserved b then [b]
  else if b =? 32 then [43]
  else [37; upper_hex (b / 16); upper_hex (b mod 16)].
Definition escape_bytes (s : string) : list Z := bytes_of s ≫= escape_byte.

(** [url.Values.Encode] for single-valued keys given in increasing order. *)
Fixpoint encode_values (kvs : list (string * string)) : list Z :=
  match kvs with
  | [] => []
  | [(k, v)] => escape_bytes k ++ [61] ++ escape_bytes v
  | (k, v) :: rest => escape_bytes k ++ [61] ++ escape_bytes v ++ [38] ++ encode_values rest
  end.

(** The receiving side: [url.QueryUnescape] and [url.ParseQuery]. *)
Definition unhex (c : Z) : option Z :=
  if (48 <=? c) && (c <=? 57) then Some (c - 48)
  else if (97 <=? c) && (c <=? 102) then Some (c - 87)
  else if (65 <=? c) && (c <=? 70) then Some (c - 55)
  else None.
Fixpoint unescape (bs : list Z) : option (list Z) :=
  match bs with
  | [] => Some []
  | 37 :: r =>
      match r with
      | x :: y :: rest => a ← unhex x; b ← unhex y; u ← unescape rest; Some (a * 16 + b :: u)
      | _ => None
      end
  | 43 :: rest => u ← unescape rest; Some (32 :: u)
  | b :: rest => u ← unescape rest; Some (b :: u)
  end.
(** The pieces between occurrences of [sep]. *)
Fixpoint split_on (sep : Z) (bs : list Z) : list (list Z) :=
  match bs with
  | [] => [[]]
  | b :: rest =>
      if b =? sep then [] :: split_on sep rest
      else match split_on sep rest with
           | p :: ps => (b :: p) :: ps
           | [] => [[b]]
           end
  end.
Definition parse_pair (piece : list Z) : option (string * string) :=
  match split_on 61 piece with
  | [k; v] => k' ← unescape k; v' ← unescape v; Some (string_of_bytes k', string_of_bytes v')
  | _ => None
  end.
Definition parse_query (bs : list Z) : option (list (string * string)) :=
  mapM parse_pair (split_on 38 bs).

Lemma unhex_upper n : 0 <= n < 16 -> unhex (upper_hex n) = Some n.
Proof. intros Hn. unfold unhex, upper_hex. destruct (n <? 10) eqn:H; decide_ifs; f_equal; lia. Qed.

Lemma unescape_plain b rest : b <> 37 -> b <> 43 ->
  unescape (b :: rest) = (u ← unescape rest; Some (b :: u)).
Proof.
  intros H1 H2. destruct b as [|p|p]; try reflexivity.
  do 7 (destruct p; try reflexivity; try congruence).
Qed.

Lemma unescape_escape s : unescape (escape_bytes s) = Some (bytes_of s).
Proof.
  unfold escape_bytes. pose proof (bytes_of_range s) as Hr. revert Hr.
  generalize (bytes_of s) as bs. intros bs Hr. induction Hr as [|b bs Hb _ IH]; [done|].
  unfold is_byte in Hb. change ((b :: bs) ≫= escape_byte) with (escape_byte b ++ (bs ≫= escape_byte)).
  unfold escape_byte at 1. destruct (unreserved b) eqn:Hu.
  - cbn [app]. rewrite unescape_plain, IH; [done|intros ->; done|intros ->; done].
  - destruct (b =? 32) eqn:H32.
    + cbn. rewrite IH. apply Z.eqb_eq in H32. by subst.
    + cbn [app unescape]. rewrite !unhex_upper, IH by div_lia. cbn. do 2 f_equal. div_lia.
Qed.

(** Escaped text holds neither [&] nor [=]. *)
Lemma escape_no_sep sep s : sep = 38 \/ sep = 61 -> sep ∉ escape_bytes s.
Proof.
  intros Hsep Hin. unfold escape_bytes in Hin. apply list_elem_of_bind in Hin as (b & Hin & Hb).
  pose proof (bytes_of_range s) as Hr. rewrite Forall_forall in Hr. specialize (Hr b Hb).
  unfold is_byte in Hr. unfold escape_byte in Hin.
  destruct (unreserved b) eqn:Hu; [|destruct (b =? 32)];
    rewrite ?elem_of_cons, elem_of_nil in Hin.
  - unfold unreserved in Hu. lia.
  - lia.
  - unfold upper_hex in Hin.
    destruct (b / 16 <? 10) eqn:?; destruct (b mod 16 <? 10) eqn:?; div_lia.
Qed.

Lemma split_on_none sep l : sep ∉ l -> split_on sep l = [l].
Proof.
  induction l as [|b l IH]; [done|]. intros [Hb Hl]%not_elem_of_cons. cbn.
  assert ((b =? sep) = false) as -> by lia. by rewrite IH.
Qed.

Lemma split_on_app sep l r : sep ∉ l -> split_on sep (l ++ sep :: r) = l :: split_on sep r.
Proof.
  induction l as [|b l IH]; intros Hl; cbn.
  - by rewrite Z.eqb_refl.
  - apply not_elem_of_cons in Hl as [Hb Hl]. assert ((b =? sep) = false) as -> by lia. by rewrite IH.
Qed.

Lemma parse_pair_encode k v : parse_pair (escape_bytes k ++ [61] ++ escape_bytes v) = Some (k, v).
Proof.
  unfold parse_pair. cbn [app]. rewrite split_on_app by (apply escape_no_sep; auto).
  rewrite split_on_none by (apply escape_no_sep; auto).
  rewrite !unescape_escape. cbn. by rewrite !string_of_bytes_of.
Qed.

Lemma pair_no_amp k v : 38 ∉ escape_bytes k ++ [61] ++ escape_bytes v.
Proof.
  rewrite !elem_of_app, elem_of_cons, elem_of_nil.
  intros [H|[[H|[]]|H]]; [|done|]; by apply escape_no_sep in H; auto.
Qed.

(** What is encoded is what is parsed, for all keys and values. *)
Lemma parse_encode_values kvs : kvs <> [] -> parse_query (encode_values kvs) = Some kvs.
Proof.
  induction kvs as [|[k v] rest IH]; [done|]. intros _. destruct rest as [|kv rest].
  - cbn [encode_values]. unfold parse_query. rewrite split_on_none by apply pair_no_amp.
    cbn [mapM]. by rewrite parse_pair_encode.
  - unfold parse_query in *.
    change (encode_values ((k, v) :: kv :: rest))
      with (escape_bytes k ++ [61] ++ escape_bytes v ++ [38] ++ encode_values (kv :: rest)).
    replace (escape_bytes k ++ [61] ++ escape_bytes v ++ [38] ++ encode_values (kv :: rest))
      with ((escape_bytes k ++ [61] ++ escape_bytes v) ++ 38 :: encode_values (kv :: rest))
      by (by rewrite <-!app_assoc).
    rewrite split_on_app by apply pair_no_amp.
    change (mapM parse_pair (?x :: ?l)) with (y ← parse_pair x; ys ← mapM parse_pair l; Some (y :: ys)).
    rewrite parse_pair_encode. cbn [mbind option_bind]. by rewrite IH.
Qed.

(** ** ASCII text *)
Lemma runes_fuel_ascii bs : Forall (fun b => 0 <= b < 128) bs ->
  runes_fuel (length bs) bs = bs.
Proof.
  induction 1 as [|b bs Hb _ IH]; [done|]. cbn. destruct (b <? 128) eqn:H; [by rewrite IH|lia].
Qed.

Lemma ascii_text s : Forall (fun b => 0 <= b < 128) (bytes_of s) -> string_of_runes (runes s) = s.
Proof.
  intros Hb. unfold runes. rewrite runes_fuel_ascii by done. unfold string_of_runes.
  rewrite <-(string_of_bytes_of s) at 2. f_equal. induction Hb as [|b bs H _ IH]; [done|].
  change ((b :: bs) ≫= encode_rune) with (encode_rune b ++ (bs ≫= encode_rune)). rewrite IH.
  unfold encode_rune.
  assert (valid_rune b = true) as -> by (unfold valid_rune; lia).
  assert ((b <? 128) = true) as -> by lia. done.
Qed.

Lemma hex_digit_ascii n : (n < 16)%nat -> (Ascii.nat_of_ascii (hex_digit n) < 128)%nat.
Proof. intros Hn. do 16 (destruct n as [|n]; [vm_compute; lia|]). lia. Qed.

Lemma hex_encode_text bs : string_of_runes (runes (hex_encode bs)) = hex_encode bs.
Proof.
  apply ascii_text. induction bs as [|b bs IH]; [by apply Forall_nil|]. cbn [hex_encode].
  pose proof (nat_ascii_bounded b) as Hb.
  pose proof (hex_digit_ascii (Ascii.nat_of_ascii b / 16) ltac:(apply Nat.Div0.div_lt_upper_bound; lia)).
  pose proof (hex_digit_ascii (Ascii.nat_of_ascii b mod 16) ltac:(apply Nat.mod_upper_bound; lia)).
  change (bytes_of (String ?x (String ?y ?s)))
    with (Z.of_nat (Ascii.nat_of_ascii x) :: Z.of_nat (Ascii.nat_of_ascii y) :: bytes_of s).
  apply Forall_cons. split; [lia|]. apply Forall_cons. split; [lia|done].
Qed.

(** Cutting at a byte the left part does not hold. *)
Lemma Cut_app l r : Forall (fun b => b <> 46) (bytes_of l) -> Cut (l +:+ "." +:+ r) "."%char = Some (l, r).
Proof.
  induction l as [|a l IH]; intros Hl; [done|].
  change (bytes_of (String a l)) with (Z.of_nat (Ascii.nat_of_ascii a) :: bytes_of l) in Hl.
  apply Forall_cons in Hl as [Ha Hl].
  change (String a l +:+ "." +:+ r) with (String a (l +:+ "." +:+ r)). cbn [Cut].
  rewrite decide_False by (intros ->; by apply Ha). by rewrite IH.
Qed.

Lemma RawURL_no_dot s : Forall (fun b => b <> 46) (bytes_of (RawURL_EncodeToString s)).
Proof.
  rewrite bytes_of_RawURL. eapply Forall_impl; [apply safe_chars_of|]. intros b Hb ->. done.
Qed.
