(* ===== verification/Secrets.v ===== *)
(** * Secrets: encryption at rest and redaction, internal/secrets/secrets.go

    The ciphers and MACs of Go's crypto packages are an interface with laws: what the code relies
    on is that opening is the inverse of sealing and accepts nothing else. *)
From S2P Require Import Prelude Errors Domain Schema Services GoStrings Lock Encoding.

Class Crypto : Type := {
  gcm_seal : string -> string -> string -> string;            (* key, nonce, plaintext *)
  gcm_open : string -> string -> string -> option string;     (* key, nonce, ciphertext *)
  hmac_sha256 : string -> string -> string;                   (* key, message *)
  sha256 : string -> string
}.
Class CryptoLaws (C : Crypto) : Prop := {
  gcm_open_seal : forall k n p, gcm_open k n (gcm_seal k n p) = Some p;
  gcm_open_only : forall k n c p, gcm_open k n c = Some p -> c = gcm_seal k n p;
  gcm_seal_length : forall k n p, String.length (gcm_seal k n p) = (String.length p + 16)%nat
}.

(** [NonceSize] of GCM. *)
Definition gcm_NonceSize : nat := 12.

(** [EncryptedValue], internal/secrets/secrets.go:25-29. *)
Record EncryptedValue : Type := mkEncryptedValue {
  ev_Ciphertext : string; ev_Nonce : string; ev_KeyVersion : Z }.
(** [Encrypter], internal/secrets/secrets.go:33-36. *)
Record Encrypter : Type := mkEncrypter { en_keyVersion : Z; en_key : string }.

(** [ErrInvalidKey], internal/secrets/secrets.go:17. *)
Definition ErrInvalidKey : error := New "secrets: encryption key must be 32 bytes (AES-256)".
(** [ErrCiphertextTooShort], internal/secrets/secrets.go:20. *)
Definition ErrCiphertextTooShort : error := New "secrets: ciphertext too short".

(** [NewEncrypter], internal/secrets/secrets.go:40-49. *)
Definition NewEncrypter (base64Key : string) (keyVersion : Z) : result error Encrypter :=
  match Std_DecodeString base64Key with
  | None => Err (Wrap "secrets: decode key: " (External "illegal base64 data"))
  | Some key => if negb (Nat.eqb (String.length key) 32) then Err ErrInvalidKey
                else Ok (mkEncrypter keyVersion key)
  end.

(** [NewEncrypterFromRaw], internal/secrets/secrets.go:53-60. *)
Definition NewEncrypterFromRaw (key : string) (keyVersion : Z) : result error Encrypter :=
  if negb (Nat.eqb (String.length key) 32) then Err ErrInvalidKey else Ok (mkEncrypter keyVersion key).

Section Cipher.
Context {W : Type} {E : Env W} {C : Crypto}.

(** [Encrypt], internal/secrets/secrets.go:64-86. [aes.NewCipher] accepts every key of 32 bytes. *)
Definition Encrypt (e : Encrypter) (plaintext : string) : M W (result error EncryptedValue) :=
  nonce <-? rand_Read gcm_NonceSize onerr err => ret (Err (Wrap "secrets: generate nonce: " err)) ;;
  let n := String.string_of_list_ascii nonce in
  ret (Ok (mkEncryptedValue (gcm_seal (en_key e) n plaintext) n (en_keyVersion e))).

(** [Decrypt], internal/secrets/secrets.go:90-110. [None]: [Open] panics on a nonce of another
    length. *)
Definition Decrypt (e : Encrypter) (ev : EncryptedValue) : option (result error string) :=
  if Nat.ltb (String.length (ev_Ciphertext ev)) gcm_NonceSize then Some (Err ErrCiphertextTooShort)
  else if negb (Nat.eqb (String.length (ev_Nonce ev)) gcm_NonceSize) then None
  else match gcm_open (en_key e) (ev_Nonce ev) (ev_Ciphertext ev) with
       | Some p => Some (Ok p)
       | None => Some (Err (Wrap "secrets: decrypt: " (External "message authentication failed")))
       end.
End Cipher.

(** A stand-in that satisfies the laws, to run the code on. *)
Definition sample_tag : string := "0123456789abcdef".
Definition sample_open (c : string) : option string :=
  let p := String.substring 0 (String.length c - 16) c in
  if decide (c = p +:+ sample_tag) then Some p else None.
Definition sample_crypto : Crypto :=
  {| gcm_seal := fun _ _ p => p +:+ sample_tag; gcm_open := fun _ _ c => sample_open c;
     hmac_sha256 := fun k m => k +:+ m; sha256 := fun s => s |}.

Lemma length_string_app a b : String.length (a +:+ b) = (String.length a + String.length b)%nat.
Proof. induction a as [|c a IH]; [done|]. change (S (String.length (a +:+ b)) = S (String.length a + String.length b)). by rewrite IH. Qed.

Lemma substring_app a b : String.substring 0 (String.length a) (a +:+ b) = a.
Proof.
  induction a as [|c a IH]; [by destruct b|].
  change (String c (String.substring 0 (String.length a) (a +:+ b)) = String c a). by rewrite IH.
Qed.

#[export] Instance sample_crypto_laws : CryptoLaws sample_crypto.
Proof.
  split; cbn.
  - intros _ _ p. unfold sample_open. rewrite length_string_app. cbn [String.length].
    replace (String.length p + String.length sample_tag - 16)%nat with (String.length p) by (cbn; lia).
    rewrite substring_app. by rewrite decide_True.
  - unfold sample_open. intros _ _ c p H. case_decide; by simplify_eq.
  - intros. by rewrite length_string_app.
Qed.

(** ** Redaction *)

(** [secretFields], internal/secrets/secrets.go:114-121. *)
Definition secretFields : list string :=
  ["token"; "authorization"; "api_key"; "access_token"; "refresh_token"; "bot_token"]%string.
(** [redacted], internal/secrets/secrets.go:123. *)
Definition redacted : json := JStr "***REDACTED***".

Section Redaction.
(** [unicode.ToLower] outside the runes that have a lower case in ASCII. *)
Context (unicode_lower : Z -> Z).

(** [unicode.ToLower]: next to A to Z, U+212A (Kelvin) and U+0130 have a lower case in ASCII. *)
Definition rune_lower (r : Z) : Z :=
  if (65 <=? r) && (r <=? 90) then r + 32
  else if r <? 128 then r
  else if r =? 8490 then 107
  else if r =? 304 then 105
  else unicode_lower r.
Definition ToLower (s : string) : string := string_of_runes (rune_lower <$> runes s).

(** [IsSecretKey], internal/secrets/secrets.go:140-148. *)
Definition IsSecretKey (key : string) : bool :=
  let lower := ToLower key in existsb (fun f => Contains lower f) secretFields.

(** [RedactLogAttr], internal/secrets/secrets.go:129-137. *)
Definition RedactLogAttr (key : string) (value : json) : json :=
  let lower := ToLower key in
  if existsb (fun f => Contains lower f) secretFields then redacted else value.

(** [RedactMap], internal/secrets/secrets.go:152-165. [None] is the nil map. *)
Definition RedactMap (m : option (gmap string json)) : option (gmap string json) :=
  match m with
  | None => None
  | Some m => Some (map_imap (fun k v => Some (if IsSecretKey k then redacted else v)) m)
  end.

Lemma RedactMap_lookup m k :
  (fun m' => m' !! k) <$> RedactMap (Some m) =
  Some ((fun v => if IsSecretKey k then redacted else v) <$> m !! k).
Proof. cbn. rewrite map_lookup_imap. by destruct (m !! k). Qed.
End Redaction.

(** ** The redacting log handler *)
Section Logging.
Context (unicode_lower : Z -> Z).

(** An attribute of a log record: a value, or a group of attributes ([slog.Group]). *)
Inductive Attr : Type :=
| AttrValue (key : string) (value : json)
| AttrGroup (key : string) (members : list Attr).
Definition attr_key (a : Attr) : string :=
  match a with AttrValue k _ | AttrGroup k _ => k end.

(** What [redactingHandler.Handle] passes on for one attribute, internal/observability/observability.go:47-54. *)
Definition redact_attr (a : Attr) : Attr :=
  if IsSecretKey unicode_lower (attr_key a) then AttrValue (attr_key a) redacted else a.
(** [redactingHandler.Handle], internal/observability/observability.go:44-56: the attributes of the
    record the inner handler gets. *)
Definition redactingHandler_Handle (attrs : list Attr) : list Attr := redact_attr <$> attrs.
(** [redactingHandler.WithAttrs], internal/observability/observability.go:58-68. *)
Definition redactingHandler_WithAttrs (attrs : list Attr) : list Attr := redact_attr <$> attrs.

(** slog's levels, and its JSON handler: the attributes every line starts with, and the open groups,
    innermost first, each with the attributes it starts with (slog asks for no group without a name). *)
Definition LevelDebug : Z := -4.
Definition LevelInfo : Z := 0.
Definition LevelWarn : Z := 4.
Definition LevelError : Z := 8.
Record JSONHandler : Type := mkJSONHandler {
  jh_Level : Z; jh_attrs : list Attr; jh_groups : list (string * list Attr) }.
Definition NewJSONHandler (level : Z) : JSONHandler := mkJSONHandler level [] [].
Definition json_Enabled (h : JSONHandler) (level : Z) : bool := jh_Level h <=? level.
Definition json_WithAttrs (h : JSONHandler) (attrs : list Attr) : JSONHandler :=
  match jh_groups h with
  | [] => mkJSONHandler (jh_Level h) (jh_attrs h ++ attrs) []
  | (g, xs) :: outer => mkJSONHandler (jh_Level h) (jh_attrs h) ((g, xs ++ attrs) :: outer)
  end.
Definition json_WithGroup (h : JSONHandler) (name : string) : JSONHandler :=
  mkJSONHandler (jh_Level h) (jh_attrs h) ((name, []) :: jh_groups h).
(** The line of a record: its attributes inside the open groups, behind the ones that were there. *)
Definition json_Handle (h : JSONHandler) (attrs : list Attr) : list Attr :=
  jh_attrs h ++ foldl (fun inner g => [AttrGroup g.1 (g.2 ++ inner)]) attrs (jh_groups h).

(** [redactingHandler], internal/observability/observability.go:36-38. *)
Record redactingHandler : Type := mkRedactingHandler { rh_inner : JSONHandler }.
(** [redactingHandler.Enabled], internal/observability/observability.go:40-42. *)
Definition rh_Enabled (h : redactingHandler) (level : Z) : bool := json_Enabled (rh_inner h) level.
Definition rh_Handle (h : redactingHandler) (attrs : list Attr) : list Attr :=
  json_Handle (rh_inner h) (redactingHandler_Handle attrs).
Definition rh_WithAttrs (h : redactingHandler) (attrs : list Attr) : redactingHandler :=
  mkRedactingHandler (json_WithAttrs (rh_inner h) (redactingHandler_WithAttrs attrs)).
(** [redactingHandler.WithGroup], internal/observability/observability.go:70-72. *)
Definition rh_WithGroup (h : redactingHandler) (name : string) : redactingHandler :=
  mkRedactingHandler (json_WithGroup (rh_inner h) name).
(** [InitLogger], internal/observability/observability.go:16-33: the handler of the default logger. *)
Definition InitLogger (level : string) : redactingHandler :=
  let lvl := if decide (level = "debug"%string) then LevelDebug
             else if decide (level = "warn"%string) then LevelWarn
             else if decide (level = "error"%string) then LevelError
             else LevelInfo in
  mkRedactingHandler (NewJSONHandler lvl).

(** A logger derived from another: with attributes, or inside a group. *)
Inductive Derive : Type := With (attrs : list Attr) | Inside (group : string).
Definition derive_json (h : JSONHandler) (ds : list Derive) : JSONHandler :=
  foldl (fun h d => match d with With attrs => json_WithAttrs h attrs | Inside g => json_WithGroup h g end) h ds.
Definition derive (h : redactingHandler) (ds : list Derive) : redactingHandler :=
  foldl (fun h d => match d with With attrs => rh_WithAttrs h attrs | Inside g => rh_WithGroup h g end) h ds.
Definition redact_derive (d : Derive) : Derive :=
  match d with With attrs => With (redact_attr <$> attrs) | Inside g => Inside g end.

Lemma derive_redacted h ds : derive h ds = mkRedactingHandler (derive_json (rh_inner h) (redact_derive <$> ds)).
Proof.
  revert h. induction ds as [|d ds IH]; intros h; [by destruct h|].
  unfold derive, derive_json in *. cbn [foldl fmap list_fmap]. rewrite IH. by destruct d.
Qed.
Lemma derive_level h ds : jh_Level (derive_json h ds) = jh_Level h.
Proof.
  revert h. induction ds as [|d ds IH]; intros h; [done|]. unfold derive_json in *. cbn [foldl]. rewrite IH.
  destruct d as [attrs|g]; [|done]. unfold json_WithAttrs. by destruct (jh_groups h) as [|[]].
Qed.
End Logging.

(** ** Strings that contain a field *)
Lemma HasPrefix_app p t : HasPrefix (p +:+ t) p = true.
Proof.
  induction p as [|a p IH]; [by destruct t|].
  change (String a p +:+ t) with (String a (p +:+ t)). cbn [HasPrefix].
  by rewrite bool_decide_eq_true_2, IH.
Qed.

Lemma Contains_app a f b : Contains (a +:+ f +:+ b) f = true.
Proof.
  induction a as [|c a IH].
  - change ("" +:+ f +:+ b) with (f +:+ b).
    pose proof (HasPrefix_app f b) as Hp. destruct (f +:+ b); cbn [Contains]; by rewrite Hp.
  - change (String c a +:+ f +:+ b) with (String c (a +:+ f +:+ b)). cbn [Contains].
    rewrite IH. by rewrite orb_true_r.
Qed.

Lemma string_of_runes_app a b : string_of_runes (a ++ b) = string_of_runes a +:+ string_of_runes b.
Proof.
  unfold string_of_runes. rewrite bind_app. unfold string_of_bytes. rewrite fmap_app.
  induction (Ascii.ascii_of_nat ∘ Z.to_nat <$> (a ≫= encode_rune)) as [|c l IH]; [done|].
  cbn [app String.string_of_list_ascii]. rewrite IH. done.
Qed.

Lemma string_of_runes_of_field f :
  f ∈ secretFields -> string_of_runes (runes f) = f.
Proof.
  unfold secretFields. rewrite !elem_of_cons, elem_of_nil.
  intros H; repeat destruct H as [-> |H]; try reflexivity. done.
Qed.

Lemma ToLower_runes lo rs : Forall (fun r => valid_rune r = true) rs ->
  ToLower lo (string_of_runes rs) = string_of_runes (rune_lower lo <$> rs).
Proof. intros H. unfold ToLower. by rewrite runes_of_string_of_runes. Qed.

Lemma secret_key_anywhere lo (pre mid post : list Z) f :
  Forall (fun r => valid_rune r = true) (pre ++ mid ++ post) ->
  f ∈ secretFields -> rune_lower lo <$> mid = runes f ->
  IsSecretKey lo (string_of_runes (pre ++ mid ++ post)) = true.
Proof.
  intros Hv Hf Hm. unfold IsSecretKey. rewrite ToLower_runes by done.
  apply existsb_exists. exists f. split; [by apply list_elem_of_In|].
  rewrite !fmap_app, Hm, !string_of_runes_app, string_of_runes_of_field by done.
  apply Contains_app.
Qed.

(** C37: redaction. The log handler passes every attribute on, in order, with its key; an attribute
    whose key spells a secret field anywhere in any letter case (the Kelvin sign for k and the
    dotted capital I for i included) has its value replaced; one whose key does not is unchanged.
    A secret inside a group with an ordinary key is not replaced. A logger derived from the default one,
    by whatever attributes and groups, writes the lines a plain JSON logger writes when it is given
    the redacted attributes, at the levels it was started for. *)
Theorem log_redaction (lo : Z -> Z) (attrs : list Attr) :
  attr_key <$> redactingHandler_Handle lo attrs = attr_key <$> attrs /\
  (forall i a, attrs !! i = Some a ->
     redactingHandler_Handle lo attrs !! i =
       Some (if IsSecretKey lo (attr_key a) then AttrValue (attr_key a) redacted else a)) /\
  (forall pre mid post f,
     Forall (fun r => valid_rune r = true) (pre ++ mid ++ post) ->
     f ∈ secretFields -> rune_lower lo <$> mid = runes f ->
     redactingHandler_Handle lo [AttrValue (string_of_runes (pre ++ mid ++ post)) (JStr "s3cret")] =
       [AttrValue (string_of_runes (pre ++ mid ++ post)) redacted]) /\
  (let inner := AttrGroup "request" [AttrValue "token" (JStr "s3cret")] in
   redactingHandler_Handle lo [inner] = [inner]) /\
  (forall level ds,
     let h := derive lo (InitLogger level) ds in
     let plain := derive_json (rh_inner (InitLogger level)) (redact_derive lo <$> ds) in
     rh_Handle lo h attrs = json_Handle plain (redact_attr lo <$> attrs) /\
     forall lv, rh_Enabled h lv = (jh_Level (rh_inner (InitLogger level)) <=? lv)).
Proof.
  split; [|split; [|split; [|split]]].
  - unfold redactingHandler_Handle. rewrite <-list_fmap_compose. apply list_fmap_ext.
    intros i a _. unfold compose, redact_attr. by destruct (IsSecretKey lo (attr_key a)).
  - intros i a Ha. unfold redactingHandler_Handle. rewrite list_lookup_fmap, Ha. done.
  - intros pre mid post f Hv Hf Hm. cbn. unfold redact_attr. cbn [attr_key].
    by rewrite (secret_key_anywhere lo pre mid post f).
  - reflexivity.
  - intros level ds. cbv zeta. rewrite derive_redacted. split; [done|]. intros lv.
    unfold rh_Enabled, json_Enabled. cbn [rh_inner]. by rewrite derive_level.
Qed.
