(* ===== verification/Invariant.v ===== *)
(** * Invariant: the constraints of the schema, and that every statement of the store keeps them

    src/migrations/0001_init.sql: primary keys, UNIQUE, CHECK, NOT NULL and FOREIGN KEY, and the
    growing id of the audit log. *)
From S2P Require Import Prelude Errors Domain Schema Services Postgres InMemory.

(** A row is found under its own id. *)
Definition keyed {A} (idf : A -> string) (tab : gmap string A) : Prop :=
  map_Forall (fun id a => idf a = id) tab.
(** UNIQUE: no two rows share a value; NULLs never clash. *)
Definition unique {A B} (key : A -> option B) (tab : gmap string A) : Prop :=
  forall id1 id2 a1 a2 b, tab !! id1 = Some a1 -> tab !! id2 = Some a2 ->
    key a1 = Some b -> key a2 = Some b -> id1 = id2.
(** FOREIGN KEY on a nullable column. *)
Definition points {B} (ref : option string) (target : gmap string B) : Prop :=
  match ref with Some x => is_Some (target !! x) | None => True end.
Definition refs {A B} (ref : A -> option string) (tab : gmap string A) (target : gmap string B) : Prop :=
  map_Forall (fun _ a => points (ref a) target) tab.

Record db_wf (db : DB) : Prop := mk_db_wf {
  wf_merchants : keyed m_ID (t_merchants db);
  wf_merchants_ref : unique (fun m => Some (m_ExternalRef m)) (t_merchants db);
  wf_users : keyed u_ID (t_users db);
  wf_users_discord : unique u_DiscordUserID (t_users db);
  wf_users_admin : map_Forall (fun _ u => u_IsAdmin u = true -> u_Type u = UserTypeAgent) (t_users db);
  wf_api_keys : keyed ak_ID (t_api_keys db);
  wf_api_keys_hash : unique (fun k => Some (ak_KeyHash k)) (t_api_keys db);
  wf_tokens : keyed ot_ID (t_oauth_tokens db);
  wf_tokens_user : unique (fun t => Some (ot_UserID t)) (t_oauth_tokens db);
  wf_tokens_fk : refs (fun t => Some (ot_UserID t)) (t_oauth_tokens db) (t_users db);
  wf_spaces : keyed sp_ID (t_spaces db);
  wf_spaces_merchant : unique (fun s => Some (sp_MerchantID s)) (t_spaces db);
  wf_spaces_channel : unique sp_DiscordChannelID (t_spaces db);
  wf_spaces_fk : refs (fun s => Some (sp_MerchantID s)) (t_spaces db) (t_merchants db);
  wf_members : keyed sm_ID (t_space_members db);
  wf_members_unique : unique (fun s => Some (sm_SpaceID s, sm_UserID s)) (t_space_members db);
  wf_members_space : refs (fun s => Some (sm_SpaceID s)) (t_space_members db) (t_spaces db);
  wf_members_user : refs (fun s => Some (sm_UserID s)) (t_space_members db) (t_users db);
  wf_members_inviter : refs sm_InvitedBy (t_space_members db) (t_users db);
  wf_jobs : keyed j_ID (t_jobs db);
  wf_jobs_task : unique (fun j => Some (j_TaskID j)) (t_jobs db);
  wf_jobs_merchant : refs j_MerchantID (t_jobs db) (t_merchants db);
  wf_jobs_space : refs j_SpaceID (t_jobs db) (t_spaces db);
  wf_jobs_user : refs j_UserID (t_jobs db) (t_users db);
  wf_idem : keyed ik_Key (t_idempotency_keys db);
  wf_idem_job : refs ik_JobID (t_idempotency_keys db) (t_jobs db);
  wf_outbox : keyed ob_ID (t_outbox db);
  wf_outbox_key : unique (fun o => Some (ob_IdempotencyKey o)) (t_outbox db);
  wf_outbox_payload : map_Forall (fun _ o => is_Some (ob_Payload o)) (t_outbox db);
  wf_audit : Sorted (fun a b => ae_ID b < ae_ID a) (t_audit_log db);
  wf_audit_seq : Forall (fun a => ae_ID a <= t_audit_seq db) (t_audit_log db)
}.

Section Tables.
Context {A B : Type}.

Lemma keyed_insert (idf : A -> string) tab id a :
  keyed idf tab -> idf a = id -> keyed idf (<[id := a]> tab).
Proof. intros H1 H2. by apply map_Forall_insert_2. Qed.

Lemma points_insert ref (target : gmap string B) id b : points ref target -> points ref (<[id := b]> target).
Proof.
  unfold points. destruct ref as [x|]; [|done]. intros Hx. destruct (decide (id = x)) as [<-|Hn].
  - rewrite lookup_insert_eq. eauto.
  - by rewrite lookup_insert_ne.
Qed.

Lemma refs_insert (ref : A -> option string) tab (target : gmap string B) id a :
  refs ref tab target -> points (ref a) target -> refs ref (<[id := a]> tab) target.
Proof. intros H1 H2. by apply map_Forall_insert_2. Qed.

Lemma refs_target (ref : A -> option string) tab (target : gmap string B) id b :
  refs ref tab target -> refs ref tab (<[id := b]> target).
Proof. intros H. eapply map_Forall_impl; [exact H|]. intros ? a. apply points_insert. Qed.

Lemma fk_points ref (target : gmap string B) : fk ref target = true -> points ref target.
Proof. unfold fk, points. destruct ref; [apply bool_decide_eq_true|done]. Qed.

Lemma refs_get (ref : A -> option string) tab (target : gmap string B) id a :
  refs ref tab target -> tab !! id = Some a -> points (ref a) target.
Proof. intros H Ha. by apply (H id a). Qed.
End Tables.

Lemma unique_insert {A B} `{EqDecision B} (key : A -> option B) tab id a :
  unique key tab -> (forall b, key a = Some b -> taken key b id tab = false) ->
  unique key (<[id := a]> tab).
Proof.
  intros Hu Ht id1 id2 a1 a2 b. rewrite !lookup_insert_Some.
  assert (Hno : forall id' a', id <> id' -> tab !! id' = Some a' -> key a = Some b -> key a' = Some b -> False).
  { intros id' a' Hn Hl Hk Hk'. specialize (Ht b Hk). apply bool_decide_eq_false in Ht. apply Ht.
    exists id', a'. split; [done|]. split; [by intros ->|done]. }
  intros [[<- <-]|[Hn1 H1]] [[<- <-]|[Hn2 H2]] Hk1 Hk2; [done| | |by eapply Hu].
  - by destruct (Hno id2 a2).
  - by destruct (Hno id1 a1).
Qed.

(** A row whose key did not change keeps the constraint. *)
Lemma unique_same {A B} (key : A -> option B) tab id a a' :
  unique key tab -> tab !! id = Some a -> key a' = key a -> unique key (<[id := a']> tab).
Proof.
  intros Hu Ha Hk id1 id2 a1 a2 b. rewrite !lookup_insert_Some.
  intros [[<- <-]|[Hn1 H1]] [[<- <-]|[Hn2 H2]] Hk1 Hk2; [done| | |by eapply Hu].
  - apply (Hu id id2 a a2 b); congruence.
  - apply (Hu id1 id a1 a b); congruence.
Qed.

Create HintDb wf discriminated.
#[export] Hint Resolve keyed_insert refs_insert refs_target points_insert unique_same : wf.

(** ** Statements *)
Definition keeps {A} (q : sql A) : Prop := forall st db a db',
  q st db = Ok (a, db') -> db_wf db -> db_wf db'.

Lemma keeps_read {A} (f : DB -> A) : keeps (sql_read f).
Proof. intros st db a db' [= _ <-]. done. Qed.

(** The table a statement writes to, one field at a time. *)
Ltac wf_fields := constructor; cbn; try assumption; try (by apply map_Forall_insert_2); eauto 2 with wf.

Lemma wf_put_merchant db id m : db_wf db -> m_ID m = id ->
  unique (fun m => Some (m_ExternalRef m)) (<[id := m]> (t_merchants db)) ->
  db_wf (set_merchants (<[id := m]> (t_merchants db)) db).
Proof. intros [] ??. wf_fields. Qed.

Lemma wf_put_user db id u : db_wf db -> u_ID u = id ->
  unique u_DiscordUserID (<[id := u]> (t_users db)) -> (u_IsAdmin u = true -> u_Type u = UserTypeAgent) ->
  db_wf (set_users (<[id := u]> (t_users db)) db).
Proof. intros [] ???. wf_fields. Qed.

Lemma wf_put_api_key db id k : db_wf db -> ak_ID k = id ->
  unique (fun k => Some (ak_KeyHash k)) (<[id := k]> (t_api_keys db)) ->
  db_wf (set_api_keys (<[id := k]> (t_api_keys db)) db).
Proof. intros [] ??. wf_fields. Qed.

Lemma wf_put_token db id t : db_wf db -> ot_ID t = id ->
  unique (fun t => Some (ot_UserID t)) (<[id := t]> (t_oauth_tokens db)) ->
  points (Some (ot_UserID t)) (t_users db) ->
  db_wf (set_oauth_tokens (<[id := t]> (t_oauth_tokens db)) db).
Proof. intros [] ???. wf_fields. Qed.

Lemma wf_put_space db id s : db_wf db -> sp_ID s = id ->
  unique (fun s => Some (sp_MerchantID s)) (<[id := s]> (t_spaces db)) ->
  unique sp_DiscordChannelID (<[id := s]> (t_spaces db)) ->
  points (Some (sp_MerchantID s)) (t_merchants db) ->
  db_wf (set_spaces (<[id := s]> (t_spaces db)) db).
Proof. intros [] ????. wf_fields. Qed.

Lemma wf_put_member db id s : db_wf db -> sm_ID s = id ->
  unique (fun s => Some (sm_SpaceID s, sm_UserID s)) (<[id := s]> (t_space_members db)) ->
  points (Some (sm_SpaceID s)) (t_spaces db) -> points (Some (sm_UserID s)) (t_users db) ->
  points (sm_InvitedBy s) (t_users db) ->
  db_wf (set_space_members (<[id := s]> (t_space_members db)) db).
Proof. intros [] ?????. wf_fields. Qed.

Lemma wf_put_job db id j : db_wf db -> j_ID j = id ->
  unique (fun j => Some (j_TaskID j)) (<[id := j]> (t_jobs db)) ->
  points (j_MerchantID j) (t_merchants db) -> points (j_SpaceID j) (t_spaces db) ->
  points (j_UserID j) (t_users db) ->
  db_wf (set_jobs (<[id := j]> (t_jobs db)) db).
Proof. intros [] ?????. wf_fields. Qed.

Lemma wf_put_idem db k r : db_wf db -> ik_Key r = k -> points (ik_JobID r) (t_jobs db) ->
  db_wf (set_idempotency_keys (<[k := r]> (t_idempotency_keys db)) db).
Proof. intros [] ??. wf_fields. Qed.

Lemma wf_put_outbox db id o : db_wf db -> ob_ID o = id ->
  unique (fun o => Some (ob_IdempotencyKey o)) (<[id := o]> (t_outbox db)) -> is_Some (ob_Payload o) ->
  db_wf (set_outbox (<[id := o]> (t_outbox db)) db).
Proof. intros [] ???. wf_fields. Qed.

Lemma sql_insert_inv {A} (T : Table A) n chk uq fks row st db a db' :
  sql_insert T n chk uq fks row st db = Ok (a, db') ->
  chk = None /\ uq db (st_uuid st n) = true /\ fks db (st_uuid st n) = true /\
  a = Some (row (st_now st) (st_uuid st n)) /\
  db' = tset T (<[st_uuid st n := row (st_now st) (st_uuid st n)]> (tget T db)) db.
Proof.
  unfold sql_insert. destruct chk; [done|]. destruct (bool_decide _); [done|].
  destruct (uq _ _); [|done]. destruct (fks _ _); [|done]. cbn. by intros [= <- <-].
Qed.

Lemma keeps_update {A} (T : Table A) id f :
  (forall now db a, db_wf db -> tget T db !! id = Some a ->
     db_wf (tset T (<[id := f now a]> (tget T db)) db)) ->
  keeps (sql_update T id f).
Proof.
  intros Hf st db a db' Hq Hwf. unfold sql_update in Hq.
  destruct (tget T db !! id) eqn:Ha; injection Hq as <- <-; [by apply Hf|done].
Qed.

(** A rewrite of a row that keeps its key columns keeps the constraints. *)
Lemma wf_same_user db id u u' : db_wf db -> t_users db !! id = Some u -> u_ID u' = u_ID u ->
  u_DiscordUserID u' = u_DiscordUserID u -> u_IsAdmin u' = u_IsAdmin u -> u_Type u' = u_Type u ->
  db_wf (set_users (<[id := u']> (t_users db)) db).
Proof.
  intros Hwf Hu Hi Hd Ha Ht. pose proof Hwf as []. apply wf_put_user; [done| |by eapply unique_same|].
  - rewrite Hi. by apply wf_users0.
  - rewrite Ha, Ht. by apply (wf_users_admin0 id).
Qed.

Lemma wf_same_api_key db id k k' : db_wf db -> t_api_keys db !! id = Some k -> ak_ID k' = ak_ID k ->
  ak_KeyHash k' = ak_KeyHash k -> db_wf (set_api_keys (<[id := k']> (t_api_keys db)) db).
Proof.
  intros Hwf Hu Hi Hd. pose proof Hwf as [].
  apply wf_put_api_key; [done|rewrite Hi; by apply wf_api_keys0|].
  eapply unique_same; [done|done|by rewrite Hd].
Qed.

Lemma wf_same_space db id s s' : db_wf db -> t_spaces db !! id = Some s -> sp_ID s' = sp_ID s ->
  sp_MerchantID s' = sp_MerchantID s -> unique sp_DiscordChannelID (<[id := s']> (t_spaces db)) ->
  db_wf (set_spaces (<[id := s']> (t_spaces db)) db).
Proof.
  intros Hwf Hs Hi Hm Hc. pose proof Hwf as [].
  apply wf_put_space; [done|rewrite Hi; by apply wf_spaces0| |done|].
  - eapply unique_same; [done|done|by rewrite Hm].
  - rewrite Hm. by apply (refs_get _ _ _ id s wf_spaces_fk0).
Qed.

Lemma wf_same_member db id s s' : db_wf db -> t_space_members db !! id = Some s -> sm_ID s' = sm_ID s ->
  sm_SpaceID s' = sm_SpaceID s -> sm_UserID s' = sm_UserID s -> sm_InvitedBy s' = sm_InvitedBy s ->
  db_wf (set_space_members (<[id := s']> (t_space_members db)) db).
Proof.
  intros Hwf Hs Hi Hsp Hu Hb. pose proof Hwf as [].
  apply wf_put_member; [done|rewrite Hi; by apply wf_members0| |rewrite Hsp|rewrite Hu|rewrite Hb].
  - eapply unique_same; [done|done|by rewrite Hsp, Hu].
  - by apply (refs_get _ _ _ id s wf_members_space0).
  - by apply (refs_get _ _ _ id s wf_members_user0).
  - by apply (refs_get _ _ _ id s wf_members_inviter0).
Qed.

Lemma wf_same_job db id j j' : db_wf db -> t_jobs db !! id = Some j -> j_ID j' = j_ID j ->
  j_TaskID j' = j_TaskID j -> j_MerchantID j' = j_MerchantID j -> j_SpaceID j' = j_SpaceID j ->
  j_UserID j' = j_UserID j -> db_wf (set_jobs (<[id := j']> (t_jobs db)) db).
Proof.
  intros Hwf Hj Hi Ht Hm Hs Hu. pose proof Hwf as [].
  apply wf_put_job; [done|rewrite Hi; by apply wf_jobs0| |rewrite Hm|rewrite Hs|rewrite Hu].
  - eapply unique_same; [done|done|by rewrite Ht].
  - by apply (refs_get _ _ _ id j wf_jobs_merchant0).
  - by apply (refs_get _ _ _ id j wf_jobs_space0).
  - by apply (refs_get _ _ _ id j wf_jobs_user0).
Qed.

(** ** Every write *)
Ltac by_insert q :=
  let Hq := fresh in intros st db a db' Hq Hwf; unfold q in Hq;
  apply sql_insert_inv in Hq as (Hchk & Huq & Hfk & _ & ->); cbn [tget tset merchants_T users_T
    spaces_T space_members_T oauth_tokens_T api_keys_T jobs_T outbox_T] in *;
  rewrite ?andb_true_iff in Hfk.

Lemma keeps_insert_merchant p : keeps (sql_insert_merchant p).
Proof.
  by_insert sql_insert_merchant. apply wf_put_merchant; [done|done|].
  apply unique_insert; [apply Hwf|]. cbn. intros b [= <-]. by apply negb_true_iff.
Qed.

Lemma keeps_insert_user p : keeps (sql_insert_user p).
Proof.
  by_insert sql_insert_user. apply wf_put_user; [done|done| |].
  - apply unique_insert; [apply Hwf|]. cbn. intros b Hb. rewrite Hb in Huq. by apply negb_true_iff.
  - cbn. intros Hadm. rewrite Hadm in Hchk. cbn in Hchk. by case_bool_decide.
Qed.

Lemma keeps_insert_api_key p : keeps (sql_insert_api_key p).
Proof.
  by_insert sql_insert_api_key. apply wf_put_api_key; [done|done|].
  apply unique_insert; [apply Hwf|]. cbn. intros b [= <-]. by apply negb_true_iff.
Qed.

Lemma keeps_insert_space n p : keeps (sql_insert_space n p).
Proof.
  by_insert sql_insert_space. apply wf_put_space; [done|done| | |by apply fk_points].
  - apply unique_insert; [apply Hwf|]. cbn. intros b [= <-]. by apply negb_true_iff.
  - by apply unique_insert; [apply Hwf|].
Qed.

Lemma keeps_insert_job p : keeps (sql_insert_job p).
Proof.
  by_insert sql_insert_job. destruct Hfk as [[H1 H2] H3].
  apply wf_put_job; [done|done| |by apply fk_points..].
  apply unique_insert; [apply Hwf|]. cbn. intros b [= <-]. by apply negb_true_iff.
Qed.

Lemma keeps_insert_outbox n p : keeps (sql_insert_outbox n p).
Proof.
  by_insert sql_insert_outbox. apply wf_put_outbox; [done|done| |].
  - apply unique_insert; [apply Hwf|]. cbn. intros b [= <-]. by apply negb_true_iff.
  - cbn. destruct (cob_Payload p); [eauto|done].
Qed.

Lemma keeps_insert_space_member p : keeps (sql_insert_space_member p).
Proof.
  by_insert sql_insert_space_member. destruct Hfk as [[H1 H2] H3].
  apply wf_put_member; [done|done| |by apply fk_points..].
  apply unique_insert; [apply Hwf|]. cbn. intros b [= <-]. by apply negb_true_iff.
Qed.

Lemma keeps_create_space_with_outbox sp ob : keeps (sql_create_space_with_outbox sp ob).
Proof.
  intros st db a db' Hq Hwf. unfold sql_create_space_with_outbox in Hq.
  destruct (sql_insert_space 0 sp st db) as [[[space|] db1]|e] eqn:H1; [|done..].
  destruct (sql_insert_outbox 1 ob st db1) as [[[row|] db2]|e] eqn:H2; [|done..].
  injection Hq as _ <-. eapply keeps_insert_outbox; [done|]. by eapply keeps_insert_space.
Qed.

Lemma keeps_insert_idempotency_key p : keeps (sql_insert_idempotency_key p).
Proof.
  intros st db a db' Hq Hwf. unfold sql_insert_idempotency_key in Hq.
  destruct (bool_decide _); [done|]. destruct (fk _ _) eqn:Hfk; [|done]. injection Hq as <- <-.
  apply wf_put_idem; [done|done|by apply fk_points].
Qed.

Lemma keeps_update_idempotency_key p : keeps (sql_update_idempotency_key p).
Proof.
  intros st db a db' Hq Hwf. unfold sql_update_idempotency_key in Hq.
  destruct (t_idempotency_keys db !! uik_Key p) as [r|] eqn:Hr; [|by injection Hq as _ <-].
  destruct (fk _ _) eqn:Hfk; [|done]. injection Hq as _ <-. pose proof Hwf as [].
  apply wf_put_idem; [done|exact (wf_idem0 _ _ Hr)|]. cbn.
  destruct (uik_JobID p) as [j|] eqn:Hj; [by apply (fk_points (Some j))|].
  by apply (refs_get _ _ _ (uik_Key p) r wf_idem_job0).
Qed.

Lemma keeps_update_discord_user_id u d : keeps (sql_update_discord_user_id u d).
Proof.
  intros st db a db' Hq Hwf. unfold sql_update_discord_user_id in Hq.
  destruct (t_users db !! u) as [x|] eqn:Hx; [|by injection Hq as _ <-].
  destruct (taken _ _ _ _) eqn:Ht; [done|]. injection Hq as _ <-. pose proof Hwf as [].
  apply wf_put_user; [done|exact (wf_users0 _ _ Hx)| |exact (wf_users_admin0 u x Hx)].
  apply unique_insert; [done|]. by intros b [= <-].
Qed.

Lemma keeps_revoke_api_key id : keeps (sql_revoke_api_key id).
Proof.
  intros st db a db' Hq Hwf. unfold sql_revoke_api_key in Hq.
  destruct (t_api_keys db !! id) as [k|] eqn:Hk; [|by injection Hq as _ <-].
  destruct (APIKey_IsActive k); injection Hq as _ <-; [|done]. by eapply wf_same_api_key.
Qed.

Lemma keeps_update_space_channel p : keeps (sql_update_space_channel p).
Proof.
  intros st db a db' Hq Hwf. unfold sql_update_space_channel, sql_update in Hq.
  cbn [tget tset spaces_T] in Hq.
  destruct (t_spaces db !! usd_SpaceID p) as [s|] eqn:Hs;
    [|destruct (_ && _); [done|]; by injection Hq as _ <-].
  rewrite bool_decide_eq_true_2 in Hq by done. cbn [andb] in Hq.
  destruct (taken _ _ _ _) eqn:Ht; [done|]. injection Hq as _ <-.
  eapply wf_same_space; [done|done|done|done|]. apply unique_insert; [apply Hwf|]. by intros b [= <-].
Qed.

Lemma keeps_upsert_oauth_token p : keeps (sql_upsert_oauth_token p).
Proof.
  intros st db a db' Hq Hwf. pose proof Hwf as []. unfold sql_upsert_oauth_token in Hq.
  destruct (head _) as [[id t]|] eqn:Hh.
  - apply head_Some_elem_of, list_elem_of_filter in Hh as [Hu Hin]. apply elem_of_map_to_list in Hin.
    injection Hq as _ <-. apply wf_put_token; [done|exact (wf_tokens0 _ _ Hin)| |].
    + by eapply unique_same.
    + by apply (refs_get _ _ _ id t wf_tokens_fk0).
  - apply head_None in Hh. apply sql_insert_inv in Hq as (_ & _ & Hfk & _ & ->).
    apply wf_put_token; [done|done| |by apply fk_points].
    apply unique_insert; [done|]. cbn. intros b [= <-]. apply bool_decide_eq_false.
    intros (id & t & Hl & _ & [= Hu]).
    assert (Hin : (id, t) ∈ filter (fun kv : string * OAuthToken => ot_UserID kv.2 = uot_UserID p)
                    (map_to_list (t_oauth_tokens db))).
    { apply list_elem_of_filter. split; [done|]. by apply elem_of_map_to_list. }
    rewrite Hh in Hin. by apply not_elem_of_nil in Hin.
Qed.

(** Rewriting outbox rows in place. *)
Lemma wf_map_outbox db tab : db_wf db ->
  (forall id o', tab !! id = Some o' -> exists o, t_outbox db !! id = Some o /\ ob_ID o' = ob_ID o /\
     ob_IdempotencyKey o' = ob_IdempotencyKey o /\ is_Some (ob_Payload o')) ->
  db_wf (set_outbox tab db).
Proof.
  intros Hwf Ht. destruct Hwf. constructor; cbn; try assumption.
  - intros id o' Ho. destruct (Ht id o' Ho) as (o & Hl & Hi & _). rewrite Hi. by apply (wf_outbox0 id).
  - intros id1 id2 o1 o2 b H1 H2 [= Hk1] [= Hk2].
    destruct (Ht _ _ H1) as (o1' & Hl1 & _ & Hk1' & _). destruct (Ht _ _ H2) as (o2' & Hl2 & _ & Hk2' & _).
    eapply (wf_outbox_key0 id1 id2 o1' o2' b); congruence.
  - intros id o' Ho. by destruct (Ht id o' Ho) as (o & _ & _ & _ & Hp).
Qed.

Lemma keeps_update_outbox_payload key pl : keeps (sql_update_outbox_payload key pl).
Proof.
  intros st db a db' Hq Hwf. unfold sql_update_outbox_payload in Hq. destruct pl as [pl|].
  - injection Hq as _ <-. apply wf_map_outbox; [done|]. intros id o'. rewrite lookup_fmap_Some.
    intros (o & Ho & Hl). exists o. split; [done|]. pose proof (wf_outbox_payload _ Hwf id o Hl).
    case_match; subst o'; [|done]. split; [done|]. split; [done|]. cbn. eauto.
  - destruct (bool_decide _); [done|]. by injection Hq as _ <-.
Qed.

Lemma keeps_stamp_outbox ids : keeps (sql_stamp_outbox ids).
Proof.
  intros st db a db' Hq Hwf. unfold sql_stamp_outbox in Hq. injection Hq as _ <-.
  apply wf_map_outbox; [done|]. intros id o'. rewrite map_lookup_imap.
  destruct (t_outbox db !! id) as [o|] eqn:Ho; [|done]. cbn. intros [= <-]. exists o. split; [done|].
  pose proof (wf_outbox_payload _ Hwf id o Ho). by case_bool_decide.
Qed.

Lemma keeps_insert_audit p : keeps (sql_insert_audit p).
Proof.
  intros st db a db' Hq Hwf. unfold sql_insert_audit in Hq.
  destruct (match iae_Scope p with Some _ => _ | None => _ end); [done|].
  destruct (negb _); [done|]. injection Hq as _ <-. destruct Hwf. constructor; cbn; try assumption.
  - constructor; [done|]. destruct (t_audit_log db) as [|e l]; [done|]. constructor. cbn.
    apply Forall_cons in wf_audit_seq0 as [? _]. lia.
  - constructor; cbn; [lia|]. eapply Forall_impl; [done|]. cbn. lia.
Qed.

Lemma keeps_space_row id f :
  (forall now s, sp_ID (f now s) = sp_ID s /\ sp_MerchantID (f now s) = sp_MerchantID s /\
     sp_DiscordChannelID (f now s) = sp_DiscordChannelID s) ->
  keeps (sql_update spaces_T id f).
Proof.
  intros Hf. apply keeps_update. intros now db s Hwf Hs. destruct (Hf now s) as (Hi & Hm & Hc).
  eapply wf_same_space; [done..|]. eapply unique_same; [apply Hwf|done|done].
Qed.
Lemma keeps_user_row id f :
  (forall now u, u_ID (f now u) = u_ID u /\ u_DiscordUserID (f now u) = u_DiscordUserID u /\
     u_IsAdmin (f now u) = u_IsAdmin u /\ u_Type (f now u) = u_Type u) ->
  keeps (sql_update users_T id f).
Proof.
  intros Hf. apply keeps_update. intros now db u Hwf Hu. destruct (Hf now u) as (Hi & Hd & Ha & Ht).
  by eapply wf_same_user.
Qed.
Lemma keeps_member_row id f :
  (forall now s, sm_ID (f now s) = sm_ID s /\ sm_SpaceID (f now s) = sm_SpaceID s /\
     sm_UserID (f now s) = sm_UserID s /\ sm_InvitedBy (f now s) = sm_InvitedBy s) ->
  keeps (sql_update space_members_T id f).
Proof.
  intros Hf. apply keeps_update. intros now db s Hwf Hs. destruct (Hf now s) as (Hi & Hd & Ha & Ht).
  by eapply wf_same_member.
Qed.
Lemma keeps_job_row id p : keeps (sql_update jobs_T id (with_job_status p)).
Proof. apply keeps_update. intros now db j Hwf Hj. by eapply wf_same_job. Qed.
Lemma keeps_api_key_row id : keeps (sql_update api_keys_T id with_key_used).
Proof. apply keeps_update. intros now db k Hwf Hk. by eapply wf_same_api_key. Qed.

#[export] Hint Resolve keeps_read keeps_insert_merchant keeps_insert_user keeps_insert_api_key
  keeps_insert_space keeps_insert_job keeps_insert_space_member keeps_create_space_with_outbox
  keeps_insert_idempotency_key keeps_update_idempotency_key keeps_update_discord_user_id
  keeps_revoke_api_key keeps_update_space_channel keeps_upsert_oauth_token
  keeps_update_outbox_payload keeps_stamp_outbox keeps_insert_audit keeps_job_row
  keeps_api_key_row : wf.
#[export] Hint Extern 1 (keeps (sql_update spaces_T _ _)) => by apply keeps_space_row : wf.
#[export] Hint Extern 1 (keeps (sql_update users_T _ _)) => by apply keeps_user_row : wf.
#[export] Hint Extern 1 (keeps (sql_update space_members_T _ _)) => by apply keeps_member_row : wf.

(** ** The store *)

(** A call of one of the methods that write. *)
Inductive store_write : Type :=
| WCreateMerchant (p : CreateMerchantParams) | WCreateUser (p : CreateUserParams)
| WDeactivateUser (id : string) | WSetUserProvisionedAt (id : string)
| WUpdateDiscordUserID (id d : string) | WCreateAPIKey (p : CreateAPIKeyParams)
| WRevokeAPIKey (id : string) | WTouchAPIKeyLastUsed (id : string)
| WUpsertOAuthToken (p : UpsertOAuthTokenParams) | WCreateSpace (p : CreateSpaceParams)
| WUpdateSpaceDiscordChannel (p : UpdateSpaceDiscordChannelParams)
| WUpdateSpaceACLState (id : string) (st : ACLState) | WUpdateSpaceReconciledAt (id : string)
| WUpdateSpaceLifecycle (p : UpdateSpaceLifecycleParams) | WUpdateSpaceWelcomeMessageID (id m : string)
| WCreateJob (p : CreateJobParams) | WUpdateJobStatus (p : UpdateJobStatusParams)
| WInsertIdempotencyKey (p : InsertIdempotencyKeyParams)
| WUpdateIdempotencyKeyResponse (p : UpdateIdempotencyKeyResponseParams)
| WCreateSpaceWithOutbox (p : CreateSpaceParams) (o : CreateOutboxParams)
| WUpdateOutboxPayload (key : string) (pl : payload_map) | WStampOutboxEnqueued (ids : list string)
| WInsertAuditEntry (p : InsertAuditEntryParams) | WCreateSpaceMember (p : CreateSpaceMemberParams)
| WSetSpaceMemberOverwriteApplied (id : string) | WRevokeSpaceMember (id : string).

Section Store.
Context {W : Type} {E : Env W}.

Definition done_ {A} (m : M W A) : M W unit := r <- m ;; ret tt.
Definition run_write (c : store_write) : M W unit :=
  match c with
  | WCreateMerchant p => done_ (CreateMerchant p)
  | WCreateUser p => done_ (CreateUser p)
  | WDeactivateUser id => done_ (DeactivateUser id)
  | WSetUserProvisionedAt id => done_ (SetUserProvisionedAt id)
  | WUpdateDiscordUserID id d => done_ (UpdateDiscordUserID id d)
  | WCreateAPIKey p => done_ (CreateAPIKey p)
  | WRevokeAPIKey id => done_ (RevokeAPIKey id)
  | WTouchAPIKeyLastUsed id => done_ (TouchAPIKeyLastUsed id)
  | WUpsertOAuthToken p => done_ (UpsertOAuthToken p)
  | WCreateSpace p => done_ (CreateSpace p)
  | WUpdateSpaceDiscordChannel p => done_ (UpdateSpaceDiscordChannel p)
  | WUpdateSpaceACLState id st => done_ (UpdateSpaceACLState id st)
  | WUpdateSpaceReconciledAt id => done_ (UpdateSpaceReconciledAt id)
  | WUpdateSpaceLifecycle p => done_ (UpdateSpaceLifecycle p)
  | WUpdateSpaceWelcomeMessageID id m => done_ (UpdateSpaceWelcomeMessageID id m)
  | WCreateJob p => done_ (CreateJob p)
  | WUpdateJobStatus p => done_ (UpdateJobStatus p)
  | WInsertIdempotencyKey p => done_ (InsertIdempotencyKey p)
  | WUpdateIdempotencyKeyResponse p => done_ (UpdateIdempotencyKeyResponse p)
  | WCreateSpaceWithOutbox p o => done_ (CreateSpaceWithOutbox p o)
  | WUpdateOutboxPayload key pl => done_ (UpdateOutboxPayload key pl)
  | WStampOutboxEnqueued ids => done_ (StampOutboxEnqueued ids)
  | WInsertAuditEntry p => done_ (InsertAuditEntry p)
  | WCreateSpaceMember p => done_ (CreateSpaceMember p)
  | WSetSpaceMemberOverwriteApplied id => done_ (SetSpaceMemberOverwriteApplied id)
  | WRevokeSpaceMember id => done_ (RevokeSpaceMember id)
  end.
Definition run_writes (cs : list store_write) : M W unit :=
  for_each cs (fun _ c => run_write c) tt.
End Store.

Section Proofs.
Context {W : Type} {E : Env W} {view : W -> View} {L : EnvLaws E view}.

(** Whatever the outcome of a statement that keeps the constraints. *)
Definition wf_step {A} (v : View) (_ : A) (v' : View) : Prop := db_wf (v_db v) -> db_wf (v_db v').

Lemma wf_pg {A B} (q : sql A) (k : result error A -> B) :
  keeps q -> Spec view (r <- pg_exec q ;; ret (k r)) wf_step.
Proof.
  intros Hk w Hwf. pose proof (pg_exec_law A q w) as [H|[H|H]].
  - destruct H as (st & a & db' & Hq & _ & Hv). cbn. rewrite Hv. by eapply Hk.
  - destruct H as (st & e & _ & _ & Hv). cbn. by rewrite Hv.
  - destruct H as (e & _ & _ & [Hv|(st & a & db' & Hq & Hv)]); cbn; rewrite Hv; [done|by eapply Hk].
Qed.

Lemma wf_done {A} (m : M W A) : Spec view m wf_step -> Spec view (done_ m) wf_step.
Proof. intros HS w. exact (HS w). Qed.

Lemma wf_map {A B} (m : M W A) (k : A -> B) : Spec view m wf_step -> Spec view (r <- m ;; ret (k r)) wf_step.
Proof. intros HS w. exact (HS w). Qed.

Lemma wf_onerr {A B} (m : M W (result error A)) (f : error -> B) (k : A -> B) :
  Spec view m wf_step ->
  Spec view (r <- m ;; match r with Ok a => ret (k a) | Err e => ret (f e) end) wf_step.
Proof. intros HS w Hwf. unfold bind. specialize (HS w Hwf). by destruct ((m w).1). Qed.

Lemma run_write_wf c : Spec view (run_write c) wf_step.
Proof.
  destruct c; apply wf_done;
    try (apply (wf_map (QueryRow _)); apply wf_pg; by auto 2 with wf);
    try (apply wf_pg; by auto 2 with wf);
    try (apply wf_onerr, wf_pg; by auto 2 with wf).
  - intros w Hwf. pose proof (pg_exec_law _ (sql_create_space_with_outbox p o) w) as [H|[H|H]].
    + destruct H as (st & a & db' & Hq & _ & Hv). unfold CreateSpaceWithOutbox. rewrite Hv.
      by eapply keeps_create_space_with_outbox.
    + destruct H as (st & e & _ & _ & Hv). unfold CreateSpaceWithOutbox. by rewrite Hv.
    + destruct H as (e & _ & _ & [Hv|(st & a & db' & Hq & Hv)]); unfold CreateSpaceWithOutbox; rewrite Hv;
        [done|by eapply keeps_create_space_with_outbox].
  - unfold StampOutboxEnqueued. destruct ids; [intros w Hwf; exact Hwf|].
    apply wf_pg. by auto with wf.
Qed.

(** The database the hub writes satisfies the schema's constraints at all times: after any sequence
    of calls of the store's writing methods, in any order, with any arguments and whatever fails,
    ids, unique columns, references, the admin check, the outbox payloads and the growing ids of
    the audit log are as the schema requires, if they were before. *)
Theorem store_keeps_schema (cs : list store_write) (w : W) :
  db_wf (v_db (view w)) -> db_wf (v_db (view (run_writes cs w).2)).
Proof.
  revert w. induction cs as [|c cs IH]; intros w Hwf; [done|].
  pose proof (IH (run_write c w).2 (run_write_wf c w Hwf)) as H. unfold run_writes in *. cbn [for_each].
  unfold bind. by destruct ((run_write c w).1).
Qed.
End Proofs.

Lemma empty_DB_wf : db_wf empty_DB.
Proof.
  constructor; cbn; try apply map_Forall_empty; try (intros ????? H; discriminate H); constructor.
Qed.

(** A merchant, its space with the outbox row, a user and the user's membership. *)
Definition sample_writes : list store_write :=
  [WCreateMerchant (mkCreateMerchantParams "ref" "Acme" None);
   WCreateUser (mkCreateUserParams UserTypeCollaborator false (Some "d1"%string) None None);
   WCreateSpaceWithOutbox (mkCreateSpaceParams "id-0" "acme" None None)
     (mkCreateOutboxParams "space" "" "space:provision" (Some []) "key");
   WCreateSpaceMember (mkCreateSpaceMemberParams "id-4" "id-2" SpaceMemberRoleCollaborator None)].

Lemma store_keeps_schema_witness :
  let db := v_db (w_view (run_writes sample_writes (world empty_View [])).2) in
  db_wf db /\ size (t_spaces db) = 1%nat /\ size (t_space_members db) = 1%nat /\ size (t_outbox db) = 1%nat.
Proof.
  cbv zeta. split; [|vm_compute; auto].
  apply (store_keeps_schema (E := env_world) (view := w_view) sample_writes (world empty_View []) empty_DB_wf).
Defined.
