(* ===== verification/OAuth.v ===== *)
(** * OAuth: connecting a user's Discord account, internal/oauth

    The CSRF state manager (signed, single-use state tokens), the encrypted token store and the
    two calls to Discord's OAuth2 endpoints. *)
From S2P Require Import Prelude Errors Domain Schema Services Postgres StoreSpec Lock Cache.
From S2P Require Import GoStrings Encoding Secrets InMemory.

(** encoding/json on text: [json_text] marshals a tree, [json_parse] reads a document. *)
Class JsonText : Type := { json_text : json -> string; json_parse : string -> option json }.
(** Text survives marshalling when it is valid UTF-8. *)
Definition valid_text (s : string) : Prop := string_of_runes (runes s) = s.
Class JsonTextLaws (J : JsonText) : Prop := {
  json_parse_object : forall fs,
    Forall (fun kv => match kv.2 with JStr s => valid_text s | JNum _ => True | _ => False end) fs ->
    json_parse (json_text (JObj fs)) = Some (JObj fs)
}.

(** An HTTP request as the package makes it; the answer is a status and a body. *)
Record HttpRequest : Type := mkHttpRequest {
  hr_Method : string; hr_URL : string; hr_Header : list (string * string); hr_Body : list Z }.
Class Http (W : Type) : Type := { http_Do : HttpRequest -> M W (result error (Z * string)) }.

(** [nonceStore], internal/oauth/oauth.go:48-54. *)
Record nonceStore (W : Type) : Type := mkNonceStore {
  SetNonce : string -> string -> Z -> M W (result error unit);
  ConsumeNonce : string -> M W (result error (option string))
}.
Arguments SetNonce {W}. Arguments ConsumeNonce {W}.

(** What the state manager relies on, in terms of the user a nonce is held for and when it
    expires: setting holds it, consuming hands it out once (and does hand it out before it expires),
    and nothing but the key-value store is touched. *)
Class NonceLaws {W} {E : Env W} (view : W -> View) (ns : nonceStore W) : Type := {
  held : View -> string -> option (string * option Z);
  SetNonce_law : forall n u ttl, Spec view (SetNonce ns n u ttl) (fun v r v' =>
    (exists ks, v' = with_kv ks v) /\ (forall e, r = Err e -> opaque e) /\
    (forall n', n' <> n -> held v' n' = held v n') /\
    (r = Ok tt -> exists now, held v' n = Some (u, Some (now + ttl / Millisecond))));
  ConsumeNonce_law : forall n, Spec view (ConsumeNonce ns n) (fun v r v' =>
    (exists ks, v' = with_kv ks v) /\
    (forall n', n' <> n -> held v' n' = held v n') /\ (held v' n = None \/ held v' n = held v n) /\
    match r with
    | Ok (Some u) => (exists t, held v n = Some (u, t)) /\ held v' n = None
    | Ok None => held v n = None \/ exists u t, held v n = Some (u, Some t)
    | Err e => opaque e
    end);
  ConsumeNonce_in_time : forall n u t w, held (view w) n = Some (u, Some t) -> redis_before t w ->
    (ConsumeNonce ns n w).1 <> Ok None
}.
#[export] Existing Instances SetNonce_law ConsumeNonce_law.

(** [StateManager], internal/oauth/oauth.go:41-44. *)
Record StateManager (W : Type) : Type := mkStateManager {
  stm_hmacSecret : string; stm_nonces : nonceStore W }.
Arguments stm_hmacSecret {W}. Arguments stm_nonces {W}.

(** [statePayload], internal/oauth/oauth.go:73-77. *)
Record statePayload : Type := mkStatePayload { stp_Nonce : string; stp_UserID : string; stp_IssuedAt : Z }.
(** Encoding by the tags of [statePayload], internal/oauth/oauth.go:73-77. *)
Definition encode_state (p : statePayload) : list (string * json) :=
  [("n"%string, JStr (stp_Nonce p)); ("u"%string, JStr (stp_UserID p)); ("t"%string, JNum (stp_IssuedAt p))].
Definition jint (k : string) (fs : list (string * json)) : option Z :=
  match jfield k fs with
  | None | Some JNull => Some 0
  | Some (JNum z) => if (int64_min <=? z) && (z <=? int64_max) then Some z else None
  | Some _ => None
  end.
(** Decoding by the tags of [statePayload], internal/oauth/oauth.go:73-77. *)
Definition decode_state (j : option json) : option statePayload :=
  match j with
  | Some JNull => Some (mkStatePayload "" "" 0)
  | Some (JObj fs) =>
      n ← jstring "n" fs; u ← jstring "u" fs; t ← jint "t" fs; Some (mkStatePayload n u t)
  | _ => None
  end.

Lemma decode_encode_state p : int64_min <= stp_IssuedAt p <= int64_max ->
  decode_state (Some (JObj (encode_state p))) = Some p.
Proof.
  intros Ht. destruct p as [n u t]. cbn [stp_IssuedAt] in Ht. unfold decode_state, encode_state, jint.
  change (jstring "n" _) with (Some n). change (jstring "u" _) with (Some u).
  change (jfield "t" _) with (Some (JNum t)). cbn [mbind option_bind].
  by assert ((int64_min <=? t) && (t <=? int64_max) = true) as -> by lia.
Qed.

(** [stateTTL], internal/oauth/oauth.go:70. *)
Definition stateTTL : Z := 15 * Minute.

Section States.
Context {W : Type} {E : Env W} {C : Crypto} {J : JsonText}.

(** [NewStateManager], internal/oauth/oauth.go:58-67. *)
Definition NewStateManager (hexSecret : string) (nonces : nonceStore W) : result error (StateManager W) :=
  match hex_decode hexSecret with
  | None => Err (Wrap "oauth: decode state hmac secret: " (External "invalid hex"))
  | Some secret =>
      if Nat.ltb (length secret) 32
      then Err (New "oauth: state hmac secret must be at least 32 bytes")
      else Ok (mkStateManager W (String.string_of_list_ascii secret) nonces)
  end.

(** The token [Issue] builds from a payload, internal/oauth/oauth.go:94-105. *)
Definition sign_state (secret : string) (p : statePayload) : string :=
  let payloadJSON := json_text (JObj (encode_state p)) in
  RawURL_EncodeToString payloadJSON +:+ "." +:+
  RawURL_EncodeToString (hmac_sha256 secret payloadJSON).

(** [Issue], internal/oauth/oauth.go:82-112. Marshalling strings and an integer cannot fail. *)
Definition Issue (sm : StateManager W) (userID : string) : M W (result error string) :=
  nonce <-? rand_Read 16 onerr e => ret (Err (Wrap "oauth: generate nonce: " e)) ;;
  let nonceHex := hex_encode nonce in
  now <- time_Now ;;
  let state := sign_state (stm_hmacSecret sm) (mkStatePayload nonceHex userID (now / Second)) in
  r <-? SetNonce (stm_nonces sm) nonceHex userID stateTTL
    onerr e => ret (Err (Wrap "oauth: persist nonce: " e)) ;;
  ret (Ok state).

(** [Validate], internal/oauth/oauth.go:116-162. *)
Definition Validate (sm : StateManager W) (state : string) : M W (result error string) :=
  if decide (state = ""%string) then ret (Err (New "oauth: state is required"))
  else match Cut state "."%char with
  | None => ret (Err (New "oauth: malformed state token"))
  | Some (p0, p1) =>
      match RawURL_DecodeString p0 with
      | None => ret (Err (Wrap "oauth: decode state payload: " (External "illegal base64 data")))
      | Some payloadJSON =>
          match RawURL_DecodeString p1 with
          | None => ret (Err (Wrap "oauth: decode state signature: " (External "illegal base64 data")))
          | Some sigBytes =>
              if negb (bool_decide (sigBytes = hmac_sha256 (stm_hmacSecret sm) payloadJSON))
              then ret (Err (New "oauth: state signature invalid"))
              else match decode_state (json_parse payloadJSON) with
              | None => ret (Err (Wrap "oauth: unmarshal state payload: " (External "json")))
              | Some payload =>
                  stored <-? ConsumeNonce (stm_nonces sm) (stp_Nonce payload)
                    onerr e => ret (Err (Wrap "oauth: consume nonce: " e)) ;;
                  match stored with
                  | None => ret (Err (New "oauth: state token expired or already used"))
                  | Some storedUserID =>
                      if negb (bool_decide (storedUserID = ""%string)) &&
                         negb (bool_decide (storedUserID = stp_UserID payload))
                      then ret (Err (New "oauth: state user binding mismatch"))
                      else ret (Ok (stp_UserID payload))
                  end
              end
          end
      end
  end.

(** Requests redeemed one after the other. *)
Fixpoint Validate_all (sm : StateManager W) (states : list string) : M W (list (result error string)) :=
  match states with
  | [] => ret []
  | s :: rest => r <- Validate sm s ;; rs <- Validate_all sm rest ;; ret (r :: rs)
  end.
End States.

(** ** The Valkey nonce store, internal/oauth/nonce_store.go *)

(** [nonceKeyPrefix], internal/oauth/nonce_store.go:15. *)
Definition nonceKeyPrefix : string := "oauth:nonce:".
(** [getdelScript], internal/oauth/nonce_store.go:38-42. A nil reply is [redis.Nil]. *)
Definition getdelScript (key : string) : redis string := fun now ks =>
  match klive now ks key with
  | None => Err RedisNil
  | Some (RStr s) => Ok (s, delete key ks)
  | Some (RHash _) => Err (External "WRONGTYPE")
  end.

Section Valkey.
Context {W : Type} {E : Env W}.
(** [ValkeyNonceStore.SetNonce], internal/oauth/nonce_store.go:28-34. *)
Definition Valkey_SetNonce (nonce userID : string) (ttl : Z) : M W (result error unit) :=
  r <-? redis_exec (redis_set (nonceKeyPrefix +:+ nonce) userID (ttl / Millisecond))
    onerr e => ret (Err (Wrap "oauth: set nonce: " e)) ;;
  ret (Ok tt).
(** [ValkeyNonceStore.ConsumeNonce], internal/oauth/nonce_store.go:46-56. *)
Definition Valkey_ConsumeNonce (nonce : string) : M W (result error (option string)) :=
  r <- redis_exec (getdelScript (nonceKeyPrefix +:+ nonce)) ;;
  ret (match r with
       | Ok s => Ok (Some s)
       | Err e => if decide (e = RedisNil) then Ok None else Err (Wrap "oauth: consume nonce: " e)
       end).
(** [NewValkeyNonceStore], internal/oauth/nonce_store.go:23-25. *)
Definition NewValkeyNonceStore : nonceStore W := mkNonceStore W Valkey_SetNonce Valkey_ConsumeNonce.
End Valkey.

Section NonceProofs.
Context {W : Type} {E : Env W} {view : W -> View} {L : EnvLaws E view}.

(** The user a nonce is held for, and the key's expiry. *)
Definition valkey_held (v : View) (n : string) : option (string * option Z) :=
  match v_kv v !! (nonceKeyPrefix +:+ n) with
  | Some (mkEntry (RStr u) t) => Some (u, t)
  | _ => None
  end.

Lemma nonce_key_inj a b : nonceKeyPrefix +:+ a = nonceKeyPrefix +:+ b -> a = b.
Proof. intros H. by injection H. Qed.

Lemma held_insert v n n' e ks : n' <> n -> ks = <[nonceKeyPrefix +:+ n := e]> (v_kv v) ->
  valkey_held (with_kv ks v) n' = valkey_held v n'.
Proof.
  intros Hn ->. unfold valkey_held. cbn [v_kv with_kv].
  rewrite lookup_insert_ne; [done|]. intros H. by apply nonce_key_inj in H.
Qed.

Lemma held_delete v n n' : n' <> n ->
  valkey_held (with_kv (delete (nonceKeyPrefix +:+ n) (v_kv v)) v) n' = valkey_held v n'.
Proof.
  intros Hn. unfold valkey_held. cbn [v_kv with_kv].
  rewrite lookup_delete_ne; [done|]. intros H. by apply nonce_key_inj in H.
Qed.

Lemma held_delete_same v n :
  valkey_held (with_kv (delete (nonceKeyPrefix +:+ n) (v_kv v)) v) n = None.
Proof. unfold valkey_held. cbn [v_kv with_kv]. by rewrite lookup_delete_eq. Qed.

#[export] Instance Valkey_SetNonce_spec n u ttl : Spec view (Valkey_SetNonce n u ttl) (fun v r v' =>
  (exists ks, v' = with_kv ks v) /\ (forall e, r = Err e -> opaque e) /\
  (forall n', n' <> n -> valkey_held v' n' = valkey_held v n') /\
  (r = Ok tt -> exists now, valkey_held v' n = Some (u, Some (now + ttl / Millisecond)))).
Proof.
  apply spec_of_wp. intros w. unfold Valkey_SetNonce. go_step. destruct H as [H|[H|H]].
  - destruct H as (now & [] & ks & Hq & -> & Hv). apply wp_ret. rewrite Hv. unfold redis_set in Hq.
    injection Hq as <-. split; [eauto|]. split; [done|]. split.
    + intros n' Hn. by eapply held_insert.
    + intros _. exists now. unfold valkey_held. cbn [v_kv with_kv]. by rewrite lookup_insert_eq.
  - by destruct H as (now & e & Hq & _).
  - destruct H as (e & He & -> & Hv). apply wp_ret.
    assert (Hks : exists ks, view w' = with_kv ks (view w) /\
              (forall n', n' <> n -> valkey_held (view w') n' = valkey_held (view w) n')).
    { destruct Hv as [->|(now & a & ks & Hq & ->)].
      - exists (v_kv (view w)). by rewrite with_kv_same.
      - unfold redis_set in Hq. injection Hq as _ <-. eexists. split; [done|].
        intros n' Hn. by eapply held_insert. }
    destruct Hks as (ks & -> & Ho). split; [eauto|].
    split; [intros e' [= <-]; eauto with errors|]. split; [done|]. done.
Qed.

Lemma opaque_not_nil e : opaque e -> e <> RedisNil.
Proof. intros H ->. unfold opaque in H. cbn in H. by destruct_and!. Qed.

#[export] Instance Valkey_ConsumeNonce_spec n : Spec view (Valkey_ConsumeNonce n) (fun v r v' =>
  (exists ks, v' = with_kv ks v) /\
  (forall n', n' <> n -> valkey_held v' n' = valkey_held v n') /\
  (valkey_held v' n = None \/ valkey_held v' n = valkey_held v n) /\
  match r with
  | Ok (Some u) => (exists t, valkey_held v n = Some (u, t)) /\ valkey_held v' n = None
  | Ok None => valkey_held v n = None \/ exists u t, valkey_held v n = Some (u, Some t)
  | Err e => opaque e
  end).
Proof.
  apply spec_of_wp. intros w. unfold Valkey_ConsumeNonce. go_step. apply wp_ret.
  assert (Hrun : forall now u ks, getdelScript (nonceKeyPrefix +:+ n) now (v_kv (view w)) = Ok (u, ks) ->
            (exists t, valkey_held (view w) n = Some (u, t)) /\ ks = delete (nonceKeyPrefix +:+ n) (v_kv (view w))).
  { intros now u ks. unfold getdelScript, klive, valkey_held.
    destruct (v_kv (view w) !! (nonceKeyPrefix +:+ n)) as [[[s|h] [t|]]|]; cbn;
      try destruct (now <? t); intros; simplify_eq; eauto. }
  destruct H as [H|[H|H]].
  - destruct H as (now & u & ks & Hq & -> & ->). apply Hrun in Hq as [Hh ->].
    split; [eauto|]. split; [by intros; apply held_delete|]. rewrite held_delete_same. auto.
  - destruct H as (now & e & Hq & -> & ->). split; [exists (v_kv (view w)); by rewrite with_kv_same|].
    split; [done|]. split; [by right|]. case_decide as He.
    + subst e. unfold getdelScript, klive in Hq. unfold valkey_held.
      destruct (v_kv (view w) !! (nonceKeyPrefix +:+ n)) as [[[s|h] [t|]]|]; cbn in *; try by left.
      destruct (now <? t) eqn:Hlt; [done|]. right. by exists s, t.
    + unfold getdelScript in Hq. repeat case_match; simplify_eq. by vm_compute.
  - destruct H as (e & He & -> & Hv). rewrite decide_False by by apply opaque_not_nil.
    destruct Hv as [->|(now & u & ks & Hq & ->)].
    + split; [exists (v_kv (view w)); by rewrite with_kv_same|]. split; [done|].
      split; [by right|by apply opaque_Wrap].
    + apply Hrun in Hq as [Hh ->]. split; [eauto|]. split; [by intros; apply held_delete|].
      rewrite held_delete_same. split; [by left|by apply opaque_Wrap].
Qed.

Lemma Valkey_ConsumeNonce_in_time n u t w : valkey_held (view w) n = Some (u, Some t) -> redis_before t w ->
  (Valkey_ConsumeNonce n w).1 <> Ok None.
Proof.
  intros Hh Hb. unfold Valkey_ConsumeNonce, bind, ret.
  pose proof (redis_exec_until t (getdelScript (nonceKeyPrefix +:+ n)) w Hb) as H.
  destruct (redis_exec _ w) as [[a|e] w1]; cbn [fst snd] in *; [done|]. case_decide as He; [|done]. subst e.
  exfalso. destruct H as [H|[H|H]].
  - by destruct H as (now & a & ks & _ & Hr & _).
  - destruct H as (now & e & Hq & [= <-] & _). unfold redis_until in Hq. destruct (now <? t) eqn:Hlt; [|done].
    unfold getdelScript, klive, valkey_held in *.
    destruct (v_kv (view w) !! (nonceKeyPrefix +:+ n)) as [[[s|h] [t'|]]|]; cbn in Hh; try done.
    injection Hh as -> ->. cbn in Hq. by rewrite Hlt in Hq.
  - destruct H as (e & He & [= <-] & _). by apply opaque_not_nil in He.
Qed.

#[export] Instance Valkey_nonce_laws : NonceLaws view (NewValkeyNonceStore (W := W)).
Proof.
  refine {| held := valkey_held |}. exact Valkey_ConsumeNonce_in_time.
Defined.
End NonceProofs.

(** ** State tokens *)

(** What a state token says once its signature is checked. *)
Definition carries `{Crypto} `{JsonText} (secret state : string) (p : statePayload) : Prop :=
  exists a b j, Cut state "."%char = Some (a, b) /\ RawURL_DecodeString a = Some j /\
    RawURL_DecodeString b = Some (hmac_sha256 secret j) /\ decode_state (json_parse j) = Some p.

Lemma carries_unique `{Crypto} `{JsonText} secret state p q : carries secret state p -> carries secret state q -> p = q.
Proof. intros (a & b & j & ? & ? & ? & ?) (a' & b' & j' & ? & ? & ? & ?). by simplify_eq. Qed.

Section StateProofs.
Context {W : Type} {E : Env W} {view : W -> View} {L : EnvLaws E view}.
Context {C : Crypto} {J : JsonText} {JL : JsonTextLaws J}.
Context (sm : StateManager W) {NL : NonceLaws view (stm_nonces sm)}.

Lemma sign_state_carries p : valid_text (stp_Nonce p) -> valid_text (stp_UserID p) ->
  int64_min <= stp_IssuedAt p <= int64_max ->
  carries (stm_hmacSecret sm) (sign_state (stm_hmacSecret sm) p) p.
Proof.
  intros Hn Hu Ht. unfold carries, sign_state. do 3 eexists.
  split; [apply Cut_app, RawURL_no_dot|]. rewrite !RawURL_roundtrip. split; [done|]. split; [done|].
  rewrite json_parse_object by (repeat constructor; done).
  by apply decode_encode_state.
Qed.

(** A run of [Validate]: the nonces it leaves, and what an acceptance means. *)
Definition validate_outcome (state : string) (v : View) (r : result error string) (v' : View) : Prop :=
  (exists ks, v' = with_kv ks v) /\
  (forall n, held v' n = None \/ held v' n = held v n) /\
  (forall u, r = Ok u -> exists p s t, carries (stm_hmacSecret sm) state p /\ stp_UserID p = u /\
     held v (stp_Nonce p) = Some (s, t) /\ (s = ""%string \/ s = u) /\ held v' (stp_Nonce p) = None).

Lemma validate_refused state e v : validate_outcome state v (Err e) v.
Proof. split; [exists (v_kv v); by rewrite with_kv_same|]. split; [by right|done]. Qed.

Instance Validate_spec state : Spec view (Validate sm state) (validate_outcome state).
Proof.
  apply spec_of_wp. intros w. unfold Validate. case_decide; [apply wp_ret, validate_refused|].
  destruct (Cut state "."%char) as [[a b]|] eqn:Hcut; [|apply wp_ret, validate_refused].
  destruct (RawURL_DecodeString a) as [j|] eqn:Ha; [|apply wp_ret, validate_refused].
  destruct (RawURL_DecodeString b) as [sg|] eqn:Hb; [|apply wp_ret, validate_refused].
  case_bool_decide as Hsig; cbn [negb]; [|apply wp_ret, validate_refused].
  destruct (decode_state (json_parse j)) as [p|] eqn:Hp; [|apply wp_ret, validate_refused].
  go_step. destruct H0 as (Hks & Hother & Hn & Hr).
  assert (Hheld : forall n, held (view w') n = None \/ held (view w') n = held (view w) n).
  { intros n. destruct (decide (n = stp_Nonce p)) as [->|Hne]; [done|right; by apply Hother]. }
  destruct a0 as [[s|]|e]; [|by apply wp_ret; split..].
  destruct (negb _ && negb _) eqn:Hbind; apply wp_ret; split; try done.
  split; [done|]. intros u [= <-]. destruct Hr as [[t Ht] Hnone]. exists p, s, t.
  split; [exists a, b, j; subst sg; done|]. split; [done|]. split; [done|]. split; [|done].
  apply andb_false_iff in Hbind as [Hs|Hs]; apply negb_false_iff, bool_decide_eq_true in Hs; auto.
Qed.

(** Once a nonce is gone, no state that carries it is accepted. *)
Lemma validate_all_spent states n w :
  (forall s p, s ∈ states -> carries (stm_hmacSecret sm) s p -> stp_Nonce p = n) ->
  held (view w) n = None ->
  Forall (fun r => is_Ok r = false) (Validate_all sm states w).1.
Proof.
  revert w. induction states as [|s states IH]; intros w Hs Hn; [by apply Forall_nil|].
  cbn. pose proof (Validate_spec s w) as (_ & Hh & Hok). apply Forall_cons. split.
  - destruct ((Validate sm s w).1) as [u|e]; [|done].
    destruct (Hok u eq_refl) as (p & s' & t & Hc & _ & Hp & _).
    rewrite (Hs s p), Hn in Hp; [done|left|done].
  - apply IH; [intros; eapply Hs; [by right|done]|].
    destruct (Hh n) as [?|Heq]; [done|by rewrite Heq].
Qed.

(** C23: a state token is accepted at most once: of any sequence of redemptions of tokens that carry
    the same nonce, replays and re-encodings of one token included and whatever fails between
    them, at most one succeeds. *)
Theorem state_single_use (states : list string) (n : string) (w : W)
  (Hs : forall s p, s ∈ states -> carries (stm_hmacSecret sm) s p -> stp_Nonce p = n) :
  (length (filter (fun r => is_Ok r = true) (Validate_all sm states w).1) <= 1)%nat.
Proof.
  revert w Hs. induction states as [|s states IH]; intros w Hs; [by cbn; lia|].
  change ((Validate_all sm (s :: states) w).1) with
    ((Validate sm s w).1 :: (Validate_all sm states (Validate sm s w).2).1).
  pose proof (Validate_spec s w) as (_ & _ & Hok).
  assert (Hrest : forall s' p, s' ∈ states -> carries (stm_hmacSecret sm) s' p -> stp_Nonce p = n).
  { intros. eapply Hs; [by right|done]. }
  destruct ((Validate sm s w).1) as [u|e] eqn:Hr.
  - destruct (Hok u eq_refl) as (p & s' & t & Hc & _ & _ & _ & Hn). rewrite filter_cons_True by done.
    rewrite (Hs s p) in Hn by (by left || done).
    pose proof (validate_all_spent states n _ Hrest Hn) as Hall. cbn [length].
    rewrite filter_none; [done|]. eapply Forall_impl; [exact Hall|]. by intros r ->.
  - rewrite filter_cons_False by done. by apply IH.
Qed.

(** C31: accepting a state means that it is signed with the hub's secret, names the accepted user,
    and redeems a nonce that was held for that user (or for nobody in particular) and is gone
    afterwards; nothing but the key-value store changes. *)
Theorem state_authentic (state u : string) (w : W)
  (Hr : (Validate sm state w).1 = Ok u) :
  exists p s t, carries (stm_hmacSecret sm) state p /\ stp_UserID p = u /\
    held (view w) (stp_Nonce p) = Some (s, t) /\ (s = ""%string \/ s = u) /\
    held (view (Validate sm state w).2) (stp_Nonce p) = None /\
    exists ks, view (Validate sm state w).2 = with_kv ks (view w).
Proof.
  pose proof (Validate_spec state w) as (Hk & _ & Hok).
  destruct (Hok u Hr) as (p & s & t & H). exists p, s, t. naive_solver.
Qed.

(** C32: A state just issued for a user is redeemed for that user while its fifteen minutes run, unless the
    store does not answer; later it may have expired, and nothing else happens. Issuing holds its nonce
    for exactly these fifteen minutes of the store's clock. *)
Theorem issue_then_validate (u st : string) (w : W)
  (Hu : valid_text u) (Ht : 0 <= (time_Now (rand_Read 16 w).2).1 / Second <= int64_max)
  (Hi : (Issue sm u w).1 = Ok st) :
  let w1 := (Issue sm u w).2 in
  exists nonce issued, held (view w1) nonce = Some (u, Some (issued + 15 * 60 * 1000)) /\
    ((Validate sm st w1).1 = Ok u \/
     (exists e, opaque e /\ (Validate sm st w1).1 = Err (Wrap "oauth: consume nonce: " e)) \/
     ((Validate sm st w1).1 = Err (New "oauth: state token expired or already used") /\
      ~ redis_before (issued + 15 * 60 * 1000) w1)).
Proof.
  cbv zeta. revert Hi. unfold Issue, bind.
  pose proof (rand_Read_law 16 w) as (_ & Hrand).
  destruct (rand_Read 16 w) as [[nonce|e] w1]; cbn [fst snd] in *; [|done].
  destruct (time_Now w1) as [now w2]. cbn [fst snd] in *.
  set (p := mkStatePayload (hex_encode nonce) u (now / Second)).
  pose proof (SetNonce_law (hex_encode nonce) u stateTTL w2) as (_ & _ & _ & Hset).
  destruct (SetNonce (stm_nonces sm) (hex_encode nonce) u stateTTL w2) as [[[]|e] w3];
    cbn [fst snd] in *; [|done].
  unfold ret. cbn [fst snd]. intros [= <-]. destruct (Hset eq_refl) as [issued Hheld].
  exists (hex_encode nonce), issued. split; [exact Hheld|].
  assert (Hc : carries (stm_hmacSecret sm) (sign_state (stm_hmacSecret sm) p) p).
  { apply sign_state_carries; cbn; [apply hex_encode_text|done|unfold int64_min; lia]. }
  destruct Hc as (a & b & j & Hcut & Ha & Hb & Hp). unfold Validate.
  rewrite decide_False by (intros He; by rewrite He in Hcut).
  rewrite Hcut, Ha, Hb, bool_decide_eq_true_2, Hp by done. cbn [negb]. subst p. cbn [stp_Nonce stp_UserID] in *.
  unfold bind. pose proof (ConsumeNonce_law (hex_encode nonce) w3) as (_ & _ & _ & Hcons).
  destruct (ConsumeNonce (stm_nonces sm) (hex_encode nonce) w3) as [[[s|]|e] w4] eqn:Hcn; cbn [fst snd] in *.
  - destruct Hcons as [[t Hh] _]. rewrite Hheld in Hh. inversion Hh; subst s.
    destruct (bool_decide (u = ""%string)); cbn [negb andb]; [by left|].
    rewrite bool_decide_eq_true_2 by done. by left.
  - right; right. split; [done|]. intros Hbef. eapply ConsumeNonce_in_time; [exact Hheld|exact Hbef|]. by rewrite Hcn.
  - right; left. eauto.
Qed.
End StateProofs.

(** ** The token store *)
Section Tokens.
Context {W : Type} {E : Env W} {C : Crypto}.

(** [TokenStore], internal/oauth/oauth.go:167-170. *)
Record TokenStore : Type := mkTokenStore { ts_encrypter : Encrypter }.

(** [Store], internal/oauth/oauth.go:179-207. *)
Definition TokenStore_Store (ts : TokenStore) (userID accessToken refreshToken scopes : string)
    (expiresAt : option Z) : M W (result error unit) :=
  accessEnc <-? Encrypt (ts_encrypter ts) accessToken
    onerr e => ret (Err (Wrap "oauth: encrypt access token: " e)) ;;
  let params rc rn := mkUpsertOAuthTokenParams userID (ev_Ciphertext accessEnc) (ev_Nonce accessEnc)
                        rc rn (ev_KeyVersion accessEnc) scopes expiresAt in
  let upsert p :=
    (t <-? UpsertOAuthToken p onerr e => ret (Err (Wrap "oauth: upsert token: " e)) ;; ret (Ok tt)) in
  (if negb (bool_decide (refreshToken = ""%string)) then
     refreshEnc <-? Encrypt (ts_encrypter ts) refreshToken
       onerr e => ret (Err (Wrap "oauth: encrypt refresh token: " e)) ;;
     upsert (params (Some (ev_Ciphertext refreshEnc)) (Some (ev_Nonce refreshEnc)))
   else upsert (params None None)).

(** [LoadAccessToken], internal/oauth/oauth.go:211-225. [None]: the panic of [Decrypt]. *)
Definition LoadAccessToken (ts : TokenStore) (userID : string) : M W (option (result error string)) :=
  token <-? GetOAuthTokenByUserID userID onerr e => ret (Some (Err e)) ;;
  ret (match Decrypt (ts_encrypter ts)
               (mkEncryptedValue (ot_AccessTokenCipher token) (ot_AccessTokenNonce token)
                  (ot_EncryptionKeyVersion token)) with
       | Some (Ok plain) => Some (Ok plain)
       | Some (Err e) => Some (Err (Wrap "oauth: decrypt access token for user: " e))
       | None => None
       end).
End Tokens.

(** ** Calls to Discord's OAuth2 endpoints *)
Section Exchange.
Context {W : Type} {H : Http W} {J : JsonText}.

(** [TokenResponse], internal/oauth/oauth.go:230-236. *)
Record TokenResponse : Type := mkTokenResponse {
  tr_AccessToken : string; tr_TokenType : string; tr_ExpiresIn : Z;
  tr_RefreshToken : string; tr_Scope : string }.
(** Decoding by the tags of [TokenResponse], internal/oauth/oauth.go:230-236. *)
Definition decode_TokenResponse (j : option json) : option TokenResponse :=
  match j with
  | Some JNull => Some (mkTokenResponse "" "" 0 "" "")
  | Some (JObj fs) =>
      a ← jstring "access_token" fs; t ← jstring "token_type" fs; x ← jint "expires_in" fs;
      r ← jstring "refresh_token" fs; s ← jstring "scope" fs; Some (mkTokenResponse a t x r s)
  | _ => None
  end.

(** [ExchangeConfig], internal/oauth/oauth.go:239-243. *)
Record ExchangeConfig : Type := mkExchangeConfig {
  xc_ClientID : string; xc_ClientSecret : string; xc_RedirectURL : string }.

(** [url.Values.Encode] sorts by key. *)
Definition exchange_form (cfg : ExchangeConfig) (code : string) : list (string * string) :=
  [("client_id", xc_ClientID cfg); ("client_secret", xc_ClientSecret cfg); ("code", code);
   ("grant_type", "authorization_code"); ("redirect_uri", xc_RedirectURL cfg)]%string.

(** [ExchangeCode], internal/oauth/oauth.go:248-290. The request is well formed for every input. *)
Definition ExchangeCode (cfg : ExchangeConfig) (code : string) : M W (result error TokenResponse) :=
  resp <-? http_Do (mkHttpRequest "POST" "https://discord.com/api/oauth2/token"
             [("Content-Type", "application/x-www-form-urlencoded")]%string
             (encode_values (exchange_form cfg code)))
    onerr e => ret (Err (Wrap "oauth: token request: " e)) ;;
  (if negb (resp.1 =? 200)
   then ret (Err (New ("oauth: discord token endpoint returned an error: " +:+ resp.2)))
   else match decode_TokenResponse (json_parse resp.2) with
        | None => ret (Err (Wrap "oauth: decode token response: " (External "json")))
        | Some tr => ret (Ok tr)
        end).

(** [DiscordUserResponse], internal/oauth/oauth.go:293-296. *)
Record DiscordUserResponse : Type := mkDiscordUserResponse { du_ID : string; du_Username : string }.
(** Decoding by the tags of [DiscordUserResponse], internal/oauth/oauth.go:293-296. *)
Definition decode_DiscordUserResponse (j : option json) : option DiscordUserResponse :=
  match j with
  | Some JNull => Some (mkDiscordUserResponse "" "")
  | Some (JObj fs) =>
      i ← jstring "id" fs; u ← jstring "username" fs; Some (mkDiscordUserResponse i u)
  | _ => None
  end.

(** [FetchDiscordUser], internal/oauth/oauth.go:300-330. *)
Definition FetchDiscordUser (accessToken : string) : M W (result error DiscordUserResponse) :=
  resp <-? http_Do (mkHttpRequest "GET" "https://discord.com/api/users/@me"
             [("Authorization"%string, ("Bearer " +:+ accessToken)%string)] [])
    onerr e => ret (Err (Wrap "oauth: users/@me request: " e)) ;;
  (if negb (resp.1 =? 200) then ret (Err (New "oauth: users/@me returned an error"))
   else match decode_DiscordUserResponse (json_parse resp.2) with
        | None => ret (Err (Wrap "oauth: decode users/@me: " (External "json")))
        | Some u => ret (Ok u)
        end).
End Exchange.

Definition authorize_endpoint : string := "https://discord.com/api/oauth2/authorize?".
(** The query of [BuildConnectURL], internal/oauth/oauth.go:337-342, sorted by key. *)
Definition connect_query (clientID redirectURL state : string) : list (string * string) :=
  [("client_id", clientID); ("redirect_uri", redirectURL); ("response_type", "code");
   ("scope", "identify guilds.join"); ("state", state)]%string.
(** [BuildConnectURL], internal/oauth/oauth.go:335-343. *)
Definition BuildConnectURL (clientID redirectURL state : string) : string :=
  authorize_endpoint +:+ string_of_bytes (encode_values (connect_query clientID redirectURL state)).

Lemma escape_bytes_range s : Forall is_byte (escape_bytes s).
Proof.
  unfold escape_bytes. apply Forall_bind. eapply Forall_impl; [apply bytes_of_range|].
  intros b Hb. unfold is_byte in Hb. unfold compose, escape_byte, upper_hex.
  destruct (unreserved b); [|destruct (b =? 32)]; [..|destruct (b / 16 <? 10); destruct (b mod 16 <? 10)];
    repeat (apply Forall_cons; split); try apply Forall_nil; unfold is_byte; div_lia.
Qed.

Lemma encode_values_range kvs : Forall is_byte (encode_values kvs).
Proof.
  induction kvs as [|[k v] [|kv rest] IH]; [done|..]; cbn [encode_values];
    repeat (apply Forall_app; split); auto using escape_bytes_range;
    (apply Forall_cons; split; [unfold is_byte; lia|done]).
Qed.

(** The connect URL carries its parameters intact: whatever the client id, redirect URL and state
    hold, parsing the query of the URL gives back exactly these values and the fixed scope, so
    the state that returns is the state that was issued. *)
Theorem connect_url_roundtrip (clientID redirectURL state : string) :
  exists query, BuildConnectURL clientID redirectURL state = authorize_endpoint +:+ query /\
    parse_query (bytes_of query) = Some (connect_query clientID redirectURL state).
Proof.
  eexists. split; [reflexivity|]. rewrite bytes_of_string_of_bytes by apply encode_values_range.
  by apply parse_encode_values.
Qed.

(** ** What is stored *)
Section TokenProofs.
Context {W : Type} {E : Env W} {view : W -> View} {L : EnvLaws E view}.
Context {C : Crypto} {CL : CryptoLaws C}.

(** UNIQUE (user_id) of oauth_tokens. *)
Definition tokens_unique (db : DB) : Prop :=
  forall id1 id2 t1 t2, t_oauth_tokens db !! id1 = Some t1 -> t_oauth_tokens db !! id2 = Some t2 ->
    ot_UserID t1 = ot_UserID t2 -> id1 = id2.

(** The access token of a row is sealed under the key with a nonce of the right size. *)
Definition sealed (key token : string) (t : OAuthToken) : Prop :=
  String.length (ot_AccessTokenNonce t) = gcm_NonceSize /\
  ot_AccessTokenCipher t = gcm_seal key (ot_AccessTokenNonce t) token.

Lemma token_of_user_unique db id t : tokens_unique db -> t_oauth_tokens db !! id = Some t ->
  token_of_user (ot_UserID t) db = Some t.
Proof.
  intros Hu Ht. unfold token_of_user.
  destruct (head (rows_where _ _)) as [t'|] eqn:Hh.
  - apply head_Some_elem_of, rows_where_elem in Hh as (id' & Hl & Hp).
    apply bool_decide_eq_true in Hp. assert (id = id') as <- by (eapply Hu; eauto). by simplify_eq.
  - apply head_None in Hh.
    assert (Hin : t ∈ rows_where (t_oauth_tokens db) (fun t' => bool_decide (ot_UserID t' = ot_UserID t))).
    { apply rows_where_elem. exists id. split; [done|]. by apply bool_decide_eq_true. }
    rewrite Hh in Hin. by apply not_elem_of_nil in Hin.
Qed.

(** An upsert leaves one row for the user, the one it answers, and touches no other table. *)
Lemma upsert_oauth_token p st db t db' : tokens_unique db ->
  sql_upsert_oauth_token p st db = Ok (Some t, db') ->
  (exists id, db' = set_oauth_tokens (<[id := t]> (t_oauth_tokens db)) db) /\ tokens_unique db' /\
  ot_UserID t = uot_UserID p /\ ot_AccessTokenCipher t = uot_AccessTokenCipher p /\
  ot_AccessTokenNonce t = uot_AccessTokenNonce p.
Proof.
  intros Hu. unfold sql_upsert_oauth_token.
  assert (Hins : forall id t, ot_UserID t = uot_UserID p ->
            (forall id' t', t_oauth_tokens db !! id' = Some t' -> ot_UserID t' = uot_UserID p -> id' = id) ->
            tokens_unique (set_oauth_tokens (<[id := t]> (t_oauth_tokens db)) db)).
  { intros id t0 Ht0 Hone id1 id2 t1 t2. cbn [t_oauth_tokens set_oauth_tokens].
    rewrite !lookup_insert_Some. intros [[<- <-]|[Hn1 H1]] [[<- <-]|[Hn2 H2]] Heq; [done| | |by eapply Hu].
    - symmetry. eapply Hone; [done|congruence].
    - eapply Hone; [done|congruence]. }
  destruct (head _) as [[id t0]|] eqn:Hh.
  - apply head_Some_elem_of, list_elem_of_filter in Hh as [Ht0 Hin]. apply elem_of_map_to_list in Hin.
    intros [= <- <-]. split; [by exists id|]. split; [|done]. apply Hins; [done|].
    intros id' t' Hl Hp. eapply Hu; [done..|]. cbn in Ht0. congruence.
  - apply head_None in Hh. unfold sql_insert. destruct (_ || _) eqn:Hid; [done|].
    destruct (negb (fk _ _)); [done|]. intros [= <- <-]. split; [by eexists|]. split; [|done]. apply Hins; [done|].
    intros id' t' Hl Hp. exfalso.
    assert (Hin : (id', t') ∈ filter (fun kv : string * OAuthToken => ot_UserID kv.2 = uot_UserID p)
                    (map_to_list (t_oauth_tokens db))).
    { apply list_elem_of_filter. split; [done|]. by apply elem_of_map_to_list. }
    rewrite Hh in Hin. by apply not_elem_of_nil in Hin.
Qed.

Instance Encrypt_spec en plain : Spec view (Encrypt en plain) (fun v r v' => v' = v /\
  ((exists n, String.length n = gcm_NonceSize /\
      r = Ok (mkEncryptedValue (gcm_seal (en_key en) n plain) n (en_keyVersion en))) \/
   (exists e, opaque e /\ r = Err e))).
Proof.
  apply spec_of_wp. intros w. unfold Encrypt. go_step. destruct H as [Hv [(bs & -> & Hl)|(e & He & ->)]];
    apply wp_ret; (split; [done|]); [left|right; eauto with errors].
  exists (String.string_of_list_ascii bs). split; [|done].
  rewrite <-Hl. clear. induction bs as [|b bs IH]; [done|]. cbn. by rewrite IH.
Qed.

(** What is stored for the user after a successful [Store]. *)
Definition token_stored (key user tok : string) (v v' : View) : Prop :=
  tokens_unique (v_db v') /\
  exists id t, v' = with_db (set_oauth_tokens (<[id := t]> (t_oauth_tokens (v_db v))) (v_db v)) v /\
    token_of_user user (v_db v') = Some t /\ sealed key tok t.

Lemma upsert_wp p key tok w : tokens_unique (v_db (view w)) ->
  String.length (uot_AccessTokenNonce p) = gcm_NonceSize ->
  uot_AccessTokenCipher p = gcm_seal key (uot_AccessTokenNonce p) tok ->
  wp view (t <-? UpsertOAuthToken p onerr e => ret (Err (Wrap "oauth: upsert token: " e)) ;; ret (Ok tt))
    (fun r v' => r = Ok tt -> token_stored key (uot_UserID p) tok (view w) v') w.
Proof.
  intros Hu Hn Hc.
  eapply wp_step with (R := fun v r v' => match r with
    | Ok t => exists st db', sql_upsert_oauth_token p st (v_db v) = Ok (Some t, db') /\ v' = with_db db' v
    | Err _ => True end).
  { apply spec_query. intros v r v' [(st & a & db' & Hq & -> & ->)|[(st & e & _ & -> & _)|(e & _ & -> & _)]].
    - destruct a as [t|]; cbn; [by eauto|done].
    - unfold scanOAuthToken, scan_row. by destruct (errors_Is e ErrNoRows).
    - unfold scanOAuthToken, scan_row. by destruct (errors_Is e ErrNoRows). }
  intros [t|e] w' Hr; apply wp_ret; [|done]. intros _. destruct Hr as (st & db' & Hq & Hv).
  destruct (upsert_oauth_token _ _ _ _ _ Hu Hq) as ((id & ->) & Hu' & Huser & Hcip & Hnon).
  rewrite Hv. split; [exact Hu'|]. exists id, t. split; [done|].
  split; [|unfold sealed; by rewrite Hnon, Hcip]. rewrite <-Huser.
  apply (token_of_user_unique _ id); [exact Hu'|]. cbn. by rewrite lookup_insert_eq.
Qed.

(** C27: tokens at rest. A successful [Store] changes exactly one row, the user's, where the access
    token is found only sealed under the hub's key with a 12-byte nonce; loading it back gives the
    same token, unless the database does not answer, and never panics. *)
Theorem token_roundtrip (ts : TokenStore) (user tok refresh scopes : string) (exp : option Z) (w : W)
  (Hu : tokens_unique (v_db (view w)))
  (Hs : (TokenStore_Store ts user tok refresh scopes exp w).1 = Ok tt) :
  let w1 := (TokenStore_Store ts user tok refresh scopes exp w).2 in
  token_stored (en_key (ts_encrypter ts)) user tok (view w) (view w1) /\
  ((LoadAccessToken ts user w1).1 = Some (Ok tok) \/
   exists e, opaque e /\ (LoadAccessToken ts user w1).1 = Some (Err e)).
Proof.
  intros w1.
  assert (Hst : token_stored (en_key (ts_encrypter ts)) user tok (view w) (view w1)).
  { revert Hs. change (wp view (TokenStore_Store ts user tok refresh scopes exp) (fun r v' =>
      r = Ok tt -> token_stored (en_key (ts_encrypter ts)) user tok (view w) v') w).
    unfold TokenStore_Store. go_step. destruct H as [Hv [(n & Hn & ->)|(e & He & ->)]]; [|by apply wp_ret].
    rewrite <-Hv in *. destruct (negb _).
    - go_step. destruct H as [Hv' [(n' & Hn' & ->)|(e & He & ->)]]; [|by apply wp_ret].
      rewrite <-Hv' in *. by apply upsert_wp.
    - by apply upsert_wp. }
  split; [done|]. destruct Hst as (Hu1 & id & t & Hv1 & Htok & Hn & Hc).
  change (wp view (LoadAccessToken ts user) (fun r _ => r = Some (Ok tok) \/
            exists e, opaque e /\ r = Some (Err e)) w1).
  unfold LoadAccessToken. go_step. destruct H as [_ [(t' & -> & Ht')|[[-> Ht']|(e & He & ->)]]].
  - rewrite Htok in Ht'. injection Ht' as <-. apply wp_ret. left. unfold Decrypt. cbn [ev_Ciphertext ev_Nonce].
    rewrite Hc, gcm_seal_length, gcm_open_seal, Hn.
    assert (Nat.ltb (String.length tok + 16) gcm_NonceSize = false) as ->; [|done].
    apply Nat.ltb_ge. unfold gcm_NonceSize. lia.
  - by rewrite Htok in Ht'.
  - apply wp_ret. right. eauto.
Qed.
End TokenProofs.

(** ** Witnesses *)

(** A marshaller for flat objects of strings and integers, as a countable encoding. *)
Fixpoint bits (p : positive) : string :=
  match p with xH => EmptyString | xO p => String "0"%char (bits p) | xI p => String "1"%char (bits p) end.
Fixpoint unbits (s : string) : positive :=
  match s with
  | EmptyString => xH
  | String a s => if decide (a = "0"%char) then xO (unbits s) else xI (unbits s)
  end.
Lemma unbits_bits p : unbits (bits p) = p.
Proof. induction p as [p IH|p IH|]; cbn; by rewrite ?IH. Qed.

Definition flat (fs : list (string * json)) : list (string * (string + Z)) :=
  (fun kv => (kv.1, match kv.2 with JStr s => inl s | JNum z => inr z | _ => inr 0 end)) <$> fs.
Definition unflat (l : list (string * (string + Z))) : list (string * json) :=
  (fun kv => (kv.1, match kv.2 with inl s => JStr s | inr z => JNum z end)) <$> l.
Definition sample_json : JsonText :=
  {| json_text := fun j => match j with JObj fs => bits (encode (flat fs)) | _ => ""%string end;
     json_parse := fun s => l ← decode (unbits s); Some (JObj (unflat l)) |}.
#[export] Instance sample_json_laws : JsonTextLaws sample_json.
Proof.
  split. intros fs Hf. cbn. rewrite unbits_bits, decode_encode. cbn. do 2 f_equal.
  unfold flat, unflat. induction Hf as [|[k v] fs Hv _ IH]; [done|]. cbn. rewrite IH.
  by destruct v.
Qed.

Definition sample_states : StateManager World :=
  mkStateManager World "0123456789abcdef0123456789abcdef" NewValkeyNonceStore.
#[export] Instance sample_states_laws : NonceLaws w_view (stm_nonces sample_states).
Proof. apply Valkey_nonce_laws. Defined.

Definition issued_state : string :=
  match (Issue (C := sample_crypto) (J := sample_json) sample_states "u1" (sample [])).1 with
  | Ok s => s | Err _ => ""%string end.
Definition issued_world : World :=
  (Issue (C := sample_crypto) (J := sample_json) sample_states "u1" (sample [])).2.
Definition issued_nonce : string := hex_encode (replicate 16 (Ascii.ascii_of_nat 0)).

(** The payload of the issued state. *)
Definition issued_payload : statePayload := mkStatePayload issued_nonce "u1" 1.
Lemma issued_carries : carries (H := sample_crypto) (H0 := sample_json)
  (stm_hmacSecret sample_states) issued_state issued_payload.
Proof.
  do 3 eexists. split; [vm_compute; reflexivity|]. split; [vm_compute; reflexivity|].
  split; vm_compute; reflexivity.
Qed.

Lemma state_single_use_witness :
  let rs := (Validate_all (C := sample_crypto) (J := sample_json) sample_states
               [issued_state; issued_state] issued_world).1 in
  rs !! 0%nat = Some (Ok "u1"%string) /\ (length (filter (fun r => is_Ok r = true) rs) <= 1)%nat.
Proof.
  cbv zeta. split; [vm_compute; reflexivity|].
  apply (state_single_use (C := sample_crypto) (J := sample_json) sample_states
           [issued_state; issued_state] issued_nonce issued_world).
  intros s p Hs Hc. assert (s = issued_state) as ->.
  { rewrite !elem_of_cons, elem_of_nil in Hs. tauto. }
  by rewrite (carries_unique (H := sample_crypto) (H0 := sample_json) _ _ _ _ Hc issued_carries).
Defined.

Lemma state_authentic_witness :
  exists p s t, carries (H := sample_crypto) (H0 := sample_json) (stm_hmacSecret sample_states) issued_state p /\
    stp_UserID p = "u1"%string /\ held (NonceLaws := sample_states_laws) (w_view issued_world) (stp_Nonce p) = Some (s, t).
Proof.
  destruct (state_authentic (C := sample_crypto) (J := sample_json) sample_states
    issued_state "u1" issued_world) as (p & s & t & Hc & Hu & Hh & _); [vm_compute; reflexivity|].
  by exists p, s, t.
Defined.

Lemma issue_then_validate_witness :
  redis_before (W := World) 900000 issued_world /\
  exists nonce issued,
     held (NonceLaws := sample_states_laws) (w_view issued_world) nonce = Some ("u1"%string, Some (issued + 15 * 60 * 1000)) /\
     ((Validate (C := sample_crypto) (J := sample_json) sample_states issued_state issued_world).1 = Ok "u1"%string \/
      (exists e, opaque e /\ (Validate (C := sample_crypto) (J := sample_json) sample_states issued_state issued_world).1
                             = Err (Wrap "oauth: consume nonce: " e)) \/
      ((Validate (C := sample_crypto) (J := sample_json) sample_states issued_state issued_world).1
         = Err (New "oauth: state token expired or already used") /\
       ~ redis_before (issued + 15 * 60 * 1000) issued_world)).
Proof.
  split; [apply world_redis_before; vm_compute; reflexivity|].
  apply (issue_then_validate (E := env_world) (C := sample_crypto) (J := sample_json) sample_states "u1" issued_state
           (sample [])); [reflexivity | vm_compute; split; discriminate | vm_compute; reflexivity].
Defined.

Definition sample_tokens : TokenStore := mkTokenStore (mkEncrypter 1 "k").
Lemma token_roundtrip_witness :
  (LoadAccessToken (C := sample_crypto) sample_tokens "u1"
     (TokenStore_Store (C := sample_crypto) sample_tokens "u1" "at" "rt" "identify" None (sample [])).2).1
    = Some (Ok "at"%string) \/
  exists e, opaque e /\ (LoadAccessToken (C := sample_crypto) sample_tokens "u1"
     (TokenStore_Store (C := sample_crypto) sample_tokens "u1" "at" "rt" "identify" None (sample [])).2).1
    = Some (Err e).
Proof.
  apply (token_roundtrip (E := env_world) (view := w_view) (C := sample_crypto) sample_tokens
           "u1" "at" "rt" "identify" None (sample [])).
  - intros id1 id2 t1 t2 H1. discriminate H1.
  - vm_compute. reflexivity.
Defined.
