(* ===== verification/Nonces.v ===== *)
(** * Nonces: the in-memory store of login nonces

    [MemNonceStore] of internal/oauth stands in for the Valkey store in tests. It gives the answers the
    Valkey store gives, whatever the calls and whenever they are made, except at the very instant a
    nonce expires. *)
From S2P Require Import Prelude Errors Domain Schema Services Cache OAuth.

(** [nonceEntry], internal/oauth/nonce_store.go:66-69. *)
Record nonceEntry : Type := mkNonceEntry { ne_userID : string; ne_expiresAt : Z }.
(** The map a [MemNonceStore] holds. *)
Notation MemNonceStore := (gmap string nonceEntry).
(** [NewMemNonceStore], internal/oauth/nonce_store.go:72-74. *)
Definition NewMemNonceStore : MemNonceStore := ∅.

(** [MemNonceStore.SetNonce], internal/oauth/nonce_store.go:76-79, at the time [now]. It never fails. *)
Definition Mem_SetNonce (nonce userID : string) (ttl now : Z) (m : MemNonceStore) : MemNonceStore :=
  <[nonce := mkNonceEntry userID (now + ttl)]> m.

(** [MemNonceStore.ConsumeNonce], internal/oauth/nonce_store.go:81-89, at the time [now]. *)
Definition Mem_ConsumeNonce (nonce : string) (now : Z) (m : MemNonceStore) : option string * MemNonceStore :=
  match m !! nonce with
  | None => (None, delete nonce m)
  | Some e => if ne_expiresAt e <? now then (None, delete nonce m)
              else (Some (ne_userID e), delete nonce m)
  end.

(** ** The same calls on both stores *)

(** A call, with its time and its time to live in milliseconds. *)
Inductive nonce_call : Type :=
| SetCall (nonce userID : string) (ttl now : Z)
| ConsumeCall (nonce : string) (now : Z).
Definition call_time (c : nonce_call) : Z := match c with SetCall _ _ _ now | ConsumeCall _ now => now end.

(** The answers: nothing for a registration, what a redemption finds. *)
Definition mem_call (c : nonce_call) (m : MemNonceStore) : option (option string) * MemNonceStore :=
  match c with
  | SetCall n u ttl now => (None, Mem_SetNonce n u (ttl * Millisecond) (now * Millisecond) m)
  | ConsumeCall n now => let '(r, m') := Mem_ConsumeNonce n (now * Millisecond) m in (Some r, m')
  end.
(** The commands of the Valkey store. *)
Definition valkey_call (c : nonce_call) (ks : Keyspace) : option (option string) * Keyspace :=
  match c with
  | SetCall n u ttl now =>
      match redis_set (nonceKeyPrefix +:+ n) u (ttl * Millisecond / Millisecond) now ks with
      | Ok (_, ks') => (None, ks')
      | Err _ => (None, ks)
      end
  | ConsumeCall n now =>
      match getdelScript (nonceKeyPrefix +:+ n) now ks with
      | Ok (u, ks') => (Some (Some u), ks')
      | Err _ => (Some None, ks)
      end
  end.
Fixpoint nonce_calls {S} (step : nonce_call -> S -> option (option string) * S) (cs : list nonce_call) (s : S)
    : list (option (option string)) :=
  match cs with
  | [] => []
  | c :: cs => let '(a, s1) := step c s in a :: nonce_calls step cs s1
  end.

(** Times do not run backwards, and no nonce is redeemed at the very instant of its expiry. *)
Fixpoint well_timed (t : Z) (cs : list nonce_call) (m : MemNonceStore) : Prop :=
  match cs with
  | [] => True
  | c :: cs =>
      t <= call_time c /\
      match c with
      | ConsumeCall n now => forall e, m !! n = Some e -> ne_expiresAt e <> now * Millisecond
      | SetCall _ _ _ _ => True
      end /\ well_timed (call_time c) cs (mem_call c m).2
  end.

(** Both hold the same nonces; Valkey may still hold one that expired before. *)
Definition same_nonces (t : Z) (m : MemNonceStore) (ks : Keyspace) : Prop :=
  forall n, match ks !! (nonceKeyPrefix +:+ n) with
            | Some k => exists u x, k = mkEntry (RStr u) (Some x) /\
                (m !! n = Some (mkNonceEntry u (x * Millisecond)) \/ m !! n = None /\ x <= t)
            | None => m !! n = None
            end.

Lemma same_nonces_later t t' m ks : t <= t' -> same_nonces t m ks -> same_nonces t' m ks.
Proof.
  intros Ht Hs n. specialize (Hs n). destruct (ks !! _) as [k|]; [|done].
  destruct Hs as (u & x & -> & [Hm|[Hm Hx]]); exists u, x; split; auto. right. split; [done|lia].
Qed.
Lemma same_nonces_delete t m ks n : same_nonces t m ks ->
  same_nonces t (delete n m) (delete (nonceKeyPrefix +:+ n) ks).
Proof.
  intros Hs n'. destruct (decide (n = n')) as [<-|Hne].
  { rewrite (lookup_delete_eq ks). apply lookup_delete_eq. }
  rewrite (lookup_delete_ne ks), lookup_delete_ne; [apply Hs|done|]. intros ?%nonce_key_inj; congruence.
Qed.
(** An entry that is over on Valkey, and gone here. *)
Lemma same_nonces_expire t m ks n u x : same_nonces t m ks ->
  ks !! (nonceKeyPrefix +:+ n) = Some (mkEntry (RStr u) (Some x)) -> x <= t -> same_nonces t (delete n m) ks.
Proof.
  intros Hs Hk Hx n'. destruct (decide (n = n')) as [<-|Hne].
  - rewrite Hk, lookup_delete_eq. eauto 8.
  - rewrite lookup_delete_ne by done. apply Hs.
Qed.

(** One call: the same answer, and the relation holds again. *)
Lemma nonce_call_agrees c cs t m ks : well_timed t (c :: cs) m -> same_nonces t m ks ->
  (mem_call c m).1 = (valkey_call c ks).1 /\ same_nonces (call_time c) (mem_call c m).2 (valkey_call c ks).2.
Proof.
  intros (Ht & Hnow & _) Hs%(same_nonces_later _ _ _ _ Ht). destruct c as [n u ttl now|n now]; cbn [call_time] in *.
  - cbn. split; [done|]. intros n'. unfold Mem_SetNonce. destruct (decide (n = n')) as [<-|Hne].
    + rewrite (lookup_insert_eq ks), lookup_insert_eq. exists u, (now + ttl). rewrite Z.div_mul by done. split; [done|]. left. do 2 f_equal. lia.
    + rewrite (lookup_insert_ne ks), lookup_insert_ne; [apply Hs|done|]. intros ?%nonce_key_inj; congruence.
  - unfold mem_call, valkey_call, Mem_ConsumeNonce, getdelScript, klive. pose proof (Hs n) as Hn.
    destruct (ks !! (nonceKeyPrefix +:+ n)) as [k|] eqn:Hk.
    + destruct Hn as (u & x & -> & Hn). cbn [re_expire re_value].
      assert (Hms : forall a b, (a * Millisecond <? b * Millisecond) = (a <? b)).
      { intros a b. unfold Millisecond. destruct (a <? b) eqn:Hab; lia. }
      destruct Hn as [Hm|[Hm Hx]]; rewrite Hm.
      * cbn [ne_expiresAt ne_userID]. rewrite Hms. specialize (Hnow _ Hm). cbn in Hnow.
        assert (x <> now) by congruence. destruct (x <? now) eqn:Hxn.
        -- assert ((now <? x) = false) as -> by lia. split; [done|]. eapply same_nonces_expire; [done..|lia].
        -- assert ((now <? x) = true) as -> by lia. split; [done|]. by apply same_nonces_delete.
      * assert ((now <? x) = false) as -> by lia. split; [done|]. by eapply same_nonces_expire.
    + rewrite Hn. split; [done|]. rewrite delete_id by done. exact Hs.
Qed.


(** At the instant of the expiry the stores differ: here the nonce is still good, on Valkey it is gone. *)
Example nonces_differ_at_expiry :
  let cs := [SetCall "n" "u1" 900000 0; ConsumeCall "n" 900000] in
  nonce_calls mem_call cs NewMemNonceStore = [None; Some (Some "u1"%string)] /\
  nonce_calls valkey_call cs ∅ = [None; Some None].
Proof. by vm_compute. Qed.

