(* ===== verification/Membership.v ===== *)
(** * Membership: inviting and expelling collaborators

    internal/worker/invite_collaborator.go and internal/worker/expel_collaborator.go. *)
From S2P Require Import Prelude Errors Domain Schema Services Postgres StoreSpec Discord Lock.
From S2P Require Import Queue Cache Reconcile Provision InMemory Invariant Secrets OAuth.

Section Handlers.
Context {W : Type} {E : Env W} {C : Crypto}.

(** [inviteCollaboratorConfig], internal/worker/invite_collaborator.go:36-42. *)
Record inviteCollaboratorConfig : Type := mkInviteCollaboratorConfig {
  ic_store : bool; ic_discord : bool; ic_locker : option (Locker W);
  ic_tokenStore : option TokenStore; ic_guildID : string }.

(** The guild join of [handle], internal/worker/invite_collaborator.go:144-156; [false] is the panic of
    the token's decryption, which the queue server turns into a failed task. *)
Definition join_guild (cfg : inviteCollaboratorConfig) (userID discordUserID : string) : M W bool :=
  match ic_tokenStore cfg with
  | None => ret true
  | Some ts =>
      tok <- LoadAccessToken ts userID ;;
      match tok with
      | None => ret false
      | Some (Ok accessToken) =>
          if decide (accessToken = ""%string) then ret true
          else r <- AddGuildMember (ic_guildID cfg) discordUserID accessToken ;; ret true
      | Some (Err _) => ret true
      end
  end.

(** Under the lock; [handle], internal/worker/invite_collaborator.go:91-187. *)
Definition invite_locked (cfg : inviteCollaboratorConfig) (p : InviteCollaboratorPayload)
    : M W (result error unit) :=
  sp <-? GetSpaceByID (ip_SpaceID p) onerr e => ret (Err (Wrap "invite_collaborator: load space: " e)) ;;
  match sp_DiscordChannelID sp, decide (sp_ACLState sp = ACLStateApplied) with
  | Some channelID, left _ =>
      u <- GetUserByID (ip_UserID p) ;;
      match u with
      | Err e => if errors_Is e ErrNotFound
                 then ret (Err (WrapMsg SkipRetry ": invite_collaborator: user not found"))
                 else ret (Err (Wrap "invite_collaborator: load user: " e))
      | Ok user =>
          m <- GetSpaceMemberBySpaceAndUser (ip_SpaceID p) (ip_UserID p) ;;
          match m with
          | Err e => if errors_Is e ErrNotFound then ret (Ok tt)
                     else ret (Err (Wrap "invite_collaborator: load space_member: " e))
          | Ok sm =>
              if sm_OverwriteApplied sm then ret (Ok tt)
              else
                let discordUserID := default ""%string (u_DiscordUserID user) in
                if decide (discordUserID = ""%string)
                then ret (Err (New "invite_collaborator: user has not connected Discord yet; retry after OAuth2 connect"))
                else
                  joined <- join_guild cfg (ip_UserID p) discordUserID ;;
                  (if negb joined then ret (Err (External "panic"))
                   else
                     r <-? SetCollaboratorOverwrite channelID discordUserID
                       onerr e => ret (Err (Wrap "invite_collaborator: set collaborator overwrite: " e)) ;;
                     s <- SetSpaceMemberOverwriteApplied (sm_ID sm) ;;
                     a <- InsertAuditEntry (mkInsertAuditEntryParams None (nilIfEmpty (ip_InvitedBy p))
                            "collaborator.invite" None (Some (ip_SpaceID p)) (Some (ip_UserID p)) None
                            (Some [("discord_user_id"%string, JStr discordUserID);
                                   ("channel_id"%string, JStr channelID)])) ;;
                     ret (Ok tt))
          end
      end
  | _, _ => ret (Err (New "invite_collaborator: space not yet provisioned; retry later"))
  end.

(** A handler that takes the space's lock around its body: internal/worker/expel_collaborator.go:67-75, and
    lines 79-89 of invite_collaborator.go. *)
Definition with_space_lock (locker : Locker W) (spaceID what : string) (body : M W (result error unit))
    : M W (result error unit) :=
  lk <-? AcquireSpace locker spaceID onerr e => ret (Err (Wrap (what +:+ ": acquire space lock: ") e)) ;;
  (if negb lk.2 then ret (Err (New (what +:+ ": space lock held; retry later")))
   else
     r <- body ;;
     rel <- ReleaseSpace locker spaceID lk.1 ;;
     ret r).

(** [inviteCollaboratorHandler.handle], internal/worker/invite_collaborator.go:66-89. *)
Definition invite_handle (cfg : inviteCollaboratorConfig) (locker : Locker W) : HandlerFunc W := fun raw =>
  match decode_Invite raw with
  | None => ret (Err (WrapV SkipRetry ": decode invite payload: " (External "json")))
  | Some p =>
      if bool_decide (ip_SpaceID p = ""%string) || bool_decide (ip_UserID p = ""%string)
      then ret (Err (WrapMsg SkipRetry ": invite_collaborator: payload missing space_id or user_id"))
      else with_space_lock locker (ip_SpaceID p) "invite_collaborator" (invite_locked cfg p)
  end.

(** [newInviteCollaboratorHandler], internal/worker/invite_collaborator.go:55-64. *)
Definition newInviteCollaboratorHandler (cfg : inviteCollaboratorConfig) : HandlerFunc W :=
  if negb (ic_store cfg) || negb (ic_discord cfg) then stubHandler KindInviteCollaborator
  else invite_handle cfg (default NoopLocker (ic_locker cfg)).

(** [expelCollaboratorConfig], internal/worker/expel_collaborator.go:32-37. *)
Record expelCollaboratorConfig : Type := mkExpelCollaboratorConfig {
  xc_store : bool; xc_discord : bool; xc_locker : option (Locker W); xc_guildID : string }.

(** Steps 1 and 2 on Discord; [handle], internal/worker/expel_collaborator.go:103-123. *)
Definition expel_discord (cfg : expelCollaboratorConfig) (p : ExpelCollaboratorPayload) (sp : Space) (user : User)
    : M W unit :=
  o <- (match sp_DiscordChannelID sp, u_DiscordUserID user with
        | Some ch, Some d => r <- DeleteCollaboratorOverwrite ch d ;; ret tt
        | _, _ => ret tt
        end) ;;
  (if decide (ep_Scope p = ExpulsionScopeServer) then
     match u_DiscordUserID user with
     | Some d => r <- RemoveGuildMember (xc_guildID cfg) d ;; ret tt
     | None => ret tt
     end
   else ret tt).

(** Under the lock; [handle], internal/worker/expel_collaborator.go:77-150. *)
Definition expel_locked (cfg : expelCollaboratorConfig) (p : ExpelCollaboratorPayload)
    : M W (result error unit) :=
  sp <-? GetSpaceByID (ep_SpaceID p) onerr e => ret (Err (Wrap "expel_collaborator: load space: " e)) ;;
  u <- GetUserByID (ep_UserID p) ;;
  match u with
  | Err e => if errors_Is e ErrNotFound
             then ret (Err (WrapMsg SkipRetry ": expel_collaborator: user not found"))
             else ret (Err (Wrap "expel_collaborator: load user: " e))
  | Ok user =>
      m <- GetSpaceMemberBySpaceAndUser (ep_SpaceID p) (ep_UserID p) ;;
      match m with
      | Err e => if errors_Is e ErrNotFound then ret (Ok tt)
                 else ret (Err (Wrap "expel_collaborator: load space_member: " e))
      | Ok sm =>
          d <- expel_discord cfg p sp user ;;
          rv <- (match sm_RevokedAt sm with
                 | None => RevokeSpaceMember (sm_ID sm)
                 | Some _ => ret (Ok sm)
                 end) ;;
          match rv with
          | Err e => ret (Err (Wrap "expel_collaborator: revoke space_member: " e))
          | Ok _ =>
              let scope := if decide (ep_Scope p = ""%string) then ExpulsionScopeChannel else ep_Scope p in
              a <- InsertAuditEntry (mkInsertAuditEntryParams None None "collaborator.expel" None
                     (Some (ep_SpaceID p)) (Some (ep_UserID p)) (Some scope)
                     (Some [("scope"%string, JStr (ep_Scope p))])) ;;
              ret (Ok tt)
          end
      end
  end.

(** [expelCollaboratorHandler.handle], internal/worker/expel_collaborator.go:54-75. *)
Definition expel_handle (cfg : expelCollaboratorConfig) (locker : Locker W) : HandlerFunc W := fun raw =>
  match decode_Expel raw with
  | None => ret (Err (WrapV SkipRetry ": decode expel payload: " (External "json")))
  | Some p =>
      if bool_decide (ep_SpaceID p = ""%string) || bool_decide (ep_UserID p = ""%string)
      then ret (Err (WrapMsg SkipRetry ": expel_collaborator: payload missing space_id or user_id"))
      else with_space_lock locker (ep_SpaceID p) "expel_collaborator" (expel_locked cfg p)
  end.

(** [newExpelCollaboratorHandler], internal/worker/expel_collaborator.go:43-52. *)
Definition newExpelCollaboratorHandler (cfg : expelCollaboratorConfig) : HandlerFunc W :=
  if negb (xc_store cfg) || negb (xc_discord cfg) then stubHandler KindExpelCollaborator
  else expel_handle cfg (default NoopLocker (xc_locker cfg)).
End Handlers.
Arguments inviteCollaboratorConfig : clear implicits.
Arguments expelCollaboratorConfig : clear implicits.

(** ** What the handlers may do to Discord *)
Definition invite_change `{Env W} (ch d : string) (g g' : Guild) : Prop :=
  exists g1, (g1 = g \/ g1 = member_add d g) /\
    (g' = g1 \/ g' = permission_set ch (collaborator_allow d) g1).
Definition expel_change (ch : option string) (d : string) (server : bool) (g g' : Guild) : Prop :=
  exists g1, (g1 = g \/ exists c, ch = Some c /\ g1 = permission_delete c d g) /\
    (g' = g1 \/ server = true /\ g' = member_delete d g1).

(** An expulsion gives nobody access. *)
Lemma expel_change_grants_none och d server g g' ch t :
  expel_change och d server g g' -> member_overwrite g' ch t -> member_overwrite g ch t.
Proof.
  intros (g1 & Hg1 & Hg) Hm.
  assert (member_overwrite g1 ch t) by (by destruct Hg as [->|[_ ->]]).
  destruct Hg1 as [->|(c & _ & ->)]; [done|]. by apply member_overwrite_delete in H as [].
Qed.

Section Proofs.
Context {W : Type} {E : Env W} {view : W -> View} {L : EnvLaws E view}.
Context {C : Crypto}.

(** The lock only touches the key-value store, so a postcondition that does not look there needs to
    hold of the body only. *)
Lemma with_space_lock_wp (locker : Locker W) {HL : LockerLaws view locker} id what body
    (R : result error unit -> View -> Prop) w :
  (forall r v ks, R r v -> R r (with_kv ks v)) ->
  (forall e, R (Err e) (view w)) ->
  (forall w' ks, view w' = with_kv ks (view w) -> wp view body R w') ->
  wp view (with_space_lock locker id what body) R w.
Proof.
  intros Hkv Herr Hbody. unfold with_space_lock. go_step. destruct H as [[ks Hk] _].
  destruct a as [[token ok]|e]; [|apply wp_ret; rewrite Hk; by apply Hkv].
  cbn [snd fst]. destruct ok; cbn [negb]; [|apply wp_ret; rewrite Hk; by apply Hkv].
  eapply wp_seq; [by eapply Hbody|]. intros r w2 Hr. go_step. destruct H as [[ks2 Hk2] _].
  apply wp_ret. rewrite Hk2. by apply Hkv.
Qed.

(** Joining: the guild member is added, or nothing happens; no table changes. *)
Lemma join_guild_spec cfg u d : Spec view (join_guild cfg u d) (fun v r v' =>
  v' = v \/ v' = with_guild (member_add d (v_guild v)) v).
Proof.
  apply spec_of_wp. intros w. unfold join_guild. destruct (ic_tokenStore cfg) as [ts|]; [|apply wp_ret; by left].
  eapply wp_seq with (R := fun _ v' => v' = view w).
  { unfold LoadAccessToken. go_step. destruct H as [Hv _]. destruct a; by apply wp_ret. }
  intros [[a|e]|] w1 Hv; try (apply wp_ret; by left). case_decide; [apply wp_ret; by left|].
  go_step. apply wp_ret. rewrite <-Hv.
  destruct H0 as [(_ & _ & ->)|(e & _ & _ & [->| ->])]; auto.
Qed.

(** What a run of the invite handler amounts to, from the state it starts in. *)
Definition invite_post (p : InviteCollaboratorPayload) (v : View) (r : result error unit) (v' : View) : Prop :=
  db_kept (v_db v) (v_db v') /\ v_queue v' = v_queue v /\
  (v_guild v' = v_guild v /\
     (r = Ok tt -> member_by_space_user (ip_SpaceID p) (ip_UserID p) (v_db v) = None \/
        exists sm, member_by_space_user (ip_SpaceID p) (ip_UserID p) (v_db v) = Some sm /\ sm_OverwriteApplied sm = true) \/
   exists sp ch u d sm, t_spaces (v_db v) !! ip_SpaceID p = Some sp /\ sp_DiscordChannelID sp = Some ch /\
     sp_ACLState sp = ACLStateApplied /\ t_users (v_db v) !! ip_UserID p = Some u /\
     u_DiscordUserID u = Some d /\ d <> ""%string /\
     member_by_space_user (ip_SpaceID p) (ip_UserID p) (v_db v) = Some sm /\
     sm_OverwriteApplied sm = false /\ invite_change ch d (v_guild v) (v_guild v') /\
     (r = Ok tt -> overwrites_of ch (v_guild v') !! d = Some (collaborator_allow d))).

Lemma invite_quiet p v r v' : v' = v ->
  (r = Ok tt -> member_by_space_user (ip_SpaceID p) (ip_UserID p) (v_db v) = None \/
     exists sm, member_by_space_user (ip_SpaceID p) (ip_UserID p) (v_db v) = Some sm /\ sm_OverwriteApplied sm = true) ->
  invite_post p v r v'.
Proof. intros -> Hr. split; [done|]. split; [done|by left]. Qed.

Lemma db_kept_mark v id (r : result error SpaceMember) v' :
  update_outcome space_members_T id with_overwrite_applied v r v' ->
  db_kept (v_db v) (v_db v') /\ v_queue v' = v_queue v /\ v_guild v' = v_guild v.
Proof.
  intros H.
  enough (v' = v \/ exists now sm, t_space_members (v_db v) !! id = Some sm /\
    v' = with_db (set_space_members (<[id := with_overwrite_applied now sm]> (t_space_members (v_db v))) (v_db v)) v)
    as [->|(now & sm & Hl & ->)].
  - done.
  - split; [|done]. split; [|done]. intros s d. cbn. by rewrite backed_overwrite_applied.
  - destruct H as [(now & sm & Hl & _ & ->)|[(_ & _ & ->)|(e & _ & _ & [->|(now & sm & Hl & ->)])]]; eauto 6.
Qed.

Lemma db_kept_audit v p (r : result error unit) v' : audit_outcome p v r v' ->
  db_kept (v_db v) (v_db v') /\ v_queue v' = v_queue v /\ v_guild v' = v_guild v.
Proof. intros [[->|(now & ->)] _]; done. Qed.

Lemma invite_locked_wp cfg p w : wp view (invite_locked cfg p) (invite_post p (view w)) w.
Proof.
  unfold invite_locked. go_step. destruct H as [Hv H].
  destruct H as [(sp & -> & Hsp)|[[-> Hsp]|(e & He & ->)]]; [|by apply wp_ret, invite_quiet..].
  destruct (sp_DiscordChannelID sp) as [ch|] eqn:Hch; [|by apply wp_ret, invite_quiet].
  destruct (decide _) as [Hacl|]; [|by apply wp_ret, invite_quiet].
  go_step. destruct H as [Hv1 H]. rewrite Hv in H, Hv1.
  destruct a as [u|e]; [|case_match; by apply wp_ret, invite_quiet].
  destruct H as [(u' & [= <-] & Hu)|[[? _]|(? & _ & ?)]]; [|done..].
  go_step. destruct H as [Hv2 H]. rewrite Hv1 in H, Hv2.
  destruct a as [sm|e].
  2: { destruct H as [(? & ? & _)|[[_ Hno]|(e' & He' & [= ->])]]; [done| |].
       - case_match; apply wp_ret, invite_quiet; [done|by left|done|by left].
       - rewrite (opaque_not_NotFound e' He'). by apply wp_ret, invite_quiet. }
  destruct H as [(sm' & [= <-] & Hsm)|[[? _]|(? & _ & ?)]]; [|done..].
  destruct (sm_OverwriteApplied sm) eqn:Happ; [apply wp_ret, invite_quiet; eauto|].
  case_decide as Hd; [by apply wp_ret, invite_quiet|].
  destruct (u_DiscordUserID u) as [d|] eqn:Hdu; [|done]. cbn [default from_option] in *. unfold id in *.
  eapply wp_step; [apply join_guild_spec|]. cbv beta. intros j w3 Hj. rewrite Hv2 in Hj.
  assert (Hg3 : v_db (view w3) = v_db (view w) /\ v_queue (view w3) = v_queue (view w) /\
            (v_guild (view w3) = v_guild (view w) \/ v_guild (view w3) = member_add d (v_guild (view w)))).
  { destruct Hj as [->| ->]; cbn; auto. }
  destruct Hg3 as (Hdb3 & Hq3 & Hg3). clear Hj.
  assert (Hpost : forall r v', db_kept (v_db (view w)) (v_db v') -> v_queue v' = v_queue (view w) ->
            invite_change ch d (v_guild (view w)) (v_guild v') ->
            (r = Ok tt -> overwrites_of ch (v_guild v') !! d = Some (collaborator_allow d)) ->
            invite_post p (view w) r v').
  { intros r v' H1 H2 H3 H4. split; [done|]. split; [done|]. right. by exists sp, ch, u, d, sm. }
  destruct j; cbn [negb]; [|apply wp_ret, Hpost; [by rewrite Hdb3|done|by exists (v_guild (view w3)); auto|done]].
  go_step. destruct H as [(-> & Hex & Hv4)|(e & _ & -> & Hv4)].
  - go_step. destruct (db_kept_mark _ _ _ _ H) as (Hk5 & Hq5 & Hg5).
    go_step. destruct (db_kept_audit _ _ _ _ H0) as (Hk6 & Hq6 & Hg6). apply wp_ret, Hpost.
    + rewrite <-Hdb3. change (v_db (view w3)) with (v_db (with_guild (permission_set ch (collaborator_allow d) (v_guild (view w3))) (view w3))).
      rewrite <-Hv4. by eapply db_kept_trans.
    + by rewrite Hq6, Hq5, Hv4.
    + exists (v_guild (view w3)). split; [done|]. right. by rewrite Hg6, Hg5, Hv4.
    + intros _. rewrite Hg6, Hg5, Hv4. cbn. rewrite overwrites_of_set, decide_True by done. apply lookup_insert_eq.
  - apply wp_ret, Hpost; [|..|done].
    + destruct Hv4 as [->| ->]; cbn; by rewrite Hdb3.
    + destruct Hv4 as [->| ->]; by cbn.
    + exists (v_guild (view w3)). split; [done|]. destruct Hv4 as [->| ->]; cbn; auto.
Qed.

(** The payload a task must have: a document that names a space and a user. *)
Definition invite_payload (raw : option json) : option InviteCollaboratorPayload :=
  p ← decode_Invite raw;
  if bool_decide (ip_SpaceID p = ""%string) || bool_decide (ip_UserID p = ""%string) then None else Some p.

(** What a run of the configured handler amounts to. *)
Definition invite_outcome (cfg : inviteCollaboratorConfig W) (raw : option json) (v : View)
    (r : result error unit) (v' : View) : Prop :=
  if ic_store cfg && ic_discord cfg then
    match invite_payload raw with
    | None => v' = v /\ refused_for_good r
    | Some p => invite_post p v r v'
    end
  else v' = v /\ r = Ok tt.

(** The run behind [invite_grants_members_only]. *)
Lemma invite_handler_wp (cfg : inviteCollaboratorConfig W) (raw : option json) (w : W) :
  locker_ok view (ic_locker cfg) ->
  wp view (newInviteCollaboratorHandler cfg raw) (invite_outcome cfg raw (view w)) w.
Proof.
  intros Hl. unfold newInviteCollaboratorHandler, invite_outcome. rewrite <-negb_andb.
  destruct (ic_store cfg && ic_discord cfg); cbn [negb]; [|by apply wp_ret].
  unfold invite_handle, invite_payload.
  destruct (decode_Invite raw) as [p|]; cbn [mbind option_bind]; [|apply wp_ret; split; [done|by eexists]].
  destruct (_ || _); [apply wp_ret; split; [done|by eexists]|].
  assert (HL : LockerLaws view (default NoopLocker (ic_locker cfg))) by (destruct (ic_locker cfg); [done|apply _]).
  apply with_space_lock_wp; [exact HL|by intros r v ks Hr|by intros; apply invite_quiet|].
  intros w' ks Hv. eapply wp_mono; [apply invite_locked_wp|]. intros r v' Hp. by rewrite Hv in Hp.
Qed.

(** The same for the clients that need the changes only. *)
Lemma invite_run (cfg : inviteCollaboratorConfig W) (raw : option json) (w : W) :
  locker_ok view (ic_locker cfg) ->
  let v := view w in
  let r := (newInviteCollaboratorHandler cfg raw w).1 in
  let v' := view (newInviteCollaboratorHandler cfg raw w).2 in
  (v_guild v' = v_guild v /\ db_kept (v_db v) (v_db v') /\ v_queue v' = v_queue v) \/
  exists p, decode_Invite raw = Some p /\ invite_post p v r v'.
Proof.
  intros Hl. cbv zeta. pose proof (invite_handler_wp cfg raw w Hl) as H. unfold wp, invite_outcome, invite_payload in H.
  destruct (_ && _); [|destruct H as [-> _]; by left].
  destruct (decode_Invite raw) as [p|]; cbn [mbind option_bind] in H; [|destruct H as [-> _]; by left].
  destruct (_ || _); [destruct H as [-> _]; by left|]. right. by exists p.
Qed.


(** ** Expulsion *)

(** The row that expels: found under its id, revoked. *)
Definition member_revoked (s u : string) (db : DB) : Prop :=
  exists sm, t_space_members db !! sm_ID sm = Some sm /\ sm_SpaceID sm = s /\ sm_UserID sm = u /\
    member_active sm = false.

Lemma member_by_space_user_Some s u db sm : db_wf db -> member_by_space_user s u db = Some sm ->
  t_space_members db !! sm_ID sm = Some sm /\ sm_SpaceID sm = s /\ sm_UserID sm = u.
Proof.
  intros Hwf H. apply head_Some_elem_of, rows_where_elem in H as (id & Hl & Hp).
  apply andb_prop in Hp as [H1 H2]. apply bool_decide_eq_true in H1, H2.
  by rewrite (wf_members _ Hwf id sm Hl).
Qed.

(** A revoked membership backs nothing, since it is the only one of its user in the space. *)
Lemma revoked_not_backed db s u d x : db_wf db -> member_revoked s u db ->
  t_users db !! u = Some x -> u_DiscordUserID x = Some d -> ~ backed db s d.
Proof.
  intros Hwf (sm & Hl & Hs & Hu & Ha) Hx Hd (id & sm' & y & Hl' & Hs' & Ha' & Hy & Hd').
  assert (sm_UserID sm' = u) as Hu'. { eapply (wf_users_discord _ Hwf); eauto. }
  assert (sm_ID sm = id) as <-.
  { eapply (wf_members_unique _ Hwf); [exact Hl|exact Hl'|done|]. cbn. congruence. }
  rewrite Hl in Hl'. injection Hl' as <-. congruence.
Qed.

Definition expel_post (p : ExpelCollaboratorPayload) (v : View) (r : result error unit) (v' : View) : Prop :=
  (v_guild v' = v_guild v \/
   exists sp u d, t_spaces (v_db v) !! ep_SpaceID p = Some sp /\ t_users (v_db v) !! ep_UserID p = Some u /\
     u_DiscordUserID u = Some d /\
     expel_change (sp_DiscordChannelID sp) d (bool_decide (ep_Scope p = ExpulsionScopeServer))
       (v_guild v) (v_guild v')) /\
  v_queue v' = v_queue v /\
  t_users (v_db v') = t_users (v_db v) /\ t_spaces (v_db v') = t_spaces (v_db v) /\
  (db_wf (v_db v) -> db_wf (v_db v')) /\
  (r = Ok tt -> db_wf (v_db v) ->
     member_by_space_user (ep_SpaceID p) (ep_UserID p) (v_db v) = None \/
     member_revoked (ep_SpaceID p) (ep_UserID p) (v_db v')).

Lemma expel_failed p v e v' : v' = v -> expel_post p v (Err e) v'.
Proof. intros ->. split; [by left|]. by repeat (split; [done|]). Qed.

(** Steps 1 and 2: the guild changes as an expulsion may change it, no table does. *)
Lemma expel_discord_spec cfg p sp u : Spec view (expel_discord cfg p sp u) (fun v r v' =>
  v' = with_guild (v_guild v') v /\
  (v_guild v' = v_guild v \/ exists d, u_DiscordUserID u = Some d /\
     expel_change (sp_DiscordChannelID sp) d (bool_decide (ep_Scope p = ExpulsionScopeServer))
       (v_guild v) (v_guild v'))).
Proof.
  apply spec_of_wp. intros w. unfold expel_discord.
  assert (Hsame : forall v : View, v = with_guild (v_guild v) v) by (by intros []).
  destruct (u_DiscordUserID u) as [d|]; last first.
  { eapply wp_seq with (R := fun _ v' => v' = view w).
    - by destruct (sp_DiscordChannelID sp); apply wp_ret.
    - intros _ w1 Hv. case_decide; apply wp_ret; rewrite Hv; auto. }
  eapply wp_seq with (R := fun _ v' => v' = with_guild (v_guild v') (view w) /\
    (v_guild v' = v_guild (view w) \/ exists c, sp_DiscordChannelID sp = Some c /\
       v_guild v' = permission_delete c d (v_guild (view w)))).
  { destruct (sp_DiscordChannelID sp) as [c|]; [|apply wp_ret; auto]. go_step. apply wp_ret.
    destruct H as [(_ & _ & ->)|(e & _ & _ & [->| ->])]; (split; [by rewrite <-Hsame || done|]); eauto. }
  intros _ w1 [Hv1 Hg1]. case_decide as Hs.
  - go_step. apply wp_ret. rewrite bool_decide_eq_true_2 by done.
    destruct H as [(_ & _ & Hv)|(e & _ & _ & [Hv|Hv])]; rewrite Hv; cbn; (split; [by rewrite Hv1|]).
    1, 3: right; exists d; split; [done|]; exists (v_guild (view w1)); auto.
    right. exists d. split; [done|]. exists (v_guild (view w1)). auto.
  - apply wp_ret. split; [done|]. rewrite bool_decide_eq_false_2 by done. right. exists d. split; [done|].
    exists (v_guild (view w1)). auto.
Qed.

Lemma with_revoked_wf db id now sm : db_wf db -> t_space_members db !! id = Some sm ->
  db_wf (set_space_members (<[id := with_revoked now sm]> (t_space_members db)) db).
Proof. intros Hwf Hl. by eapply wf_same_member. Qed.

Instance InsertAuditEntry_wf p : Spec view (InsertAuditEntry p) (fun v r v' =>
  audit_outcome p v r v' /\ wf_step v r v').
Proof.
  intros w. split; [apply (InsertAuditEntry_spec (L := L))|]. apply (wf_pg (L := L)). auto with wf.
Qed.

(** Revoking the row, unless it is. *)
Lemma revoke_wp s u sm w : db_wf (v_db (view w)) -> member_by_space_user s u (v_db (view w)) = Some sm ->
  wp view (match sm_RevokedAt sm with None => RevokeSpaceMember (sm_ID sm) | Some _ => ret (Ok sm) end)
    (fun r v' => is_Ok r = true -> member_revoked s u (v_db v')) w.
Proof.
  intros Hwf Hsm. destruct (member_by_space_user_Some _ _ _ _ Hwf Hsm) as (Hl & Hs & Hu).
  destruct (sm_RevokedAt sm) eqn:Hr.
  - apply wp_ret. intros _. exists sm. unfold member_active. by rewrite Hr.
  - go_last. destruct H as [(now & a' & Ha & -> & ->)|[(-> & _)|(e & _ & -> & _)]]; [|done..].
    cbn in Ha. rewrite Hl in Ha. injection Ha as <-. exists (with_revoked now sm).
    split; [cbn; by rewrite lookup_insert_eq|done].
Qed.
Lemma revoke_spec sm : Spec view
  (match sm_RevokedAt sm with None => RevokeSpaceMember (sm_ID sm) | Some _ => ret (Ok sm) end)
  (fun v r v' => v_guild v' = v_guild v /\ v_queue v' = v_queue v /\ t_users (v_db v') = t_users (v_db v) /\
     t_spaces (v_db v') = t_spaces (v_db v) /\ (db_wf (v_db v) -> db_wf (v_db v'))).
Proof.
  apply spec_of_wp. intros w. destruct (sm_RevokedAt sm); [by apply wp_ret|]. go_last.
  destruct H as [(now & x & Hx & _ & ->)|[(_ & _ & ->)|(e & _ & _ & [->|(now & x & Hx & ->)])]]; try done;
    do 4 (split; [done|]); intros Hwf; by apply with_revoked_wf.
Qed.

Lemma expel_locked_wp cfg p w : wp view (expel_locked cfg p) (expel_post p (view w)) w.
Proof.
  unfold expel_locked. go_step. destruct H as [Hv H].
  destruct H as [(sp & -> & Hsp)|[[-> Hsp]|(e & He & ->)]]; [|by apply wp_ret, expel_failed..].
  go_step. destruct H as [Hv1 H]. rewrite Hv in H, Hv1.
  destruct a as [u|e]; [|case_match; by apply wp_ret, expel_failed].
  destruct H as [(u' & [= <-] & Hu)|[[? _]|(? & _ & ?)]]; [|done..].
  go_step. destruct H as [Hv2 H]. rewrite Hv1 in H, Hv2.
  destruct a as [sm|e].
  2: { destruct H as [(? & ? & _)|[[[= ->] Hno]|(e' & He' & [= ->])]]; [done| |].
       - apply wp_ret. cbn. rewrite Hv2. split; [by left|]. repeat (split; [done|]). by left.
       - rewrite (opaque_not_NotFound e' He'). by apply wp_ret, expel_failed. }
  destruct H as [(sm' & [= <-] & Hsm)|[[? _]|(? & _ & ?)]]; [|done..].
  eapply wp_step; [apply expel_discord_spec|]. cbv beta. intros _ w3 [Hv3 Hg3]. rewrite Hv2 in Hv3, Hg3.
  assert (Hdb3 : v_db (view w3) = v_db (view w)) by (rewrite Hv3; done).
  assert (Hq3 : v_queue (view w3) = v_queue (view w)) by (rewrite Hv3; done).
  eapply wp_seq with (R := fun r v' => (v_guild v' = v_guild (view w3) /\ v_queue v' = v_queue (view w3) /\
      t_users (v_db v') = t_users (v_db (view w3)) /\ t_spaces (v_db v') = t_spaces (v_db (view w3)) /\
      (db_wf (v_db (view w3)) -> db_wf (v_db v'))) /\
    (is_Ok r = true -> db_wf (v_db (view w3)) -> member_revoked (ep_SpaceID p) (ep_UserID p) (v_db v'))).
  { split; [apply revoke_spec|]. intros Hok Hwf. revert Hok. apply revoke_wp; [done|]. by rewrite Hdb3. }
  intros rv w4 [(Hg4 & Hq4 & Hu4 & Hs4 & Hwf4) Hrv].
  assert (Hpost : forall r v', v_guild v' = v_guild (view w4) -> v_queue v' = v_queue (view w4) ->
    t_users (v_db v') = t_users (v_db (view w4)) -> t_spaces (v_db v') = t_spaces (v_db (view w4)) ->
    (db_wf (v_db (view w4)) -> db_wf (v_db v')) ->
    (r = Ok tt -> db_wf (v_db (view w)) -> member_revoked (ep_SpaceID p) (ep_UserID p) (v_db v')) ->
    expel_post p (view w) r v').
  { intros r v' H1 H2 H3 H4 H5 H6. rewrite Hdb3 in *. split; [|split; [congruence|]].
    - rewrite H1, Hg4. destruct Hg3 as [?|(d & Hd & Hc)]; [by left|right; by exists sp, u, d].
    - split; [congruence|]. split; [congruence|]. split; [auto|]. intros Hr Hwf. right. auto. }
  destruct rv as [sm2|e]; [|by apply wp_ret, Hpost].
  go_step. destruct H as [Ha Hwa]. apply wp_ret, Hpost.
  1-4: by destruct Ha as [[->|(now & ->)] _].
  - exact Hwa.
  - intros _ Hwf. rewrite Hdb3 in Hrv. destruct (Hrv eq_refl Hwf) as (sm3 & Hsm3).
    exists sm3. by destruct Ha as [[->|(now & ->)] _].
Qed.

Lemma expel_run (cfg : expelCollaboratorConfig W) (p : ExpelCollaboratorPayload) (w : W) :
  locker_ok view (xc_locker cfg) -> xc_store cfg = true -> xc_discord cfg = true ->
  wp view (newExpelCollaboratorHandler cfg (Some (JObj (encode_Expel p)))) (fun r v' =>
    exists v2 ks, v' = with_kv ks v2 /\ expel_post p (view w) r v2) w.
Proof.
  intros Hl Hst Hdi. unfold newExpelCollaboratorHandler. rewrite Hst, Hdi. cbn [negb orb]. unfold expel_handle.
    assert (decode_Expel (Some (JObj (encode_Expel p))) = Some p) as -> by (by destruct p).
    assert (Herr : forall e, exists v2 ks, view w = with_kv ks v2 /\ expel_post p (view w) (Err e) v2).
    { intros e. exists (view w), (v_kv (view w)). rewrite with_kv_same. split; [done|by apply expel_failed]. }
    destruct (_ || _); [by apply wp_ret|].
    assert (HL : LockerLaws view (default NoopLocker (xc_locker cfg))) by (destruct (xc_locker cfg); [done|apply _]).
    apply with_space_lock_wp; [exact HL| |done|].
    - intros r v ks (v2 & ks2 & -> & Hp). by exists v2, ks.
    - intros w' ks Hv. eapply wp_mono; [apply expel_locked_wp|]. intros r v' Hp. rewrite Hv in Hp.
      exists v', (v_kv v'). rewrite with_kv_same. split; [done|]. exact Hp.
Qed.

(** After a success the space backs no access of the user. *)
Lemma expel_post_unbacks p v r v2 ks : db_wf (v_db v) -> expel_post p v r v2 ->
  r = Ok tt -> member_by_space_user (ep_SpaceID p) (ep_UserID p) (v_db v) = None \/
    forall u d, t_users (v_db v) !! ep_UserID p = Some u -> u_DiscordUserID u = Some d ->
      ~ backed (v_db (with_kv ks v2)) (ep_SpaceID p) d.
Proof.
  intros Hwf (_ & _ & Hu & _ & Hw2 & Hr) Hok. destruct (Hr Hok Hwf) as [Hn|Hrev]; [by left|right].
  intros u d Hul Hd. eapply revoked_not_backed; [by apply Hw2|exact Hrev| |exact Hd]. cbn. by rewrite Hu.
Qed.


(** Expulsion and reconciliation together. Once an expulsion of a member succeeded, the next sweep
    of the space that repairs what it finds leaves the channel without an overwrite for the
    expelled user, even when Discord refused the removal at the time of the expulsion. *)
Theorem expelled_access_ends (cfg : expelCollaboratorConfig W) (p : ExpelCollaboratorPayload) (w : W)
    (u : User) (d : string) (sm : SpaceMember) (found : Z) :
  locker_ok view (xc_locker cfg) -> xc_store cfg = true -> xc_discord cfg = true ->
  db_wf (v_db (view w)) ->
  t_users (v_db (view w)) !! ep_UserID p = Some u -> u_DiscordUserID u = Some d ->
  member_by_space_user (ep_SpaceID p) (ep_UserID p) (v_db (view w)) = Some sm ->
  let after := newExpelCollaboratorHandler cfg (Some (JObj (encode_Expel p))) w in
  let swept := reconcile_body (ep_SpaceID p) after.2 in
  after.1 = Ok tt -> swept.1 = Ok (Some (found, found)) ->
  exists sp ch, t_spaces (v_db (view w)) !! ep_SpaceID p = Some sp /\ sp_DiscordChannelID sp = Some ch /\
    ~ member_overwrite (v_guild (view swept.2)) ch d.
Proof.
  intros Hl Hst Hdi Hwf Hu Hd Hsm. cbv zeta. pose proof (expel_run cfg p w Hl Hst Hdi) as Hw.
  unfold wp in Hw. revert Hw.
  generalize (newExpelCollaboratorHandler cfg (Some (JObj (encode_Expel p))) w).
  intros [r w'] (v2 & ks & Hv & _ & _ & Hu2 & Hs2 & Hw2 & Hr). cbn [fst snd] in *. intros Hok Hswept.
  destruct (Hr Hok Hwf) as [Hn|Hrev]; [congruence|].
  pose proof (reconcile_body_spec (ep_SpaceID p) w') as Hb. rewrite Hswept in Hb.
  destruct Hb as (sp & ch & Hsp & Hch & _ & _ & _ & Hconv & _). rewrite Hv in Hsp, Hconv. cbn in Hsp, Hconv.
  exists sp, ch. rewrite <-Hs2. split; [done|]. split; [done|]. intros Hm. apply (Hconv eq_refl) in Hm.
  revert Hm. eapply revoked_not_backed; [by apply Hw2|exact Hrev|by rewrite Hu2|done].
Qed.
End Proofs.

(** ** Witnesses *)
Definition sample_invite_config : inviteCollaboratorConfig World :=
  mkInviteCollaboratorConfig true true (Some (NewWithTTL defaultTTL)) (Some sample_tokens) "guild".
Definition sample_expel_config : expelCollaboratorConfig World :=
  mkExpelCollaboratorConfig true true (Some (NewWithTTL defaultTTL)) "guild".
Definition sample_invite : InviteCollaboratorPayload := mkInviteCollaboratorPayload "s1" "u1" "".
Definition sample_expel : ExpelCollaboratorPayload := mkExpelCollaboratorPayload "s1" "u1" "server".
Definition sample_revoked : World :=
  world (sample_View (space_of (Some "c1"%string) ACLStateApplied) (member_of false (Some 0))) [].

Lemma single {A} (k : string) (a : A) id x : ({[k := a]} : gmap string A) !! id = Some x -> id = k /\ x = a.
Proof. rewrite lookup_singleton_Some. naive_solver. Qed.

Lemma sample_DB_wf sp sm :
  sp_ID sp = "s1"%string -> sp_MerchantID sp = "m1"%string -> sm_ID sm = "sm1"%string ->
  sm_SpaceID sm = "s1"%string -> sm_UserID sm = "u1"%string -> sm_InvitedBy sm = None ->
  db_wf (sample_DB sp sm).
Proof.
  intros H1 H2 H3 H4 H5 H6. constructor; cbn.
  all: try (by apply map_Forall_empty).
  all: try (by intros ????? H; rewrite lookup_empty in H).
  all: try (intros id x Hx; apply single in Hx as [-> ->]).
  all: try (by intros id1 id2 a1 a2 b Ha1 Ha2; apply single in Ha1 as [-> _]; apply single in Ha2 as [-> _]).
  all: try done.
  all: try (cbn; rewrite ?H2, ?H4, ?H5, ?H6; cbn; by eexists).
  - intros id x. rewrite lookup_insert_Some, lookup_singleton_Some. naive_solver.
  - intros id1 id2 a1 a2 b. rewrite !lookup_insert_Some, !lookup_singleton_Some.
    intros [[<- <-]|[_ [<- <-]]] [[<- <-]|[_ [<- <-]]]; cbn; congruence.
  - intros id x. rewrite lookup_insert_Some, lookup_singleton_Some. naive_solver.
Qed.

(** The invite handler does not look at the revocation of the membership: a task that is run after
    the expulsion of a member whose overwrite was never applied succeeds and grants access that no
    membership backs; the next sweep removes it. *)
Theorem invite_ignores_revocation :
  let run := newInviteCollaboratorHandler (C := sample_crypto) sample_invite_config
               (Some (JObj (encode_Invite sample_invite))) sample_revoked in
  let v' := w_view run.2 in
  run.1 = Ok tt /\
  overwrites_of "c1" (v_guild v') !! "d1"%string = Some (collaborator_allow "d1") /\
  (forall d, ~ backed (v_db v') "s1" d) /\
  overwrites_of "c1" (v_guild (w_view (ReconcileSpace sample_engine "s1" run.2).2)) !! "d1"%string = None.
Proof.
  cbv zeta. split; [vm_compute; reflexivity|]. split; [vm_compute; reflexivity|].
  split; [|vm_compute; reflexivity].
  intros d Hb. apply backed_members in Hb as (sm & u & Hin & _). vm_compute in Hin. inversion Hin.
Qed.


Definition sample_member (script : list fault) : World :=
  world (sample_View (space_of (Some "c1"%string) ACLStateApplied) (member_of true None)) script.
Lemma sample_member_wf script : db_wf (v_db (w_view (sample_member script))).
Proof. by apply sample_DB_wf. Qed.


(** Discord does not answer when the overwrite is to be removed. *)
Definition sample_outage : World :=
  sample_member [Fine; Fine; Fine; Fine; Fine; Before (External "503"); Before (External "503")].
Lemma expelled_access_ends_witness :
  let after := newExpelCollaboratorHandler sample_expel_config (Some (JObj (encode_Expel sample_expel))) sample_outage in
  exists sp ch, t_spaces (v_db (w_view sample_outage)) !! "s1"%string = Some sp /\
    sp_DiscordChannelID sp = Some ch /\
    ~ member_overwrite (v_guild (w_view (reconcile_body "s1" after.2).2)) ch "d1".
Proof.
  apply (expelled_access_ends (E := env_world) (view := w_view) sample_expel_config sample_expel sample_outage
    (user_of "u1" UserTypeCollaborator (Some "d1"%string)) "d1" (member_of true None) 1 ltac:(cbn; apply _) eq_refl eq_refl
    (sample_member_wf _) eq_refl eq_refl); vm_compute; reflexivity.
Defined.
