(* ===== verification/Lifecycle.v ===== *)
(** * Lifecycle: archiving and reopening spaces, internal/worker/change_lifecycle.go *)
From S2P Require Import Prelude Errors Domain Schema Services Postgres StoreSpec Discord Lock.
From S2P Require Import Queue Cache Reconcile Provision InMemory.

Definition lifecycle_text (s : SpaceLifecycleState) : string :=
  match s with
  | SpaceLifecycleActive => "active" | SpaceLifecycleResolved => "resolved"
  | SpaceLifecycleArchived => "archived"
  end.

(** [actionToTargetState], internal/worker/change_lifecycle.go:134-145. *)
Definition actionToTargetState (action : string) : option SpaceLifecycleState :=
  if bool_decide (action = "open"%string) || bool_decide (action = "reopen"%string)
  then Some SpaceLifecycleActive
  else if decide (action = "resolve"%string) then Some SpaceLifecycleResolved
  else if decide (action = "archive"%string) then Some SpaceLifecycleArchived
  else None.

Section Handler.
Context {W : Type} {E : Env W}.

(** [lifecycleConfig], internal/worker/change_lifecycle.go:33-38. *)
Record lifecycleConfig : Type := mkLifecycleConfig {
  lc_store : bool; lc_discord : bool; lc_guildID : string; lc_everyoneRoleID : string }.

(** The jobs mirror of a space's job of one kind; [advanceJob] of
    internal/worker/change_lifecycle.go:148-171, which internal/worker/sync_welcome.go repeats. *)
Definition advanceJob (kind spaceID : string) (status : JobStatus) (cause : option error) : M W unit :=
  job <- GetJobBySpaceIDAndKind spaceID kind ;;
  match job with
  | Err _ => ret tt
  | Ok job =>
      r <- UpdateJobStatus (mkUpdateJobStatusParams (j_ID job) status cause None
                              (bool_decide (status = JobStatusCompleted))) ;;
      ret tt
  end.

(** [applyDiscordChange], internal/worker/change_lifecycle.go:119-131. *)
Definition applyDiscordChange (cfg : lifecycleConfig) (channelID action : string) : M W (result error unit) :=
  if decide (action = "archive"%string) then ArchiveChannel channelID (lc_everyoneRoleID cfg)
  else if bool_decide (action = "reopen"%string) || bool_decide (action = "open"%string)
  then UnarchiveChannel channelID (lc_everyoneRoleID cfg)
  else if decide (action = "resolve"%string) then ret (Ok tt)
  else ret (Err (New "unknown lifecycle action")).

(** From the load on; [handle], internal/worker/change_lifecycle.go:71-114. *)
Definition lifecycle_apply (cfg : lifecycleConfig) (p : ChangeLifecyclePayload) : M W (result error unit) :=
  let archived e := advanceJob KindChangeLifecycle (clp_SpaceID p) JobStatusArchived (Some e) in
  sp <- GetSpaceByID (clp_SpaceID p) ;;
  match sp with
  | Err e => j <- archived e ;; ret (Err (Wrap "change_lifecycle: load space: " e))
  | Ok sp =>
      match actionToTargetState (clp_Action p) with
      | None =>
          let skipErr := WrapMsg SkipRetry ": change_lifecycle: unknown action" in
          j <- archived skipErr ;; ret (Err skipErr)
      | Some targetState =>
          d <- (match sp_DiscordChannelID sp with
                | Some ch => applyDiscordChange cfg ch (clp_Action p)
                | None => ret (Ok tt)
                end) ;;
          match d with
          | Err e => j <- archived e ;; ret (Err (Wrap "change_lifecycle: " e))
          | Ok _ =>
              u <- UpdateSpaceLifecycle (mkUpdateSpaceLifecycleParams (clp_SpaceID p) targetState) ;;
              match u with
              | Err e => j <- archived e ;; ret (Err (Wrap "change_lifecycle: persist lifecycle state: " e))
              | Ok _ =>
                  a <- InsertAuditEntry (mkInsertAuditEntryParams None None
                         ("space.lifecycle." +:+ clp_Action p) None (Some (clp_SpaceID p)) None None
                         (Some [("action"%string, JStr (clp_Action p));
                                ("new_state"%string, JStr (lifecycle_text targetState))])) ;;
                  j <- advanceJob KindChangeLifecycle (clp_SpaceID p) JobStatusCompleted None ;;
                  ret (Ok tt)
              end
          end
      end
  end.

(** [changeLifecycleHandler.handle], internal/worker/change_lifecycle.go:55-69. *)
Definition changeLifecycle_handle (cfg : lifecycleConfig) : HandlerFunc W := fun raw =>
  match decode_ChangeLifecycle raw with
  | None => ret (Err (WrapV SkipRetry ": decode lifecycle payload: " (External "json")))
  | Some p =>
      if bool_decide (clp_SpaceID p = ""%string) || bool_decide (clp_Action p = ""%string)
      then ret (Err (WrapMsg SkipRetry ": change_lifecycle: payload missing space_id or action"))
      else j <- advanceJob KindChangeLifecycle (clp_SpaceID p) JobStatusActive None ;; lifecycle_apply cfg p
  end.

(** [newChangeLifecycleHandler], internal/worker/change_lifecycle.go:44-53. *)
Definition newChangeLifecycleHandler (cfg : lifecycleConfig) : HandlerFunc W :=
  if negb (lc_store cfg) || negb (lc_discord cfg) then stubHandler KindChangeLifecycle
  else changeLifecycle_handle (mkLifecycleConfig (lc_store cfg) (lc_discord cfg) (lc_guildID cfg)
         (if decide (lc_everyoneRoleID cfg = ""%string) then lc_guildID cfg else lc_everyoneRoleID cfg)).
End Handler.

(** The @everyone role the handler uses: the configured one, else the guild's id. *)
Definition everyone_of (cfg : lifecycleConfig) : string :=
  if decide (lc_everyoneRoleID cfg = ""%string) then lc_guildID cfg else lc_everyoneRoleID cfg.

(** ** What a lifecycle change may do *)

(** On the channel of the space, if it has one: hide it from @everyone, or drop the @everyone
    entry. *)
Definition lifecycle_change `{Env W} (everyone action : string) (ch : option string) (g g' : Guild) : Prop :=
  g' = g \/
  exists c, ch = Some c /\
    ((action = "archive"%string /\ g' = permission_set c (archive_deny everyone) g) \/
     ((action = "reopen"%string \/ action = "open"%string) /\ g' = permission_delete c everyone g)).

(** What success means for Discord. *)
Definition lifecycle_done `{Env W} (everyone action : string) (ch : option string) (g g' : Guild) : Prop :=
  match ch with
  | None => g' = g
  | Some c =>
      if decide (action = "resolve"%string) then g' = g
      else overwrites_of c g' !! everyone =
           if decide (action = "archive"%string) then Some (archive_deny everyone) else None
  end.

Section Proofs.
Context {W : Type} {E : Env W} {view : W -> View} {L : EnvLaws E view}.

(** Discord, the spaces and the memberships are as before. *)
Definition calm (v v' : View) : Prop :=
  v_guild v' = v_guild v /\ t_spaces (v_db v') = t_spaces (v_db v) /\
  t_space_members (v_db v') = t_space_members (v_db v) /\ v_queue v' = v_queue v.

#[export] Instance advanceJob_spec kind id st c :
  Spec view (advanceJob kind id st c) (fun v _ v' => calm v v').
Proof.
  apply spec_of_wp. intros w. unfold advanceJob. go_step. destruct H as [Hv _].
  destruct a as [job|e]; [|apply wp_ret; by rewrite Hv]. go_step. apply wp_ret. rewrite <-Hv.
  destruct H as [(?&?&_&_&->)|[(_&_&->)|(?&_&_&[->|(?&?&_&->)])]]; done.
Qed.

Lemma calm_audit p v (r : result error unit) v' : audit_outcome p v r v' -> calm v v'.
Proof. intros [[->|(now & ->)] _]; done. Qed.

(** The error of a run that got as far as the row. *)
Definition persist_failed (e : error) : Prop := exists e', e = Wrap "change_lifecycle: persist lifecycle state: " e'.

(** The outcome of one run for a payload: the rows stay, the run fails, and Discord has changed at most as the
    action says; when it has, the task is delivered again; and when only the row is missing, it has changed in full. *)
Definition lifecycle_post (everyone : string) (p : ChangeLifecyclePayload) (v : View)
    (r : result error unit) (v' : View) : Prop :=
  t_spaces (v_db v') = t_spaces (v_db v) /\ t_space_members (v_db v') = t_space_members (v_db v) /\
  v_queue v' = v_queue v /\
  exists e, r = Err e /\
    match t_spaces (v_db v) !! clp_SpaceID p with
    | None => v_guild v' = v_guild v
    | Some sp =>
        lifecycle_change everyone (clp_Action p) (sp_DiscordChannelID sp) (v_guild v) (v_guild v') /\
        (v_guild v' = v_guild v \/ errors_Is e SkipRetry = false) /\
        (persist_failed e -> errors_Is e SkipRetry = false /\
           lifecycle_done everyone (clp_Action p) (sp_DiscordChannelID sp) (v_guild v) (v_guild v'))
    end.

Lemma lifecycle_post_err everyone p v e v' : calm v v' -> ~ persist_failed e -> lifecycle_post everyone p v (Err e) v'.
Proof.
  intros (H1 & H2 & H3 & H4) Hn. do 3 (split; [done|]). exists e. split; [done|].
  destruct (t_spaces (v_db v) !! clp_SpaceID p); [|done]. split; [by left|]. split; [by left|done].
Qed.

(** A later calm step changes nothing the postcondition speaks about. *)
Lemma lifecycle_post_calm everyone p v r v1 v2 :
  lifecycle_post everyone p v r v1 -> calm v1 v2 -> lifecycle_post everyone p v r v2.
Proof. unfold lifecycle_post. intros H (-> & -> & -> & ->). done. Qed.

Lemma applyDiscordChange_spec cfg ch action :
  Spec view (applyDiscordChange cfg ch action) (fun v r v' => v' = with_guild (v_guild v') v /\
    lifecycle_change (lc_everyoneRoleID cfg) action (Some ch) (v_guild v) (v_guild v') /\
    (r = Ok tt -> actionToTargetState action <> None ->
     lifecycle_done (lc_everyoneRoleID cfg) action (Some ch) (v_guild v) (v_guild v')) /\
    (forall e, r = Err e -> errors_Is e SkipRetry = false)).
Proof.
  apply spec_of_wp. intros w. unfold applyDiscordChange, lifecycle_change, lifecycle_done, actionToTargetState.
  assert (Hsame : forall v : View, v = with_guild (v_guild v) v) by (by intros []).
  destruct (decide (action = "archive"%string)) as [->|Ha].
  - go_last. destruct H as [(-> & Hex & ->)|(e & He & -> & [->| ->])]; cbn;
      (split; [done || apply Hsame|]); (split; [eauto 10|]); (split; [|by intros ? [= <-]; eauto with errors]); [|done..].
    intros _ _. rewrite decide_False by done. rewrite overwrites_of_set, decide_True by done.
    apply lookup_insert_eq.
  - destruct (bool_decide (action = "reopen"%string) || bool_decide (action = "open"%string)) eqn:Ho.
    + assert (Hop : action = "reopen"%string \/ action = "open"%string).
      { apply orb_true_iff in Ho as [Ho|Ho]; apply bool_decide_eq_true in Ho; auto. }
      go_last. destruct H as [(-> & Hex & ->)|(e & He & -> & [->| ->])]; cbn;
        (split; [done || apply Hsame|]); (split; [eauto 10|]); (split; [|by intros ? [= <-]; eauto with errors]); [|done..].
      intros _ _. rewrite decide_False by (by destruct Hop as [->| ->]).
      rewrite overwrites_of_delete, decide_True by done. apply lookup_delete_eq.
    + destruct (decide (action = "resolve"%string)) as [->|Hr]; apply wp_ret;
        (split; [apply Hsame|]); (split; [by left|]); (split; [done|]); intros ? [= <-]. done.
Qed.

Lemma lifecycle_apply_wp cfg p w :
  wp view (lifecycle_apply cfg p) (lifecycle_post (lc_everyoneRoleID cfg) p (view w)) w.
Proof.
  unfold lifecycle_apply. go_step. destruct H as [Hv H].
  assert (Hload : forall e v', calm (view w) v' ->
            lifecycle_post (lc_everyoneRoleID cfg) p (view w) (Err (Wrap "change_lifecycle: load space: " e)) v').
  { intros e v' Hc. apply lifecycle_post_err; [exact Hc|by intros [? [=]]]. }
  destruct a as [sp|e]; [|go_step; apply wp_ret, Hload; by rewrite <-Hv].
  destruct H as [(sp' & [= <-] & Hsp)|[[? _]|(? & _ & ?)]]; [|done..]. cbv beta in Hsp.
  destruct (actionToTargetState (clp_Action p)) as [st|] eqn:Hst; last first.
  { go_step. apply wp_ret, lifecycle_post_err; [by rewrite <-Hv|by intros [? [=]]]. }
  eapply wp_seq with (R := fun r v' => v' = with_guild (v_guild v') (view w) /\
    lifecycle_change (lc_everyoneRoleID cfg) (clp_Action p) (sp_DiscordChannelID sp) (v_guild (view w)) (v_guild v') /\
    (r = Ok tt -> lifecycle_done (lc_everyoneRoleID cfg) (clp_Action p) (sp_DiscordChannelID sp)
                    (v_guild (view w)) (v_guild v')) /\ (forall e, r = Err e -> errors_Is e SkipRetry = false)).
  { destruct (sp_DiscordChannelID sp) as [ch|].
    - eapply wp_last; [apply applyDiscordChange_spec|]. cbv beta. rewrite Hv, Hst.
      intros r v' (H1 & H2 & H3 & H4). do 2 (split; [done|]). split; [|done]. intros Hr. by apply H3.
    - apply wp_ret. rewrite Hv. split; [by destruct (view w)|]. by split; [left|]. }
  intros r w2 (Hv2 & Hch & Hdone & Hretry).
  assert (Hmid : forall e v', calm (view w2) v' -> errors_Is e SkipRetry = false ->
            (persist_failed e -> r = Ok tt) -> lifecycle_post (lc_everyoneRoleID cfg) p (view w) (Err e) v').
  { intros e v' Hc He Hp. eapply lifecycle_post_calm; [|exact Hc]. unfold lifecycle_post. rewrite Hv2.
    do 3 (split; [done|]). exists e. split; [done|]. rewrite Hsp. split; [exact Hch|]. split; [by right|].
    intros Hf. split; [done|]. by apply Hdone, Hp. }
  destruct r as [[]|e].
  - go_step. destruct H as (Hv3 & e & -> & He). go_step. rewrite Hv3 in H. by apply wp_ret, Hmid.
  - go_step. apply wp_ret, Hmid; [done|cbn; by apply Hretry|by intros [? [=]]].
Qed.

(** The payload of a task that can be served. *)
Definition lifecycle_payload (raw : option json) : option ChangeLifecyclePayload :=
  p ← decode_ChangeLifecycle raw;
  if bool_decide (clp_SpaceID p = ""%string) || bool_decide (clp_Action p = ""%string) then None else Some p.

(** A run of the handler: a stub without its dependencies; a task that cannot be served is archived. *)
Definition lifecycle_outcome (cfg : lifecycleConfig) (raw : option json) (v : View) (r : result error unit) (v' : View) : Prop :=
  if lc_store cfg && lc_discord cfg then
    match lifecycle_payload raw with
    | None => v' = v /\ exists e, r = Err e /\ errors_Is e SkipRetry = true
    | Some p => lifecycle_post (everyone_of cfg) p v r v'
    end
  else v' = v /\ r = Ok tt.

(** The run behind [lifecycle_effects]. *)
Lemma lifecycle_run (cfg : lifecycleConfig) (raw : option json) (w : W) :
  wp view (newChangeLifecycleHandler cfg raw) (lifecycle_outcome cfg raw (view w)) w.
Proof.
  unfold lifecycle_outcome, lifecycle_payload, newChangeLifecycleHandler.
  destruct (lc_store cfg); cbn [negb orb andb]; [|by apply wp_ret].
  destruct (lc_discord cfg); cbn [negb]; [|by apply wp_ret].
  unfold changeLifecycle_handle. destruct (decode_ChangeLifecycle raw) as [p|]; cbn [mbind option_bind];
    [|apply wp_ret; by eauto].
  destruct (_ || _); [apply wp_ret; by eauto|].
  go_step. eapply wp_mono; [apply lifecycle_apply_wp|]. intros r v' Hp.
  unfold lifecycle_post in *. destruct H as (H1 & H2 & H3 & H4). by rewrite H1, H2, H3, H4 in Hp.
Qed.

(** C34: a lifecycle change reaches one permission entry of Discord and never the row. Whatever fails, a run of
    the handler (given its store and its Discord client) for a task that names a space and an action ends with an
    error, since Postgres refuses the statement that writes the row (a parameter of two types, 42P08): the tables of spaces and
    memberships and the queue are what they were, and Discord changed at most in the @everyone entry of the
    channel of that space: set to the archive's denial, or deleted by a reopening or an opening, together
    with the denial the channel was created with. A run that changed it is delivered again; a run that failed at the row
    alone has changed it in full. A task that names none is archived and changes nothing. *)
Theorem lifecycle_effects (cfg : lifecycleConfig) (raw : option json) (w : W) :
  lifecycle_outcome cfg raw (view w) (newChangeLifecycleHandler cfg raw w).1
    (view (newChangeLifecycleHandler cfg raw w).2).
Proof. exact (lifecycle_run cfg raw w). Qed.
End Proofs.

Definition sample_lifecycle_config : lifecycleConfig := mkLifecycleConfig true true "everyone" "".
Definition lifecycle_task (action : string) : option json :=
  Some (JObj (encode_ChangeLifecycle (mkChangeLifecyclePayload "s1" action))).
Definition run_lifecycle (action : string) (w : World) : result error unit * World :=
  newChangeLifecycleHandler sample_lifecycle_config (lifecycle_task action) w.

(** The archival of a provisioned space: the channel is hidden for good, the space stays active, and the task is
    delivered again. *)
Lemma lifecycle_effects_witness :
  let v := w_view (sample []) in
  let r := (run_lifecycle "archive" (sample [])).1 in
  let v' := w_view (run_lifecycle "archive" (sample [])).2 in
  (exists e, r = Err e /\ persist_failed e) /\
  overwrites_of "c1" (v_guild v') !! "everyone"%string = Some (archive_deny "everyone") /\
  t_spaces (v_db v') = t_spaces (v_db v).
Proof.
  cbv zeta.
  assert (Hr : exists e, (run_lifecycle "archive" (sample [])).1 = Err e /\ persist_failed e)
    by (eexists; split; [vm_compute; reflexivity|by eexists]).
  split; [exact Hr|]. destruct Hr as (e & Hr & He).
  pose proof (lifecycle_effects (E := env_world) (view := w_view) sample_lifecycle_config (lifecycle_task "archive")
                (sample [])) as Hpost.
  unfold run_lifecycle in *. unfold lifecycle_outcome, lifecycle_post in Hpost. rewrite Hr in Hpost.
  destruct Hpost as (Hsp & _ & _ & e' & [= <-] & _ & _ & Hd). split; [|exact Hsp]. destruct (Hd He) as [_ Hdone]. exact Hdone.
Defined.
