(* ===== verification/Welcome.v ===== *)
(** * Welcome: the static help-desk message of a space, internal/worker/sync_welcome.go *)
From S2P Require Import Prelude Errors Domain Schema Services Postgres StoreSpec Discord Lock.
From S2P Require Import Queue Cache Reconcile Provision Lifecycle InMemory.

(** [defaultWelcomeMessage], internal/worker/sync_welcome.go:25. *)
Definition defaultWelcomeMessage : string :=
  "Welcome! This is your dedicated support channel. A team member will assist you shortly.".
(** [defaultChannelTopic], internal/worker/sync_welcome.go:28. The dash is the UTF-8 of U+2014. *)
Definition defaultChannelTopic : string := "Support channel — ask us anything".

Section Handler.
Context {W : Type} {E : Env W}.

(** [syncWelcomeConfig], internal/worker/sync_welcome.go:39-42. *)
Record syncWelcomeConfig : Type := mkSyncWelcomeConfig { sw_store : bool; sw_discord : bool }.

(** A new message, pinned; [handle], internal/worker/sync_welcome.go:98-104 and 110-116. *)
Definition send_and_pin (channelID message sendErr pinErr : string) : M W (result error string) :=
  m <-? SendMessage channelID message onerr e => ret (Err (Wrap sendErr e)) ;;
  p <-? PinMessage channelID m onerr e => ret (Err (Wrap pinErr e)) ;;
  ret (Ok m).

(** Step 2, the idempotent pin; [handle], internal/worker/sync_welcome.go:90-117. *)
Definition welcome_message (sp : Space) (channelID message : string) : M W (result error string) :=
  match sp_WelcomeMessageID sp with
  | Some old =>
      e <- EditMessage channelID old message ;;
      match e with
      | Err _ => send_and_pin channelID message
                   "sync_welcome: send new message after edit failure: " "sync_welcome: pin new message: "
      | Ok _ => ret (Ok old)
      end
  | None => send_and_pin channelID message "sync_welcome: send message: " "sync_welcome: pin message: "
  end.

(** [advanceJob], internal/worker/sync_welcome.go:141-164: as in the lifecycle handler, for jobs of this kind. *)
Definition welcome_advanceJob (spaceID : string) (status : JobStatus) (cause : option error) : M W unit :=
  advanceJob KindSyncWelcome spaceID status cause.

(** [handle], internal/worker/sync_welcome.go:56-138. *)
Definition syncWelcome_handle : HandlerFunc W := fun raw =>
  match decode_SyncWelcome raw with
  | None => ret (Err (WrapV SkipRetry ": decode sync_welcome payload: " (External "json")))
  | Some p =>
      if decide (wp_SpaceID p = ""%string)
      then ret (Err (WrapMsg SkipRetry ": sync_welcome: payload missing space_id"))
      else
        sp <-? GetSpaceByID (wp_SpaceID p) onerr e => ret (Err (Wrap "sync_welcome: load space: " e)) ;;
        match sp_DiscordChannelID sp with
        | None => ret (Err (WrapMsg SkipRetry ": sync_welcome: space has no discord_channel_id yet"))
        | Some channelID =>
            let message := if decide (wp_Message p = ""%string) then defaultWelcomeMessage else wp_Message p in
            t <-? SetChannelTopic channelID defaultChannelTopic
              onerr e => ret (Err (Wrap "sync_welcome: set channel topic: " e)) ;;
            messageID <-? welcome_message sp channelID message onerr e => ret (Err e) ;;
            u <- UpdateSpaceWelcomeMessageID (wp_SpaceID p) messageID ;;
            j <- welcome_advanceJob (wp_SpaceID p) JobStatusCompleted None ;;
            a <- InsertAuditEntry (mkInsertAuditEntryParams None None "space.welcome.sync" None
                   (Some (wp_SpaceID p)) None None
                   (Some [("channel_id"%string, JStr channelID); ("message_id"%string, JStr messageID)])) ;;
            ret (Ok tt)
        end
  end.

(** [newSyncWelcomeHandler], internal/worker/sync_welcome.go:48-54. *)
Definition newSyncWelcomeHandler (cfg : syncWelcomeConfig) : HandlerFunc W :=
  if negb (sw_store cfg) || negb (sw_discord cfg) then stubHandler KindSyncWelcome
  else syncWelcome_handle.
End Handler.

(** ** What a sync may do *)

(** The texts and pins of one channel; access, members, roles and other channels stay. *)
Definition texts_of (ch : string) (g : Guild) : gmap string string := default ∅ (g_messages g !! ch).
Definition texts_only (ch : string) (g g' : Guild) : Prop :=
  g_overwrites g' = g_overwrites g /\ g_members g' = g_members g /\ g_roles g' = g_roles g /\
  g_nicks g' = g_nicks g /\
  (forall c, c <> ch -> g_topics g' !! c = g_topics g !! c /\ texts_of c g' = texts_of c g /\
     forall m, (c, m) ∈ g_pins g' <-> (c, m) ∈ g_pins g) /\
  (forall m, m ∈ dom (texts_of ch g) -> m ∈ dom (texts_of ch g')) /\ g_pins g ⊆ g_pins g'.

Lemma texts_only_refl ch g : texts_only ch g g.
Proof. split; [done|]. do 3 (split; [done|]). split; [|done]. intros c _. done. Qed.

Lemma texts_only_trans ch g1 g2 g3 : texts_only ch g1 g2 -> texts_only ch g2 g3 -> texts_only ch g1 g3.
Proof.
  intros (H1 & H2 & H3 & H4 & H5 & H6 & H7) (K1 & K2 & K3 & K4 & K5 & K6 & K7).
  repeat (split; [congruence|]). split; [|split; [auto|set_solver]].
  intros c Hc. destruct (H5 c Hc) as (A & B & D), (K5 c Hc) as (A' & B' & D').
  split; [congruence|]. split; [congruence|]. intros m. by rewrite D', D.
Qed.

Lemma texts_topic ch t g : texts_only ch g (topic_set ch t g).
Proof.
  split; [done|]. do 3 (split; [done|]). split; [|done]. intros c Hc. cbn.
  rewrite lookup_insert_ne by done. done.
Qed.

Lemma texts_of_put ch m s g c :
  texts_of c (message_put ch m s g) = if decide (ch = c) then <[m := s]> (texts_of ch g) else texts_of c g.
Proof.
  unfold texts_of, message_put. cbn. case_decide as Hc.
  - subst. by rewrite lookup_insert_eq.
  - by rewrite lookup_insert_ne.
Qed.

Lemma texts_message ch m s g : texts_only ch g (message_put ch m s g).
Proof.
  split; [done|]. do 3 (split; [done|]). split; [|split; [|done]].
  - intros c Hc. split; [done|]. rewrite texts_of_put, decide_False by done. done.
  - intros x Hx. rewrite texts_of_put, decide_True by done. set_solver.
Qed.

Lemma texts_pin ch m g : texts_only ch g (message_pin ch m g).
Proof.
  split; [done|]. do 3 (split; [done|]). split; [|split; [done|cbn; set_solver]].
  intros c Hc. split; [done|]. split; [done|]. intros x. cbn. set_solver.
Qed.
Lemma guild_only_trans v v1 v' : v1 = with_guild (v_guild v1) v -> v' = with_guild (v_guild v') v1 ->
  v' = with_guild (v_guild v') v.
Proof. destruct v, v1, v'. unfold with_guild. cbn. congruence. Qed.

Create HintDb guild discriminated.
#[export] Hint Resolve texts_only_refl texts_topic texts_message texts_pin : guild.

Section Proofs.
Context {W : Type} {E : Env W} {view : W -> View} {L : EnvLaws E view}.

(** The database and the queue are as before. *)
Definition guild_step (P : Guild -> Guild -> Prop) {A} (Q : A -> Guild -> Guild -> Prop)
    (v : View) (r : A) (v' : View) : Prop :=
  v' = with_guild (v_guild v') v /\ P (v_guild v) (v_guild v') /\ Q r (v_guild v) (v_guild v').

Lemma send_and_pin_spec ch s e1 e2 : Spec view (send_and_pin ch s e1 e2)
  (guild_step (texts_only ch) (fun r g g' => forall m, r = Ok m ->
     texts_of ch g !! m = None /\ texts_of ch g' = <[m := s]> (texts_of ch g) /\ (ch, m) ∈ g_pins g')).
Proof.
  apply spec_of_wp. intros w. unfold send_and_pin, guild_step.
  assert (Hsame : forall v : View, v = with_guild (v_guild v) v) by (by intros []).
  go_step. destruct H as [(m & -> & Hm & Hv)|(e & _ & -> & Hv)].
  - go_step.
    assert (Hput : texts_only ch (v_guild (view w)) (v_guild (view w'))) by (rewrite Hv; apply texts_message).
    destruct H as [(-> & _ & Hv')|(e & _ & -> & Hv')]; apply wp_ret.
    + rewrite Hv', Hv. cbn. split; [done|]. split; [eapply texts_only_trans; [apply texts_message|apply texts_pin]|].
      intros m' [= <-]. split; [done|]. split; [|set_solver].
      change (texts_of ch (message_put ch m s (v_guild (view w))) = <[m := s]> (texts_of ch (v_guild (view w)))).
      by rewrite texts_of_put, decide_True.
    + assert (view w'0 = with_guild (v_guild (view w'0)) (view w) /\ texts_only ch (v_guild (view w)) (v_guild (view w'0))) as [H1 H2].
      { destruct Hv' as [->| ->]; rewrite Hv; cbn; (split; [done|]); [apply texts_message|].
        eapply texts_only_trans; [apply texts_message|apply texts_pin]. }
      split; [done|]. split; [done|]. done.
  - apply wp_ret. destruct Hv as [->|[m ->]]; cbn.
    + split; [apply Hsame|]. split; [auto with guild|done].
    + split; [done|]. split; [auto with guild|done].
Qed.

(** The message after the sync: the recorded one edited in place, or a new one that is pinned. *)
Definition message_done (ch s : string) (old : option string) (m : string) (g g' : Guild) : Prop :=
  (old = Some m /\ texts_of ch g' = <[m := s]> (texts_of ch g)) \/
  (texts_of ch g' !! m = Some s /\ (ch, m) ∈ g_pins g').

Lemma welcome_message_spec sp ch s : Spec view (welcome_message sp ch s)
  (guild_step (texts_only ch) (fun r g g' => forall m, r = Ok m ->
     message_done ch s (sp_WelcomeMessageID sp) m g g')).
Proof.
  apply spec_of_wp. intros w. unfold welcome_message, guild_step, message_done.
  assert (Hsame : forall v : View, v = with_guild (v_guild v) v) by (by intros []).
  destruct (sp_WelcomeMessageID sp) as [old|].
  - go_step. destruct H as [(-> & _ & Hv)|(e & _ & -> & Hv)].
    + apply wp_ret. rewrite Hv. split; [done|]. split; [cbn; auto with guild|]. intros m [= <-]. left. split; [done|].
      cbn. by rewrite texts_of_put, decide_True.
    + eapply wp_last; [apply send_and_pin_spec|]. cbv beta. intros r v' (Hv' & Ht & Hm).
      assert (view w' = with_guild (v_guild (view w')) (view w) /\ texts_only ch (v_guild (view w)) (v_guild (view w'))) as [H1 H2].
      { destruct Hv as [->| ->]; cbn; (split; [done || apply Hsame|]); auto with guild. }
      split; [by eapply guild_only_trans|]. split; [by eapply texts_only_trans|].
      intros m Hr. destruct (Hm m Hr) as (_ & Heq & Hp). right. split; [|done]. rewrite Heq. by rewrite lookup_insert_eq.
  - eapply wp_last; [apply send_and_pin_spec|]. cbv beta. intros r v' (Hv' & Ht & Hm).
    split; [done|]. split; [done|]. intros m Hr. destruct (Hm m Hr) as (_ & Heq & Hp). right.
    split; [|done]. rewrite Heq. by rewrite lookup_insert_eq.
Qed.

(** The outcome of one run on the space's channel. *)
Definition welcome_post (p : SyncWelcomePayload) (v : View) (r : result error unit) (v' : View) : Prop :=
  t_space_members (v_db v') = t_space_members (v_db v) /\ v_queue v' = v_queue v /\
  (v_guild v' = v_guild v /\ r <> Ok tt \/
   exists sp ch, t_spaces (v_db v) !! wp_SpaceID p = Some sp /\ sp_DiscordChannelID sp = Some ch /\
     texts_only ch (v_guild v) (v_guild v') /\
     (r = Ok tt -> g_topics (v_guild v') !! ch = Some defaultChannelTopic /\
        exists m, message_done ch (if decide (wp_Message p = ""%string) then defaultWelcomeMessage else wp_Message p)
                    (sp_WelcomeMessageID sp) m (v_guild v) (v_guild v'))).

Definition guild_and_members (v v' : View) : Prop :=
  v_guild v' = v_guild v /\ t_space_members (v_db v') = t_space_members (v_db v) /\ v_queue v' = v_queue v.

Lemma welcome_post_calm p v r v1 v2 :
  welcome_post p v r v1 -> guild_and_members v1 v2 -> welcome_post p v r v2.
Proof. unfold welcome_post. intros H (-> & -> & ->). done. Qed.

Lemma welcome_topics sp ch s : Spec view (welcome_message sp ch s)
  (fun v r v' => g_topics (v_guild v') = g_topics (v_guild v)).
Proof.
  assert (Hsend : forall e1 e2, Spec view (send_and_pin ch s e1 e2) (fun v r v' => g_topics (v_guild v') = g_topics (v_guild v))).
  { intros e1 e2. apply spec_of_wp. intros w. unfold send_and_pin. go_step.
    assert (Hg : g_topics (v_guild (view w')) = g_topics (v_guild (view w))).
    { destruct H as [(m & _ & _ & ->)|(e & _ & _ & [->|[m ->]])]; done. }
    destruct a as [m|e]; [|by apply wp_ret]. go_step. rewrite <-Hg.
    destruct a; apply wp_ret; destruct H0 as [(_ & _ & ->)|(e' & _ & _ & [->| ->])]; done. }
  apply spec_of_wp. intros w. unfold welcome_message.
  destruct (sp_WelcomeMessageID sp) as [old|]; [|by eapply wp_last].
  go_step. assert (Hg : g_topics (v_guild (view w')) = g_topics (v_guild (view w))).
  { destruct H as [(_ & _ & ->)|(e & _ & _ & [->| ->])]; done. }
  rewrite <-Hg. destruct a; [by apply wp_ret|by eapply wp_last].
Qed.

(** The payload a task must have: a document that names a space. *)
Definition welcome_payload (raw : option json) : option SyncWelcomePayload :=
  p ← decode_SyncWelcome raw; if decide (wp_SpaceID p = ""%string) then None else Some p.

(** What a run of the configured handler amounts to. *)
Definition welcome_outcome (cfg : syncWelcomeConfig) (raw : option json) (v : View)
    (r : result error unit) (v' : View) : Prop :=
  if sw_store cfg && sw_discord cfg then
    match welcome_payload raw with
    | None => v' = v /\ refused_for_good r
    | Some p => welcome_post p v r v'
    end
  else v' = v /\ r = Ok tt.

(** The run behind [welcome_texts_only]. *)
Lemma welcome_handler_wp (cfg : syncWelcomeConfig) (raw : option json) (w : W) :
  wp view (newSyncWelcomeHandler cfg raw) (welcome_outcome cfg raw (view w)) w.
Proof.
  set (v := view w). unfold newSyncWelcomeHandler, welcome_outcome. rewrite <-negb_andb.
  destruct (sw_store cfg && sw_discord cfg); cbn [negb]; [|by apply wp_ret].
  unfold syncWelcome_handle, welcome_payload.
  destruct (decode_SyncWelcome raw) as [p|]; cbn [mbind option_bind]; [|apply wp_ret; split; [done|by eexists]].
  case_decide; [apply wp_ret; split; [done|by eexists]|].
  assert (Herr : forall e v', guild_and_members v v' -> welcome_post p v (Err e) v').
  { intros e v' Hc. eapply welcome_post_calm; [|exact Hc]. split; [done|]. split; [done|]. by left. }
  go_step. destruct H0 as [Hv H0].
  destruct H0 as [(sp & -> & Hsp)|[[-> _]|(e & _ & ->)]]; [|apply wp_ret, Herr; by rewrite Hv..].
  destruct (sp_DiscordChannelID sp) as [ch|] eqn:Hch; [|apply wp_ret, Herr; by rewrite Hv].
  set (s := if decide (wp_Message p = ""%string) then defaultWelcomeMessage else wp_Message p).
  go_step. rewrite Hv in H0. subst v.
  assert (Hmid : forall e g', view w'0 = with_guild g' (view w) -> texts_only ch (v_guild (view w)) g' ->
            welcome_post p (view w) (Err e) (view w'0)).
  { intros e g' -> Ht. split; [done|]. split; [done|]. right. by exists sp, ch. }
  destruct H0 as [(-> & _ & Hv1)|(e & _ & -> & Hv1)]; last first.
  { apply wp_ret. destruct Hv1 as [Hv1|Hv1].
    - apply (Hmid _ (v_guild (view w))); [by rewrite Hv1; destruct (view w)|apply texts_only_refl].
    - eapply Hmid; [exact Hv1|apply texts_topic]. }
  eapply wp_step with (R := fun v r v' => guild_step (texts_only ch) (fun r g g' => forall m, r = Ok m ->
     message_done ch s (sp_WelcomeMessageID sp) m g g') v r v' /\ g_topics (v_guild v') = g_topics (v_guild v)).
  { intros w0. split; [apply welcome_message_spec|apply welcome_topics]. }
  intros r w2 ((Hv2 & Ht2 & Hm2) & Htop). rewrite Hv1 in Hv2, Ht2, Hm2, Htop. cbn [v_guild with_guild] in *.
  assert (Hboth : texts_only ch (v_guild (view w)) (v_guild (view w2))).
  { eapply texts_only_trans; [apply texts_topic|exact Ht2]. }
  assert (Hv2' : view w2 = with_guild (v_guild (view w2)) (view w)) by exact Hv2.
  destruct r as [m|e].
  - go_step. go_step. go_step. apply wp_ret.
    apply welcome_post_calm with (v1 := view w2).
    + rewrite Hv2'. split; [done|]. split; [done|]. right. exists sp, ch. split; [done|]. split; [done|].
      split; [done|]. intros _. cbn [v_guild with_guild]. split.
      * rewrite Htop. cbn. apply lookup_insert_eq.
      * exists m. exact (Hm2 m eq_refl).
    + assert (guild_and_members (view w2) (view w'1)) as (A1 & A2 & A3).
      { destruct H0 as [(?&?&_&_&->)|[(_&_&->)|(?&_&_&[->|(?&?&_&->)])]]; done. }
      destruct H1 as (B1 & _ & B2 & B3). assert (guild_and_members (view w'2) (view w'3)) as (C1 & C2 & C3).
      { by destruct H2 as [[->|(now & ->)] _]. }
      unfold guild_and_members. split; [congruence|]. split; congruence.
  - apply wp_ret. rewrite Hv2'. split; [done|]. split; [done|]. right. by exists sp, ch.
Qed.

(** The same for the clients that need the changes only. *)
Lemma welcome_run (cfg : syncWelcomeConfig) (raw : option json) (w : W) :
  let v := view w in
  let r := (newSyncWelcomeHandler cfg raw w).1 in
  let v' := view (newSyncWelcomeHandler cfg raw w).2 in
  guild_and_members v v' \/ exists p, decode_SyncWelcome raw = Some p /\ welcome_post p v r v'.
Proof.
  cbv zeta. pose proof (welcome_handler_wp cfg raw w) as H. unfold wp, welcome_outcome, welcome_payload in H.
  destruct (_ && _); [|destruct H as [-> _]; by left].
  destruct (decode_SyncWelcome raw) as [p|]; cbn [mbind option_bind] in H; [|destruct H as [-> _]; by left].
  case_decide; [destruct H as [-> _]; by left|]. right. by exists p.
Qed.

(** C36: syncing the welcome message touches texts only. A handler without a store or a Discord client does
    nothing; a task that names no space is refused for good and changes nothing. Otherwise, whatever fails, a run
    changes on Discord only the topic, messages and pins of the named space's channel, removes no message or
    pin, and grants or revokes nothing; success means the topic is set and the message is there:
    the recorded one edited in place without any new message, or a pinned one. *)
Theorem welcome_texts_only (cfg : syncWelcomeConfig) (raw : option json) (w : W) :
  let v := view w in
  let r := (newSyncWelcomeHandler cfg raw w).1 in
  let v' := view (newSyncWelcomeHandler cfg raw w).2 in
  if sw_store cfg && sw_discord cfg then
    match welcome_payload raw with
    | None => v' = v /\ refused_for_good r
    | Some p => welcome_post p v r v'
    end
  else v' = v /\ r = Ok tt.
Proof. exact (welcome_handler_wp cfg raw w). Qed.
End Proofs.

Definition welcome_task : option json := Some (JObj (encode_SyncWelcome (mkSyncWelcomePayload "s1" "Hi"))).
Definition run_welcome (w : World) : result error unit * World :=
  newSyncWelcomeHandler (mkSyncWelcomeConfig true true) welcome_task w.
Definition welcome_count (w : World) : nat := size (texts_of "c1" (v_guild (w_view w))).

(** Re-syncs edit in place, but a retry of the first sync does not: after a successful first sync
    any further one keeps the single message; when the first sync sends its message and then fails
    to pin it, the retry sends a second one. *)
Theorem welcome_retry_duplicates :
  let once := run_welcome (sample []) in
  let twice := run_welcome once.2 in
  let failed := run_welcome (sample [Fine; Fine; Fine; Before (External "503")]) in
  let retried := run_welcome failed.2 in
  once.1 = Ok tt /\ twice.1 = Ok tt /\ welcome_count twice.2 = 1%nat /\
  is_Ok failed.1 = false /\ retried.1 = Ok tt /\ welcome_count retried.2 = 2%nat.
Proof. vm_compute. repeat split; reflexivity. Qed.

Lemma welcome_texts_only_witness :
  let v := w_view (sample []) in
  let r := (run_welcome (sample [])).1 in
  let v' := w_view (run_welcome (sample [])).2 in
  r = Ok tt /\ welcome_post (mkSyncWelcomePayload "s1" "Hi") v r v'.
Proof.
  split; [vm_compute; reflexivity|].
  apply (welcome_texts_only (E := env_world) (view := w_view) (mkSyncWelcomeConfig true true) welcome_task (sample [])).
Defined.
