(* ===== verification/Relay.v ===== *)
(** * Relay: the transactional outbox, internal/worker/relay.go *)
From S2P Require Import Prelude Errors Domain Schema Services Postgres StoreSpec.
From S2P Require Import Queue Invariant InMemory.

(** [provisionMaxRetry], internal/worker/worker.go:68. *)
Definition provisionMaxRetry : Z := 10.

(** [queueForKind], internal/worker/relay.go:141-154. *)
Definition queueForKind (kind : string) : string :=
  if decide (kind = KindProvisionSpace) then QueueProvision
  else if bool_decide (kind = KindInviteCollaborator) || bool_decide (kind = KindExpelCollaborator) ||
          bool_decide (kind = KindProjectAgentRole) then QueueMembership
  else if bool_decide (kind = KindReconcileGuild) || bool_decide (kind = KindReconcileSpace)
  then QueueReconcile
  else if bool_decide (kind = KindSyncWelcome) || bool_decide (kind = KindApplyNicknameSuffix)
  then QueueMarking
  else QueueProvision.

(** [RelayConfig], internal/worker/relay.go:25-36. Store and queue client are the ones of [Env]. *)
Record RelayConfig : Type := mkRelayConfig { rc_PollInterval : Z; rc_BatchSize : Z }.
(** [NewRelay], internal/worker/relay.go:44-52. *)
Definition NewRelay (cfg : RelayConfig) : RelayConfig :=
  mkRelayConfig (if rc_PollInterval cfg <=? 0 then 2 * Second else rc_PollInterval cfg)
    (if rc_BatchSize cfg <=? 0 then 100 else rc_BatchSize cfg).

Section Relay.
Context {W : Type} {E : Env W}.

(** [enqueueRow], internal/worker/relay.go:114-137. *)
Definition enqueueRow (ob : OutboxRow) : M W (result error unit) :=
  r <- Enqueue (ob_Kind ob) (queueForKind (ob_Kind ob)) (ob_Payload ob)
         (mkEnqueueOpts (Some (ob_IdempotencyKey ob)) (Some (24 * Hour)) (Some provisionMaxRetry)) ;;
  ret (match r with
       | Err e => if errors_Is e ErrTaskIDConflict || errors_Is e ErrDuplicateTask then Ok tt else Err e
       | Ok _ => Ok tt
       end).

(** The loop of [tick], internal/worker/relay.go:82-94: a failed enqueue is left for the next poll. *)
Definition enqueue_rows (rows : list OutboxRow) (stamped : list string) : M W (list string) :=
  for_each rows (fun (stamped : list string) ob =>
    r <- enqueueRow ob ;;
    ret (match r with Err _ => stamped | Ok _ => stamped ++ [ob_ID ob] end)) stamped.

(** [tick], internal/worker/relay.go:73-105. *)
Definition tick (cfg : RelayConfig) : M W (result error unit) :=
  rows <-? ListPendingOutbox (rc_BatchSize cfg) onerr e => ret (Err e) ;;
  match rows with
  | [] => ret (Ok tt)
  | _ =>
      stamped <- enqueue_rows rows [] ;;
      match stamped with
      | [] => ret (Ok tt)
      | _ => StampOutboxEnqueued stamped
      end
  end.

(** The polls [Run] makes until its context is cancelled; an error is only logged,
    internal/worker/relay.go:56-70. *)
Fixpoint relay_run (cfg : RelayConfig) (polls : nat) : M W unit :=
  match polls with
  | O => ret tt
  | S n => r <- tick cfg ;; relay_run cfg n
  end.
End Relay.

(** ** At least once, and at most once *)

(** The task of an outbox row. *)
Definition task_of (ob : OutboxRow) : AsynqTask :=
  mkTask (ob_Kind ob) (ob_Payload ob) (queueForKind (ob_Kind ob)) (Some (ob_IdempotencyKey ob))
    (Some (24 * Hour)) (Some provisionMaxRetry).
(** The row's work is in the queue: its own task, or one with the same work. *)
Definition delivered (q : list AsynqTask) (ob : OutboxRow) : Prop :=
  exists t, t ∈ q /\ (same_id (task_of ob) t \/ same_work (task_of ob) t).
(** No stamped row was lost: its work is in the queue, or among the tasks [gone] that the queue server has
    completed and forgotten. *)
Definition nothing_lost (gone : list AsynqTask) (v : View) : Prop :=
  forall id ob, t_outbox (v_db v) !! id = Some ob -> pending ob = false -> delivered (gone ++ v_queue v) ob.
(** No two tasks of the queue share an id. *)
Definition ids_once (q : list AsynqTask) : Prop :=
  forall i j t t', q !! i = Some t -> q !! j = Some t' -> same_id t t' -> i = j.

Lemma delivered_mono q q' ob : q ⊆ q' -> delivered q ob -> delivered q' ob.
Proof. intros Hq (x & Hx & H). exists x. auto. Qed.
Lemma delivered_app q t ob : delivered q ob -> delivered (q ++ [t]) ob.
Proof. apply delivered_mono. set_solver. Qed.
(** More of what happened beside the queue does no harm. *)
Lemma delivered_gone gone q q' ob :
  (delivered q ob -> delivered q' ob) -> delivered (gone ++ q) ob -> delivered (gone ++ q') ob.
Proof.
  intros Hq (x & [Hx|Hx]%elem_of_app & H).
  - exists x. rewrite elem_of_app. auto.
  - eapply (delivered_mono q'); [set_solver|]. apply Hq. by exists x.
Qed.

Lemma same_id_sym t t' : same_id t t' -> same_id t' t.
Proof. intros (i & H1 & H2). by exists i. Qed.

Lemma ids_once_app q t : ids_once q -> (forall t', t' ∈ q -> ~ same_id t t') -> ids_once (q ++ [t]).
Proof.
  intros Hq Hn i j a b Ha Hb Hs. rewrite lookup_app in Ha, Hb.
  destruct (q !! i) as [a'|] eqn:Hi; [injection Ha as ->|]; destruct (q !! j) as [b'|] eqn:Hj;
    [injection Hb as ->| |injection Hb as ->|].
  - by eapply Hq.
  - apply list_lookup_singleton_Some in Hb as [_ <-]. destruct (Hn a).
    + by eapply list_elem_of_lookup_2.
    + by apply same_id_sym.
  - apply list_lookup_singleton_Some in Ha as [_ <-]. destruct (Hn b); [by eapply list_elem_of_lookup_2|done].
  - apply list_lookup_singleton_Some in Ha as [Ha _]. apply list_lookup_singleton_Some in Hb as [Hb _].
    apply lookup_ge_None in Hi, Hj. lia.
Qed.

(** The queue server completes a task and forgets it: its id and its work are free again. *)
Definition forgets (t : AsynqTask) (v v' : View) : Prop :=
  v_db v' = v_db v /\ v_guild v' = v_guild v /\
  exists q1 q2, v_queue v = q1 ++ t :: q2 /\ v_queue v' = q1 ++ q2.

Lemma forgets_lost gone t v v' : forgets t v v' -> nothing_lost gone v -> nothing_lost (gone ++ [t]) v'.
Proof.
  intros (Hdb & _ & q1 & q2 & Hq & Hq') Hn id ob Hl Hp. rewrite Hdb in Hl. rewrite Hq'.
  eapply delivered_mono; [|by eapply Hn]. rewrite Hq. set_solver.
Qed.

Lemma forgets_ids t v v' : forgets t v v' -> ids_once (v_queue v) -> ids_once (v_queue v').
Proof.
  intros (_ & _ & q1 & q2 & -> & ->) Hi i j a b Ha Hb Hs.
  assert (Hup : forall i a, (q1 ++ q2) !! i = Some a ->
            (q1 ++ t :: q2) !! (if decide (i < length q1)%nat then i else S i) = Some a).
  { intros n x. case_decide; [by rewrite !lookup_app_l by done|].
    rewrite !lookup_app_r by lia. by rewrite Nat.sub_succ_l by lia. }
  pose proof (Hi _ _ _ _ (Hup i a Ha) (Hup j b Hb) Hs) as He. repeat case_decide; lia.
Qed.

Section Proofs.
Context {W : Type} {E : Env W} {view : W -> View} {L : EnvLaws E view}.

(** The queue grows, nothing else changes. *)
Definition queue_grows (v v' : View) : Prop :=
  v' = with_queue (v_queue v') v /\ (forall ob, delivered (v_queue v) ob -> delivered (v_queue v') ob) /\
  (ids_once (v_queue v) -> ids_once (v_queue v')).

Lemma queue_grows_refl v : queue_grows v v.
Proof. split; [by destruct v|done]. Qed.
Lemma queue_grows_trans v1 v2 v3 : queue_grows v1 v2 -> queue_grows v2 v3 -> queue_grows v1 v3.
Proof.
  intros (H1 & H2 & H3) (K1 & K2 & K3). split; [|split; auto].
  destruct v1, v2, v3. unfold with_queue in *. cbn in *. congruence.
Qed.

Instance enqueueRow_spec ob : Spec view (enqueueRow ob) (fun v r v' =>
  queue_grows v v' /\ (r = Ok tt -> delivered (v_queue v') ob)).
Proof.
  apply spec_of_wp. intros w. unfold enqueueRow, Enqueue.
  eapply wp_seq with (R := fun (r : result error unit) v' =>
    queue_grows (view w) v' /\
    ((r = Ok tt \/ exists e, r = Err e /\ errors_Is e ErrTaskIDConflict || errors_Is e ErrDuplicateTask = true) ->
       delivered (v_queue v') ob)).
  - go_step. cbn [eo_TaskID eo_Unique eo_MaxRetry] in H. change (mkTask _ _ _ _ _ _) with (task_of ob) in H.
    apply wp_ret.
    assert (Hnew : forall v, (forall t', t' ∈ v_queue v -> ~ same_id (task_of ob) t') ->
              queue_grows v (with_queue (v_queue v ++ [task_of ob]) v)).
    { intros v Hid. split; [done|]. split; [intros o; apply delivered_app|].
      intros Hq. by apply ids_once_app. }
    assert (Hin : forall q, delivered (q ++ [task_of ob]) ob).
    { intros q. exists (task_of ob). rewrite elem_of_app, list_elem_of_singleton. split; [by right|].
      left. by exists (ob_IdempotencyKey ob). }
    destruct H as [(-> & Hv & Hid)|[(-> & Hv & t' & Ht & Hs)|[(-> & Hv & _ & t' & Ht & Hs)|(e & He & -> & Hv)]]].
    + rewrite Hv. split; [by apply Hnew|]. intros _. apply Hin.
    + rewrite Hv. split; [apply queue_grows_refl|]. intros _. exists t'. auto.
    + rewrite Hv. split; [apply queue_grows_refl|]. intros _. exists t'. auto.
    + split.
      * destruct Hv as [->|[-> Hid]]; [apply queue_grows_refl|by apply Hnew].
      * intros [|(e' & [= <-] & Hc)]; [done|]. exfalso.
        destruct (opaque_Wrap "queue: enqueue: " e He) as (_ & _ & _ & _ & H1 & H2 & _).
        by rewrite H1, H2 in Hc.
  - intros r w' [Hg Hd]. apply wp_ret. split; [done|]. intros Hr. apply Hd.
    destruct r as [[]|e]; [by left|right]. exists e. split; [done|]. by destruct (_ || _).
Qed.

Lemma stamp_spec ids : Spec view (StampOutboxEnqueued ids) (fun v r v' =>
  v' = v \/ exists now, v' = with_db (set_outbox (map_imap (fun id o => Some (if bool_decide (id ∈ ids)
              then with_enqueued now o else o)) (t_outbox (v_db v))) (v_db v)) v).
Proof.
  unfold StampOutboxEnqueued. destruct ids as [|i ids]; [intros w; by left|].
  apply spec_pg. unfold sql_stamp_outbox. intros v r v' [H|[H|H]].
  - destruct H as (st & a & db' & [= _ <-] & _ & ->). right. by exists (st_now st).
  - by destruct H as (st & e & Hq & _).
  - destruct H as (e & _ & _ & [->|(st & a & db' & [= _ <-] & ->)]); [by left|right]. by exists (st_now st).
Qed.

(** Enough for a row to be delivered is what its task is made of. *)
Lemma delivered_enqueued q now ob : delivered q (with_enqueued now ob) <-> delivered q ob.
Proof. done. Qed.

(** What an attempt and a poll add to the queue: tasks of rows. *)
Lemma enqueueRow_queue ob : Spec view (enqueueRow ob) (fun v _ v' =>
  v' = v \/ v' = with_queue (v_queue v ++ [task_of ob]) v).
Proof.
  apply spec_of_wp. intros w. unfold enqueueRow, Enqueue.
  eapply wp_seq with (R := fun _ v' => v' = view w \/ v' = with_queue (v_queue (view w) ++ [task_of ob]) (view w)).
  - go_step. cbn [eo_TaskID eo_Unique eo_MaxRetry] in H. change (mkTask _ _ _ _ _ _) with (task_of ob) in H.
    apply wp_ret. naive_solver.
  - intros r w' H. by apply wp_ret.
Qed.

Lemma pending_outbox_rows n db ob : ob ∈ pending_outbox n db -> exists id, t_outbox db !! id = Some ob.
Proof.
  intros Hob. apply elem_of_take in Hob as (i & Hi & _). apply list_elem_of_lookup_2 in Hi.
  unfold order_by_created in Hi. rewrite merge_sort_Permutation in Hi.
  apply rows_where_elem in Hi as (id & Hl & _). eauto.
Qed.

Lemma tick_queue cfg : Spec view (tick cfg) (fun v _ v' => exists rows,
  (forall ob, ob ∈ rows -> exists id, t_outbox (v_db v) !! id = Some ob) /\
  v_queue v' = v_queue v ++ (task_of <$> rows)).
Proof.
  apply spec_of_wp. intros w.
  assert (Hsame : forall v', v_queue v' = v_queue (view w) -> exists rows,
    (forall ob, ob ∈ rows -> exists id, t_outbox (v_db (view w)) !! id = Some ob) /\
    v_queue v' = v_queue (view w) ++ (task_of <$> rows)).
  { intros v' ->. exists []. split; [by intros ? ?%not_elem_of_nil|by rewrite app_nil_r]. }
  unfold tick. go_step. destruct H as [Hv H]. destruct a as [rows|e]; [|apply wp_ret, Hsame; by rewrite Hv].
  assert (Hrows : forall ob, ob ∈ rows -> exists id, t_outbox (v_db (view w)) !! id = Some ob).
  { intros ob Hob. destruct H as [[= ->]|(e & _ & ?)]; [|done]. by eapply pending_outbox_rows. }
  destruct rows as [|r0 rows']; [apply wp_ret, Hsame; by rewrite Hv|].
  eapply wp_seq; [apply (wp_for_each view _ (fun _ (_ : list string) v => exists rows,
    (forall ob, ob ∈ rows -> exists id, t_outbox (v_db (view w)) !! id = Some ob) /\
    v_queue v = v_queue (view w) ++ (task_of <$> rows)))|].
  - apply Hsame. by rewrite Hv.
  - intros done ob rest acc w1 Hrs (l & Hl & Hq). eapply wp_step; [apply enqueueRow_queue|].
    cbv beta. intros r w2 H2. apply wp_ret.
    destruct H2 as [->| ->]; [by exists l|]. exists (l ++ [ob]). cbn. rewrite Hq, fmap_app, app_assoc.
    split; [|done]. intros o [Ho|Ho%list_elem_of_singleton]%elem_of_app; [by apply Hl|subst o].
    apply Hrows. rewrite Hrs, elem_of_app. right. by left.
  - intros stamped w2 Hex. destruct stamped as [|i stamped']; [by apply wp_ret|].
    eapply wp_last; [apply stamp_spec|]. cbv beta. intros r v' [->|(now & ->)]; exact Hex.
Qed.

Lemma tick_inv cfg : Spec view (tick cfg) (fun v _ v' => db_wf (v_db v) ->
  (forall gone, nothing_lost gone v -> nothing_lost gone v') /\ (ids_once (v_queue v) -> ids_once (v_queue v')) /\
  db_wf (v_db v') /\ v_guild v' = v_guild v).
Proof.
  apply spec_of_wp. intros w. unfold tick. go_step. destruct H as [Hv H].
  destruct a as [rows|e]; [|apply wp_ret; by rewrite Hv].
  assert (Hrows : forall ob, ob ∈ rows -> exists id, t_outbox (v_db (view w)) !! id = Some ob).
  { intros ob Hob. destruct H as [[= ->]|(e & _ & ?)]; [|done]. by eapply pending_outbox_rows. }
  destruct rows as [|r0 rows']; [apply wp_ret; by rewrite Hv|].
  remember (r0 :: rows') as rows eqn:Hr0. clear r0 rows' Hr0 H.
  eapply wp_seq; [apply (wp_for_each view _ (fun done (acc : list string) v => queue_grows (view w) v /\
    forall id, id ∈ acc -> exists ob, ob ∈ rows /\ ob_ID ob = id /\ delivered (v_queue v) ob))|].
  - rewrite Hv. split; [apply queue_grows_refl|]. intros id Hid. by apply not_elem_of_nil in Hid.
  - intros done ob rest acc w1 Hrs [Hg Hacc]. go_step. destruct H as [Hg' Hd]. apply wp_ret.
    assert (Hob : ob ∈ rows) by (rewrite Hrs, elem_of_app; right; by left).
    split; [by eapply queue_grows_trans|]. intros id Hid.
    assert (Hold : id ∈ acc -> exists ob0, ob0 ∈ rows /\ ob_ID ob0 = id /\ delivered (v_queue (view w'0)) ob0).
    { intros Hin. destruct (Hacc id Hin) as (o & H1 & H2 & H3). exists o. split; [done|]. split; [done|].
      by apply Hg'. }
    destruct a as [[]|e]; [|by apply Hold]. apply elem_of_app in Hid as [Hid|Hid]; [by apply Hold|].
    apply list_elem_of_singleton in Hid as ->. exists ob. auto.
  - intros stamped w2 [Hg Hst].
    assert (Hsame : forall v', v' = view w2 -> db_wf (v_db (view w)) ->
      (forall gone, nothing_lost gone (view w) -> nothing_lost gone v') /\ (ids_once (v_queue (view w)) -> ids_once (v_queue v')) /\
      db_wf (v_db v') /\ v_guild v' = v_guild (view w)).
    { intros v' -> Hwf. destruct Hg as (Hv2 & Hdel & Hone). split; [|split; [done|by rewrite Hv2]].
      intros gone Hno id ob Hl Hp. rewrite Hv2 in Hl. eapply delivered_gone; [apply Hdel|by eapply Hno]. }
    destruct stamped as [|i stamped']; [by apply wp_ret, Hsame|].
    remember (i :: stamped') as stamped eqn:Hs. clear i stamped' Hs.
    eapply wp_last; [apply stamp_spec|]. cbv beta. intros r v' [->|(now & ->)] Hwf; [by apply Hsame|].
    destruct (Hsame (view w2) eq_refl Hwf) as (Hno & Hone & Hwf2 & Hgu).
    split; [|split; [exact Hone|split; [|exact Hgu]]].
    + intros gone Hn id ob Hl Hp. cbn in Hl. rewrite map_lookup_imap in Hl.
      destruct (t_outbox (v_db (view w2)) !! id) as [o|] eqn:Ho; [|done]. cbn in Hl. injection Hl as <-.
      case_bool_decide as Hin; [|by eapply (Hno gone Hn)]. apply delivered_enqueued.
      apply (delivered_mono (v_queue (view w2))); [cbn; set_solver|].
      destruct (Hst id Hin) as (ob' & Hob' & Hid & Hd). destruct (Hrows ob' Hob') as (id' & Hl').
      destruct Hg as (Hv2 & _). rewrite Hv2 in Ho. cbn in Ho.
      assert (id' = id) as -> by (rewrite <-Hid; symmetry; apply (wf_outbox _ Hwf id' ob' Hl')).
      rewrite Hl' in Ho. by injection Ho as <-.
    + eapply (keeps_stamp_outbox stamped (mkStamp now (fun _ => ""%string))); [reflexivity|done].
Qed.

(** Polls while nothing is pending change nothing. *)
Lemma idle_polls cfg polls w : pending_outbox (rc_BatchSize cfg) (v_db (view w)) = [] ->
  view (relay_run cfg polls w).2 = view w.
Proof.
  revert w. induction polls as [|n IH]; intros w Hob; [done|]. cbn [relay_run]. unfold bind.
  assert (wp view (tick cfg) (fun _ v' => v' = view w) w) as Ht.
  { unfold tick. eapply wp_step; [apply ListPendingOutbox_spec|]. cbv beta. intros r w' [Hv Hr].
    destruct Hr as [->|(e & _ & ->)]; [|by apply wp_ret].
    rewrite Hob. by apply wp_ret. }
  unfold wp in Ht. destruct (tick cfg w) as [r w1]. cbn [fst snd] in *. rewrite IH; by rewrite Ht.
Qed.

(** Polls, and between them the queue server forgetting tasks. *)
Inductive relay_history (cfg : RelayConfig) (w : W) : list AsynqTask -> W -> Prop :=
| relay_start : relay_history cfg w [] w
| relay_poll gone w1 : relay_history cfg w gone w1 -> relay_history cfg w gone (tick cfg w1).2
| relay_forget gone w1 t w2 : relay_history cfg w gone w1 -> forgets t (view w1) (view w2) ->
    relay_history cfg w (gone ++ [t]) w2.

(** C13: the outbox loses nothing. Over any number of polls, whatever the store and the queue refuse or leave
    unanswered (a crash between the enqueue and the stamp included), and whatever tasks the queue
    server completes and forgets in between, a row that is stamped as enqueued has its task, or one
    with the same type, payload and queue, in the queue or among the forgotten ones, and no two tasks
    of the queue share an id: a row is enqueued again only if its task was forgotten before the
    stamp. *)
Theorem relay_at_least_once (cfg : RelayConfig) (gone : list AsynqTask) (w w' : W) :
  relay_history cfg w gone w' ->
  db_wf (v_db (view w)) -> nothing_lost [] (view w) -> ids_once (v_queue (view w)) ->
  nothing_lost gone (view w') /\ ids_once (v_queue (view w')) /\ v_guild (view w') = v_guild (view w).
Proof.
  intros Hr Hwf Hn Hi.
  enough (db_wf (v_db (view w')) /\ nothing_lost gone (view w') /\ ids_once (v_queue (view w')) /\
          v_guild (view w') = v_guild (view w)) by tauto.
  induction Hr as [|gone w1 _ (H1 & H2 & H3 & H4)|gone w1 t w2 _ (H1 & H2 & H3 & H4) Hf]; [done|..].
  - destruct (tick_inv cfg w1 H1) as (K1 & K2 & K3 & K4). split_and!; [done|by apply K1|by apply K2|congruence].
  - split_and!; [|by eapply forgets_lost|by eapply forgets_ids|]; destruct Hf as (Hdb & Hg & _); congruence.
Qed.

(** ** Progress while the services answer *)
Section Up.
Context (up : W -> Prop).
Context (up_list : forall n w, up w -> is_Ok (ListPendingOutbox n w).1 = true /\ up (ListPendingOutbox n w).2).
Context (up_enqueue : forall ob w, up w -> is_Ok (enqueueRow ob w).1 = true /\ up (enqueueRow ob w).2).
Context (up_stamp : forall ids w, up w -> is_Ok (StampOutboxEnqueued ids w).1 = true /\
  up (StampOutboxEnqueued ids w).2).

Lemma stamp_ok_spec i ids : Spec view (StampOutboxEnqueued (i :: ids)) (fun v r v' => is_Ok r = true ->
  exists now, v' = with_db (set_outbox (map_imap (fun id o => Some (if bool_decide (id ∈ i :: ids)
              then with_enqueued now o else o)) (t_outbox (v_db v))) (v_db v)) v).
Proof.
  apply spec_pg. unfold sql_stamp_outbox. intros v r v' [H|[H|H]] Hr.
  - destruct H as (st & a & db' & [= _ <-] & _ & ->). by exists (st_now st).
  - by destruct H as (st & e & Hq & _).
  - by destruct H as (e & _ & -> & _).
Qed.

Lemma enqueue_all rows : forall acc w, up w ->
  let loop := enqueue_rows rows acc w in
  loop.1 = acc ++ (ob_ID <$> rows) /\ up loop.2 /\ queue_grows (view w) (view loop.2).
Proof.
  induction rows as [|ob rows IH]; intros acc w Hup.
  - cbn. rewrite app_nil_r. split; [done|]. split; [done|apply queue_grows_refl].
  - destruct (up_enqueue ob w Hup) as [Hok Hup']. pose proof (enqueueRow_spec ob w) as [Hg _].
    destruct (enqueueRow ob w) as [[[]|e] w1] eqn:He; cbn [fst snd] in *; [|done].
    assert (enqueue_rows (ob :: rows) acc w = enqueue_rows rows (acc ++ [ob_ID ob]) w1) as ->.
    { unfold enqueue_rows. cbn [for_each]. unfold bind at 1 2. by rewrite He. }
    destruct (IH (acc ++ [ob_ID ob]) w1 Hup') as (H1 & H2 & H3). rewrite <-app_assoc in H1.
    split; [exact H1|]. split; [exact H2|]. eapply queue_grows_trans; [exact Hg|exact H3].
Qed.

(** What a poll of answering services does: the batch is stamped, and the services still answer. *)
Lemma tick_stamps (cfg : RelayConfig) (w : W) : up w ->
  let batch := pending_outbox (rc_BatchSize cfg) (v_db (view w)) in
  is_Ok (tick cfg w).1 = true /\ up (tick cfg w).2 /\
  exists now, t_outbox (v_db (view (tick cfg w).2)) =
    map_imap (fun id o => Some (if bool_decide (id ∈ ob_ID <$> batch) then with_enqueued now o else o))
      (t_outbox (v_db (view w))).
Proof.
  intros Hup batch. unfold tick, bind. destruct (up_list (rc_BatchSize cfg) w Hup) as [Hokl Hup1].
  pose proof (ListPendingOutbox_spec (rc_BatchSize cfg) w) as [Hv Hr].
  destruct (ListPendingOutbox (rc_BatchSize cfg) w) as [[rows|e] w1]; cbn [fst snd] in *; [|done].
  destruct Hr as [[= ->]|(e & _ & ?)]; [|done]. fold batch. destruct batch as [|r0 rows'] eqn:Hb.
  { cbn. split; [done|]. split; [done|]. exists 0. rewrite Hv. apply map_eq. intros id. rewrite map_lookup_imap.
    destruct (t_outbox (v_db (view w)) !! id); done. }
  rewrite <-Hb. destruct (enqueue_all batch [] w1 Hup1) as (Hst & Hup2 & Hg). revert Hst Hup2 Hg.
  destruct (enqueue_rows batch [] w1) as [stamped w2]. cbn [fst snd app]. intros -> Hup2 (Hv2 & _).
  assert (Hne : exists i ids, ob_ID <$> batch = i :: ids) by (rewrite Hb; cbn; eauto).
  destruct Hne as (i & ids & Hids). rewrite Hids. destruct (up_stamp (i :: ids) w2 Hup2) as [Hoks Hup3].
  split; [done|]. split; [done|]. destruct (stamp_ok_spec i ids w2 Hoks) as [now Hv3]. exists now. by rewrite Hv3, Hv2, Hv.
Qed.

(** The backlog shrinks by a batch. *)
Definition backlog (v : View) : nat := length (rows_where (t_outbox (v_db v)) pending).

Lemma rows_NoDup db : db_wf db -> NoDup (rows_where (t_outbox db) pending).
Proof.
  intros Hwf. unfold rows_where. apply NoDup_filter. apply NoDup_fmap_2_strong; [|apply NoDup_map_to_list].
  intros [i a] [j b] Hi Hj Hab. cbn in Hab. subst b. apply elem_of_map_to_list in Hi, Hj.
  f_equal. rewrite <-(wf_outbox _ Hwf i a Hi). by apply (wf_outbox _ Hwf j a).
Qed.

Lemma tick_backlog (cfg : RelayConfig) (w : W) : up w -> db_wf (v_db (view w)) ->
  (backlog (view (tick cfg w).2) <= backlog (view w) - Z.to_nat (rc_BatchSize cfg))%nat.
Proof.
  intros Hup Hwf. destruct (tick_stamps cfg w Hup) as (_ & _ & now & Hob). unfold backlog. rewrite Hob. clear Hob.
  set (db := v_db (view w)) in *. set (rows := rows_where (t_outbox db) pending).
  set (batch := pending_outbox (rc_BatchSize cfg) db).
  set (rows' := rows_where _ pending).
  assert (Hsub : batch ++ rows' ⊆+ rows).
  { apply NoDup_submseteq.
    - apply NoDup_app. split; [|split].
      + unfold batch, pending_outbox. eapply sublist_NoDup; [|apply sublist_take]. unfold order_by_created.
        rewrite merge_sort_Permutation. by apply rows_NoDup.
      + intros o Ho (id & Hid & Hp)%rows_where_elem. rewrite map_lookup_imap in Hid.
        destruct (t_outbox db !! id) as [o0|] eqn:Ho0; [|done]. cbn in Hid. injection Hid as Ho'.
        case_bool_decide as Hin; subst o; [done|]. destruct Hin. apply list_elem_of_fmap. exists o0.
        by rewrite (wf_outbox _ Hwf id o0 Ho0).
      + unfold rows', rows_where. apply NoDup_filter. apply NoDup_fmap_2_strong; [|apply NoDup_map_to_list].
        intros [i a] [j b] Hi Hj Hab. cbn in Hab. subst b. apply elem_of_map_to_list in Hi, Hj. f_equal.
        rewrite map_lookup_imap in Hi, Hj. destruct (t_outbox db !! i) as [a1|] eqn:H1; [|done].
        destruct (t_outbox db !! j) as [a2|] eqn:H2; [|done]. cbn in Hi, Hj.
        apply (wf_outbox _ Hwf) in H1, H2. destruct (bool_decide (i ∈ _)), (bool_decide (j ∈ _)); simplify_eq; done.
    - intros o [Ho|Ho]%elem_of_app.
      + unfold batch, pending_outbox in Ho. apply elem_of_take in Ho as (k & Hk & _). apply list_elem_of_lookup_2 in Hk.
        unfold order_by_created in Hk. by rewrite merge_sort_Permutation in Hk.
      + apply rows_where_elem in Ho as (id & Hid & Hp). rewrite map_lookup_imap in Hid.
        destruct (t_outbox db !! id) as [o0|] eqn:Ho0; [|done]. cbn in Hid. injection Hid as Ho'.
        case_bool_decide; subst o; [done|]. apply rows_where_elem. eauto. }
  apply submseteq_length in Hsub. rewrite length_app in Hsub.
  assert (length batch = Nat.min (Z.to_nat (rc_BatchSize cfg)) (length rows)).
  { unfold batch, pending_outbox, order_by_created. by rewrite length_take, merge_sort_Permutation. }
  lia.
Qed.

Lemma backlog_empty v : backlog v = 0%nat -> forall id ob, t_outbox (v_db v) !! id = Some ob -> pending ob = false.
Proof.
  intros Hb id ob Hl. destruct (pending ob) eqn:Hp; [|done]. unfold backlog in Hb.
  assert (ob ∈ rows_where (t_outbox (v_db v)) pending) as Hin by (apply rows_where_elem; eauto).
  apply nil_length_inv in Hb. rewrite Hb in Hin. by apply not_elem_of_nil in Hin.
Qed.

(** While the services answer, a poll whose batch holds all pending rows leaves none pending, and
    every row is then delivered: a desired-state change committed with its outbox row reaches the
    queue. *)
Theorem relay_delivers (cfg : RelayConfig) (w : W) :
  up w -> db_wf (v_db (view w)) -> nothing_lost [] (view w) ->
  Z.of_nat (length (rows_where (t_outbox (v_db (view w))) pending)) <= rc_BatchSize cfg ->
  let v' := view (tick cfg w).2 in
  is_Ok (tick cfg w).1 = true /\
  forall id ob, t_outbox (v_db v') !! id = Some ob -> pending ob = false /\ delivered (v_queue v') ob.
Proof.
  intros Hup Hwf Hno Hlen. cbv zeta. destruct (tick_stamps cfg w Hup) as (Hok & _). split; [exact Hok|].
  intros id ob Hl. pose proof (tick_backlog cfg w Hup Hwf) as Hb. unfold backlog in Hb at 2.
  assert (Hp : pending ob = false) by (eapply backlog_empty; [|exact Hl]; lia). split; [done|].
  destruct (tick_inv cfg w Hwf) as (Hn & _). by eapply (Hn [] Hno).
Qed.

Lemma relay_run_drains (cfg : RelayConfig) (polls : nat) (w : W) :
  up w -> db_wf (v_db (view w)) -> nothing_lost [] (view w) -> (backlog (view w) <= polls * Z.to_nat (rc_BatchSize cfg))%nat ->
  let v' := view (relay_run cfg polls w).2 in
  forall id ob, t_outbox (v_db v') !! id = Some ob -> pending ob = false /\ delivered (v_queue v') ob.
Proof.
  cbv zeta. revert w. induction polls as [|n IH]; intros w Hup Hwf Hno Hlen.
  - cbn. intros id ob Hl. assert (Hp : pending ob = false) by (eapply backlog_empty; [|exact Hl]; cbn in Hlen; lia).
    split; [done|by eapply Hno].
  - cbn [relay_run]. unfold bind. destruct (tick_stamps cfg w Hup) as (_ & Hup1 & _).
    destruct (tick_inv cfg w Hwf) as (Hn & _ & Hwf1 & _). pose proof (tick_backlog cfg w Hup Hwf).
    destruct (tick cfg w) as [r w1]; cbn [fst snd] in *. apply IH; auto. lia.
Qed.
(** C26: the backlog drains. While the services answer, as many polls as the backlog has batches leave nothing
    pending: every desired-state change committed with its outbox row reaches the queue. *)
Theorem relay_drains (cfg : RelayConfig) (polls : nat) (w : W) :
  up w -> db_wf (v_db (view w)) -> nothing_lost [] (view w) -> (backlog (view w) <= polls * Z.to_nat (rc_BatchSize cfg))%nat ->
  let v' := view (relay_run cfg polls w).2 in
  forall id ob, t_outbox (v_db v') !! id = Some ob -> pending ob = false /\ delivered (v_queue v') ob.
Proof. apply relay_run_drains. Qed.

(** ** What is in the queue under the id of a row *)

(** The row is there with its work, and no task but its own bears its key. *)
Definition row_owns_key (id : string) (ob : OutboxRow) (v : View) : Prop :=
  (exists o, t_outbox (v_db v) !! id = Some o /\ task_of o = task_of ob) /\
  forall t, t ∈ v_queue v -> tk_TaskID t = Some (ob_IdempotencyKey ob) -> t = task_of ob.

Lemma tick_row (cfg : RelayConfig) (w : W) id ob : up w -> db_wf (v_db (view w)) ->
  row_owns_key id ob (view w) -> row_owns_key id ob (view (tick cfg w).2).
Proof.
  intros Hup Hwf [(o & Ho & Hto) Hq]. split.
  - destruct (tick_stamps cfg w Hup) as (_ & _ & now & ->). rewrite map_lookup_imap, Ho. cbn.
    eexists. split; [reflexivity|]. by case_bool_decide.
  - intros t Ht Hk. destruct (tick_queue cfg w) as (rows & Hrows & Hv). rewrite Hv in Ht.
    apply elem_of_app in Ht as [Ht|Ht]; [by apply Hq|].
    apply list_elem_of_fmap in Ht as (o' & -> & Hin). destruct (Hrows o' Hin) as (id' & Hid').
    rewrite <-Hto. f_equal. assert (id' = id) as ->; [|congruence].
    eapply (wf_outbox_key _ Hwf id' id o' o); [done|done|reflexivity|]. injection Hk as ->.
    injection Hto as _ _ _ ->. done.
Qed.
Lemma relay_run_row (cfg : RelayConfig) (polls : nat) (w : W) id ob : up w -> db_wf (v_db (view w)) ->
  row_owns_key id ob (view w) -> row_owns_key id ob (view (relay_run cfg polls w).2).
Proof.
  revert w. induction polls as [|n IH]; intros w Hup Hwf Hr; [done|]. cbn [relay_run]. unfold bind.
  destruct (tick_stamps cfg w Hup) as (_ & Hup1 & _). destruct (tick_inv cfg w Hwf) as (_ & _ & Hwf1 & _).
  pose proof (tick_row cfg w id ob Hup Hwf Hr). destruct (tick cfg w) as [r w1]; cbn [fst snd] in *. auto.
Qed.

(** Enough polls bring the work of such a row into the queue, and nothing else under its key. *)
Lemma relay_run_brings (cfg : RelayConfig) (polls : nat) (w : W) id ob : up w -> db_wf (v_db (view w)) ->
  nothing_lost [] (view w) -> (backlog (view w) <= polls * Z.to_nat (rc_BatchSize cfg))%nat -> row_owns_key id ob (view w) ->
  exists t, t ∈ v_queue (view (relay_run cfg polls w).2) /\ same_work (task_of ob) t.
Proof.
  intros Hup Hwf Hno Hlen Hr. destruct (relay_run_row cfg polls w id ob Hup Hwf Hr) as [(o & Ho & Hto) Hk].
  destruct (relay_run_drains cfg polls w Hup Hwf Hno Hlen id o Ho) as [_ (t & Ht & Hd)]. rewrite Hto in Hd.
  exists t. split; [done|]. destruct Hd as [(i & [= <-] & Hi)|]; [|done]. by rewrite (Hk t Ht Hi).
Qed.
End Up.
End Proofs.

(** ** Witnesses *)
Definition sample_row (id : string) (stamped : option Z) : OutboxRow :=
  mkOutboxRow id "space" "s1" KindProvisionSpace (Some (encode_ProvisionSpace
    (mkProvisionSpacePayload "m1" "s1" "acme" "" ""))) ("key-" +:+ id) stamped 0.
Definition outbox_world (script : list fault) : World :=
  world (mkView (set_outbox {["o1"%string := sample_row "o1" None; "o2"%string := sample_row "o2" None]} empty_DB)
           empty_Guild ∅ [] empty_Metrics) script.
Definition sample_relay : RelayConfig := NewRelay (mkRelayConfig 0 0).

Lemma outbox_world_wf script : db_wf (v_db (w_view (outbox_world script))).
Proof.
  constructor; cbn; try apply map_Forall_empty; try (by intros ????? H; rewrite lookup_empty in H);
    try (by constructor).
  - intros id o. rewrite lookup_insert_Some, lookup_singleton_Some. naive_solver.
  - intros id1 id2 o1 o2 b. rewrite !lookup_insert_Some, !lookup_singleton_Some.
    intros [[<- <-]|[_ [<- <-]]] [[<- <-]|[_ [<- <-]]] Hk1 Hk2; vm_compute in Hk1, Hk2; congruence.
  - intros id o. rewrite lookup_insert_Some, lookup_singleton_Some. intros [[<- <-]|[_ [<- <-]]]; cbn; eauto.
Qed.

Lemma outbox_nothing_lost script : nothing_lost [] (w_view (outbox_world script)).
Proof.
  intros id o. cbn. rewrite lookup_insert_Some, lookup_singleton_Some. intros [[<- <-]|[_ [<- <-]]]; done.
Qed.

(** The queue server forgets its first task. *)
Definition forget_first (w : World) : World :=
  mkWorld (with_queue (tail (v_queue (w_view w))) (w_view w)) (w_clock w) (w_fresh w) (w_script w).
Lemma forget_first_spec w t :
  head (v_queue (w_view w)) = Some t -> forgets t (w_view w) (w_view (forget_first w)).
Proof.
  intros Ht. split; [done|]. split; [done|]. exists [], (tail (v_queue (w_view w))).
  split; [|done]. destruct (v_queue (w_view w)); [done|by injection Ht as ->].
Qed.

(** The answer to the first enqueue is lost, then the stamp is; the queue server completes the first task
    before the next poll, which therefore enqueues the row again, and the other one not. *)
Definition relay_polled : World :=
  (tick sample_relay (outbox_world [Fine; After (External "timeout"); Fine; Before (External "down")])).2.
Definition relay_forgot : World := forget_first relay_polled.
Lemma relay_at_least_once_witness :
  let first := take 1 (v_queue (w_view relay_polled)) in
  let v' := w_view (tick sample_relay relay_forgot).2 in
  tk_TaskID <$> first ++ v_queue v' = [Some "key-o1"; Some "key-o2"; Some "key-o1"]%string /\
  pending <$> (t_outbox (v_db v') !! "o1"%string) = Some false /\
  nothing_lost first v' /\ ids_once (v_queue v').
Proof.
  cbv zeta. split; [vm_compute; reflexivity|]. split; [vm_compute; reflexivity|].
  assert (exists t, take 1 (v_queue (w_view relay_polled)) = [t] /\
            forgets t (w_view relay_polled) (w_view relay_forgot)) as (t & -> & Hf).
  { eexists. split; [vm_compute; reflexivity|]. apply forget_first_spec. vm_compute. reflexivity. }
  edestruct (relay_at_least_once (E := env_world) (view := w_view) sample_relay [t]) as (H1 & H2 & _).
  - eapply relay_poll, (relay_forget _ _ [] _ t relay_forgot); [apply relay_poll, relay_start|exact Hf].
  - apply outbox_world_wf.
  - apply outbox_nothing_lost.
  - intros i j a b Hi. cbn in Hi. by rewrite lookup_nil in Hi.
  - split; [exact H1|exact H2].
Defined.

Definition no_faults (w : World) : Prop := w_script w = [].
Lemma no_faults_list n w : no_faults w -> is_Ok (ListPendingOutbox n w).1 = true /\ no_faults (ListPendingOutbox n w).2.
Proof. destruct w as [v c f s]. unfold no_faults. cbn. intros ->. by split. Qed.
Lemma no_faults_enqueue ob w : no_faults w -> is_Ok (enqueueRow ob w).1 = true /\ no_faults (enqueueRow ob w).2.
Proof.
  destruct w as [v c f s]. unfold no_faults. cbn. intros ->.
  unfold enqueueRow, Enqueue, bind, asynq_Enqueue, env_world, remote, next_fault. cbn -[existsb].
  by destruct (existsb _ _); split.
Qed.
Lemma no_faults_stamp ids w : no_faults w ->
  is_Ok (StampOutboxEnqueued ids w).1 = true /\ no_faults (StampOutboxEnqueued ids w).2.
Proof. destruct w as [v c f s], ids; unfold no_faults; cbn; intros ->; by split. Qed.
Lemma relay_delivers_witness :
  let w := outbox_world [] in
  is_Ok (tick sample_relay w).1 = true /\
  forall id ob, t_outbox (v_db (w_view (tick sample_relay w).2)) !! id = Some ob ->
    pending ob = false /\ delivered (v_queue (w_view (tick sample_relay w).2)) ob.
Proof.
  apply (relay_delivers (E := env_world) (view := w_view) no_faults).
  - apply no_faults_list.
  - apply no_faults_enqueue.
  - apply no_faults_stamp.
  - reflexivity.
  - apply outbox_world_wf.
  - apply outbox_nothing_lost.
  - vm_compute. discriminate.
Defined.

(** Two rows in batches of one, by two polls. *)
Lemma relay_drains_witness :
  let cfg := mkRelayConfig 0 1 in
  pending <$> (t_outbox (v_db (w_view (relay_run cfg 1 (outbox_world [])).2)) !! "o2"%string) = Some true /\
  forall id ob, t_outbox (v_db (w_view (relay_run cfg 2 (outbox_world [])).2)) !! id = Some ob ->
    pending ob = false /\ delivered (v_queue (w_view (relay_run cfg 2 (outbox_world [])).2)) ob.
Proof.
  cbv zeta. split; [vm_compute; reflexivity|].
  apply (relay_drains (E := env_world) (view := w_view) no_faults).
  - apply no_faults_list.
  - apply no_faults_enqueue.
  - apply no_faults_stamp.
  - reflexivity.
  - apply outbox_world_wf.
  - apply outbox_nothing_lost.
  - vm_compute. lia.
Defined.
