(* ===== verification/Worker.v ===== *)
(** * Worker: the task server, internal/worker/worker.go, reconcile_space.go and scheduler.go

    The table of handlers, the wiring of their configurations, the periodic sweep, and the
    property of the worker as a whole: whatever tasks it serves, access to a channel is only ever
    given to people whose membership says so, and a hidden channel stays hidden. *)
From S2P Require Import Prelude Errors Domain Schema Services InMemory Postgres StoreSpec.
From S2P Require Import Discord Lock RateLimit Observability Queue Cache Reconcile Provision AgentRole.
From S2P Require Import Secrets Invariant OAuth Membership Lifecycle Welcome Relay.

(** The queue server's mux: which of the registered patterns serves a task type. Its documented
    behaviour: a pattern serves its own type, and only registered patterns serve. *)
Class ServeMux : Type := {
  mux_match : list string -> string -> option string;
  mux_exact : forall ps k, k ∈ ps -> mux_match ps k = Some k;
  mux_registered : forall ps k p, mux_match ps k = Some p -> p ∈ ps }.

(** ** The reconcile handlers *)
Section Handlers.
Context {W : Type} {E : Env W} {C : Crypto}.

(** [reconcileSpaceHandler.handle], internal/worker/reconcile_space.go:32-48. *)
Definition reconcileSpace_handle (en : Engine W) : HandlerFunc W := fun raw =>
  match decode_ReconcileSpace raw with
  | None => ret (Err (WrapV SkipRetry ": decode reconcile_space payload: " (External "json")))
  | Some p =>
      if decide (rp_SpaceID p = ""%string) then
        ret (Err (WrapMsg SkipRetry ": reconcile_space: payload missing space_id"))
      else
        r <-? ReconcileSpace en (rp_SpaceID p) onerr e => ret (Err (Wrap "reconcile_space: " e)) ;;
        ret (Ok tt)
  end.

(** [newReconcileSpaceHandler], internal/worker/reconcile_space.go:24-30. *)
Definition newReconcileSpaceHandler (en : option (Engine W)) : HandlerFunc W :=
  match en with
  | None => stubHandler KindReconcileSpace
  | Some en => reconcileSpace_handle en
  end.

(** [reconcileGuildHandler.handle], internal/worker/reconcile_space.go:67-76. *)
Definition reconcileGuild_handle (en : Engine W) (guildID : string) : HandlerFunc W := fun _ =>
  r <-? ReconcileGuild en guildID onerr e => ret (Err (Wrap "reconcile_guild: " e)) ;;
  ret (Ok tt).

(** [newReconcileGuildHandler], internal/worker/reconcile_space.go:59-65. *)
Definition newReconcileGuildHandler (en : option (Engine W)) (guildID : string) : HandlerFunc W :=
  match en with
  | None => stubHandler KindReconcileGuild
  | Some en => reconcileGuild_handle en guildID
  end.

(** ** The server *)

(** [Config], internal/worker/worker.go:32-64, without the address of the queue. Interfaces that may
    be nil are flags (there is one store and one Discord client, those of [Env]) or options. *)
Record Config : Type := mkConfig {
  cf_Store : bool;
  cf_DiscordClient : bool;
  cf_DiscordGuildID : string;
  cf_AgentRoleID : string;
  cf_Limiter : option (Limiter W);
  cf_Locker : option (Locker W);
  cf_Cache : option (Cache W);
  cf_EveryoneRoleID : string;
  cf_DefaultCategoryID : string;
  cf_TokenStore : option TokenStore;
  cf_ReconcileEngine : option (Engine W);
  cf_AgentNicknameSuffix : string;
  cf_Metrics : bool
}.

(** The configurations [registerHandlers] builds, internal/worker/worker.go:127-130. *)
Definition agent_cfg (c : Config) : projectAgentRoleHandler :=
  mkProjectAgentRoleHandler (cf_Store c) (cf_DiscordClient c) (cf_DiscordGuildID c) (cf_AgentRoleID c)
    (cf_AgentNicknameSuffix c).
(** internal/worker/worker.go:136-147. *)
Definition provision_cfg (c : Config) : provisionSpaceConfig W :=
  mkProvisionSpaceConfig W (cf_Store c) (cf_DiscordClient c) (cf_Limiter c) (cf_Locker c) (cf_Cache c)
    (cf_Metrics c) (cf_DiscordGuildID c) (cf_EveryoneRoleID c) (cf_AgentRoleID c) (cf_DefaultCategoryID c).
(** internal/worker/worker.go:151-157. *)
Definition invite_cfg (c : Config) : inviteCollaboratorConfig W :=
  mkInviteCollaboratorConfig (cf_Store c) (cf_DiscordClient c) (cf_Locker c) (cf_TokenStore c)
    (cf_DiscordGuildID c).
(** internal/worker/worker.go:160-165. *)
Definition expel_cfg (c : Config) : expelCollaboratorConfig W :=
  mkExpelCollaboratorConfig (cf_Store c) (cf_DiscordClient c) (cf_Locker c) (cf_DiscordGuildID c).
(** internal/worker/worker.go:174-179. *)
Definition lifecycle_cfg (c : Config) : lifecycleConfig :=
  mkLifecycleConfig (cf_Store c) (cf_DiscordClient c) (cf_DiscordGuildID c) (cf_EveryoneRoleID c).
(** internal/worker/worker.go:183-186. *)
Definition welcome_cfg (c : Config) : syncWelcomeConfig := mkSyncWelcomeConfig (cf_Store c) (cf_DiscordClient c).
(** internal/worker/worker.go:190-195. *)
Definition nick_cfg (c : Config) : nickmarkingConfig :=
  mkNickmarkingConfig (cf_Store c) (cf_DiscordClient c) (cf_DiscordGuildID c) (cf_AgentNicknameSuffix c).

(** [registerHandlers], internal/worker/worker.go:126-200: the patterns and handlers of the mux. *)
Definition registerHandlers (c : Config) : list (string * HandlerFunc W) :=
  [(KindProjectAgentRole, newProjectAgentRoleHandlerWithMarking (agent_cfg c));
   (KindProvisionSpace, newProvisionSpaceHandler (provision_cfg c));
   (KindInviteCollaborator, newInviteCollaboratorHandler (invite_cfg c));
   (KindExpelCollaborator, newExpelCollaboratorHandler (expel_cfg c));
   (KindReconcileSpace, newReconcileSpaceHandler (cf_ReconcileEngine c));
   (KindChangeLifecycle, newChangeLifecycleHandler (lifecycle_cfg c));
   (KindSyncWelcome, newSyncWelcomeHandler (welcome_cfg c));
   (KindApplyNicknameSuffix, newApplyNicknameSuffixHandler (nick_cfg c));
   (KindReconcileGuild, newReconcileGuildHandler (cf_ReconcileEngine c) (cf_DiscordGuildID c))].

Context {mux : ServeMux}.

(** The handler registered under a pattern. *)
Definition handler_of (c : Config) (pattern : string) : option (HandlerFunc W) :=
  snd <$> head (filter (fun ph => ph.1 = pattern) (registerHandlers c)).

(** One task, as the server of [New] processes it, internal/worker/worker.go:73-113. The mux answers an
    unknown type with an error of its own. *)
Definition ProcessTask (c : Config) (kind : string) (raw : option json) : M W (result error unit) :=
  match mux_match (fst <$> registerHandlers c) kind with
  | Some pattern =>
      match handler_of c pattern with
      | Some h => h raw
      | None => ret (Err (External "handler not found for task"))
      end
  | None => ret (Err (External "handler not found for task"))
  end.

(** The queues [New] serves, with their priorities, internal/worker/worker.go:82-87. *)
Definition server_queues : list (string * Z) :=
  [(QueueProvision, 3); (QueueMembership, 3); (QueueReconcile, 1); (QueueMarking, 1)].

(** ** The periodic sweep *)

(** [minSweepInterval], internal/worker/scheduler.go:23. *)
Definition minSweepInterval : Z := 1 * Minute.

(** [NewScheduler] up to the registration, internal/worker/scheduler.go:40-87, for a cron parser that
    gives the next fire after a time: the task to register and its retry limit. *)
Definition NewScheduler (cron_Parse : string -> option (Z -> Z)) (cronExpr guildID : string)
    : M W (result error AsynqTask) :=
  match cron_Parse cronExpr with
  | None => ret (Err (Wrap "scheduler: invalid cron expression: " (External "cron")))
  | Some next =>
      now <- time_Now ;;
      let t1 := next now in
      let t2 := next t1 in
      ret (if t2 - t1 <? minSweepInterval
           then Err (New "scheduler: RECONCILE_SWEEP_CRON fires below the minimum allowed interval")
           else Ok (mkTask KindReconcileGuild (Some [("guild_id"%string, JStr guildID)]) QueueReconcile None None
                      (Some 2)))
  end.
End Handlers.
Arguments Config : clear implicits.

(** ** What the worker may do to access *)

(** The channel's entry for the role [r] is a role entry that denies VIEW_CHANNEL. *)
Definition hidden `{Env W} (r : string) (g : Guild) (ch : string) : Prop :=
  exists ow, overwrites_of ch g !! r = Some ow /\ ow_Type ow = PermissionOverwriteTypeRole /\
             denies PermissionViewChannel ow = true.

(** Someone with a membership, of whatever state, in the space. *)
Definition has_membership (db : DB) (spaceID d : string) : Prop :=
  exists id sm u, t_space_members db !! id = Some sm /\ sm_SpaceID sm = spaceID /\
    t_users db !! sm_UserID sm = Some u /\ u_DiscordUserID u = Some d.

(** Whom a task may give access to a channel: an invite anyone with a membership of the channel's
    space, a sweep those an active membership backs, no other task anyone. *)
Definition entitled (pattern : string) (db : DB) (ch d : string) : Prop :=
  exists id, sp_DiscordChannelID <$> t_spaces db !! id = Some (Some ch) /\
    ((pattern = KindInviteCollaborator /\ has_membership db id d) \/
     ((pattern = KindReconcileSpace \/ pattern = KindReconcileGuild) /\ backed db id d)).

(** Tasks that open a channel to everyone: a lifecycle change other than an archival. *)
Definition opens (pattern : string) (raw : option json) : Prop :=
  pattern = KindChangeLifecycle /\ exists p, decode_ChangeLifecycle raw = Some p /\
    (clp_Action p = "reopen"%string \/ clp_Action p = "open"%string).

(** No user's Discord id is the id of the role. *)
Definition nobody_is (r : string) (db : DB) : Prop :=
  forall id u, t_users db !! id = Some u -> u_DiscordUserID u <> Some r.

(** What one task may do. *)
Definition task_ok `{Env W} (everyone pattern : string) (raw : option json) (db : DB) (g g' : Guild) : Prop :=
  (forall ch d, member_overwrite g' ch d -> member_overwrite g ch d \/ entitled pattern db ch d) /\
  (nobody_is everyone db -> ~ opens pattern raw -> forall ch, hidden everyone g ch -> hidden everyone g' ch).

Section TaskOk.
Context {W : Type} {E : Env W} {view : W -> View} {L : EnvLaws E view} {C : Crypto}.

Lemma task_ok_same everyone k raw db g g' :
  g_overwrites g' = g_overwrites g -> task_ok everyone k raw db g g'.
Proof.
  intros H. unfold task_ok, member_overwrite, hidden, overwrites_of. rewrite H. split; [by left|done].
Qed.

(** Entries that may appear: role entries, or entries of the entitled; and the @everyone entry stays,
    unless it is not a role entry, or the task opens channels. *)
Lemma task_ok_entries everyone k raw db g g' :
  (forall ch t, overwrites_of ch g' !! t = overwrites_of ch g !! t \/
     (overwrites_of ch g' !! t = None /\
        (t = everyone -> nobody_is everyone db -> ~ opens k raw -> ~ hidden everyone g ch)) \/
     exists ow, overwrites_of ch g' !! t = Some ow /\
       (ow_Type ow = PermissionOverwriteTypeMember -> entitled k db ch t) /\
       (t = everyone -> nobody_is everyone db -> hidden everyone g' ch)) ->
  task_ok everyone k raw db g g'.
Proof.
  intros H. split.
  - intros ch d (ow & Ho & Hid & Hty). destruct (H ch d) as [He|[[He _]|(ow' & He & Hent & _)]].
    + left. exists ow. by rewrite <-He.
    + congruence.
    + right. apply Hent. congruence.
  - intros Hn Hop ch Hh. destruct (H ch everyone) as [He|[[_ He]|(ow' & _ & _ & Hh')]].
    + destruct Hh as (ow & Ho & Hx). exists ow. by rewrite He.
    + by edestruct He.
    + by apply Hh'.
Qed.

Lemma hidden_deny r g ch : overwrites_of ch g !! r = Some (everyone_deny r) -> hidden r g ch.
Proof.
  intros H. exists (everyone_deny r). split; [done|]. split; [done|]. unfold denies. cbn.
  rewrite Z.land_diag. pose proof (view_bit (E := E) (view := view)). by rewrite (proj2 (Z.eqb_neq _ _)).
Qed.
Lemma hidden_archive r g ch : overwrites_of ch g !! r = Some (archive_deny r) -> hidden r g ch.
Proof.
  intros H. exists (archive_deny r). split; [done|]. split; [done|]. unfold denies.
  change (ow_Deny (archive_deny r)) with (Z.lor PermissionViewChannel PermissionSendMessages).
  pose proof (view_bit (E := E) (view := view)).
  rewrite Z.land_lor_distr_l, Z.land_diag.
  rewrite (proj2 (Z.eqb_neq _ _)); [done|]. intros Hz. by apply Z.lor_eq_0_iff in Hz as [??].
Qed.

Lemma entry_set ch ow g ch' t :
  overwrites_of ch' (permission_set ch ow g) !! t = overwrites_of ch' g !! t \/
  (ch' = ch /\ t = ow_ID ow /\ overwrites_of ch' (permission_set ch ow g) !! t = Some ow).
Proof.
  rewrite overwrites_of_set. case_decide as Hd; [|by left]. destruct Hd as [<- _].
  destruct (decide (ow_ID ow = t)) as [<-|Ht]; [right|left].
  - by rewrite lookup_insert_eq.
  - by rewrite lookup_insert_ne.
Qed.
Lemma entry_delete ch t0 g ch' t :
  overwrites_of ch' (permission_delete ch t0 g) !! t = overwrites_of ch' g !! t \/
  (ch' = ch /\ t = t0 /\ overwrites_of ch' (permission_delete ch t0 g) !! t = None).
Proof.
  rewrite overwrites_of_delete. case_decide as Hd; [|by left]. subst.
  destruct (decide (t0 = t)) as [<-|Ht]; [right|left].
  - by rewrite lookup_delete_eq.
  - by rewrite lookup_delete_ne.
Qed.

Lemma backed_not_everyone everyone db id t : nobody_is everyone db -> backed db id t -> t <> everyone.
Proof. intros Hn (i & sm & u & _ & _ & _ & Hu & Hd) ->. by apply (Hn _ _ Hu). Qed.

(** Repairs on the channel of a space. *)
Lemma repairs_ok everyone k raw db id ch g g' :
  k = KindReconcileSpace \/ k = KindReconcileGuild ->
  sp_DiscordChannelID <$> t_spaces db !! id = Some (Some ch) ->
  repairs ch (backed db id) g g' -> task_ok everyone k raw db g g'.
Proof.
  intros Hk Hid (_ & _ & Hoth & Ht). apply task_ok_entries. intros ch' t.
  destruct (decide (ch' = ch)) as [->|Hne]; [|left; by rewrite Hoth].
  destruct (Ht t) as [He|[(Hm & _ & He)|(_ & Hb & He)]]; [by left|right; left|right; right].
  - split; [done|]. intros -> _ _ (ow & Ho & Hty & _). destruct Hm as (ow' & Ho' & _ & Hty'). congruence.
  - eexists. split; [exact He|]. split; [intros _; exists id; auto|].
    intros -> Hn. by apply (backed_not_everyone _ _ _ _ Hn) in Hb.
Qed.
Lemma task_ok_trans everyone k raw db g1 g2 g3 :
  task_ok everyone k raw db g1 g2 -> task_ok everyone k raw db g2 g3 -> task_ok everyone k raw db g1 g3.
Proof.
  intros [H1 H2] [K1 K2]. split.
  - intros ch d Hm. destruct (K1 ch d Hm) as [Hm'|]; auto.
  - intros Hn Ho ch Hh. by apply K2, H2.
Qed.

Lemma repairs_iff ch (b b' : string -> Prop) g g' :
  (forall t, b t <-> b' t) -> repairs ch b g g' -> repairs ch b' g g'.
Proof.
  intros Hb (H1 & H2 & H3 & H4). split; [done|]. split; [done|]. split; [done|].
  intros t. rewrite <-Hb. apply H4.
Qed.

(** ** The handlers, one by one *)
Lemma reconcileSpace_ok everyone (en : option (Engine W)) raw w :
  match en with Some en => locker_ok view (en_locker en) | None => True end ->
  wp view (newReconcileSpaceHandler en raw) (fun _ v' =>
    task_ok everyone KindReconcileSpace raw (v_db (view w)) (v_guild (view w)) (v_guild v')) w.
Proof.
  intros Hl. destruct en as [en|]; [|by apply wp_ret, task_ok_same]. cbn. unfold reconcileSpace_handle.
  destruct (decode_ReconcileSpace raw) as [p|]; [|by apply wp_ret, task_ok_same].
  case_decide; [by apply wp_ret, task_ok_same|].
  apply wp_bind. destruct (reconcile_space_run en (rp_SpaceID p) w Hl) as (H0 & _).
  enough (task_ok everyone KindReconcileSpace raw (v_db (view w)) (v_guild (view w))
            (v_guild (view (ReconcileSpace en (rp_SpaceID p) w).2))) by (destruct (_.1); by apply wp_ret).
  destruct H0 as [->|(sp & ch & Hsp & Hch & _ & Hr)]; [by apply task_ok_same|].
  eapply repairs_ok; [by left| |exact Hr]. rewrite Hsp. cbn. by rewrite Hch.
Qed.

Lemma reconcileGuild_ok everyone (en : option (Engine W)) guildID raw w :
  match en with Some en => locker_ok view (en_locker en) | None => True end ->
  wp view (newReconcileGuildHandler en guildID raw) (fun _ v' =>
    task_ok everyone KindReconcileGuild raw (v_db (view w)) (v_guild (view w)) (v_guild v')) w.
Proof.
  intros Hl. destruct en as [en|]; [|by apply wp_ret, task_ok_same]. cbn. unfold reconcileGuild_handle.
  set (I := fun v' => task_ok everyone KindReconcileGuild raw (v_db (view w)) (v_guild (view w)) (v_guild v') /\
              db_kept (v_db (view w)) (v_db v')).
  eapply wp_seq with (R := fun _ => I); [|by intros [[]|e] w' [H _]; apply wp_ret].
  unfold ReconcileGuild.
  assert (Hrefl : I (view w)) by (split; [by apply task_ok_same|done]).
  go_step. destruct H as [Hv _]. destruct a as [spaces|e]; [|apply wp_ret; by rewrite Hv].
  go_step. destruct H as [m Hm]. rewrite Hv in Hm.
  eapply wp_seq; [apply (wp_for_each view _ (fun _ _ => I))|].
  - by rewrite Hm.
  - intros done sp rest errs w3 _ [Hok [Hb Hc]]. apply wp_bind, wp_ret.
    destruct (reconcile_space_run en (sp_ID sp) w3 Hl) as (Hcase & _ & Hdb & Hq).
    split; [|by eapply db_kept_trans]. eapply task_ok_trans; [exact Hok|].
    destruct Hcase as [->|(sp' & ch & Hsp & Hch & _ & Hr)]; [by apply task_ok_same|].
    eapply (repairs_ok _ _ _ _ (sp_ID sp)); [by right| |eapply repairs_iff; [apply Hb|exact Hr]].
    rewrite <-Hc, Hsp. cbn. by rewrite Hch.
  - intros errs w4 Hinv. destruct errs; by apply wp_ret.
Qed.

Lemma member_row s us db sm u d : member_by_space_user s us db = Some sm -> t_users db !! us = Some u ->
  u_DiscordUserID u = Some d -> has_membership db s d.
Proof.
  intros Hm Hu Hd. apply head_Some_elem_of, rows_where_elem in Hm as (id & Hl & Hp).
  apply andb_prop in Hp as [H1 H2]. apply bool_decide_eq_true in H1, H2.
  exists id, sm, u. by rewrite H2.
Qed.

Lemma invite_ok everyone (cfg : inviteCollaboratorConfig W) raw w :
  locker_ok view (ic_locker cfg) ->
  wp view (newInviteCollaboratorHandler cfg raw) (fun _ v' =>
    task_ok everyone KindInviteCollaborator raw (v_db (view w)) (v_guild (view w)) (v_guild v')) w.
Proof.
  intros Hl. unfold wp. destruct (invite_run cfg raw w Hl) as [(-> & _)|(p & _ & _ & _ & Hg)];
    [by apply task_ok_same|].
  destruct Hg as [[-> _]|(sp & ch & u & d & sm & Hsp & Hch & _ & Hu & Hd & _ & Hm & _ & Hc & _)];
    [by apply task_ok_same|].
  assert (Hmem : has_membership (v_db (view w)) (ip_SpaceID p) d).
  { by eapply member_row. }
  destruct Hc as (g1 & Hg1 & Hg').
  eapply task_ok_trans with (g2 := g1); [destruct Hg1 as [->| ->]; by apply task_ok_same|].
  destruct Hg' as [->| ->]; [by apply task_ok_same|]. apply task_ok_entries. intros ch' t.
  destruct (entry_set ch (collaborator_allow d) g1 ch' t) as [|(-> & -> & He)]; [by left|right; right].
  eexists. split; [exact He|]. split; [intros _; exists (ip_SpaceID p); rewrite Hsp; cbn; rewrite Hch; auto|].
  intros <- Hn. by destruct (Hn _ _ Hu).
Qed.
Lemma expel_ok everyone (cfg : expelCollaboratorConfig W) raw w :
  locker_ok view (xc_locker cfg) ->
  wp view (newExpelCollaboratorHandler cfg raw) (fun _ v' =>
    task_ok everyone KindExpelCollaborator raw (v_db (view w)) (v_guild (view w)) (v_guild v')) w.
Proof.
  intros Hl. destruct (xc_store cfg) eqn:Hst, (xc_discord cfg) eqn:Hdi;
    [|unfold newExpelCollaboratorHandler; rewrite Hst, ?Hdi; by apply wp_ret, task_ok_same..].
  destruct (decode_Expel raw) as [p|] eqn:Hp;
    [|unfold newExpelCollaboratorHandler; rewrite Hst, Hdi; cbn [negb orb]; unfold expel_handle;
      rewrite Hp; by apply wp_ret, task_ok_same].
  assert (Hsame : newExpelCollaboratorHandler cfg raw =
                  newExpelCollaboratorHandler cfg (Some (JObj (encode_Expel p)))).
  { unfold newExpelCollaboratorHandler. rewrite Hst, Hdi. cbn [negb orb]. unfold expel_handle.
    rewrite Hp. by destruct p. }
  rewrite Hsame. eapply wp_mono; [by apply expel_run|].
  intros r v' (v2 & ks & -> & [Hg|(sp & u & d & Hsp & Hu & Hd & g1 & Hg1 & Hg)] & _).
  - by apply task_ok_same; cbn; rewrite Hg.
  - change (v_guild (with_kv ks v2)) with (v_guild v2).
    eapply task_ok_trans with (g2 := g1); [|destruct Hg as [->|[_ ->]]; by apply task_ok_same].
    destruct Hg1 as [->|(c & Hc & ->)]; [by apply task_ok_same|]. apply task_ok_entries. intros ch t.
    destruct (entry_delete c d (v_guild (view w)) ch t) as [|(-> & -> & He)]; [by left|right; left].
    split; [done|]. intros -> Hn. by destruct (Hn _ _ Hu).
Qed.

Lemma provision_ok (cfg : provisionSpaceConfig W) raw w :
  deps_ok (view := view) cfg -> pc_everyoneRoleID cfg = ""%string \/ pc_everyoneRoleID cfg = pc_guildID cfg ->
  wp view (newProvisionSpaceHandler cfg raw) (fun _ v' =>
    task_ok (pc_guildID cfg) KindProvisionSpace raw (v_db (view w)) (v_guild (view w)) (v_guild v')) w.
Proof.
  intros Hd Hev.
  destruct (decide (pc_store cfg = true /\ pc_discord cfg = true /\ pc_agentRoleID cfg <> ""%string /\
              pc_agentRoleID cfg <> pc_guildID cfg)) as [(Hst & Hdi & Ha1 & Ha2)|Hn].
  2: { replace (newProvisionSpaceHandler cfg raw) with (ret (W := W) (Ok (E := error) tt));
         [by apply wp_ret, task_ok_same|]. unfold newProvisionSpaceHandler, stubHandler.
       destruct (pc_store cfg), (pc_discord cfg); try done. cbn [negb orb].
       destruct (_ || _) eqn:Hb; [done|]. apply orb_false_iff in Hb as [Hb1 Hb2].
       apply bool_decide_eq_false in Hb1, Hb2. tauto. }
  eapply wp_mono; [by apply newProvisionSpaceHandler_post|]. intros r v' H.
  assert (Hq : quiet (view w) v' -> task_ok (pc_guildID cfg) KindProvisionSpace raw (v_db (view w))
            (v_guild (view w)) (v_guild v')) by (intros (-> & _); by apply task_ok_same).
  destruct (decode_ProvisionSpace raw) as [p|]; [|by destruct H; apply Hq].
  case_decide; [by destruct H; apply Hq|]. destruct H as ((_ & _ & He & _) & _).
  apply task_ok_entries. intros ch t. destruct (He ch t) as [|[(-> & -> & Hx)|(_ & -> & Hx)]]; [by left|..];
    right; right; eexists; (split; [exact Hx|]); (split; [done|]); intros ?; [done|]. by intros; apply hidden_deny.
Qed.

Lemma lifecycle_ok (cfg : lifecycleConfig) raw w :
  wp view (newChangeLifecycleHandler cfg raw) (fun _ v' =>
    task_ok (everyone_of cfg) KindChangeLifecycle raw (v_db (view w)) (v_guild (view w)) (v_guild v')) w.
Proof.
  eapply wp_mono; [apply lifecycle_run|]. intros r v'. unfold lifecycle_outcome, lifecycle_payload.
  destruct (_ && _); [|intros [-> _]; by apply task_ok_same].
  destruct (decode_ChangeLifecycle raw) as [p|] eqn:Hp; [|intros [-> _]; by apply task_ok_same]. cbn [mbind option_bind].
  destruct (_ || _); [intros [-> _]; by apply task_ok_same|]. intros (_ & _ & _ & e & _ & Hg).
  destruct (t_spaces (v_db (view w)) !! clp_SpaceID p) as [sp|]; [|by apply task_ok_same; rewrite Hg].
  destruct Hg as ([->|(c & _ & Hc)] & _); [by apply task_ok_same|].
  apply task_ok_entries. intros ch t. destruct Hc as [[_ ->]|[Ha ->]].
  - destruct (entry_set c (archive_deny (everyone_of cfg)) (v_guild (view w)) ch t) as [|(-> & -> & He)];
      [by left|right; right].
    eexists. split; [exact He|]. split; [done|]. intros _ _. by apply hidden_archive.
  - destruct (entry_delete c (everyone_of cfg) (v_guild (view w)) ch t) as [|(-> & -> & He)];
      [by left|right; left].
    split; [done|]. intros _ _ []. split; [done|]. eauto.
Qed.

Lemma welcome_ok everyone (cfg : syncWelcomeConfig) raw w :
  wp view (newSyncWelcomeHandler cfg raw) (fun _ v' =>
    task_ok everyone KindSyncWelcome raw (v_db (view w)) (v_guild (view w)) (v_guild v')) w.
Proof.
  unfold wp. destruct (welcome_run cfg raw w) as [(-> & _)|(p & _ & _ & _ & Hg)]; [by apply task_ok_same|].
  destruct Hg as [[-> _]|(sp & ch & _ & _ & (Ho & _) & _)]; by apply task_ok_same.
Qed.

Lemma agent_ok everyone (h : projectAgentRoleHandler) raw w :
  wp view (newProjectAgentRoleHandlerWithMarking h raw) (fun _ v' =>
    task_ok everyone KindProjectAgentRole raw (v_db (view w)) (v_guild (view w)) (v_guild v')) w.
Proof.
  unfold wp. destruct (agent_role_run h raw w) as [->|(p & u & d & _ & _ & _ & _ & _ & Hc & _)];
    [by apply task_ok_same|].
  apply task_ok_same. destruct Hc as (g1 & Hg1 & Hg').
  assert (g_overwrites g1 = g_overwrites (v_guild (view w))) as <-.
  { destruct Hg1 as [->| ->]; [done|]. by destruct (ap_Add p). }
  destruct Hg' as [->|(_ & n & ->)]; done.
Qed.

Lemma nick_ok everyone (cfg : nickmarkingConfig) raw w :
  wp view (newApplyNicknameSuffixHandler cfg raw) (fun _ v' =>
    task_ok everyone KindApplyNicknameSuffix raw (v_db (view w)) (v_guild (view w)) (v_guild v')) w.
Proof.
  eapply wp_mono with (Q := fun _ v' => g_overwrites (v_guild v') = g_overwrites (v_guild (view w)));
    [|intros _ v'; apply task_ok_same].
  unfold newApplyNicknameSuffixHandler. destruct (_ || _); [by apply wp_ret|].
  case_decide; [by apply wp_ret|]. unfold applyNicknameSuffix_handle.
  destruct (decode_ApplyNicknameSuffix raw) as [p|]; [|by apply wp_ret]. case_decide; [by apply wp_ret|].
  go_step. destruct H1 as [Hv _]. destruct a as [u|e]; [|apply wp_ret; by rewrite Hv].
  destruct (u_DiscordUserID u) as [d|]; [|apply wp_ret; by rewrite Hv].
  go_step. rewrite <-Hv.
  assert (g_overwrites (v_guild (view w'0)) = g_overwrites (v_guild (view w')))
    by (destruct H1 as [(_ & _ & ->)|(e & _ & _ & [->| ->])]; done).
  destruct a as [[]|e]; by apply wp_ret.
Qed.
End TaskOk.

(** ** The worker as a whole *)
Section Isolation.
Context {W : Type} {E : Env W} {view : W -> View} {L : EnvLaws E view} {C : Crypto} {mux : ServeMux}.

(** What the worker is given behaves as its interfaces promise, and the @everyone role is the one of the
    guild (Discord gives it the guild's id). *)
Definition config_ok (c : Config W) : Prop :=
  deps_ok (view := view) (provision_cfg c) /\ locker_ok view (cf_Locker c) /\
  match cf_ReconcileEngine c with Some en => locker_ok view (en_locker en) | None => True end /\
  (cf_EveryoneRoleID c = ""%string \/ cf_EveryoneRoleID c = cf_DiscordGuildID c).

Lemma handler_of_cases c pattern h : handler_of c pattern = Some h -> (pattern, h) ∈ registerHandlers c.
Proof.
  unfold handler_of. intros Hh. destruct (head _) as [[k h']|] eqn:He; [|done]. injection Hh as ->.
  apply head_Some_elem_of in He. apply list_elem_of_filter in He as [Hk Hin]. cbn in Hk. by subst.
Qed.

Lemma handler_ok c pattern h raw w :
  config_ok c -> (pattern, h) ∈ registerHandlers c ->
  wp view (h raw) (fun _ v' => task_ok (cf_DiscordGuildID c) pattern raw (v_db (view w))
                                 (v_guild (view w)) (v_guild v')) w.
Proof.
  intros (Hdeps & Hl & Hen & Hev) Hin. unfold registerHandlers in Hin.
  repeat (apply elem_of_cons in Hin as [Hin|Hin]; [injection Hin as -> ->|]); [..|by apply not_elem_of_nil in Hin].
  - apply agent_ok.
  - by apply (provision_ok (provision_cfg c)).
  - by apply invite_ok.
  - by apply expel_ok.
  - by apply reconcileSpace_ok.
  - replace (cf_DiscordGuildID c) with (everyone_of (lifecycle_cfg c)); [apply lifecycle_ok|].
    unfold everyone_of. cbn. case_decide; [done|]. by destruct Hev.
  - apply welcome_ok.
  - apply nick_ok.
  - by apply reconcileGuild_ok.
Qed.

(** The history of a worker: tasks served one after the other, whatever they are and whatever fails,
    and between them anything the other processes do to the database, the queue and the cache
    (Discord is the worker's own). The list holds what each task was and the database it met. *)
Inductive history (c : Config W) : W -> list (string * option json * DB) -> W -> Prop :=
| history_start w : history c w [] w
| history_task w l w1 kind raw pattern :
    history c w l w1 -> mux_match (fst <$> registerHandlers c) kind = Some pattern ->
    history c w (l ++ [(pattern, raw, v_db (view w1))]) (ProcessTask c kind raw w1).2
| history_other w l w1 w2 :
    history c w l w1 -> v_guild (view w2) = v_guild (view w1) -> history c w l w2.

(** The run behind [worker_isolation]. *)
Lemma isolation_run (c : Config W) (w w' : W) (l : list (string * option json * DB)) :
  config_ok c -> history c w l w' ->
  (forall ch d, member_overwrite (v_guild (view w')) ch d ->
     member_overwrite (v_guild (view w)) ch d \/
     exists pattern raw db, (pattern, raw, db) ∈ l /\ entitled pattern db ch d) /\
  ((forall pattern raw db, (pattern, raw, db) ∈ l -> nobody_is (cf_DiscordGuildID c) db /\ ~ opens pattern raw) ->
   forall ch, hidden (cf_DiscordGuildID c) (v_guild (view w)) ch ->
              hidden (cf_DiscordGuildID c) (v_guild (view w')) ch).
Proof.
  intros Hc H. induction H as [w|w l w1 kind raw pattern _ [IH1 IH2] Hm|w l w1 w2 _ [IH1 IH2] Hg].
  - split; [by left|done].
  - assert (Hok : task_ok (cf_DiscordGuildID c) pattern raw (v_db (view w1)) (v_guild (view w1))
              (v_guild (view (ProcessTask c kind raw w1).2))).
    { unfold ProcessTask. rewrite Hm. destruct (handler_of c pattern) as [h|] eqn:Hh; [|by apply task_ok_same].
      apply (handler_ok c pattern h raw w1 Hc). by apply handler_of_cases. }
    destruct Hok as [H1 H2]. split.
    + intros ch d Hx. destruct (H1 ch d Hx) as [Hx'|He].
      * destruct (IH1 ch d Hx') as [|(p & r & db & Hin & He)]; [by left|right]. exists p, r, db.
        rewrite elem_of_app. auto.
      * right. exists pattern, raw, (v_db (view w1)). rewrite elem_of_app, list_elem_of_singleton. auto.
    + intros Hall ch Hh. destruct (Hall pattern raw (v_db (view w1))) as [Hn Ho].
      { apply elem_of_app. right. by apply list_elem_of_singleton. }
      apply H2; [done..|]. apply IH2; [|done]. intros p r db Hin. apply (Hall p r db), elem_of_app. by left.
  - rewrite Hg. done.
Qed.
Lemma worker_history_access (c : Config W) w w' l : config_ok c -> history c w l w' ->
  forall ch d, member_overwrite (v_guild (view w')) ch d ->
    member_overwrite (v_guild (view w)) ch d \/
    exists pattern raw db, (pattern, raw, db) ∈ l /\ entitled pattern db ch d.
Proof. intros Hc Hh. by apply (isolation_run c w w' l Hc Hh). Qed.

(** C1: isolation (NFR-5). Whatever tasks a worker serves, in whatever order, whatever fails in them, and
    whatever the other processes write to the database meanwhile: every member who has an entry on a
    channel at the end had it at the start, or was given it by an invite for a user with a
    membership of that channel's space, or by a sweep of a space where an active membership backs
    it; and as long as no task opened or reopened a space and no user has the guild's id as Discord id, a channel
    that hides itself from @everyone still does. *)
Theorem worker_isolation (c : Config W) (w w' : W) (l : list (string * option json * DB)) :
  config_ok c -> history c w l w' ->
  (forall ch d, member_overwrite (v_guild (view w')) ch d ->
     member_overwrite (v_guild (view w)) ch d \/
     exists pattern raw db, (pattern, raw, db) ∈ l /\ entitled pattern db ch d) /\
  ((forall pattern raw db, (pattern, raw, db) ∈ l -> nobody_is (cf_DiscordGuildID c) db /\ ~ opens pattern raw) ->
   forall ch, hidden (cf_DiscordGuildID c) (v_guild (view w)) ch ->
              hidden (cf_DiscordGuildID c) (v_guild (view w')) ch).
Proof. exact (isolation_run c w w' l). Qed.
End Isolation.

(** ** Every kind is served *)

(** The kinds of internal/queue/queue.go:24-32. *)
Definition kinds : list string :=
  [KindProvisionSpace; KindInviteCollaborator; KindExpelCollaborator; KindProjectAgentRole;
   KindChangeLifecycle; KindReconcileGuild; KindReconcileSpace; KindSyncWelcome; KindApplyNicknameSuffix].

(** No task is stranded: the relay puts the tasks of every kind into a queue the server reads, the
    server hands each to the one handler registered for exactly that kind, whatever its mux does
    with other types, and two kinds never share a handler's pattern. *)
Theorem tasks_are_served `{Env W} `{Crypto} `{ServeMux} (c : Config W) (raw : option json) :
  NoDup (fst <$> registerHandlers c) /\
  Forall (fun kind => is_Some (list_to_map (M := gmap string Z) server_queues !! queueForKind kind) /\
            exists h, (kind, h) ∈ registerHandlers c /\ ProcessTask c kind raw = h raw) kinds.
Proof.
  split.
  - cbn [registerHandlers fmap list_fmap fst]. by apply (bool_decide_unpack (NoDup _)).
  - unfold kinds. repeat (apply Forall_cons; split); [..|by apply Forall_nil].
    all: split; [vm_compute; by eexists|].
    all: unfold ProcessTask; rewrite mux_exact by (cbn; set_solver).
    all: eexists; split; [|reflexivity].
    all: apply handler_of_cases; reflexivity.
Qed.

(** ** Witness: an invite and a guild sweep *)
(** A mux by exact match (the queue server also serves a type by the longest pattern that is its
    prefix). *)
#[program] Definition sample_mux : ServeMux :=
  {| mux_match := fun ps k => if decide (k ∈ ps) then Some k else None |}.
Next Obligation. cbn. by rewrite decide_True. Qed.
Next Obligation. cbn in *. case_decide; by simplify_eq. Qed.

Definition sample_config : Config World :=
  mkConfig true true "everyone" "agents" (Some (ValKeyLimiter DefaultConfig)) (Some (NewWithTTL defaultTTL))
    (Some ValKeyCache) "" "" (Some sample_tokens) (Some sample_engine) "[A]" true.
Lemma sample_config_ok : config_ok (view := w_view) sample_config.
Proof. split; [exact sample_provision_deps|]. split; [cbn; apply _|]. split; [cbn; apply _|by left]. Defined.

Definition sample_step (w : World) (kind : string) (raw : option json) : World :=
  (ProcessTask (C := sample_crypto) (mux := sample_mux) sample_config kind raw w).2.
Definition sample_invite_task : option json := Some (JObj (encode_Invite sample_invite)).
Definition sample_served : World :=
  sample_step (sample_step (sample []) KindInviteCollaborator sample_invite_task) KindReconcileGuild None.

Lemma sample_nobody db : t_users db = t_users (v_db (w_view (sample []))) -> nobody_is "everyone" db.
Proof.
  intros H id u. rewrite H. cbn. rewrite lookup_insert_Some, lookup_singleton_Some.
  intros [[_ <-]|[_ [_ <-]]]; discriminate.
Qed.

Lemma two_elements {A} (x a b : A) : x ∈ [a; b] -> x = a \/ x = b.
Proof. rewrite elem_of_cons, list_elem_of_singleton. done. Qed.

Lemma worker_isolation_witness :
  member_overwrite (v_guild (w_view sample_served)) "c1" "d1" /\
  ~ member_overwrite (v_guild (w_view sample_served)) "c1" "d2" /\
  hidden "everyone" (v_guild (w_view sample_served)) "c1" /\
  (member_overwrite (v_guild (w_view (sample []))) "c1" "d1" \/
   exists pattern raw db,
     (pattern, raw, db) ∈ [(KindInviteCollaborator, sample_invite_task, v_db (w_view (sample [])));
        (KindReconcileGuild, None,
         v_db (w_view (sample_step (sample []) KindInviteCollaborator sample_invite_task)))] /\
     entitled pattern db "c1" "d1").
Proof.
  assert (Hm : member_overwrite (v_guild (w_view sample_served)) "c1" "d1").
  { eexists. split; [vm_compute; reflexivity|]. done. }
  split; [exact Hm|]. split; [intros (ow & Ho & _); by vm_compute in Ho|].
  destruct (worker_isolation (E := env_world) (view := w_view) (C := sample_crypto) (mux := sample_mux)
    sample_config (sample []) sample_served
    [(KindInviteCollaborator, sample_invite_task, v_db (w_view (sample [])));
     (KindReconcileGuild, None, v_db (w_view (sample_step (sample []) KindInviteCollaborator sample_invite_task)))]
    sample_config_ok) as [H1 H2].
  { apply (history_task _ _ [_] _ _ None KindReconcileGuild); [|vm_compute; reflexivity].
    apply (history_task _ _ [] _ _ sample_invite_task KindInviteCollaborator); [|vm_compute; reflexivity].
    apply history_start. }
  split; [|by apply H1].
  apply H2.
  - intros p raw db [Hin|Hin]%two_elements; apply pair_equal_spec in Hin as [[-> ->]%pair_equal_spec ->];
      (split; [apply sample_nobody; vm_compute; reflexivity|]); intros [Hk _]; discriminate Hk.
  - eexists. split; [vm_compute; reflexivity|]. done.
Defined.
