(* ===== verification/Gin.v ===== *)
(** * Gin: requests, responses and handler chains of the API

    What the handlers and the middleware use of gin: a request with the route pattern it matched,
    its parameters, headers and query, the response a handler writes, middleware that answers or
    calls the next handler. encoding/json, the validator, net/url and google/uuid are the class
    [Web]. *)
From S2P Require Import Prelude Errors Domain Schema Services GoStrings.

(** ** Times as text *)

(** The civil date of a day counted from 1970-01-01. *)
Definition civil_from_days (days : Z) : Z * Z * Z :=
  let z := days + 719468 in
  let era := z / 146097 in
  let doe := z mod 146097 in
  let yoe := (doe - doe / 1460 + doe / 36524 - doe / 146096) / 365 in
  let doy := doe - (365 * yoe + yoe / 4 - yoe / 100) in
  let mp := (5 * doy + 2) / 153 in
  let d := doy - (153 * mp + 2) / 5 + 1 in
  let m := if mp <? 10 then mp + 3 else mp - 9 in
  (yoe + era * 400 + (if m <=? 2 then 1 else 0), m, d).

(** Decimal digits, [n] of them. *)
Fixpoint digits (n : nat) (x : Z) : string :=
  match n with
  | O => ""
  | S n => digits n (x / 10) +:+ String (Ascii.ascii_of_nat (Z.to_nat (48 + x mod 10))) ""
  end%string.

Definition seconds_text (t : Z) : string :=
  let s := t / Second in
  let '(y, m, d) := civil_from_days (s / 86400) in
  let r := s mod 86400 in
  (digits 4 y +:+ "-" +:+ digits 2 m +:+ "-" +:+ digits 2 d +:+ "T" +:+
   digits 2 (r / 3600) +:+ ":" +:+ digits 2 (r / 60 mod 60) +:+ ":" +:+ digits 2 (r mod 60))%string.

(** Cut the trailing zeros of a fraction of nine digits. *)
Fixpoint trim_fraction (n : nat) (f : Z) : string :=
  match n with
  | O => ""
  | S n' => if (f mod 10 =? 0)%Z then trim_fraction n' (f / 10) else digits n f
  end%string.

(** [t.UTC().Format(time.RFC3339)] and [time.RFC3339Nano], for times in the years 0 to 9999. *)
Definition RFC3339 (t : Z) : string := (seconds_text t +:+ "Z")%string.
Definition RFC3339Nano (t : Z) : string :=
  let f := t mod Second in
  (seconds_text t +:+ (if (f =? 0)%Z then "" else "." +:+ trim_fraction 9 f) +:+ "Z")%string.

Example RFC3339Nano_sample : RFC3339Nano 1709210096123456000 = "2024-02-29T12:34:56.123456Z"%string.
Proof. vm_compute. reflexivity. Qed.

(** ** Requests and responses *)
Record Request : Type := mkRequest {
  rq_Method : string;
  rq_FullPath : string;                   (* the matched route pattern *)
  rq_Params : list (string * string);
  rq_Header : list (string * string);     (* by canonical name *)
  rq_Query : list (string * string);
  rq_Body : result error string
}.
Inductive Body : Type :=
| BJSON (j : json)
| BData (bytes : string)
| BEmpty.
Record Response : Type := mkResponse {
  rs_Status : Z; rs_Header : list (string * string); rs_Body : Body }.

Fixpoint find (k : string) (l : list (string * string)) : option string :=
  match l with
  | [] => None
  | (k', v) :: rest => if decide (k = k') then Some v else find k rest
  end.

(** [c.GetHeader], [c.Query] and [c.Param]: the first value, or the empty string. *)
Definition GetHeader (k : string) (r : Request) : string := default ""%string (find k (rq_Header r)).
Definition Query (k : string) (r : Request) : string := default ""%string (find k (rq_Query r)).
Definition DefaultQuery (k d : string) (r : Request) : string := default d (find k (rq_Query r)).
Definition Param (k : string) (r : Request) : string := default ""%string (find k (rq_Params r)).

(** [c.Header(k, v)] before the response [r] is written. *)
Definition with_header (k v : string) (r : Response) : Response :=
  mkResponse (rs_Status r) ((k, v) :: rs_Header r) (rs_Body r).
(** [c.JSON(code, obj)] *)
Definition JSON (code : Z) (fields : list (string * json)) : Response :=
  mkResponse code [] (BJSON (JObj fields)).
(** [gin.H{"code": ..., "message": ...}] *)
Definition problem (status : Z) (code message : string) : Response :=
  JSON status [("code"%string, JStr code); ("message"%string, JStr message)].

Definition StatusOK : Z := 200.
Definition StatusCreated : Z := 201.
Definition StatusAccepted : Z := 202.
Definition StatusFound : Z := 302.
Definition StatusBadRequest : Z := 400.
Definition StatusUnauthorized : Z := 401.
Definition StatusForbidden : Z := 403.
Definition StatusNotFound : Z := 404.
Definition StatusConflict : Z := 409.
Definition StatusInternalServerError : Z := 500.
Definition StatusNotImplemented : Z := 501.
Definition StatusBadGateway : Z := 502.

(** A pointer field in a response: null when nil. *)
Definition jopt (o : option string) : json := match o with Some s => JStr s | None => JNull end.
(** A field tagged [omitempty]. *)
Definition jomit (k : string) (o : option string) : list (string * json) :=
  match o with Some s => [(k, JStr s)] | None => [] end.

(** Decoding a [*string] field. *)
Definition jopt_string (k : string) (fs : list (string * json)) : option (option string) :=
  match jfield k fs with
  | None | Some JNull => Some None
  | Some (JStr s) => Some (Some s)
  | Some _ => None
  end.

(** The libraries the handlers call: the first document of a JSON stream, the text of a binding
    error, the validator's e-mail rule, the scheme and host of a request URI, and new UUIDs. *)
Class Web (W : Type) : Type := {
  json_Decode : string -> option json;
  bind_error : string -> string;
  validator_email : string -> bool;
  url_ParseRequestURI : string -> option (string * string);
  uuid_New : M W string
}.
Class WebLaws {W} (view : W -> View) (X : Web W) : Prop :=
  uuid_New_law : Spec view uuid_New (fun v _ v' => v' = v).
#[export] Existing Instance uuid_New_law.

(** [c.ShouldBindJSON(&req)] for a struct decoded by [dec] and validated by [ok]: the value, or
    the text of the error. A document that is no object cannot be bound; null leaves the zero
    struct. *)
Definition ShouldBindJSON {W} `{Web W} {A} (dec : list (string * json) -> option A) (ok : A -> bool)
    (r : Request) : A + string :=
  match rq_Body r with
  | Err _ => inr (bind_error "")
  | Ok body =>
      match json_Decode body with
      | Some JNull => match dec [] with
                      | Some a => if ok a then inl a else inr (bind_error body)
                      | None => inr (bind_error body)
                      end
      | Some (JObj fs) => match dec fs with
                          | Some a => if ok a then inl a else inr (bind_error body)
                          | None => inr (bind_error body)
                          end
      | _ => inr (bind_error body)
      end
  end.
