(* ===== verification/Authz.v ===== *)
(** * Authz: who may call the API, internal/authz and the authentication middleware

    Layer A turns the bearer key into a principal (internal/api/middleware/middleware.go), Layer B
    decides on it (internal/authz/authz.go). The log is not modelled. *)
From S2P Require Import Prelude Errors Domain Schema Services Postgres StoreSpec GoStrings.
From S2P Require Import Lock Encoding Secrets Gin.

(** ** Layer B *)

(** [PrincipalType], internal/authz/authz.go:17-27. *)
Inductive PrincipalType : Type := PrincipalTypeService | PrincipalTypeSession.
(** [Principal], internal/authz/authz.go:32-51. *)
Record Principal : Type := mkPrincipal {
  pr_Type : PrincipalType; pr_KeyID : string; pr_UserID : string; pr_IsAdmin : bool; pr_KeyScope : string }.
(** [ScopeBackoffice], internal/authz/authz.go:64. *)
Definition ScopeBackoffice : string := "backoffice".

(** [RequireControlPlane], internal/authz/authz.go:76-86. *)
Definition RequireControlPlane (p : option Principal) : bool :=
  match p with
  | None => false
  | Some p => if decide (pr_KeyScope p = ScopeBackoffice) then true else pr_IsAdmin p
  end.
(** [RequireAdmin], internal/authz/authz.go:91-96. *)
Definition RequireAdmin (p : option Principal) : bool :=
  match p with None => false | Some p => pr_IsAdmin p end.
(** [RequireAuthenticated], internal/authz/authz.go:101-103. *)
Definition RequireAuthenticated (p : option Principal) : bool := bool_decide (is_Some p).

(** [HashAPIKey], internal/authz/authz.go:111-114. *)
Definition HashAPIKey `{Crypto} (rawKey : string) : string := sha256 rawKey.

(** [GenerateAPIKey], internal/authz/authz.go:119-125. *)
Definition GenerateAPIKey {W} `{Env W} : M W (result error string) :=
  b <-? rand_Read 32 onerr e => ret (Err (Wrap "authz: generate api key: " e)) ;;
  ret (Ok (hex_encode b)).

(** ** Layer A *)

(** [strings.EqualFold(s, "bearer")]: no letter of the word folds to anything but its two cases. *)
Definition ascii_lower (a : ascii) : ascii :=
  let n := Ascii.nat_of_ascii a in
  if Nat.leb 65 n && Nat.leb n 90 then Ascii.ascii_of_nat (n + 32) else a.
Fixpoint lower (s : string) : string :=
  match s with EmptyString => EmptyString | String a s => String (ascii_lower a) (lower s) end.
Definition EqualFold_bearer (s : string) : bool := bool_decide (lower s = "bearer"%string).

(** [strings.TrimSpace] on bytes: the white space in front, then the bytes up to the last rune that is no
    white space (the runes of a string are found the same way from both ends). *)
Fixpoint trim_left_fuel (n : nat) (bs : list Z) : list Z :=
  match n, bs with
  | S n, _ :: _ => let '(r, rest) := decode_rune bs in if IsSpace r then trim_left_fuel n rest else bs
  | _, _ => bs
  end.
Fixpoint keep_right_fuel (n : nat) (bs : list Z) (upto best : nat) : nat :=
  match n, bs with
  | S n, _ :: _ =>
      let '(r, rest) := decode_rune bs in
      let upto := (upto + (length bs - length rest))%nat in
      keep_right_fuel n rest upto (if IsSpace r then best else upto)
  | _, _ => best
  end.
Definition TrimSpace (s : string) : string :=
  let bs := bytes_of s in
  let l := trim_left_fuel (length bs) bs in
  string_of_bytes (take (keep_right_fuel (length l) l 0 0) l).

(** [extractBearer], internal/api/middleware/middleware.go:143-157. *)
Definition extractBearer (header : string) : option string :=
  let header := TrimSpace header in
  if decide (header = ""%string) then None
  else match Cut header " "%char with
       | None => None
       | Some (scheme, rest) =>
           if negb (EqualFold_bearer scheme) then None
           else let token := TrimSpace rest in
                if decide (token = ""%string) then None else Some token
       end.

(** The gin context as far as it is used: the request, the principal and the idempotency key the middleware
    stored. *)
Record Ctx : Type := mkCtx { cx_Request : Request; cx_Principal : option Principal; cx_IdempotencyKey : string }.

Section Middleware.
Context {W : Type} {E : Env W} {C : Crypto}.

(** A handler answers; a middleware answers or calls the rest of the chain. *)
Definition Handler : Type := Ctx -> M W Response.
Definition Middleware : Type := Handler -> Handler.

(** [newRequestID], internal/api/middleware/middleware.go:166-170: zeros when the random source fails. *)
Definition newRequestID : M W string :=
  b <- rand_Read 8 ;;
  ret (hex_encode (match b with Ok b => b | Err _ => replicate 8 (Ascii.ascii_of_nat 0) end)).

(** [RequestID], internal/api/middleware/middleware.go:37-47. *)
Definition RequestID : Middleware := fun next c =>
  let id := GetHeader "X-Request-Id" (cx_Request c) in
  id <- (if decide (id = ""%string) then newRequestID else ret id) ;;
  r <- next c ;;
  ret (with_header "X-Request-Id" id r).

(** [abortUnauthorized], internal/api/middleware/middleware.go:159-164. *)
Definition abortUnauthorized (msg : string) : Response := problem StatusUnauthorized "unauthorized" msg.

(** [authMiddleware], internal/api/middleware/middleware.go:82-127. The update of [last_used_at] runs in a
    goroutine of its own; here it is done before the handler starts. *)
Definition authMiddleware : Middleware := fun next c =>
  match extractBearer (GetHeader "Authorization" (cx_Request c)) with
  | None => ret (abortUnauthorized "missing or malformed Authorization header")
  | Some rawKey =>
      k <- LookupActiveAPIKeyByHash (HashAPIKey rawKey) ;;
      match k with
      | Err e =>
          ret (if errors_Is e ErrNotFound then abortUnauthorized "invalid or revoked api key"
               else problem StatusInternalServerError "internal_error" "authentication service unavailable")
      | Ok apiKey =>
          t <- TouchAPIKeyLastUsed (ak_ID apiKey) ;;
          next (mkCtx (cx_Request c)
                  (Some (mkPrincipal PrincipalTypeService (ak_ID apiKey) "" false (ak_Scope apiKey)))
                  (cx_IdempotencyKey c))
      end
  end.

(** [noopAuth], internal/api/router.go:175-177. *)
Definition noopAuth : Middleware := fun next c => next c.

(** [Auth], internal/api/middleware/middleware.go:77-79; the choice of [NewRouter],
    internal/api/router.go:88-93. *)
Definition Auth (store : bool) : Middleware := if store then authMiddleware else noopAuth.
End Middleware.
