(* ===== verification/Config.v ===== *)
(** * Config: runtime settings from the environment, internal/config/config.go *)
From S2P Require Import Prelude Errors Services GoStrings Encoding Authz.

(** [Config], internal/config/config.go:15-63. *)
Record Config : Type := mkConfig {
  HTTPAddr : string;
  PostgresDSN : string;
  ValkeyAddr : string;
  ValkeyPassword : string;
  ValkeyDB : Z;
  DiscordBotToken : string;
  DiscordGuildID : string;
  DiscordAgentRoleID : string;
  DiscordCategoryID : string;
  DiscordOAuthClientID : string;
  DiscordOAuthClientSecret : string;
  DiscordOAuthRedirectURL : string;
  OAuthHMACSecret : string;
  CORSAllowedOrigins : list string;
  EncryptionKey : string;
  AgentNicknameSuffix : string;
  LogLevel : string;
  WorkerConcurrency : Z;
  ReconcileSweepCron : string
}.

(** [os.Getenv]: the empty string for a variable that is not set. *)
Definition Environment : Type := string -> string.

(** [strconv.Atoi]: a sign, then digits; within 64 bits. *)
Definition Atoi (s : string) : option Z :=
  let '(sign, ds) := match bytes_of s with
                     | 43 :: ds => (1, ds)
                     | 45 :: ds => (-1, ds)
                     | ds => (1, ds)
                     end in
  match ds with
  | [] => None
  | _ => if forallb (fun b => (48 <=? b) && (b <=? 57)) ds
         then let n := sign * foldl (fun n b => n * 10 + (b - 48)) 0 ds in
              if (int64_min <=? n) && (n <=? int64_max) then Some n else None
         else None
  end.

(** [strings.Split(s, sep)] for a separator of one byte. *)
Fixpoint Split_fuel (n : nat) (s : string) (sep : Ascii.ascii) : list string :=
  match n with
  | O => [s]
  | S n => match Cut s sep with
           | None => [s]
           | Some (l, r) => l :: Split_fuel n r sep
           end
  end.
(** Every cut takes a byte away. *)
Definition Split (s : string) (sep : Ascii.ascii) : list string := Split_fuel (String.length s) s sep.

Section Load.
Context (env : Environment).

(** [getEnv], internal/config/config.go:169-174. *)
Definition getEnv (key fallback : string) : string :=
  let v := env key in if decide (v = ""%string) then fallback else v.

(** [getEnvInt], internal/config/config.go:176-186. *)
Definition getEnvInt (key : string) (fallback : Z) : result error Z :=
  let v := env key in
  if decide (v = ""%string) then Ok fallback
  else match Atoi v with
       | None => Err (New ("expected integer, got " +:+ v))
       | Some n => Ok n
       end.

(** The origins of a list separated by commas, internal/config/config.go:100-107. *)
Definition origins (raw : string) : list string :=
  if decide (raw = ""%string) then []
  else filter (fun o => o <> ""%string) (TrimSpace <$> Split raw ","%char).

(** [Load], internal/config/config.go:68-110. *)
Definition Load : result error Config :=
  match getEnvInt "VALKEY_DB" 0 with
  | Err e => Err (Wrap "config: VALKEY_DB: " e)
  | Ok db =>
      match getEnvInt "WORKER_CONCURRENCY" 10 with
      | Err e => Err (Wrap "config: WORKER_CONCURRENCY: " e)
      | Ok concurrency =>
          Ok (mkConfig (getEnv "HTTP_ADDR" ":8080") (getEnv "POSTGRES_DSN" "") (getEnv "VALKEY_ADDR" "localhost:6379")
                (getEnv "VALKEY_PASSWORD" "") db (getEnv "DISCORD_BOT_TOKEN" "") (getEnv "DISCORD_GUILD_ID" "")
                (getEnv "DISCORD_AGENT_ROLE_ID" "") (getEnv "DISCORD_CATEGORY_ID" "") (getEnv "DISCORD_OAUTH_CLIENT_ID" "")
                (getEnv "DISCORD_OAUTH_CLIENT_SECRET" "") (getEnv "DISCORD_OAUTH_REDIRECT_URL" "")
                (getEnv "OAUTH_HMAC_SECRET" "") (origins (getEnv "CORS_ALLOWED_ORIGINS" "")) (getEnv "ENCRYPTION_KEY" "")
                (getEnv "AGENT_NICKNAME_SUFFIX" "") (getEnv "LOG_LEVEL" "info") concurrency
                (getEnv "RECONCILE_SWEEP_CRON" "*/5 * * * *"))
      end
  end.
End Load.

(** [RequireDiscordToken], internal/config/config.go:114-119. *)
Definition RequireDiscordToken (c : Config) : result error unit :=
  if decide (DiscordBotToken c = ""%string) then Err (New "config: DISCORD_BOT_TOKEN is required but not set") else Ok tt.

(** [RequirePostgresDSN], internal/config/config.go:122-127. *)
Definition RequirePostgresDSN (c : Config) : result error unit :=
  if decide (PostgresDSN c = ""%string) then Err (New "config: POSTGRES_DSN is required but not set") else Ok tt.

(** [RequireAgentRoleID], internal/config/config.go:133-142. *)
Definition RequireAgentRoleID (c : Config) : result error unit :=
  if decide (DiscordAgentRoleID c = ""%string) then Err (New "config: DISCORD_AGENT_ROLE_ID is required but not set")
  else if negb (bool_decide (DiscordGuildID c = ""%string)) && bool_decide (DiscordAgentRoleID c = DiscordGuildID c)
  then Err (New "config: DISCORD_AGENT_ROLE_ID must not equal DISCORD_GUILD_ID")
  else Ok tt.

(** [RequireEncryptionKey], internal/config/config.go:145-150. *)
Definition RequireEncryptionKey (c : Config) : result error unit :=
  if decide (EncryptionKey c = ""%string) then Err (New "config: ENCRYPTION_KEY is required but not set") else Ok tt.

(** [ValidateEncryptionKey], internal/config/config.go:155-167. *)
Definition ValidateEncryptionKey (c : Config) : result error unit :=
  if decide (EncryptionKey c = ""%string) then Err (New "config: ENCRYPTION_KEY is required but not set")
  else match Std_DecodeString (EncryptionKey c) with
       | None => Err (Wrap "config: ENCRYPTION_KEY is not valid base64: " (External "base64"))
       | Some decoded => if negb (Nat.eqb (String.length decoded) 32)
                         then Err (New "config: ENCRYPTION_KEY must decode to exactly 32 bytes (AES-256)") else Ok tt
       end.

(** ** What a loaded configuration satisfies *)

(** Variables are only replaced when they are empty: an empty schedule is the default one. *)
Lemma Load_sweep env c : Load env = Ok c -> ReconcileSweepCron c <> ""%string.
Proof.
  unfold Load. destruct (getEnvInt _ _ _); [|done]. destruct (getEnvInt _ _ _); [|done]. intros [= <-]. cbn.
  unfold getEnv. by case_decide.
Qed.

Lemma Load_origins env c : Load env = Ok c -> ""%string ∉ CORSAllowedOrigins c.
Proof.
  unfold Load. destruct (getEnvInt _ _ _); [|done]. destruct (getEnvInt _ _ _); [|done]. intros [= <-]. cbn.
  unfold origins. case_decide; [apply not_elem_of_nil|]. intros Hin. by apply list_elem_of_filter in Hin as [Hne _].
Qed.

Lemma RequireAgentRoleID_distinct c : RequireAgentRoleID c = Ok tt ->
  DiscordAgentRoleID c <> ""%string /\ DiscordAgentRoleID c <> DiscordGuildID c.
Proof.
  unfold RequireAgentRoleID. case_decide as Ha; [done|]. destruct (negb _ && _) eqn:Hb; [done|]. intros _.
  split; [done|]. intros He. apply andb_false_iff in Hb as [Hb|Hb].
  - apply negb_false_iff, bool_decide_eq_true in Hb. congruence.
  - by apply bool_decide_eq_false in Hb.
Qed.

Lemma ValidateEncryptionKey_length c : ValidateEncryptionKey c = Ok tt ->
  exists key, Std_DecodeString (EncryptionKey c) = Some key /\ String.length key = 32%nat.
Proof.
  unfold ValidateEncryptionKey. case_decide; [done|]. destruct (Std_DecodeString _) as [key|]; [|done].
  destruct (Nat.eqb_spec (String.length key) 32); [|done]. eauto.
Qed.

Example Load_sample :
  let env k := if decide (k = "CORS_ALLOWED_ORIGINS"%string) then "https://a , ,https://b"%string
               else if decide (k = "VALKEY_DB"%string) then "-3"%string else ""%string in
  match Load env with
  | Ok c => CORSAllowedOrigins c = ["https://a"; "https://b"]%string /\ ValkeyDB c = -3 /\ WorkerConcurrency c = 10
  | Err _ => False
  end.
Proof. vm_compute. repeat split. Qed.
