(* ===== verification/Idempotency.v ===== *)
(** * Idempotency: replay of mutating requests, internal/api/middleware/idempotency.go *)
From S2P Require Import Prelude Errors Domain Schema Services Postgres StoreSpec GoStrings.
From S2P Require Import Lock Encoding Secrets Gin Authz.

(** [idempotencyTTL], internal/api/middleware/idempotency.go:20. *)
Definition idempotencyTTL : Z := 24 * Hour.

(** [hashRequest], internal/api/middleware/idempotency.go:143-149. The path is the route pattern. *)
Definition hashRequest `{Crypto} (method path body : string) : string :=
  sha256 (method +:+ path +:+ body).

Section Middleware.
Context {W : Type} {E : Env W} {C : Crypto}.

(** [Idempotency], internal/api/middleware/idempotency.go:32-106. *)
Definition Idempotency (store : bool) : Middleware (W := W) := fun next c =>
  if negb store then next c
  else
    let key := GetHeader "Idempotency-Key" (cx_Request c) in
    if decide (key = ""%string) then next c
    else match rq_Body (cx_Request c) with
    | Err _ => ret (problem StatusBadRequest "validation_error" "could not read request body")
    | Ok body =>
        let reqHash := hashRequest (rq_Method (cx_Request c)) (rq_FullPath (cx_Request c)) body in
        let with_key := mkCtx (cx_Request c) (cx_Principal c) key in
        existing <- GetIdempotencyKey key ;;
        match existing with
        | Err e =>
            if errors_Is e ErrNotFound then
              now <- time_Now ;;
              ins <- InsertIdempotencyKey (mkInsertIdempotencyKeyParams key reqHash None (now + idempotencyTTL)) ;;
              match ins with
              | Ok _ => next with_key
              | Err e => if errors_Is e ErrConflict then next with_key
                         else ret (problem StatusInternalServerError "internal_error" "idempotency registration failed")
              end
            else ret (problem StatusInternalServerError "internal_error" "idempotency check failed")
        | Ok existing =>
            if negb (bool_decide (ik_RequestHash existing = reqHash))
            then ret (problem StatusConflict "idempotency_conflict" "Idempotency-Key reused with a different request body")
            else match ik_ResponseCode existing, ik_ResponseBody existing with
                 | Some code, Some body => ret (with_header "Idempotency-Replay" "true" (JSON code body))
                 | _, _ => next with_key
                 end
        end
    end.

(** [StoreIdempotencyResponse], internal/api/middleware/idempotency.go:118-140, for a handler whose store is
    there. *)
Definition StoreIdempotencyResponse (key : string) (code : Z) (body : list (string * json)) (jobID : option string)
    : M W unit :=
  if decide (key = ""%string) then ret tt
  else
    r <- UpdateIdempotencyKeyResponse (mkUpdateIdempotencyKeyResponseParams key
           (if code >=? 400 then JobStatusArchived else JobStatusPending) code (Some body) jobID) ;;
    ret tt.
End Middleware.

(** ** What the middleware promises *)
Section Proofs.
Context {W : Type} {E : Env W} {view : W -> View} {L : EnvLaws E view} {C : Crypto}.

#[export] Instance GetIdempotencyKey_spec key : Spec view (GetIdempotencyKey key) (fun v r v' => v' = v /\
  ((exists row, r = Ok row /\ t_idempotency_keys (v_db v) !! key = Some row) \/
   r = Err ErrNotFound \/ (exists e, opaque e /\ r = Err e))).
Proof.
  apply spec_query. unfold sql_get_idempotency_key. intros v r v' [H|[H|H]].
  - destruct H as (st & a & db' & [= <- <-] & -> & ->). rewrite with_db_same. split; [done|].
    destruct (t_idempotency_keys (v_db v) !! key) as [row|] eqn:Hr; [|by auto].
    destruct (st_now st <? ik_ExpiresAt row) eqn:Hx.
    + left. by exists row.
    + by right; left.
  - by destruct H as (st & e & Hq & _).
  - destruct H as (e & He & -> & Hv). split.
    + destruct Hv as [->|(st & a & db' & [= <- <-] & ->)]; [done|]. apply with_db_same.
    + right; right. destruct (scan_row_opaque (A := IdempotencyKey) "postgres: scan idempotency_key: " e He)
        as (e' & He' & Hs). exists e'. by rewrite <-Hs.
Qed.

(** Registering a key: the new row, or none. *)
Definition key_registered (key hash : string) (v v' : View) : Prop :=
  v' = v \/ exists now expires, t_idempotency_keys (v_db v) !! key = None /\
    v' = with_db (set_idempotency_keys (<[key := mkIdempotencyKey key hash JobStatusPending None None None now expires]>
                    (t_idempotency_keys (v_db v))) (v_db v)) v.

#[export] Instance InsertIdempotencyKey_spec key hash expires :
  Spec view (InsertIdempotencyKey (mkInsertIdempotencyKeyParams key hash None expires)) (fun v r v' =>
    key_registered key hash v v' /\
    (r = Err ErrConflict -> is_Some (t_idempotency_keys (v_db v) !! key))).
Proof.
  apply spec_query. unfold sql_insert_idempotency_key. cbn [iik_Key iik_JobID fk negb iik_RequestHash iik_ExpiresAt].
  assert (Hex : forall v st a db', (if bool_decide (is_Some (t_idempotency_keys (v_db v) !! key))
      then Err (PgError pgUniqueViolation)
      else Ok (Some (mkIdempotencyKey key hash JobStatusPending None None None (st_now st) expires),
             set_idempotency_keys (<[key := mkIdempotencyKey key hash JobStatusPending None None None (st_now st) expires]>
               (t_idempotency_keys (v_db v))) (v_db v))) = Ok (E := error) (a, db') -> key_registered key hash v (with_db db' v)).
  { intros v st a db' H. case_bool_decide as Hb; [done|]. injection H as <- <-. right. exists (st_now st), expires.
    split; [|done]. by apply eq_None_not_Some. }
  intros v r v' [H|[H|H]].
  - destruct H as (st & a & db' & Hq & -> & ->). split; [by eapply Hex|]. case_bool_decide; [done|].
    by injection Hq as <- <-.
  - destruct H as (st & e & Hq & -> & ->). split; [by left|]. intros _. by case_bool_decide.
  - destruct H as (e & He & -> & Hv). split.
    + destruct Hv as [->|(st & a & db' & Hq & ->)]; [by left|by eapply Hex].
    + destruct (scan_row_opaque (A := IdempotencyKey) "postgres: scan idempotency_key: " e He) as (e' & He' & Hs).
      unfold scanIdempotencyKey. rewrite Hs, conflict_opaque by done. intros [= ->].
      destruct He' as (_ & H & _). by vm_compute in H.
Qed.

(** What an answer of the middleware itself is: the stored response, or a refusal. *)
Inductive idem_outcome (key hash : string) (bodyless : bool) (v : View) : Response -> View -> Prop :=
| idem_replay row code body : t_idempotency_keys (v_db v) !! key = Some row ->
    ik_RequestHash row = hash -> ik_ResponseCode row = Some code -> ik_ResponseBody row = Some body ->
    idem_outcome key hash bodyless v (with_header "Idempotency-Replay" "true" (JSON code body)) v
| idem_mismatch row msg : t_idempotency_keys (v_db v) !! key = Some row ->
    ik_RequestHash row <> hash -> idem_outcome key hash bodyless v (problem StatusConflict "idempotency_conflict" msg) v
| idem_failed msg v' : key_registered key hash v v' ->
    idem_outcome key hash bodyless v (problem StatusInternalServerError "internal_error" msg) v'
| idem_unreadable msg : bodyless = true ->
    idem_outcome key hash bodyless v (problem StatusBadRequest "validation_error" msg) v.

(** When the next handler is called with the key: the row of the same request has no response yet, or no
    row is found (none is there or it is over) and one may have been registered. *)
Definition idem_passes (key hash : string) (v v' : View) : Prop :=
  (exists row, t_idempotency_keys (v_db v) !! key = Some row /\
     ik_RequestHash row = hash /\ (ik_ResponseCode row = None \/ ik_ResponseBody row = None) /\ v' = v) \/
  key_registered key hash v v'.

(** The hash of a request. *)
Definition request_hash (r : Request) : string :=
  hashRequest (rq_Method r) (rq_FullPath r) (match rq_Body r with Ok b => b | Err _ => "" end).

(** The middleware in front of any handler: it answers itself, or passes on. *)
Lemma Idempotency_wp next c w (Q : Response -> View -> Prop) :
  let key := GetHeader "Idempotency-Key" (cx_Request c) in
  (key = ""%string -> wp view (next c) Q w) ->
  (key <> ""%string -> forall r v', idem_outcome key (request_hash (cx_Request c)) (negb (is_Ok (rq_Body (cx_Request c)))) (view w) r v' -> Q r v') ->
  (key <> ""%string -> forall w', idem_passes key (request_hash (cx_Request c)) (view w) (view w') ->
     wp view (next (mkCtx (cx_Request c) (cx_Principal c) key)) Q w') ->
  wp view (Idempotency true next c) Q w.
Proof.
  intros key Hnone Hans Hpass. unfold Idempotency. cbn [negb]. fold key.
  case_decide as Hk; [by apply Hnone|]. specialize (Hans Hk). specialize (Hpass Hk).
  unfold request_hash in *. destruct (rq_Body (cx_Request c)) as [body|e]; cbn [is_Ok negb] in *;
    [|by apply wp_ret, Hans, idem_unreadable].
  set (hash := hashRequest _ _ body) in *.
  go_step. destruct H as [Hv H]. destruct H as [(row & -> & Hrow)|[->|(e & He & ->)]].
  - case_bool_decide as Hh; cbn [negb].
    + destruct (ik_ResponseCode row) as [code|] eqn:Hc; [destruct (ik_ResponseBody row) as [rb|] eqn:Hb|].
      * apply wp_ret. rewrite Hv. apply Hans. by eapply idem_replay.
      * apply Hpass. left. rewrite Hv. exists row. auto 8.
      * apply Hpass. left. rewrite Hv. exists row. auto 8.
    + apply wp_ret. rewrite Hv. apply Hans. by eapply idem_mismatch.
  - change (errors_Is ErrNotFound ErrNotFound) with true. cbn iota.
    go_step. go_step. destruct H0 as [Hreg Hconf]. rewrite H, Hv in Hreg.
    assert (Hp : idem_passes key hash (view w) (view w'1)) by (right; done).
    destruct a0 as [k|e]; [by apply Hpass|]. destruct (errors_Is e ErrConflict); [by apply Hpass|].
    apply wp_ret, Hans. by apply idem_failed.
  - rewrite (proj1 He). apply wp_ret. rewrite Hv. apply Hans, idem_failed. by left.
Qed.

(** A read of a key before its row expires. *)
Lemma GetIdempotencyKey_live key row w :
  t_idempotency_keys (v_db (view w)) !! key = Some row -> pg_before (ik_ExpiresAt row) w ->
  view (GetIdempotencyKey key w).2 = view w /\
  ((GetIdempotencyKey key w).1 = Ok row \/ exists e, opaque e /\ (GetIdempotencyKey key w).1 = Err e).
Proof.
  intros Hrow Hb.
  pose proof (GetIdempotencyKey_spec key w) as [Hv H]. split; [done|].
  destruct H as [(row' & Hr & Hrow')|[Hr|H]]; [left; congruence| |by right]. exfalso.
  unfold GetIdempotencyKey, QueryRow, bind, ret in Hr.
  pose proof (pg_exec_until _ (sql_get_idempotency_key key) w Hb) as Ho.
  destruct (pg_exec (sql_get_idempotency_key key) w) as [r w1]; cbn [fst snd] in *.
  destruct Ho as [Ho|[Ho|Ho]].
  - destruct Ho as (st & a & db & Hq & -> & _). unfold pg_until in Hq.
    destruct (st_now st <? ik_ExpiresAt row) eqn:Hlt; [|done]. unfold sql_get_idempotency_key in Hq.
    rewrite Hrow, Hlt in Hq. injection Hq as <- _. by cbn in Hr.
  - destruct Ho as (st & e & Hq & -> & _). unfold pg_until in Hq. destruct (st_now st <? _) eqn:Hlt; [done|].
    injection Hq as <-. by vm_compute in Hr.
  - destruct Ho as (e & He & -> & _). destruct (scan_row_opaque (A := IdempotencyKey) "postgres: scan idempotency_key: " e He)
      as (e' & He' & Hs). unfold scanIdempotencyKey in Hr. rewrite Hs in Hr. injection Hr as ->.
    destruct He' as (H1 & _). by vm_compute in H1.
Qed.

(** C20: a repeated request is not executed again, if its response was recorded. While the record of a key
    lives, a request with that key whose method, route and body have the recorded hash gets the recorded
    response; one with another hash is refused with 409; and one whose first execution recorded no response
    is passed on and executed again. When the store does not answer the request is refused with 500. Unless it is
    passed on, nothing changes and the handler, whatever it is, does not run. *)
Theorem idempotent_request (next : Handler) (c : Ctx) (body : string) (row : IdempotencyKey) (w : W) :
  let key := GetHeader "Idempotency-Key" (cx_Request c) in
  let hash := hashRequest (rq_Method (cx_Request c)) (rq_FullPath (cx_Request c)) body in
  key <> ""%string -> rq_Body (cx_Request c) = Ok body ->
  t_idempotency_keys (v_db (view w)) !! key = Some row -> pg_before (ik_ExpiresAt row) w ->
  let '(r, w') := Idempotency true next c w in
  (r = problem StatusInternalServerError "internal_error" "idempotency check failed" /\ view w' = view w) \/
  match ik_ResponseCode row, ik_ResponseBody row with
  | Some code, Some stored =>
      r = (if decide (ik_RequestHash row = hash) then with_header "Idempotency-Replay" "true" (JSON code stored)
           else problem StatusConflict "idempotency_conflict" "Idempotency-Key reused with a different request body") /\
      view w' = view w
  | _, _ =>
      if decide (ik_RequestHash row = hash)
      then exists w1, view w1 = view w /\ (r, w') = next (mkCtx (cx_Request c) (cx_Principal c) key) w1
      else r = problem StatusConflict "idempotency_conflict" "Idempotency-Key reused with a different request body" /\
           view w' = view w
  end.
Proof.
  intros key hash Hk Hbody Hrow Hb. unfold Idempotency. cbn [negb]. fold key.
  rewrite decide_False, Hbody by done. fold hash. unfold bind, ret.
  destruct (GetIdempotencyKey_live key row w Hrow Hb) as [Hv Hr].
  destruct (GetIdempotencyKey key w) as [r w1]; cbn [fst snd] in *. destruct Hr as [->|(e & He & ->)].
  - destruct (decide (ik_RequestHash row = hash)) as [He|He].
    + rewrite bool_decide_eq_true_2 by done. cbn [negb].
      destruct (ik_ResponseCode row) as [code|], (ik_ResponseBody row) as [stored|];
        match goal with |- context [next ?c ?w1] => destruct (next c w1) eqn:? | _ => idtac end; right; eauto.
    + rewrite bool_decide_eq_false_2 by done. cbn [negb].
      destruct (ik_ResponseCode row) as [code|], (ik_ResponseBody row) as [stored|]; by right.
  - rewrite (proj1 He). by left.
Qed.
End Proofs.
