(* ===== verification/Api.v ===== *)
(** * Api: what the API handlers share, internal/api/handlers

    The dependencies of the handlers, the answers they have in common and the validation of their
    inputs (handlers.go, merchants.go, spaces.go and collaborators.go). *)
From S2P Require Import Prelude Errors Domain Schema Services Postgres StoreSpec GoStrings.
From S2P Require Import Lock Cache Encoding Secrets OAuth Gin Authz.

(** [Handlers], internal/api/handlers/handlers.go:38-50. Dependencies that may be nil are flags or options;
    the HTTP client is the one of the OAuth calls. *)
Record Handlers (W : Type) : Type := mkHandlers {
  h_store : bool;
  h_queueClient : bool;
  h_cache : Cache W;
  h_discordOAuthClientID : string;
  h_discordOAuthClientSecret : string;
  h_discordOAuthRedirectURL : string;
  h_stateManager : option (StateManager W);
  h_tokenStore : option TokenStore
}.
Arguments h_store {W}. Arguments h_queueClient {W}. Arguments h_cache {W}.
Arguments h_discordOAuthClientID {W}. Arguments h_discordOAuthClientSecret {W}.
Arguments h_discordOAuthRedirectURL {W}. Arguments h_stateManager {W}. Arguments h_tokenStore {W}.

(** [NewHandlers], internal/api/handlers/handlers.go:53-69. *)
Definition NewHandlers {W} (store queueClient : bool) (cache : option (Cache W))
    (clientID secret redirect : string) (sm : option (StateManager W)) (ts : option TokenStore) : Handlers W :=
  mkHandlers W store queueClient (default NoopCache cache) clientID secret redirect sm ts.

(** [notImplemented], internal/api/handlers/handlers.go:72-77. *)
Definition notImplemented : Response :=
  problem StatusNotImplemented "not_implemented" "this endpoint is not yet implemented".
(** [forbidden], internal/api/handlers/handlers.go:80-85. *)
Definition forbidden : Response :=
  problem StatusForbidden "forbidden" "you are not authorized to perform this action".
(** The answer of [Recovery] to a panic, internal/api/middleware/middleware.go:50-69. *)
Definition recovered : Response :=
  problem StatusInternalServerError "internal_error" "an unexpected error occurred".

(** ** Validation *)

(** [for i, ch := range s]: byte offsets and runes. *)
Fixpoint range_fuel (n : nat) (i : Z) (bs : list Z) : list (Z * Z) :=
  match n, bs with
  | S n, _ :: _ =>
      let '(r, rest) := decode_rune bs in
      (i, r) :: range_fuel n (i + Z.of_nat (length bs - length rest)) rest
  | _, _ => []
  end.
Definition range_string (s : string) : list (Z * Z) :=
  let bs := bytes_of s in range_fuel (length bs) 0 bs.

Definition unsafe_rune (ch : Z) : bool :=
  (ch <? 32) || (ch =? 127) || unicode_Cf ch || unicode_Co ch.
(** [rejectUnsafeRunes], internal/api/handlers/spaces.go:54-64: [None] is the empty message. *)
Fixpoint reject_runes (rs : list Z) : option string :=
  match rs with
  | [] => None
  | ch :: rest =>
      if (ch <? 32) || (ch =? 127) then Some "contains disallowed control characters"%string
      else if unicode_Cf ch || unicode_Co ch then Some "contains disallowed Unicode control character"%string
      else reject_runes rest
  end.
(** [rejectUnsafeRunes], internal/api/handlers/spaces.go:54-64. *)
Definition rejectUnsafeRunes (s : string) : option string := reject_runes (runes s).

(** [isNumericSnowflake], internal/api/handlers/collaborators.go:231-241. *)
Definition is_digit (ch : Z) : bool := (48 <=? ch) && (ch <=? 57).
(** [isNumericSnowflake], internal/api/handlers/collaborators.go:231-241. *)
Definition isNumericSnowflake (s : string) : bool :=
  negb (bool_decide (s = ""%string)) && forallb is_digit (runes s).

(** [isHexRune], internal/api/handlers/merchants.go:284-286. *)
Definition isHexRune (r : Z) : bool :=
  is_digit r || ((97 <=? r) && (r <=? 102)) || ((65 <=? r) && (r <=? 70)).
(** [isValidUUID], internal/api/handlers/merchants.go:265-282. *)
Definition isValidUUID (s : string) : bool :=
  Nat.eqb (String.length s) 36 &&
  forallb (fun '(i, ch) => if (i =? 8) || (i =? 13) || (i =? 18) || (i =? 23) then ch =? 45 else isHexRune ch)
    (range_string s).

(** [parseQueryInt], internal/api/handlers/merchants.go:307-317; [n*10 + d] on a 64-bit int. *)
Definition parse_digit (acc : option Z) (ch : Z) : option Z :=
  n ← acc; if is_digit ch then Some (wrap64 (n * 10 + (ch - 48))) else None.
(** [parseQueryInt], internal/api/handlers/merchants.go:307-317. *)
Definition parseQueryInt (s : string) : option Z := foldl parse_digit (Some 0) (runes s).

(** [validateHelpDeskURL], internal/api/handlers/merchants.go:291-303. *)
Definition validateHelpDeskURL {W} `{Web W} (rawURL : string) : option string :=
  match url_ParseRequestURI rawURL with
  | None => Some "must be a valid URL"%string
  | Some (scheme, host) =>
      if negb (bool_decide (scheme = "http"%string)) && negb (bool_decide (scheme = "https"%string))
      then Some "must use http or https scheme"%string
      else if decide (host = ""%string) then Some "must include a host"%string else None
  end.

(** [validateEmailFormat], internal/api/handlers/collaborators.go:212-227. [SplitN(email, "@", 2)] has two
    parts when there is an @. *)
Definition validateEmailFormat (email : string) : option string :=
  match Cut email "@"%char with
  | None => Some "email is not a valid email address"%string
  | Some (l, d) =>
      if bool_decide (l = ""%string) || bool_decide (d = ""%string) then Some "email is not a valid email address"%string
      else if negb (Contains d ".") then Some "email is not a valid email address"%string
      else if existsb unsafe_rune (runes email) then Some "email contains disallowed characters"%string
      else None
  end.

(** [discordChannelNameMaxLen], internal/api/handlers/spaces.go:34. *)
Definition discordChannelNameMaxLen : nat := 100.
(** [discordMessageMaxLen], internal/api/handlers/spaces.go:38. *)
Definition discordMessageMaxLen : nat := 2000.

(** [provisionSpaceRequest], internal/api/handlers/spaces.go:43-47. *)
Record provisionSpaceRequest : Type := mkProvisionSpaceRequest {
  psr_Name : string; psr_CategoryID : option string; psr_WelcomeMessage : option string }.
(** Decoding by the tags of [provisionSpaceRequest], internal/api/handlers/spaces.go:43-47. *)
Definition decode_provisionSpaceRequest (fs : list (string * json)) : option provisionSpaceRequest :=
  n ← jstring "name" fs; c ← jopt_string "category_id" fs; w ← jopt_string "welcome_message" fs;
  Some (mkProvisionSpaceRequest n c w).

(** [validateProvisionRequest], internal/api/handlers/spaces.go:77-101: the trimmed name or a message. *)
Definition validateProvisionRequest (req : provisionSpaceRequest) : string + string :=
  let name := TrimSpace (psr_Name req) in
  if decide (name = ""%string) then inr "name must not be blank after trimming whitespace"%string
  else if Nat.ltb discordChannelNameMaxLen (String.length name) then inr "name exceeds Discord's 100-character limit"%string
  else match rejectUnsafeRunes name with
       | Some msg => inr ("name " +:+ msg)
       | None =>
           match psr_CategoryID req with
           | None => inl name
           | Some catID =>
               if decide (catID = ""%string) then inr "category_id must not be empty when provided"%string
               else if forallb is_digit (runes catID) then inl name
               else inr "category_id must be a numeric Discord snowflake"%string
           end
       end.

(** [parseUUIDParam], internal/api/handlers/merchants.go:253-260. *)
Definition parseUUIDParam (c : Ctx) (name : string) : string + Response :=
  let v := Param name (cx_Request c) in
  if bool_decide (v = ""%string) || negb (isValidUUID v)
  then inr (problem StatusNotFound "not_found" "not found") else inl v.

(** ** What passes validation *)

(** The pattern 8-4-4-4-12 on bytes. *)
Definition uuid_byte (i : Z) (b : Z) : bool :=
  if (i =? 8) || (i =? 13) || (i =? 18) || (i =? 23) then b =? 45 else isHexRune b.
Fixpoint uuid_bytes (i : Z) (bs : list Z) : bool :=
  match bs with [] => true | b :: rest => uuid_byte i b && uuid_bytes (i + 1) rest end.

(** A byte that is no ASCII starts a rune that is no ASCII. *)
Lemma decode_rune_high b bs : 128 <= b -> 128 <= (decode_rune (b :: bs)).1.
Proof.
  intros Hb. unfold decode_rune, RuneError. destruct (b <? 128) eqn:H1; [lia|].
  destruct ((194 <=? b) && (b <=? 223)) eqn:H2; [destruct bs as [|b1 ?]; [done|]; destruct (cont b1) eqn:Hc;
    [cbn; unfold cont in Hc; lia|done]|].
  destruct ((224 <=? b) && (b <=? 239)) eqn:H3.
  { destruct bs as [|b1 [|b2 ?]]; [done..|]. destruct (_ && cont b2) eqn:Hc; [|done]. cbn. unfold cont in Hc.
    destruct (b =? 224) eqn:Hb1; lia. }
  destruct ((240 <=? b) && (b <=? 244)) eqn:H4; [|done].
  destruct bs as [|b1 [|b2 [|b3 ?]]]; [done..|]. destruct (_ && cont b3) eqn:Hc; [|done]. cbn. unfold cont in Hc.
  destruct (b =? 240) eqn:Hb1; lia.
Qed.

Lemma decode_rune_low b bs : b < 128 -> decode_rune (b :: bs) = (b, bs).
Proof. intros Hb. unfold decode_rune. by rewrite (proj2 (Z.ltb_lt _ _) Hb). Qed.

Lemma uuid_byte_low i b : uuid_byte i b = true -> b < 128.
Proof. unfold uuid_byte, isHexRune, is_digit. destruct (_ || _); lia. Qed.

(** A byte-wise predicate that only ASCII satisfies can be checked on the runes. *)
Lemma range_bytes n i bs : (length bs <= n)%nat ->
  forallb (fun '(i, ch) => uuid_byte i ch) (range_fuel n i bs) = uuid_bytes i bs.
Proof.
  revert i bs. induction n as [|n IH]; intros i [|b bs] Hn; cbn in Hn; [done|lia|done|].
  cbn [range_fuel uuid_bytes]. destruct (Z_lt_dec b 128) as [Hb|Hb].
  - rewrite decode_rune_low by done. cbn [forallb]. f_equal.
    replace (Z.of_nat _) with 1 by (cbn [length]; lia). apply IH. lia.
  - pose proof (decode_rune_high b bs ltac:(lia)) as Hr. destruct (decode_rune (b :: bs)) as [r rest].
    cbn [fst forallb] in *. destruct (uuid_byte i r) eqn:H1; [apply uuid_byte_low in H1; lia|].
    destruct (uuid_byte i b) eqn:H2; [apply uuid_byte_low in H2; lia|done].
Qed.

(** The ids that reach the store have the canonical form: exactly the texts of 36 bytes in the groups
    8-4-4-4-12, whatever bytes the path parameter holds (a multi-byte rune at any place, which the
    loop of the check steps over, is refused). *)
Theorem isValidUUID_shape (s : string) :
  isValidUUID s = true <-> length (bytes_of s) = 36%nat /\ uuid_bytes 0 (bytes_of s) = true.
Proof.
  unfold isValidUUID, range_string.
  rewrite andb_true_iff, Nat.eqb_eq. rewrite (range_bytes _ 0 (bytes_of s)) by done.
  enough (length (bytes_of s) = String.length s) as -> by done.
  unfold bytes_of. rewrite length_fmap. induction s as [|a s IH]; [done|]. cbn. by f_equal.
Qed.

Lemma reject_runes_None rs : reject_runes rs = None -> Forall (fun ch => unsafe_rune ch = false) rs.
Proof.
  induction rs as [|ch rs IH]; [constructor|]. cbn [reject_runes]. intros H.
  destruct ((ch <? 32) || (ch =? 127)) eqn:H1; [done|].
  destruct (unicode_Cf ch || unicode_Co ch) eqn:H2; [done|]. constructor; [|auto].
  unfold unsafe_rune. rewrite H1. done.
Qed.

(** A channel name that passes is not blank, fits Discord's limit in bytes and holds no control, format
    or private-use code point, and the category is absent or a string of digits. *)
Theorem validateProvisionRequest_safe (req : provisionSpaceRequest) (name : string) :
  validateProvisionRequest req = inl name ->
  name = TrimSpace (psr_Name req) /\ name <> ""%string /\ (String.length name <= 100)%nat /\
  Forall (fun ch => 32 <= ch /\ ch <> 127 /\ unicode_Cf ch = false /\ unicode_Co ch = false) (runes name) /\
  (forall cat, psr_CategoryID req = Some cat -> isNumericSnowflake cat = true).
Proof.
  unfold validateProvisionRequest. case_decide as Hn; [done|].
  destruct (Nat.ltb _ _) eqn:Hl; [done|]. destruct (rejectUnsafeRunes _) as [m|] eqn:Hr; [done|]. intros H.
  assert (name = TrimSpace (psr_Name req) /\ forall cat, psr_CategoryID req = Some cat -> isNumericSnowflake cat = true)
    as [-> Hcat].
  { destruct (psr_CategoryID req) as [cat|]; [|by injection H as <-]. case_decide as Hc; [done|].
    destruct (forallb is_digit (runes cat)) eqn:Hd; [|done]. injection H as <-. split; [done|].
    intros ? [= <-]. unfold isNumericSnowflake. by rewrite bool_decide_eq_false_2, Hd. }
  split; [done|]. split; [done|]. split; [apply Nat.ltb_ge in Hl; exact Hl|]. split; [|done].
  apply reject_runes_None in Hr. eapply Forall_impl; [exact Hr|]. intros ch Hch. unfold unsafe_rune in Hch.
  rewrite !orb_false_iff in Hch. destruct Hch as [[[H1 H2] H3] H4]. split; [lia|]. split; [lia|done].
Qed.

Lemma validateProvisionRequest_safe_witness :
  validateProvisionRequest (mkProvisionSpaceRequest "  acme " (Some "42"%string) None) = inl "acme"%string /\
  ("acme"%string <> ""%string /\ isNumericSnowflake "42" = true).
Proof.
  split; [vm_compute; reflexivity|].
  destruct (validateProvisionRequest_safe (mkProvisionSpaceRequest "  acme " (Some "42"%string) None) "acme"
              ltac:(vm_compute; reflexivity)) as (_ & H1 & _ & _ & H2).
  split; [exact H1|]. by apply H2.
Defined.

(** The decimal number of a list of digits. *)
Definition decimal (rs : list Z) : Z := foldl (fun n ch => n * 10 + (ch - 48)) 0 rs.

(** Wrapping commutes with appending a digit. *)
Lemma wrap64_step n d : wrap64 (wrap64 n * 10 + d) = wrap64 (n * 10 + d).
Proof.
  assert (wrap64 n = n + - ((n + 2 ^ 63) / 2 ^ 64) * 2 ^ 64) as ->.
  { unfold wrap64. rewrite Z.mod_eq by lia. lia. }
  unfold wrap64. f_equal. generalize (- ((n + 2 ^ 63) / 2 ^ 64)). intros k.
  replace ((n + k * 2 ^ 64) * 10 + d + 2 ^ 63) with (n * 10 + d + 2 ^ 63 + k * 10 * 2 ^ 64) by lia.
  apply Z_mod_plus_full.
Qed.

Lemma parse_digits_wrap rs : forall n, forallb is_digit rs = true ->
  foldl parse_digit (Some (wrap64 n)) rs = Some (wrap64 (foldl (fun n ch => n * 10 + (ch - 48)) n rs)).
Proof.
  induction rs as [|ch rs IH]; intros n H; [done|]. cbn [forallb] in H. apply andb_prop in H as [H1 H2].
  cbn [foldl]. unfold parse_digit at 2. cbn [mbind option_bind]. by rewrite H1, wrap64_step, IH.
Qed.

(** A page limit is read exactly when the parameter is all digits, as the number they spell modulo
    2^64: a limit of 2^64 + 5 is taken for 5. *)
Theorem parseQueryInt_wraps :
  (forall s n, parseQueryInt s = Some n <-> forallb is_digit (runes s) = true /\ n = wrap64 (decimal (runes s))) /\
  parseQueryInt "18446744073709551621" = Some 5.
Proof.
  split; [|vm_compute; reflexivity]. intros s n. unfold parseQueryInt, decimal.
  change (Some 0) with (Some (wrap64 0)). destruct (forallb is_digit (runes s)) eqn:Hd.
  - rewrite parse_digits_wrap by done. naive_solver.
  - split; [|by intros [? _]]. intros H. exfalso.
    enough (forall acc, foldl parse_digit acc (runes s) = None) as Hn by (by rewrite Hn in H). clear H.
    assert (Hnone : forall rs, foldl parse_digit None rs = None) by (induction rs; auto).
    revert Hd. induction (runes s) as [|ch rs IH]; intros Hd acc; [done|]. cbn [forallb foldl] in *.
    destruct (is_digit ch) eqn:Hc; [by apply IH|]. unfold parse_digit at 2.
    destruct acc as [a|]; cbn [mbind option_bind]; rewrite ?Hc; apply Hnone.
Qed.
