(* ===== verification/ApiSpaces.v ===== *)
(** * ApiSpaces: provisioning requests, reads and changes of spaces, internal/api/handlers/spaces.go *)
From S2P Require Import Prelude Errors Domain Schema Services Postgres StoreSpec GoStrings.
From S2P Require Import Lock Cache Queue Provision Lifecycle Encoding Secrets OAuth.
From S2P Require Import Gin Authz Idempotency Api.

(** [cacheKeySpacesList], internal/api/handlers/spaces.go:23. *)
Definition cacheKeySpacesList : string := "spaces:list".
(** [cacheKeySpacesListGen], internal/api/handlers/spaces.go:27. *)
Definition cacheKeySpacesListGen : string := "spaces:list:gen".
(** [cacheSpaceTTL], internal/api/handlers/spaces.go:30. *)
Definition cacheSpaceTTL : Z := 5 * Minute.

(** [spaceResponse], internal/api/handlers/spaces.go:683-694. *)
Record spaceResponse : Type := mkSpaceResponse {
  sr_ID : string; sr_MerchantID : string; sr_Name : string;
  sr_DiscordChannelID : option string; sr_DiscordCategoryID : option string;
  sr_LifecycleState : string; sr_ACLState : string;
  sr_LastActivityAt : option string; sr_CreatedAt : string; sr_ArchivedAt : option string }.
(** Encoding by the tags of [spaceResponse], internal/api/handlers/spaces.go:683-694. *)
Definition encode_spaceResponse (r : spaceResponse) : list (string * json) :=
  [("id"%string, JStr (sr_ID r)); ("merchant_id"%string, JStr (sr_MerchantID r)); ("name"%string, JStr (sr_Name r))] ++
  jomit "discord_channel_id" (sr_DiscordChannelID r) ++ jomit "discord_category_id" (sr_DiscordCategoryID r) ++
  [("lifecycle_state"%string, JStr (sr_LifecycleState r)); ("acl_state"%string, JStr (sr_ACLState r))] ++
  jomit "last_activity_at" (sr_LastActivityAt r) ++ [("created_at"%string, JStr (sr_CreatedAt r))] ++
  jomit "archived_at" (sr_ArchivedAt r).
(** Decoding by the tags of [spaceResponse], internal/api/handlers/spaces.go:683-694. *)
Definition decode_spaceResponse (j : option json) : option spaceResponse :=
  fs ← struct_fields j;
  i ← jstring "id" fs; m ← jstring "merchant_id" fs; n ← jstring "name" fs;
  ch ← jopt_string "discord_channel_id" fs; ca ← jopt_string "discord_category_id" fs;
  l ← jstring "lifecycle_state" fs; a ← jstring "acl_state" fs; la ← jopt_string "last_activity_at" fs;
  c ← jstring "created_at" fs; ar ← jopt_string "archived_at" fs;
  Some (mkSpaceResponse i m n ch ca l a la c ar).
(** [toSpaceResponse], internal/api/handlers/spaces.go:696-716. *)
Definition toSpaceResponse (sp : Space) : spaceResponse :=
  mkSpaceResponse (sp_ID sp) (sp_MerchantID sp) (sp_Name sp) (sp_DiscordChannelID sp) (sp_DiscordCategoryID sp)
    (lifecycle_text (sp_LifecycleState sp)) (acl_text (sp_ACLState sp)) (RFC3339 <$> sp_LastActivityAt sp)
    (RFC3339 (sp_CreatedAt sp)) (RFC3339 <$> sp_ArchivedAt sp).

(** [lifecycleTransitions], internal/api/handlers/spaces.go:443-447. *)
Definition lifecycleTransitions (from to : SpaceLifecycleState) : bool :=
  match from, to with
  | SpaceLifecycleActive, (SpaceLifecycleResolved | SpaceLifecycleArchived) => true
  | SpaceLifecycleResolved, (SpaceLifecycleActive | SpaceLifecycleArchived) => true
  | SpaceLifecycleArchived, SpaceLifecycleActive => true
  | _, _ => false
  end.

(** [actionToLifecycleState], internal/api/handlers/spaces.go:455-460. *)
Definition actionToLifecycleState (action : string) : option SpaceLifecycleState :=
  if decide (action = "open"%string) then Some SpaceLifecycleActive
  else if decide (action = "resolve"%string) then Some SpaceLifecycleResolved
  else if decide (action = "archive"%string) then Some SpaceLifecycleArchived
  else if decide (action = "reopen"%string) then Some SpaceLifecycleActive
  else None.

(** The lifecycle state a filter names; another text is an error of the column's enum. *)
Definition lifecycle_of_text (s : string) : option SpaceLifecycleState :=
  if decide (s = "active"%string) then Some SpaceLifecycleActive
  else if decide (s = "resolved"%string) then Some SpaceLifecycleResolved
  else if decide (s = "archived"%string) then Some SpaceLifecycleArchived
  else None.

Definition nonempty (s : string) : option string := if decide (s = ""%string) then None else Some s.

Section Handlers.
Context {W : Type} {E : Env W} {C : Crypto} {J : JsonText} {X : Web W}.
Context (h : Handlers W).

(** The checks every handler of this file starts with, internal/api/handlers/spaces.go:113-123. *)
Definition gated (c : Ctx) (body : M W Response) : M W Response :=
  if negb (h_store h) then ret notImplemented
  else if negb (RequireControlPlane (cx_Principal c)) then ret forbidden
  else body.

(** The job row of a request, or a made-up id when it could not be written: internal/api/handlers/spaces.go:538-548, and lines 225-245
    of provisioning. *)
Definition job_for (p : CreateJobParams) : M W string :=
  fresh <- uuid_New ;;
  job <- CreateJob p ;;
  ret (match job with Ok j => j_ID j | Err _ => fresh end).

(** The 202 answer with its Location, recorded for replays under the key: internal/api/handlers/spaces.go:575-578. *)
Definition accepted (idemKey jobID : string) (body : list (string * json)) : M W Response :=
  s <- StoreIdempotencyResponse idemKey StatusAccepted body (Some jobID) ;;
  ret (with_header "Location" ("/v1/jobs/" +:+ jobID) (JSON StatusAccepted body)).

(** [GetIdempotencyKey] or a deterministic key: internal/api/handlers/spaces.go:532-535. *)
Definition idem_or (c : Ctx) (fallback : string) : string :=
  if decide (cx_IdempotencyKey c = ""%string) then fallback else cx_IdempotencyKey c.

(** The error answers of a lookup by id: internal/api/handlers/spaces.go:503-510. *)
Definition lookup_failed (what failed : string) (e : error) : Response :=
  if errors_Is e ErrNotFound then problem StatusNotFound "not_found" what
  else problem StatusInternalServerError "internal_error" failed.

(** From the transaction on, internal/api/handlers/spaces.go:168-271. *)
Definition provision_write (merchantID idemKey : string) (req : provisionSpaceRequest) (name : string)
    : M W Response :=
  created <- CreateSpaceWithOutbox
    (mkCreateSpaceParams merchantID name (psr_CategoryID req) (psr_WelcomeMessage req))
    (mkCreateOutboxParams "space" merchantID KindProvisionSpace
       (Some [("merchant_id"%string, JStr merchantID); ("space_name"%string, JStr name)]) idemKey) ;;
  match created with
  | Err e => ret (if errors_Is e ErrConflict
                  then problem StatusConflict "conflict" "a space for this merchant already exists"
                  else problem StatusInternalServerError "internal_error" "failed to create space")
  | Ok (space, _) =>
      let spaceID := sp_ID space in
      u <- UpdateOutboxPayload idemKey (Some [("merchant_id"%string, JStr merchantID); ("space_id"%string, JStr spaceID);
             ("space_name"%string, JStr name); ("category_id"%string, JStr (default ""%string (psr_CategoryID req)))]) ;;
      jobID <- job_for (mkCreateJobParams idemKey KindProvisionSpace QueueProvision (Some merchantID) (Some spaceID)
                 None (Some [("merchant_id"%string, JStr merchantID); ("space_id"%string, JStr spaceID);
                             ("space_name"%string, JStr name)])) ;;
      now <- time_Now ;;
      r <- accepted idemKey jobID
             [("job"%string, JObj [("id"%string, JStr jobID); ("kind"%string, JStr KindProvisionSpace);
                ("status"%string, JStr "pending"); ("space_id"%string, JStr spaceID);
                ("merchant_id"%string, JStr merchantID); ("retry_count"%string, JNum 0);
                ("created_at"%string, JStr (RFC3339 now))])] ;;
      d <- CacheDel (h_cache h) [cacheKeySpacesList; cacheKeySpacesListGen; "spaces:id:" +:+ spaceID] ;;
      ret r
  end.

(** [ProvisionSpace], internal/api/handlers/spaces.go:112-272. *)
Definition ProvisionSpace (c : Ctx) : M W Response :=
  gated c (
    match parseUUIDParam c "merchantId" with
    | inr r => ret r
    | inl merchantID =>
        match ShouldBindJSON decode_provisionSpaceRequest (fun r => negb (bool_decide (psr_Name r = ""%string)))
                (cx_Request c) with
        | inr msg => ret (problem StatusBadRequest "validation_error" msg)
        | inl req =>
            match validateProvisionRequest req with
            | inr msg => ret (problem StatusBadRequest "validation_error" msg)
            | inl name =>
                m <- GetMerchantByID merchantID ;;
                match m with
                | Err e => ret (lookup_failed "merchant not found" "failed to load merchant" e)
                | Ok _ => provision_write merchantID (idem_or c ("provision:" +:+ merchantID)) req name
                end
            end
        end
    end).

(** The read from Postgres and the write to the cache, internal/api/handlers/spaces.go:325-371. *)
Definition list_from_postgres (c : Ctx) (lc mid cacheKey : string) (isFiltered : bool) : M W Response :=
  let params lcs := mkListSpacesParams lcs (nonempty mid) (nonempty (Query "cursor" (cx_Request c))) 50 in
  spaces <- (if decide (lc = ""%string) then ListSpaces (params None)
             else match lifecycle_of_text lc with
                  | Some s => ListSpaces (params (Some s))
                  | None => exec_wrapped "postgres: list spaces: " (raise pgInvalidText)
                  end) ;;
  match spaces with
  | Err _ => ret (problem StatusInternalServerError "internal_error" "failed to list spaces")
  | Ok spaces =>
      let next := match last spaces with
                  | Some sp => if Nat.eqb (length spaces) 50 then JStr (RFC3339Nano (sp_CreatedAt sp)) else JNull
                  | None => JNull
                  end in
      let body := [("items"%string, JArr ((fun sp => JObj (encode_spaceResponse (toSpaceResponse sp))) <$> spaces));
                   ("next_cursor"%string, next)] in
      s <- CacheSet (h_cache h) cacheKey (json_text (JObj body)) cacheSpaceTTL ;;
      g <- (if isFiltered then CacheSet (h_cache h) cacheKeySpacesListGen "1" cacheSpaceTTL else ret (Ok tt)) ;;
      ret (JSON StatusOK body)
  end.

(** [ListSpaces], internal/api/handlers/spaces.go:280-371. *)
Definition ListSpaces_handler (c : Ctx) : M W Response :=
  gated c (
    let lc := Query "lifecycle_state" (cx_Request c) in
    let mid := Query "merchant_id" (cx_Request c) in
    let isFiltered := negb (bool_decide (lc = ""%string)) || negb (bool_decide (mid = ""%string)) in
    let from_cache cacheKey :=
      (cached <- CacheGet (h_cache h) cacheKey ;;
       match cached with
       | Ok (Some bytes) => ret (with_header "X-Cache" "HIT" (mkResponse StatusOK [] (BData bytes)))
       | _ => list_from_postgres c lc mid cacheKey isFiltered
       end) in
    if isFiltered then
      gen <- CacheGet (h_cache h) cacheKeySpacesListGen ;;
      match gen with
      | Ok (Some _) =>
          from_cache (cacheKeySpacesList +:+ (if decide (lc = ""%string) then "" else ":lc=" +:+ lc) +:+
                      (if decide (mid = ""%string) then "" else ":m=" +:+ mid))%string
      | _ => list_from_postgres c lc mid cacheKeySpacesList isFiltered
      end
    else from_cache cacheKeySpacesList).

(** The fallback of [GetSpace], internal/api/handlers/spaces.go:409-428. *)
Definition get_from_postgres (spaceID cacheKey : string) : M W Response :=
  sp <- GetSpaceByID spaceID ;;
  match sp with
  | Err e => ret (lookup_failed "space not found" "failed to load space" e)
  | Ok sp =>
      let resp := encode_spaceResponse (toSpaceResponse sp) in
      s <- CacheSet (h_cache h) cacheKey (json_text (JObj resp)) cacheSpaceTTL ;;
      ret (JSON StatusOK resp)
  end.

(** [GetSpace], internal/api/handlers/spaces.go:378-428. *)
Definition GetSpace (c : Ctx) : M W Response :=
  gated c (
    let spaceID := Param "id" (cx_Request c) in
    if decide (spaceID = ""%string) then ret (problem StatusBadRequest "validation_error" "id is required")
    else
      let cacheKey := ("spaces:id:" +:+ spaceID)%string in
      cached <- CacheGet (h_cache h) cacheKey ;;
      match cached with
      | Ok (Some bytes) =>
          match decode_spaceResponse (json_parse bytes) with
          | Some sp => ret (with_header "X-Cache" "HIT" (JSON StatusOK (encode_spaceResponse sp)))
          | None => get_from_postgres spaceID cacheKey
          end
      | _ => get_from_postgres spaceID cacheKey
      end).

(** The job of a space's request, as the answers to lifecycle and welcome requests show it: internal/api/handlers/spaces.go:567-574. *)
Definition space_job (jobID kind spaceID : string) : list (string * json) :=
  [("job"%string, JObj [("id"%string, JStr jobID); ("kind"%string, JStr kind); ("status"%string, JStr "pending");
                        ("space_id"%string, JStr spaceID)])].

(** From the valid transition on, internal/api/handlers/spaces.go:532-578. *)
Definition lifecycle_write (c : Ctx) (sp : Space) (spaceID action : string) (target : SpaceLifecycleState)
    : M W Response :=
  let idemKey := idem_or c ("lifecycle:" +:+ spaceID +:+ ":" +:+ action) in
  let payload := encode_ChangeLifecycle (mkChangeLifecyclePayload spaceID action) in
  jobID <- job_for (mkCreateJobParams idemKey KindChangeLifecycle QueueProvision None (Some spaceID) None (Some payload)) ;;
  q <- (if h_queueClient h
        then Enqueue KindChangeLifecycle QueueProvision (Some payload) (mkEnqueueOpts (Some idemKey) None None)
        else ret (Ok tt)) ;;
  a <- InsertAuditEntry (mkInsertAuditEntryParams None None ("space.lifecycle." +:+ action) None (Some spaceID) None None
         (Some [("from"%string, JStr (lifecycle_text (sp_LifecycleState sp)));
                ("to"%string, JStr (lifecycle_text target)); ("action"%string, JStr action)])) ;;
  accepted idemKey jobID (space_job jobID KindChangeLifecycle spaceID).

(** [ChangeSpaceLifecycle], internal/api/handlers/spaces.go:467-579. *)
Definition ChangeSpaceLifecycle (c : Ctx) : M W Response :=
  gated c (
    let spaceID := Param "id" (cx_Request c) in
    if decide (spaceID = ""%string) then ret (problem StatusBadRequest "validation_error" "id is required")
    else match ShouldBindJSON (jstring "action") (fun a => negb (bool_decide (a = ""%string))) (cx_Request c) with
    | inr msg => ret (problem StatusBadRequest "validation_error" msg)
    | inl action =>
        match actionToLifecycleState action with
        | None => ret (problem StatusBadRequest "validation_error" "action must be one of: open, resolve, archive, reopen")
        | Some target =>
            sp <- GetSpaceByID spaceID ;;
            match sp with
            | Err e => ret (lookup_failed "space not found" "failed to load space" e)
            | Ok sp =>
                if negb (lifecycleTransitions (sp_LifecycleState sp) target)
                then ret (problem StatusConflict "invalid_transition" "cannot transition")
                else if decide (sp_LifecycleState sp = target)
                then ret (problem StatusConflict "already_in_state" "space is already in state")
                else lifecycle_write c sp spaceID action target
            end
        end
    end).

(** [SyncWelcome], internal/api/handlers/spaces.go:593-678. A body that cannot be bound leaves what was
    decoded before the error; with the one field of the request that is no message. *)
Definition SyncWelcome (c : Ctx) : M W Response :=
  gated c (
    let spaceID := Param "id" (cx_Request c) in
    if decide (spaceID = ""%string) then ret (problem StatusBadRequest "validation_error" "id is required")
    else
      let message := match ShouldBindJSON (jopt_string "message") (fun _ => true) (cx_Request c) with
                     | inl m => m | inr _ => None end in
      let welcomeMsg := default ""%string message in
      if Nat.ltb discordMessageMaxLen (String.length welcomeMsg)
      then ret (problem StatusBadRequest "validation_error" "message exceeds Discord's 2000-character limit")
      else
        sp <- GetSpaceByID spaceID ;;
        match sp with
        | Err e => ret (lookup_failed "space not found" "failed to load space" e)
        | Ok _ =>
            let idemKey := idem_or c ("welcome:sync:" +:+ spaceID) in
            jobID <- job_for (mkCreateJobParams idemKey KindSyncWelcome QueueProvision None (Some spaceID) None
                       (Some [("space_id"%string, JStr spaceID); ("message"%string, JStr welcomeMsg)])) ;;
            q <- (if h_queueClient h
                  then Enqueue KindSyncWelcome QueueProvision
                         (Some (encode_SyncWelcome (mkSyncWelcomePayload spaceID welcomeMsg)))
                         (mkEnqueueOpts (Some idemKey) None None)
                  else ret (Ok tt)) ;;
            accepted idemKey jobID (space_job jobID KindSyncWelcome spaceID)
        end).
End Handlers.
