(* ===== verification/ApiMembers.v ===== *)
(** * ApiMembers: collaborators and their channels, internal/api/handlers/collaborators.go *)
From S2P Require Import Prelude Errors Domain Schema Services Postgres StoreSpec GoStrings.
From S2P Require Import Lock Cache Queue Provision Lifecycle Encoding Secrets OAuth.
From S2P Require Import Gin Authz Idempotency Api ApiSpaces.

(** [inviteCollaboratorRequest], internal/api/handlers/collaborators.go:33-38. *)
Record inviteCollaboratorRequest : Type := mkInviteCollaboratorRequest {
  icr_UserID : string; icr_DiscordUserID : string; icr_Email : string; icr_DisplayName : option string }.
(** Decoding by the tags of [inviteCollaboratorRequest], internal/api/handlers/collaborators.go:33-38. *)
Definition decode_inviteRequest (fs : list (string * json)) : option inviteCollaboratorRequest :=
  u ← jstring "user_id" fs; d ← jstring "discord_user_id" fs; e ← jstring "email" fs;
  n ← jopt_string "display_name" fs; Some (mkInviteCollaboratorRequest u d e n).

(** [validateInviteInputs], internal/api/handlers/collaborators.go:190-207. *)
Definition validateInviteInputs (req : inviteCollaboratorRequest) : option string :=
  let email := if decide (icr_Email req = ""%string) then None else validateEmailFormat (icr_Email req) in
  match email with
  | Some msg => Some msg
  | None =>
      if negb (bool_decide (icr_DiscordUserID req = ""%string)) && negb (isNumericSnowflake (icr_DiscordUserID req))
      then Some "discord_user_id must be a numeric snowflake"%string
      else match icr_DisplayName req with
           | Some n => match rejectUnsafeRunes n with
                       | Some msg => Some ("display_name " +:+ msg)%string
                       | None => None
                       end
           | None => None
           end
  end.

(** [buildConnectURL], internal/api/handlers/collaborators.go:352-357: the values are not escaped. *)
Definition buildConnectURL (clientID redirectURL state : string) : string :=
  ("https://discord.com/api/oauth2/authorize?client_id=" +:+ clientID +:+ "&redirect_uri=" +:+ redirectURL +:+
   "&response_type=code&scope=identify+guilds.join&state=" +:+ state)%string.

Section Handlers.
Context {W : Type} {E : Env W} {C : Crypto} {J : JsonText} {X : Web W}.
Context (h : Handlers W).

(** [resolveByUserID], internal/api/handlers/collaborators.go:267-276: the user, or a status and a message. *)
Definition resolveByUserID (userID : string) : M W (User + Z * string) :=
  u <- GetUserByID userID ;;
  ret (match u with
       | Ok u => inl u
       | Err e => if errors_Is e ErrNotFound then inr (StatusNotFound, "user not found"%string)
                  else inr (StatusInternalServerError, "failed to load user"%string)
       end).

(** The creation of a collaborator that is not found, with the re-read after a conflict: in
    [resolveOrCreateByDiscordID], internal/api/handlers/collaborators.go:299-312, and lines 335-348 of [resolveOrCreateByEmail]. *)
Definition create_or_refetch (p : CreateUserParams) (get : M W (result error User)) : M W (User + Z * string) :=
  u <- CreateUser p ;;
  match u with
  | Ok u => ret (inl u)
  | Err e =>
      if errors_Is e ErrConflict then
        u <- get ;;
        ret (match u with
             | Ok u => inl u
             | Err _ => inr (StatusInternalServerError, "failed to resolve collaborator after conflict"%string)
             end)
      else ret (inr (StatusInternalServerError, "failed to create collaborator"%string))
  end.

(** [resolveOrCreateByDiscordID], internal/api/handlers/collaborators.go:278-313. *)
Definition resolveOrCreateByDiscordID (req : inviteCollaboratorRequest) : M W (User + Z * string) :=
  u <- GetUserByDiscordID (icr_DiscordUserID req) ;;
  match u with
  | Ok u => ret (inl u)
  | Err e =>
      if negb (errors_Is e ErrNotFound)
      then ret (inr (StatusInternalServerError, "failed to look up user by discord_user_id"%string))
      else create_or_refetch
             (mkCreateUserParams UserTypeCollaborator false (Some (icr_DiscordUserID req)) (nilIfEmpty (icr_Email req))
                (icr_DisplayName req))
             (GetUserByDiscordID (icr_DiscordUserID req))
  end.

(** [resolveOrCreateByEmail], internal/api/handlers/collaborators.go:315-349. *)
Definition resolveOrCreateByEmail (req : inviteCollaboratorRequest) : M W (User + Z * string) :=
  u <- GetUserByEmail (icr_Email req) ;;
  match u with
  | Ok u => ret (inl u)
  | Err e =>
      if negb (errors_Is e ErrNotFound)
      then ret (inr (StatusInternalServerError, "failed to look up user by email"%string))
      else create_or_refetch
             (mkCreateUserParams UserTypeCollaborator false None (Some (icr_Email req)) (icr_DisplayName req))
             (GetUserByEmail (icr_Email req))
  end.

(** [resolveOrCreateCollaborator], internal/api/handlers/collaborators.go:252-265. *)
Definition resolveOrCreateCollaborator (req : inviteCollaboratorRequest) : M W (User + Z * string) :=
  if negb (bool_decide (icr_UserID req = ""%string)) then resolveByUserID (icr_UserID req)
  else if negb (bool_decide (icr_DiscordUserID req = ""%string)) then resolveOrCreateByDiscordID req
  else resolveOrCreateByEmail req.

(** A member's job as the answers show it: internal/api/handlers/collaborators.go:458-466. *)
Definition member_job (jobID kind spaceID userID : string) (now : Z) : json :=
  JObj [("id"%string, JStr jobID); ("kind"%string, JStr kind); ("status"%string, JStr "pending");
        ("space_id"%string, JStr spaceID); ("user_id"%string, JStr userID); ("retry_count"%string, JNum 0);
        ("created_at"%string, JStr (RFC3339 now))].

(** The membership, the connect URL, the job and the task, internal/api/handlers/collaborators.go:111-185. *)
Definition invite_write (c : Ctx) (invitedBy spaceID : string) (user : User) : M W Response :=
  sm <- CreateSpaceMember (mkCreateSpaceMemberParams spaceID (u_ID user) SpaceMemberRoleCollaborator (nilIfEmpty invitedBy)) ;;
  (if match sm with Err e => negb (errors_Is e ErrConflict) | Ok _ => false end
   then ret (problem StatusInternalServerError "internal_error" "failed to record membership")
   else
     connectURL <- (match u_DiscordUserID user, h_stateManager h with
                    | None, Some sm =>
                        state <- Issue sm (u_ID user) ;;
                        ret (match state with
                             | Ok st => Some (buildConnectURL (h_discordOAuthClientID h) (h_discordOAuthRedirectURL h) st)
                             | Err _ => None
                             end)
                    | _, _ => ret None
                    end) ;;
     let idemKey := idem_or c ("invite:" +:+ spaceID +:+ ":" +:+ u_ID user) in
     let payload := encode_Invite (mkInviteCollaboratorPayload spaceID (u_ID user) invitedBy) in
     jobID <- job_for (mkCreateJobParams idemKey KindInviteCollaborator QueueMembership None (Some spaceID)
                (Some (u_ID user)) (Some payload)) ;;
     q <- (if h_queueClient h
           then Enqueue KindInviteCollaborator QueueMembership (Some payload)
                  (mkEnqueueOpts (Some idemKey) (Some (24 * Hour)) None)
           else ret (Ok tt)) ;;
     now <- time_Now ;;
     ret (with_header "Location" ("/v1/jobs/" +:+ jobID)
            (JSON StatusAccepted [("job"%string, member_job jobID KindInviteCollaborator spaceID (u_ID user) now);
                                  ("connect_url"%string, jopt connectURL)]))).

(** [InviteCollaborator], internal/api/handlers/collaborators.go:47-186. *)
Definition InviteCollaborator (c : Ctx) : M W Response :=
  gated h c (
    let spaceID := Param "id" (cx_Request c) in
    if decide (spaceID = ""%string) then ret (problem StatusBadRequest "validation_error" "space id is required")
    else match ShouldBindJSON decode_inviteRequest (fun _ => true) (cx_Request c) with
    | inr msg => ret (problem StatusBadRequest "validation_error" msg)
    | inl req =>
        if bool_decide (icr_UserID req = ""%string) && bool_decide (icr_DiscordUserID req = ""%string) &&
           bool_decide (icr_Email req = ""%string)
        then ret (problem StatusBadRequest "validation_error" "one of user_id, discord_user_id, or email is required")
        else match validateInviteInputs req with
        | Some msg => ret (problem StatusBadRequest "validation_error" msg)
        | None =>
            sp <- GetSpaceByID spaceID ;;
            match sp with
            | Err e => ret (lookup_failed "space not found" "failed to load space" e)
            | Ok _ =>
                u <- resolveOrCreateCollaborator req ;;
                match u with
                | inr (status, msg) => ret (problem status "not_found" msg)
                | inl user =>
                    let invitedBy := match cx_Principal c with Some p => pr_UserID p | None => ""%string end in
                    invite_write c invitedBy spaceID user
                end
            end
        end
    end).

(** The job and the task, internal/api/handlers/collaborators.go:421-470. *)
Definition expel_write (c : Ctx) (spaceID userID scope : string) : M W Response :=
  let idemKey := idem_or c ("expel:" +:+ spaceID +:+ ":" +:+ userID +:+ ":" +:+ scope) in
  let payload := encode_Expel (mkExpelCollaboratorPayload spaceID userID scope) in
  jobID <- job_for (mkCreateJobParams idemKey KindExpelCollaborator QueueMembership None (Some spaceID)
             (Some userID) (Some payload)) ;;
  q <- (if h_queueClient h
        then Enqueue KindExpelCollaborator QueueMembership (Some payload)
               (mkEnqueueOpts (Some idemKey) (Some (24 * Hour)) None)
        else ret (Ok tt)) ;;
  now <- time_Now ;;
  ret (with_header "Location" ("/v1/jobs/" +:+ jobID)
         (JSON StatusAccepted [("job"%string, member_job jobID KindExpelCollaborator spaceID userID now)])).

(** [ExpelCollaborator], internal/api/handlers/collaborators.go:373-471. *)
Definition ExpelCollaborator (c : Ctx) : M W Response :=
  gated h c (
    let spaceID := Param "id" (cx_Request c) in
    let userID := Param "userId" (cx_Request c) in
    if bool_decide (spaceID = ""%string) || bool_decide (userID = ""%string)
    then ret (problem StatusBadRequest "validation_error" "space id and user id are required")
    else
      let scope := DefaultQuery "scope" ExpulsionScopeChannel (cx_Request c) in
      if negb (bool_decide (scope = ExpulsionScopeChannel)) && negb (bool_decide (scope = ExpulsionScopeServer))
      then ret (problem StatusBadRequest "validation_error" "scope must be 'channel' or 'server'")
      else
        sp <- GetSpaceByID spaceID ;;
        match sp with
        | Err e => ret (lookup_failed "space not found" "failed to load space" e)
        | Ok _ =>
            u <- GetUserByID userID ;;
            match u with
            | Err e => ret (lookup_failed "user not found" "failed to load user" e)
            | Ok _ => expel_write c spaceID userID scope
            end
        end).

(** [collaboratorChannelResponse], internal/api/handlers/collaborators.go:543-550. *)
Definition collaboratorChannel (sp : Space) (m : Merchant) (sm : SpaceMember) : json :=
  JObj [("space_id"%string, JStr (sp_ID sp)); ("space_name"%string, JStr (sp_Name sp));
        ("merchant_id"%string, JStr (sp_MerchantID sp)); ("merchant_name"%string, JStr (m_Name m));
        ("role"%string, JStr match sm_Role sm with SpaceMemberRoleCollaborator => "collaborator" end);
        ("lifecycle_state"%string, JStr (lifecycle_text (sp_LifecycleState sp)))].

(** [buildCollaboratorChannelItems], internal/api/handlers/collaborators.go:519-540. *)
Definition buildCollaboratorChannelItems (members : list SpaceMember) : M W (list json) :=
  for_each members (fun (items : list json) sm =>
    sp <- GetSpaceByID (sm_SpaceID sm) ;;
    match sp with
    | Err _ => ret items
    | Ok sp =>
        m <- GetMerchantByID (sp_MerchantID sp) ;;
        ret (match m with Err _ => items | Ok m => items ++ [collaboratorChannel sp m sm] end)
    end) [].

(** [ListCollaboratorChannels], internal/api/handlers/collaborators.go:478-515. *)
Definition ListCollaboratorChannels_handler (c : Ctx) : M W Response :=
  gated h c (
    let userID := Param "userId" (cx_Request c) in
    if decide (userID = ""%string) then ret (problem StatusBadRequest "validation_error" "userId is required")
    else
      u <- GetUserByID userID ;;
      match u with
      | Err e => ret (lookup_failed "user not found" "failed to load user" e)
      | Ok _ =>
          ms <- ListCollaboratorChannels userID ;;
          match ms with
          | Err _ => ret (problem StatusInternalServerError "internal_error" "failed to list collaborator channels")
          | Ok ms => items <- buildCollaboratorChannelItems ms ;;
                     ret (JSON StatusOK [("items"%string, JArr items)])
          end
      end).
End Handlers.
