(* ===== verification/ApiAgents.v ===== *)
(** * ApiAgents: agents, merchants and jobs, internal/api/handlers/agents.go, merchants.go and jobs.go

    The handlers of agents.go and merchants.go do not look whether the store is there: without one
    they panic at the first call and the recovery middleware answers. Times marshalled by
    encoding/json are shown in UTC. *)
From S2P Require Import Prelude Errors Domain Schema Services Postgres StoreSpec GoStrings.
From S2P Require Import Lock Cache Queue Provision Lifecycle Encoding Secrets OAuth.
From S2P Require Import Gin Authz Idempotency Api ApiSpaces.

Definition user_type_text (t : UserType) : string :=
  match t with UserTypeAgent => "agent" | UserTypeCollaborator => "collaborator" end.
Definition job_status_text (s : JobStatus) : string :=
  match s with
  | JobStatusPending => "pending" | JobStatusActive => "active" | JobStatusCompleted => "completed"
  | JobStatusRetrying => "retrying" | JobStatusArchived => "archived"
  end.

(** [toAgentResponse], internal/api/handlers/agents.go:235-247, with the tags of [agentResponse]. *)
Definition toAgentResponse (u : User) : list (string * json) :=
  [("id"%string, JStr (u_ID u)); ("type"%string, JStr (user_type_text (u_Type u))); ("is_admin"%string, JBool (u_IsAdmin u))] ++
  jomit "email" (u_Email u) ++ jomit "display_name" (u_DisplayName u) ++ jomit "discord_user_id" (u_DiscordUserID u) ++
  jomit "provisioned_at" (RFC3339Nano <$> u_ProvisionedAt u) ++
  [("is_active"%string, JBool (u_IsActive u)); ("created_at"%string, JStr (RFC3339Nano (u_CreatedAt u)))].

(** [buildDiscordOAuthURL], internal/api/handlers/agents.go:252-260: the state is the user's id. *)
Definition buildDiscordOAuthURL (clientID redirectURL stateUserID : string) : string :=
  if bool_decide (clientID = ""%string) || bool_decide (redirectURL = ""%string) then ""%string
  else ("https://discord.com/api/oauth2/authorize?client_id=" +:+ clientID +:+ "&redirect_uri=" +:+ redirectURL +:+
        "&response_type=code&scope=identify%20guilds.join&state=" +:+ stateUserID)%string.

(** [addAgentRequest], internal/api/handlers/agents.go:48-53. *)
Record addAgentRequest : Type := mkAddAgentRequest {
  aar_Email : string; aar_DisplayName : option string; aar_DiscordUserID : option string; aar_IsAdmin : bool }.
(** Decoding by the tags of [addAgentRequest], internal/api/handlers/agents.go:48-53. *)
Definition decode_addAgentRequest (fs : list (string * json)) : option addAgentRequest :=
  e ← jstring "email" fs; n ← jopt_string "display_name" fs; d ← jopt_string "discord_user_id" fs;
  a ← jbool "is_admin" fs; Some (mkAddAgentRequest e n d a).

(** [registerMerchantRequest], internal/api/handlers/merchants.go:21-25. *)
Record registerMerchantRequest : Type := mkRegisterMerchantRequest {
  rmr_ExternalRef : string; rmr_Name : string; rmr_HelpDeskURL : option string }.
(** Decoding by the tags of [registerMerchantRequest], internal/api/handlers/merchants.go:21-25. *)
Definition decode_registerMerchantRequest (fs : list (string * json)) : option registerMerchantRequest :=
  r ← jstring "external_ref" fs; n ← jstring "name" fs; u ← jopt_string "help_desk_url" fs;
  Some (mkRegisterMerchantRequest r n u).

(** [toMerchantResponse], internal/api/handlers/merchants.go:232-241, with the tags of [merchantResponse]. *)
Definition toMerchantResponse (m : Merchant) : list (string * json) :=
  [("id"%string, JStr (m_ID m)); ("external_ref"%string, JStr (m_ExternalRef m)); ("name"%string, JStr (m_Name m));
   ("help_desk_url"%string, jopt (m_HelpDeskURL m)); ("is_active"%string, JBool (m_IsActive m));
   ("created_at"%string, JStr (RFC3339 (m_CreatedAt m)))].

Section Handlers.
Context {W : Type} {E : Env W} {C : Crypto} {J : JsonText} {X : Web W}.
Context (h : Handlers W).

(** A handler that needs the store and does not look for it. *)
Definition unchecked (body : M W Response) : M W Response := if h_store h then body else ret recovered.
(** The gate of these handlers: internal/api/handlers/agents.go:23-27. *)
Definition control_plane (c : Ctx) (body : M W Response) : M W Response :=
  if negb (RequireControlPlane (cx_Principal c)) then ret forbidden else body.

(** [ListAgents], internal/api/handlers/agents.go:22-43. *)
Definition ListAgents_handler (c : Ctx) : M W Response :=
  control_plane c (unchecked (
    agents <- ListAgents false ;;
    ret (match agents with
         | Err _ => problem StatusInternalServerError "internal_error" "could not list agents"
         | Ok us => JSON StatusOK [("items"%string, JArr (JObj ∘ toAgentResponse <$> us))]
         end))).

(** The task that projects the agent's role, internal/api/handlers/agents.go:108-124 and 195-210. *)
Definition enqueue_role (userID : string) (add : bool) : M W (result error string) :=
  let taskID := ("project_agent_role:" +:+ userID +:+ (if add then ":add" else ":remove"))%string in
  q <-? Enqueue KindProjectAgentRole QueueMembership (Some (encode_ProjectAgentRole (mkProjectAgentRolePayload userID add)))
          (mkEnqueueOpts (Some taskID) (Some (24 * Hour)) None)
    onerr e => ret (Err e) ;;
  ret (Ok taskID).

(** [AddAgent], internal/api/handlers/agents.go:58-141. *)
Definition AddAgent (c : Ctx) : M W Response :=
  control_plane c (
    match ShouldBindJSON decode_addAgentRequest
            (fun r => negb (bool_decide (aar_Email r = ""%string)) && validator_email (aar_Email r)) (cx_Request c) with
    | inr msg => ret (problem StatusBadRequest "validation_error" msg)
    | inl req =>
        match (match aar_DisplayName req with Some n => rejectUnsafeRunes n | None => None end) with
        | Some msg => ret (problem StatusBadRequest "validation_error" ("display_name " +:+ msg))
        | None => unchecked (
            u <- CreateUser (mkCreateUserParams UserTypeAgent (aar_IsAdmin req) (aar_DiscordUserID req)
                   (Some (aar_Email req)) (aar_DisplayName req)) ;;
            match u with
            | Err e => ret (if errors_Is e ErrConflict
                            then problem StatusConflict "conflict" "an agent with this Discord user id already exists"
                            else problem StatusInternalServerError "internal_error" "could not create agent")
            | Ok user =>
                q <- (if h_queueClient h then enqueue_role (u_ID user) true else ret (Ok ""%string)) ;;
                ret (JSON StatusCreated
                  [("id"%string, JStr (u_ID user)); ("type"%string, JStr (user_type_text (u_Type user)));
                   ("is_admin"%string, JBool (u_IsAdmin user)); ("email"%string, jopt (u_Email user));
                   ("display_name"%string, jopt (u_DisplayName user)); ("discord_user_id"%string, jopt (u_DiscordUserID user));
                   ("provisioned_at"%string, jopt (RFC3339Nano <$> u_ProvisionedAt user));
                   ("is_active"%string, JBool (u_IsActive user)); ("created_at"%string, JStr (RFC3339Nano (u_CreatedAt user)));
                   ("connect_url"%string, JStr (buildDiscordOAuthURL (h_discordOAuthClientID h)
                                                  (h_discordOAuthRedirectURL h) (u_ID user)))])
            end)
        end
    end).

(** The deactivation and its answer, internal/api/handlers/agents.go:184-218. *)
Definition remove_write (userID : string) : M W Response :=
  d <- DeactivateUser userID ;;
  match d with
  | Err _ => ret (problem StatusInternalServerError "internal_error" "could not deactivate agent")
  | Ok _ =>
      q <- (if h_queueClient h then enqueue_role userID false else ret (Ok ""%string)) ;;
      let jobID := match q with Ok id => id | Err _ => ""%string end in
      ret (JSON StatusAccepted [("job"%string, JObj [("id"%string, JStr jobID);
             ("kind"%string, JStr KindProjectAgentRole); ("status"%string, JStr "pending")])])
  end.

(** [RemoveAgent], internal/api/handlers/agents.go:147-219. *)
Definition RemoveAgent (c : Ctx) : M W Response :=
  control_plane c (
    let userID := Param "userId" (cx_Request c) in
    if decide (userID = ""%string) then ret (problem StatusBadRequest "validation_error" "userId is required")
    else unchecked (
      u <- GetUserByID userID ;;
      match u with
      | Err e => ret (lookup_failed "agent not found" "could not fetch agent" e)
      | Ok user =>
          if negb (bool_decide (u_Type user = UserTypeAgent)) then ret (problem StatusNotFound "not_found" "agent not found")
          else remove_write userID
      end)).

(** [RegisterMerchant], internal/api/handlers/merchants.go:32-116. *)
Definition RegisterMerchant (c : Ctx) : M W Response :=
  let invalid msg := problem StatusBadRequest "validation_error" msg in
  control_plane c (
    match ShouldBindJSON decode_registerMerchantRequest (fun _ => true) (cx_Request c) with
    | inr msg => ret (invalid msg)
    | inl req =>
        let ref := TrimSpace (rmr_ExternalRef req) in
        let name := TrimSpace (rmr_Name req) in
        if decide (ref = ""%string) then ret (invalid "external_ref is required and must not be blank"%string)
        else if decide (name = ""%string) then ret (invalid "name is required and must not be blank"%string)
        else match rejectUnsafeRunes ref, rejectUnsafeRunes name with
        | Some msg, _ => ret (invalid ("external_ref " +:+ msg)%string)
        | None, Some msg => ret (invalid ("name " +:+ msg)%string)
        | None, None =>
            match (match rmr_HelpDeskURL req with Some u => validateHelpDeskURL u | None => None end) with
            | Some msg => ret (invalid ("help_desk_url " +:+ msg)%string)
            | None => unchecked (
                m <- CreateMerchant (mkCreateMerchantParams ref name (rmr_HelpDeskURL req)) ;;
                ret (match m with
                     | Ok m => JSON StatusCreated (toMerchantResponse m)
                     | Err e => if errors_Is e ErrConflict
                                then problem StatusConflict "conflict" "a merchant with this external_ref already exists"
                                else problem StatusInternalServerError "internal_error" "could not create merchant"
                     end))
            end
        end
    end).

(** The page size of [ListMerchants], internal/api/handlers/merchants.go:149-154. *)
Definition merchants_limit (lv : string) : Z :=
  if decide (lv = ""%string) then 50
  else match parseQueryInt lv with
       | Some n => if (0 <? n) && (n <=? 200) then n else 50
       | None => 50
       end.

(** The query of [ListMerchants] and its answer, internal/api/handlers/merchants.go:160-182. *)
Definition list_merchants (p : ListMerchantsParams) : M W Response :=
  ms <- ListMerchants p ;;
  ret (match ms with
       | Err _ => problem StatusInternalServerError "internal_error" "could not list merchants"
       | Ok ms =>
           JSON StatusOK [("items"%string, JArr (JObj ∘ toMerchantResponse <$> ms));
             ("next_cursor"%string, match last ms with
                 | Some m => if Z.of_nat (length ms) =? lmp_Limit p then JStr (RFC3339Nano (m_CreatedAt m)) else JNull
                 | None => JNull end)]
       end).

(** [ListMerchants], internal/api/handlers/merchants.go:123-183. *)
Definition ListMerchants_handler (c : Ctx) : M W Response :=
  control_plane c (
    let v := Query "is_active" (cx_Request c) in
    let go active := unchecked (list_merchants (mkListMerchantsParams active
                       (nonempty (Query "cursor" (cx_Request c))) (merchants_limit (Query "limit" (cx_Request c))))) in
    if decide (v = ""%string) then go None
    else if decide (v = "true"%string) then go (Some true)
    else if decide (v = "false"%string) then go (Some false)
    else ret (problem StatusBadRequest "validation_error" "is_active must be 'true' or 'false'")).

(** [GetMerchant], internal/api/handlers/merchants.go:190-218. *)
Definition GetMerchant (c : Ctx) : M W Response :=
  control_plane c (
    match parseUUIDParam c "merchantId" with
    | inr r => ret r
    | inl id => unchecked (
        m <- GetMerchantByID id ;;
        ret (match m with
             | Ok m => JSON StatusOK (toMerchantResponse m)
             | Err e => lookup_failed "merchant not found" "could not load merchant" e
             end))
    end).

(** [toJobResponse], internal/api/handlers/jobs.go:83-100, with the tags of [jobResponse]; the error column is
    shown as its text. *)
Definition toJobResponse (error_text : error -> string) (j : Job) : list (string * json) :=
  [("id"%string, JStr (j_ID j)); ("kind"%string, JStr (j_Kind j)); ("status"%string, JStr (job_status_text (j_Status j)))] ++
  jomit "space_id" (j_SpaceID j) ++ jomit "merchant_id" (j_MerchantID j) ++ jomit "user_id" (j_UserID j) ++
  [("retry_count"%string, JNum (j_RetryCount j))] ++ jomit "error" (error_text <$> j_Error j) ++
  [("created_at"%string, JStr (RFC3339 (j_CreatedAt j)))] ++ jomit "completed_at" (RFC3339 <$> j_CompletedAt j).

(** [GetJob], internal/api/handlers/jobs.go:26-67. *)
Definition GetJob (error_text : error -> string) (c : Ctx) : M W Response :=
  gated h c (
    let jobID := Param "jobId" (cx_Request c) in
    if decide (jobID = ""%string) then ret (problem StatusBadRequest "validation_error" "jobId path parameter is required")
    else
      j <- GetJobByID jobID ;;
      ret (match j with
           | Ok j => JSON StatusOK (toJobResponse error_text j)
           | Err e => lookup_failed "job not found" "failed to retrieve job" e
           end)).
End Handlers.
