(* ===== verification/ApiTransversal.v ===== *)
(** * ApiTransversal: directory, audit log, members and the OAuth2 callback, internal/api/handlers/transversal.go *)
From S2P Require Import Prelude Errors Domain Schema Services Postgres StoreSpec GoStrings.
From S2P Require Import Lock Cache Queue Provision Lifecycle Encoding Secrets OAuth.
From S2P Require Import Gin Authz Idempotency Api ApiSpaces ApiAgents.

(** [fmt.Sscanf(v, "%d", &n)] into an int64: white space, a sign, digits; what follows is not looked at. *)
Fixpoint scan_digits (rs : list Z) : list Z :=
  match rs with
  | ch :: rest => if is_digit ch then ch :: scan_digits rest else []
  | [] => []
  end.
Definition Sscanf_d (s : string) : option Z :=
  let rs := drop_while (fun r => IsSpace r && negb (r =? 10)) (runes s) in
  let '(sign, rs) := match rs with
                     | 43 :: rest => (1, rest)
                     | 45 :: rest => (-1, rest)
                     | _ => (1, rs)
                     end in
  match scan_digits rs with
  | [] => None
  | ds => let n := sign * decimal ds in
          if (int64_min <=? n) && (n <=? int64_max) then Some n else None
  end.

(** The text of an int64. *)
Definition int_text (z : Z) : string := pretty z.

(** [directoryEntryResponse], internal/api/handlers/transversal.go:98-106, as [GetDirectory] fills it. *)
Definition directoryEntry_json (e : DirectoryEntry) : json :=
  JObj ([("space_id"%string, JStr (de_SpaceID e)); ("space_name"%string, JStr (de_SpaceName e));
         ("merchant_id"%string, JStr (de_MerchantID e)); ("merchant_name"%string, JStr (de_MerchantName e));
         ("user_id"%string, JStr (de_UserID e))] ++ jomit "user_display_name" (de_UserDisplayName e) ++
        [("role"%string, JStr (user_type_text (de_Role e)))]).

(** [toAuditEntryResponse], internal/api/handlers/transversal.go:192-209, with the tags of [auditEntryResponse]. *)
Definition toAuditEntryResponse (e : AuditEntry) : list (string * json) :=
  [("id"%string, JNum (ae_ID e))] ++ jomit "actor_api_key_id" (ae_ActorAPIKeyID e) ++
  jomit "actor_user_id" (ae_ActorUserID e) ++ [("action"%string, JStr (ae_Action e))] ++
  jomit "merchant_id" (ae_MerchantID e) ++ jomit "space_id" (ae_SpaceID e) ++
  jomit "target_user_id" (ae_TargetUserID e) ++ jomit "scope" (ae_Scope e) ++
  (match ae_Detail e with Some (x :: d) => [("detail"%string, JObj (x :: d))] | _ => [] end) ++
  [("created_at"%string, JStr (RFC3339 (ae_CreatedAt e)))].

(** [spaceMemberResponse], internal/api/handlers/transversal.go:422-430, as [listSpaceMembers] fills it. *)
Definition spaceMember_json (sm : SpaceMember) : json :=
  JObj ([("id"%string, JStr (sm_ID sm)); ("user_id"%string, JStr (sm_UserID sm));
         ("role"%string, JStr match sm_Role sm with SpaceMemberRoleCollaborator => "collaborator" end);
         ("overwrite_applied"%string, JBool (sm_OverwriteApplied sm))] ++ jomit "invited_by" (sm_InvitedBy sm) ++
        [("created_at"%string, JStr (RFC3339 (sm_CreatedAt sm)))] ++ jomit "revoked_at" (RFC3339 <$> sm_RevokedAt sm)).

Section Handlers.
Context {W : Type} {E : Env W} {C : Crypto} {J : JsonText} {X : Web W} {H : Http W}.
Context (h : Handlers W).

(** [GetDirectory], internal/api/handlers/transversal.go:39-95. *)
Definition GetDirectory (c : Ctx) : M W Response :=
  gated h c (
    let q k := nonempty (Query k (cx_Request c)) in
    es <- ListDirectory (mkListDirectoryParams (q "user_id") (q "space_id") (q "merchant_id") (q "cursor") 50)%string ;;
    ret (match es with
         | Err _ => problem StatusInternalServerError "internal_error" "failed to query directory"
         | Ok es =>
             JSON StatusOK [("items"%string, JArr (directoryEntry_json <$> es));
               ("next_cursor"%string, match last es with
                  | Some e => if Nat.eqb (length es) 50 then JStr (de_SpaceID e +:+ ":" +:+ de_UserID e) else JNull
                  | None => JNull end)]
         end)).

(** [GetAudit], internal/api/handlers/transversal.go:120-175. *)
Definition GetAudit (c : Ctx) : M W Response :=
  gated h c (
    let q k := nonempty (Query k (cx_Request c)) in
    let cursor := match q "cursor"%string with Some v => Sscanf_d v | None => None end in
    es <- ListAuditEntries (mkListAuditEntriesParams (q "merchant_id") (q "space_id") (q "action") (q "since") cursor 50)%string ;;
    ret (match es with
         | Err _ => problem StatusInternalServerError "internal_error" "failed to list audit entries"
         | Ok es =>
             JSON StatusOK [("items"%string, JArr (JObj ∘ toAuditEntryResponse <$> es));
               ("next_cursor"%string, match last es with
                  | Some e => if Nat.eqb (length es) 50 then JStr (int_text (ae_ID e)) else JNull
                  | None => JNull end)]
         end)).

(** [listSpaceMembers], internal/api/handlers/transversal.go:435-488. *)
Definition listSpaceMembers (c : Ctx) : M W Response :=
  gated h c (
    let spaceID := Param "id" (cx_Request c) in
    if decide (spaceID = ""%string) then ret (problem StatusBadRequest "validation_error" "id is required")
    else
      sp <- GetSpaceByID spaceID ;;
      match sp with
      | Err e => ret (lookup_failed "space not found" "failed to load space" e)
      | Ok _ =>
          ms <- ListSpaceMembers spaceID ;;
          ret (match ms with
               | Err _ => problem StatusInternalServerError "internal_error" "failed to list space members"
               | Ok ms => JSON StatusOK [("items"%string, JArr (spaceMember_json <$> ms))]
               end)
      end).
(** [ListSpaceMembers], internal/api/handlers/spaces.go:435-437. *)
Definition ListSpaceMembers_handler (c : Ctx) : M W Response := listSpaceMembers c.

(** ** The OAuth2 callback *)

(** [linkDiscordUserID], internal/api/handlers/transversal.go:366-371. *)
Definition linkDiscordUserID (userID discordUserID : string) : M W (result error unit) :=
  if negb (h_store h) then ret (Ok tt) else UpdateDiscordUserID userID discordUserID.

(** [enqueuePendingInvites], internal/api/handlers/transversal.go:377-403. *)
Definition enqueuePendingInvites (userID : string) : M W unit :=
  if negb (h_store h) || negb (h_queueClient h) then ret tt
  else
    ms <- ListCollaboratorChannels userID ;;
    match ms with
    | Err _ => ret tt
    | Ok ms =>
        for_each ms (fun (_ : unit) sm =>
          if sm_OverwriteApplied sm then ret tt
          else
            q <- Enqueue KindInviteCollaborator QueueMembership
                   (Some (encode_Invite (mkInviteCollaboratorPayload (sm_SpaceID sm) userID "")))
                   (mkEnqueueOpts None None None) ;;
            ret tt) tt
    end.

(** Steps 5 to 7: tokens, pending invites, the answer; internal/api/handlers/transversal.go:319-359. The HTML
    of the redirect is left out. *)
Definition callback_finish (ts : TokenStore) (accept userID discordID : string) (tr : TokenResponse) : M W Response :=
  expiresAt <- (if 0 <? tr_ExpiresIn tr
                then (now <- time_Now ;; ret (Some (now + wrap64 (tr_ExpiresIn tr * Second)))) else ret None) ;;
  s <- TokenStore_Store ts userID (tr_AccessToken tr) (tr_RefreshToken tr) (tr_Scope tr) expiresAt ;;
  match s with
  | Err _ => ret (problem StatusInternalServerError "token_store_failed" "failed to persist tokens")
  | Ok _ =>
      p <- (if h_queueClient h then enqueuePendingInvites userID else ret tt) ;;
      ret (if Contains accept "application/json"
           then JSON StatusOK [("code"%string, JStr "connected"); ("message"%string, JStr "Discord account connected successfully");
                               ("discord_user_id"%string, JStr discordID)]
           else mkResponse StatusFound [("Location"%string, "/oauth/success"%string)] BEmpty)
  end.

(** Steps 2 to 4: the code, the identity, the link; internal/api/handlers/transversal.go:268-317. *)
Definition callback_exchange (ts : TokenStore) (c : Ctx) (userID code : string) : M W Response :=
  tr <- ExchangeCode (mkExchangeConfig (h_discordOAuthClientID h) (h_discordOAuthClientSecret h)
                        (h_discordOAuthRedirectURL h)) code ;;
  match tr with
  | Err _ => ret (problem StatusBadGateway "token_exchange_failed" "failed to exchange authorization code for tokens")
  | Ok tr =>
      du <- FetchDiscordUser (tr_AccessToken tr) ;;
      match du with
      | Err _ => ret (problem StatusBadGateway "discord_user_fetch_failed" "failed to retrieve Discord user identity")
      | Ok du =>
          l <- linkDiscordUserID userID (du_ID du) ;;
          (if match l with Err e => errors_Is e ErrConflict | Ok _ => false end
           then ret (problem StatusConflict "discord_id_conflict" "This Discord account is already linked to another hub user")
           else callback_finish ts (GetHeader "Accept" (cx_Request c)) userID (du_ID du) tr)
      end
  end.

(** [OAuthDiscordCallback], internal/api/handlers/transversal.go:228-360. *)
Definition OAuthDiscordCallback (c : Ctx) : M W Response :=
  match h_stateManager h with
  | None => ret notImplemented
  | Some sm =>
      u <- Validate sm (Query "state" (cx_Request c)) ;;
      match u with
      | Err _ => ret (problem StatusBadRequest "invalid_state" "OAuth2 state token is missing, invalid, or already used")
      | Ok userID =>
          match h_tokenStore h with
          | None => ret notImplemented
          | Some ts =>
              let code := Query "code" (cx_Request c) in
              if decide (code = ""%string)
              then ret (problem StatusBadRequest "oauth_error" ("OAuth2 callback received no code (discord error: " +:+
                          Query "error" (cx_Request c) +:+ ")"))
              else callback_exchange ts c userID code
          end
      end
  end.
End Handlers.
