(* ===== verification/Router.v ===== *)
(** * Router: the routes and the middleware chain of the API, internal/api/router.go

    The router proper is gin's: a request arrives here with the pattern it matched and its
    parameters. *)
From S2P Require Import Prelude Errors Domain Schema Services Postgres StoreSpec GoStrings.
From S2P Require Import Lock Cache Queue Provision Lifecycle Encoding Secrets OAuth.
From S2P Require Import Gin Authz Idempotency Api ApiSpaces ApiMembers ApiAgents ApiTransversal.

(** ** Health, internal/observability/observability.go *)

Section Health.
Context {W : Type} {E : Env W}.
(** [LivezHandler], internal/observability/observability.go:81-83. *)
Definition LivezHandler (c : Ctx) : M W Response := ret (JSON StatusOK [("status"%string, JStr "ok")]).
(** The ping of the Valkey client. *)
Definition redis_Ping : M W (result error unit) := redis_exec (fun _ ks => Ok (tt, ks)).
(** [ReadyzHandler], internal/observability/observability.go:88-112, with the pingers of cmd/api. *)
Definition ReadyzHandler (c : Ctx) : M W Response :=
  p <- Ping ;;
  r <- redis_Ping ;;
  ret (JSON (if is_Ok p && is_Ok r then StatusOK else 503)
         [("postgres"%string, JStr (if is_Ok p then "ok" else "unavailable"));
          ("valkey"%string, JStr (if is_Ok r then "ok" else "unavailable"))]).
End Health.

(** gin-contrib/cors for a list of origins: it answers a request by itself, or lets it pass and adds
    headers. *)
Class Cors (W : Type) : Type := {
  cors_New : list string -> Middleware (W := W);
  cors_New_law : forall origins next c w,
    (exists r, cors_New origins next c w = (r, w)) \/
    (exists f, cors_New origins next c w = (f (next c w).1, (next c w).2)) }.

Section Router.
Context {W : Type} {E : Env W} {C : Crypto} {J : JsonText} {X : Web W} {H : Http W} {K : Cors W}.

(** [RouterConfig], internal/api/router.go:17-49: the allowed origins, the handlers' dependencies, and the
    text of a job's stored error. *)
Record RouterConfig : Type := mkRouterConfig {
  rc_CORSAllowedOrigins : list string; rc_Handlers : Handlers W; rc_error_text : error -> string }.

(** [corsMiddleware], internal/api/router.go:157-172. *)
Definition corsMiddleware (allowedOrigins : list string) : Middleware (W := W) :=
  match allowedOrigins with
  | [] => fun next c => next c
  | _ => cors_New allowedOrigins
  end.

(** [registerV1Routes], internal/api/router.go:117-153: method, pattern, whether the idempotency middleware is
    in front, and the handler. *)
Definition registerV1Routes (cfg : RouterConfig) : list (string * string * bool * Handler) :=
  let h := rc_Handlers cfg in
  [("POST", "/v1/merchants", true, RegisterMerchant h);
   ("GET", "/v1/merchants", false, ListMerchants_handler h);
   ("GET", "/v1/merchants/:merchantId", false, GetMerchant h);
   ("POST", "/v1/merchants/:merchantId/channels", true, ProvisionSpace h);
   ("GET", "/v1/channels", false, ListSpaces_handler h);
   ("GET", "/v1/channels/:id", false, GetSpace h);
   ("GET", "/v1/channels/:id/members", false, ListSpaceMembers_handler h);
   ("POST", "/v1/channels/:id/lifecycle", true, ChangeSpaceLifecycle h);
   ("POST", "/v1/channels/:id/welcome:sync", true, SyncWelcome h);
   ("POST", "/v1/channels/:id/collaborators", true, InviteCollaborator h);
   ("DELETE", "/v1/channels/:id/collaborators/:userId", true, ExpelCollaborator h);
   ("GET", "/v1/collaborators/:userId/channels", false, ListCollaboratorChannels_handler h);
   ("GET", "/v1/agents", false, ListAgents_handler h);
   ("POST", "/v1/agents", true, AddAgent h);
   ("DELETE", "/v1/agents/:userId", true, RemoveAgent h);
   ("GET", "/v1/directory", false, GetDirectory h);
   ("GET", "/v1/audit", false, GetAudit h);
   ("GET", "/v1/jobs/:jobId", false, GetJob h (rc_error_text cfg))]%string.

(** The routes without authentication, internal/api/router.go:61-85. *)
Definition public_routes (cfg : RouterConfig) : list (string * string * Handler) :=
  [("GET", "/livez", LivezHandler);
   ("GET", "/readyz", ReadyzHandler);
   ("GET", "/v1/oauth/discord/callback", OAuthDiscordCallback (rc_Handlers cfg))]%string.

(** The answer of gin to a request no pattern matches. *)
Definition not_found : Response := mkResponse 404 [] (BData "404 page not found").

(** The handlers behind the common middleware. *)
Definition dispatch (cfg : RouterConfig) (c : Ctx) : M W Response :=
  let h := rc_Handlers cfg in
  let r := cx_Request c in
  match head (filter (fun e => e.1 = (rq_Method r, rq_FullPath r)) (public_routes cfg)) with
  | Some (_, hd) => hd c
  | None =>
      match head (filter (fun e => e.1.1 = (rq_Method r, rq_FullPath r)) (registerV1Routes cfg)) with
      | Some (_, idem, hd) => Auth (h_store h) (if (idem : bool) then Idempotency (h_store h) hd else hd) c
      | None => ret not_found
      end
  end.

(** [NewRouter], internal/api/router.go:53-101, serving one request. *)
Definition ServeHTTP (cfg : RouterConfig) (r : Request) : M W Response :=
  RequestID (corsMiddleware (rc_CORSAllowedOrigins cfg) (dispatch cfg)) (mkCtx r None "").
End Router.
Arguments RouterConfig : clear implicits.

(** ** The API and Discord *)

(** The operation does not touch the guild. *)
Class Offline {W A} (view : W -> View) (m : M W A) : Prop :=
  offline : forall w, v_guild (view (m w).2) = v_guild (view w).

Section OfflineProofs.
Context {W : Type} {E : Env W} {view : W -> View} {L : EnvLaws E view} {C : Crypto} {J : JsonText} {X : Web W}.
Context {XL : WebLaws view X}.

Lemma offline_ret {A} (a : A) : Offline view (ret a).
Proof. done. Qed.
Lemma offline_bind {A B} (m : M W A) (k : A -> M W B) :
  Offline view m -> (forall a, Offline view (k a)) -> Offline view (bind m k).
Proof. intros Hm Hk w. unfold bind. by rewrite Hk, Hm. Qed.
Lemma offline_spec {A} (m : M W A) (R : View -> A -> View -> Prop) :
  Spec view m R -> (forall v a v', R v a v' -> v_guild v' = v_guild v) -> Offline view m.
Proof. intros HS HR w. by eapply HR, HS. Qed.
Lemma offline_pg {A} (q : sql A) : Offline view (pg_exec q).
Proof.
  eapply offline_spec; [apply pg_exec_law|]. intros v r v' [H|[H|H]].
  - by destruct H as (st & a & db & _ & _ & ->).
  - by destruct H as (st & e & _ & _ & ->).
  - by destruct H as (e & _ & _ & [->|(st & a & db & _ & ->)]).
Qed.
Lemma offline_redis {A} (q : redis A) : Offline view (redis_exec q).
Proof.
  eapply offline_spec; [apply redis_exec_law|]. intros v r v' [H|[H|H]].
  - by destruct H as (st & a & db & _ & _ & ->).
  - by destruct H as (st & e & _ & _ & ->).
  - by destruct H as (e & _ & _ & [->|(st & a & db & _ & ->)]).
Qed.
Lemma offline_enqueue t : Offline view (asynq_Enqueue t).
Proof.
  eapply offline_spec; [apply asynq_Enqueue_law|]. intros v r v' H.
  destruct H as [(_ & -> & _)|[(_ & -> & _)|[(_ & -> & _)|(e & _ & _ & [->|[-> _]])]]]; done.
Qed.
Lemma offline_now : Offline view time_Now.
Proof. eapply offline_spec; [apply time_Now_law|]. by intros v a v' ->. Qed.
Lemma offline_rand n : Offline view (rand_Read n).
Proof. eapply offline_spec; [apply rand_Read_law|]. by intros v a v' [-> _]. Qed.
Lemma offline_uuid : Offline view uuid_New.
Proof. eapply offline_spec; [apply uuid_New_law|]. by intros v a v' ->. Qed.
Lemma offline_for_each {A Y} (xs : list Y) (body : A -> Y -> M W A) acc :
  (forall a x, Offline view (body a x)) -> Offline view (for_each xs body acc).
Proof.
  intros Hb. revert acc. induction xs as [|x xs IH]; intros acc; [apply offline_ret|].
  apply offline_bind; [apply Hb|exact IH].
Qed.
Context {H : Http W} {K : Cors W}.
(** The OAuth endpoints know nothing of the guild's channels. *)
Class HttpLaws : Prop := http_Do_law : forall r, Spec view (http_Do r) (fun v _ v' => v' = v).
Context {HL : HttpLaws}.
Lemma offline_http r : Offline view (http_Do r).
Proof. eapply offline_spec; [apply http_Do_law|]. by intros v a v' ->. Qed.

(** What the router is given behaves as its interfaces promise. *)
Definition router_ok (cfg : RouterConfig W) : Type :=
  CacheLaws view (h_cache (rc_Handlers cfg)) *
  match h_stateManager (rc_Handlers cfg) with Some sm => NonceLaws view (stm_nonces sm) | None => unit end.

Lemma offline_lock {A} (m : M W (result error A)) : Spec view m lock_outcome -> Offline view m.
Proof. intros HS. eapply offline_spec; [exact HS|]. by intros v r v' [[ks ->] _]. Qed.
Lemma offline_SetNonce (ns : nonceStore W) (NL : NonceLaws view ns) n u ttl : Offline view (SetNonce ns n u ttl).
Proof. eapply offline_spec; [apply SetNonce_law|]. by intros v r v' ([ks ->] & _). Qed.
Lemma offline_ConsumeNonce (ns : nonceStore W) (NL : NonceLaws view ns) n : Offline view (ConsumeNonce ns n).
Proof. eapply offline_spec; [apply ConsumeNonce_law|]. by intros v r v' ([ks ->] & _). Qed.
End OfflineProofs.
Arguments HttpLaws {W} view H.

(** Go through a program, operation by operation. *)
Ltac head_of t := lazymatch t with ?f _ => head_of f | ?f => f end.
Ltac offline_step :=
  cbv zeta;
  lazymatch goal with
  | |- Offline _ (ret _) => apply offline_ret
  | |- Offline _ (pg_exec _) => apply offline_pg
  | |- Offline _ (redis_exec _) => apply offline_redis
  | |- Offline _ (asynq_Enqueue _) => apply offline_enqueue
  | |- Offline _ time_Now => apply offline_now
  | |- Offline _ (rand_Read _) => apply offline_rand
  | |- Offline _ uuid_New => apply offline_uuid
  | |- Offline _ (http_Do _) => apply offline_http
  | |- Offline _ (SetNonce _ _ _ _) => eapply offline_SetNonce; eassumption
  | |- Offline _ (ConsumeNonce _ _) => eapply offline_ConsumeNonce; eassumption
  | |- Offline _ (CacheGet _ _) => apply offline_lock, CacheGet_law
  | |- Offline _ (CacheSet _ _ _ _) => apply offline_lock, CacheSet_law
  | |- Offline _ (CacheDel _ _) => apply offline_lock, CacheDel_law
  | |- Offline _ (for_each _ _ _) => apply offline_for_each; intros ? ?
  | |- Offline _ (bind _ _) => apply offline_bind; [|intros ?]
  | |- Offline _ (match ?x with _ => _ end) => first [progress cbn [rc_Handlers h_stateManager] | destruct x]
  | |- Offline _ ?m => let f := head_of m in unfold f
  end.
Ltac offline := repeat offline_step.

Section ApiOffline.
Context {W : Type} {E : Env W} {view : W -> View} {L : EnvLaws E view} {C : Crypto} {J : JsonText} {X : Web W}.
Context {XL : WebLaws view X} {H : Http W} {HL : HttpLaws view H} {K : Cors W}.

Lemma offline_Validate (sm : StateManager W) (NL : NonceLaws view (stm_nonces sm)) s : Offline view (Validate sm s).
Proof. offline. Qed.
Lemma offline_Issue (sm : StateManager W) (NL : NonceLaws view (stm_nonces sm)) u : Offline view (Issue sm u).
Proof. offline. Qed.

Lemma offline_routes (cfg : RouterConfig W) (Hok : router_ok (view := view) cfg) c :
  Forall (fun e => Offline view (e.2 c)) (registerV1Routes cfg) /\
  Forall (fun e => Offline view (e.2 c)) (public_routes cfg).
Proof.
  destruct Hok as [HC HN]. destruct cfg as [origins h et]. cbn [rc_Handlers] in *. destruct h as [st q ca ci cs cr sm ts].
  cbn [h_stateManager h_cache] in *.
  split; repeat (apply Forall_cons; split); try apply Forall_nil; cbn [snd]; destruct sm as [sm|]; cbn in HN; offline; exact I.
Qed.
End ApiOffline.

(** ** Who can change what *)

(** The request carries an active key of the backoffice scope. *)
Definition backoffice_request `{Crypto} (db : DB) (r : Request) : Prop :=
  exists tok k, extractBearer (GetHeader "Authorization" r) = Some tok /\
    active_key_by_hash (HashAPIKey tok) db = Some k /\ ak_Scope k = ScopeBackoffice.

(** What anybody's request may leave behind: the last use of a key, and a new idempotency key. *)
Definition traces_only (v v' : View) : Prop :=
  v_guild v' = v_guild v /\ v_kv v' = v_kv v /\ v_queue v' = v_queue v /\ v_metrics v' = v_metrics v /\
  exists keys idem,
    v_db v' = set_idempotency_keys idem (set_api_keys keys (v_db v)) /\
    (forall id k, keys !! id = Some k -> exists k0, t_api_keys (v_db v) !! id = Some k0 /\
       (k = k0 \/ exists now, k = with_key_used now k0)) /\
    (forall key row, t_idempotency_keys (v_db v) !! key = Some row -> idem !! key = Some row).

(** Whether a request does is decidable. *)
Lemma backoffice_dec `{Crypto} r db : backoffice_request db r \/ ~ backoffice_request db r.
Proof.
  unfold backoffice_request. destruct (extractBearer _) as [tok|]; [|right; by intros (? & ? & ? & _)].
  destruct (active_key_by_hash (HashAPIKey tok) db) as [k|] eqn:Hk.
  - destruct (decide (ak_Scope k = ScopeBackoffice)); [left; eauto|right].
    intros (? & k' & [= <-] & Hk' & ?). congruence.
  - right. intros (? & k' & [= <-] & Hk' & ?). congruence.
Qed.

Lemma traces_refl v : traces_only v v.
Proof.
  do 4 (split; [done|]). exists (t_api_keys (v_db v)), (t_idempotency_keys (v_db v)).
  split; [by destruct v as [[]]|]. split; [eauto|done].
Qed.

Section Authorization.
Context {W : Type} {E : Env W} {view : W -> View} {L : EnvLaws E view} {C : Crypto} {J : JsonText} {X : Web W}.
Context {XL : WebLaws view X} {H : Http W} {HL : HttpLaws view H} {K : Cors W}.

#[export] Instance TouchAPIKeyLastUsed_spec id : Spec view (TouchAPIKeyLastUsed id) (fun v r v' =>
  v' = v \/ exists now k, t_api_keys (v_db v) !! id = Some k /\
    v' = with_db (set_api_keys (<[id := with_key_used now k]> (t_api_keys (v_db v))) (v_db v)) v).
Proof.
  apply spec_of_wp. intros w. eapply wp_step; [apply spec_exec_update|].
  intros r w' Hw. by destruct r.
Qed.

(** A handler of the API refuses a principal without control-plane authority, and does nothing. *)
Lemma routes_gated (cfg : RouterConfig W) :
  Forall (fun e => forall c w, RequireControlPlane (cx_Principal c) = false -> (e.2 c w).2 = w) (registerV1Routes cfg).
Proof.
  repeat (apply Forall_cons; split); try exact (Forall_nil_2 _); cbn [snd]; intros c w Hp.
  all: unfold RegisterMerchant, ListMerchants_handler, GetMerchant, ProvisionSpace, ListSpaces_handler, GetSpace,
         ListSpaceMembers_handler, listSpaceMembers, ChangeSpaceLifecycle, SyncWelcome, InviteCollaborator,
         ExpelCollaborator, ListCollaboratorChannels_handler, ListAgents_handler, AddAgent, RemoveAgent,
         GetDirectory, GetAudit, GetJob, gated, control_plane; rewrite Hp.
  all: by destruct (negb (h_store _)) || done.
Qed.

(** Two traces after each other. *)
Lemma traces_touch v id now k : t_api_keys (v_db v) !! id = Some k ->
  traces_only v (with_db (set_api_keys (<[id := with_key_used now k]> (t_api_keys (v_db v))) (v_db v)) v).
Proof.
  intros Hk. do 4 (split; [done|]).
  exists (<[id := with_key_used now k]> (t_api_keys (v_db v))), (t_idempotency_keys (v_db v)).
  split; [by destruct v as [[]]|]. split; [|done]. intros id' k'.
  rewrite lookup_insert_Some. intros [[<- <-]|[_ Hk']]; eauto.
Qed.
Lemma traces_registered v v1 v' key hash : traces_only v v1 -> key_registered key hash v1 v' -> traces_only v v'.
Proof.
  intros (H1 & H2 & H3 & H4 & keys & idem & Hdb & Hk & Hi) [->|(now & ex & Hn & ->)].
  { do 4 (split; [done|]). eauto. }
  do 4 (split; [done|]). exists keys. eexists. split; [cbn; rewrite Hdb; reflexivity|]. split; [exact Hk|].
  intros key' row Hr. apply Hi in Hr. cbn. rewrite lookup_insert_ne; [done|].
  intros ->. rewrite Hdb in Hn. cbn in Hn. congruence.
Qed.

(** The authentication middleware: it answers, or passes a principal of the key's scope on. *)
Lemma authMiddleware_wp next c w (Q : Response -> View -> Prop) :
  (forall r, Q r (view w)) ->
  (forall w' tok k p, extractBearer (GetHeader "Authorization" (cx_Request c)) = Some tok ->
     active_key_by_hash (HashAPIKey tok) (v_db (view w)) = Some k -> pr_KeyScope p = ak_Scope k -> pr_IsAdmin p = false ->
     traces_only (view w) (view w') ->
     wp view (next (mkCtx (cx_Request c) (Some p) (cx_IdempotencyKey c))) Q w') ->
  wp view (authMiddleware next c) Q w.
Proof.
  intros Hans Hnext. unfold authMiddleware. destruct (extractBearer _) as [tok|]; [|apply wp_ret, Hans].
  go_step. destruct H0 as [Hv H0]. destruct a as [k|e]; [|apply wp_ret; rewrite Hv; apply Hans].
  destruct H0 as [(k' & [= <-] & Hk)|[[? _]|(e & _ & ?)]]; [|done..].
  go_step. eapply (Hnext _ tok k); [done|exact Hk|done|done|]. rewrite <-Hv.
  destruct H0 as [->|(now & k' & Hk' & ->)]; [apply traces_refl|by apply traces_touch].
Qed.

(** A gated handler behind the idempotency middleware, for a principal without authority. *)
Lemma gated_traces (idem st : bool) (hd : Handler) c v0 w :
  (forall c w, RequireControlPlane (cx_Principal c) = false -> (hd c w).2 = w) ->
  RequireControlPlane (cx_Principal c) = false -> traces_only v0 (view w) ->
  wp view ((if idem then Idempotency st hd else hd) c) (fun _ v' => traces_only v0 v') w.
Proof.
  intros Hhd Hp Ht.
  assert (Hrun : forall c' w', cx_Principal c' = cx_Principal c -> traces_only v0 (view w') ->
            wp view (hd c') (fun _ v' => traces_only v0 v') w').
  { intros c' w' Hc Hw. unfold wp. by rewrite Hhd by (by rewrite Hc). }
  destruct idem; [|by apply Hrun]. destruct st; [|by apply Hrun]. apply Idempotency_wp.
  - intros _. by apply Hrun.
  - intros _ r v' []; [done..|by eapply traces_registered|done].
  - intros _ w' [(row & _ & _ & _ & Hv)|Hr]; apply Hrun; try done; [by rewrite Hv|].
    by eapply traces_registered.
Qed.

(** The handler a request is dispatched to: a public one, or one behind the authentication. *)
Lemma dispatch_cases (cfg : RouterConfig W) c :
  (exists hd, ((rq_Method (cx_Request c), rq_FullPath (cx_Request c)), hd) ∈ public_routes cfg /\ dispatch cfg c = hd c) \/
  (exists p (idem : bool) hd, (p, idem, hd) ∈ registerV1Routes cfg /\ dispatch cfg c =
     Auth (h_store (rc_Handlers cfg)) (if idem then Idempotency (h_store (rc_Handlers cfg)) hd else hd) c /\
     p = (rq_Method (cx_Request c), rq_FullPath (cx_Request c))) \/
  dispatch cfg c = ret not_found.
Proof.
  unfold dispatch. destruct (head (filter _ (public_routes cfg))) as [[p hd]|] eqn:Hp.
  { left. apply head_Some_elem_of, list_elem_of_filter in Hp as [Heq Hp]. cbn in Heq. subst p. by exists hd. }
  right. destruct (head (filter _ (registerV1Routes cfg))) as [[[p idem] hd]|] eqn:Hh; [left|by right].
  apply head_Some_elem_of, list_elem_of_filter in Hh as [Heq Hh]. by exists p, idem, hd.
Qed.

Lemma dispatch_ind (cfg : RouterConfig W) c (P : M W Response -> Prop) :
  Forall (fun e => P (e.2 c)) (public_routes cfg) ->
  Forall (fun e => P (Auth (h_store (rc_Handlers cfg))
                        (if e.1.2 : bool then Idempotency (h_store (rc_Handlers cfg)) e.2 else e.2) c)) (registerV1Routes cfg) ->
  P (ret not_found) -> P (dispatch cfg c).
Proof.
  rewrite !Forall_forall. intros Hpub Hv1 Hnone.
  destruct (dispatch_cases cfg c) as [(hd & Hin & ->)|[(p & idem & hd & Hin & -> & Hp)| ->]]; [|by apply (Hv1 _ Hin)|done].
  by apply (Hpub _ Hin).
Qed.

Lemma dispatch_offline (cfg : RouterConfig W) (Hok : router_ok (view := view) cfg) c : Offline view (dispatch cfg c).
Proof.
  apply dispatch_ind; [by apply offline_routes| |apply offline_ret]. apply Forall_forall. intros e He.
  assert (Hhd : forall c', Offline view (e.2 c')).
  { intros c'. destruct (offline_routes cfg Hok c') as [Hv _]. rewrite Forall_forall in Hv. by apply Hv. }
  assert (Hidem : forall c', Offline view ((if e.1.2 : bool then Idempotency (h_store (rc_Handlers cfg)) e.2 else e.2) c')).
  { intros c'. destruct e.1.2; [|apply Hhd]. unfold Idempotency. repeat first [apply Hhd | offline_step]. }
  unfold Auth, noopAuth. destruct (h_store (rc_Handlers cfg)); [|apply Hidem].
  unfold authMiddleware. repeat first [apply Hidem | offline_step].
Qed.

(** The common middleware adds nothing a postcondition on views can see. *)
Lemma ServeHTTP_wp (cfg : RouterConfig W) r w (P : View -> Prop) :
  P (view w) -> (forall w', view w' = view w -> wp view (dispatch cfg (mkCtx r None "")) (fun _ v' => P v') w') ->
  wp view (ServeHTTP cfg r) (fun _ v' => P v') w.
Proof.
  intros H0 Hd.
  assert (Hcors : forall w', view w' = view w ->
            wp view (corsMiddleware (rc_CORSAllowedOrigins cfg) (dispatch cfg) (mkCtx r None "")) (fun _ v' => P v') w').
  { intros w' Hw. unfold corsMiddleware. destruct (rc_CORSAllowedOrigins cfg) as [|o os]; [by apply Hd|].
    unfold wp. destruct (cors_New_law (o :: os) (dispatch cfg) (mkCtx r None "") w') as [[x ->]|[f ->]].
    - cbn [snd]. by rewrite Hw.
    - by apply Hd. }
  unfold ServeHTTP, RequestID. cbn [cx_Request].
  eapply wp_seq with (R := fun _ v => v = view w).
  - case_decide; [|by apply wp_ret]. unfold newRequestID. go_step. apply wp_ret. by destruct H2.
  - intros id w' Hw. eapply wp_seq; [by apply Hcors|]. intros resp w'' Hp. by apply wp_ret.
Qed.

(** The public routes, but for the callback, only read. *)
Lemma public_reads (cfg : RouterConfig W) m path hd c w :
  ((m, path), hd) ∈ public_routes cfg -> path <> "/v1/oauth/discord/callback"%string -> view (hd c w).2 = view w.
Proof.
  intros Hin Hcb. unfold public_routes in Hin. apply elem_of_cons in Hin as [[= _ _ ->]|Hin]; [done|].
  apply elem_of_cons in Hin as [[= _ _ ->]|Hin]; [|by apply list_elem_of_singleton in Hin as [= _ ->]].
  unfold ReadyzHandler, Ping, redis_Ping. change (wp view (p <- pg_exec (sql_ret tt) ;;
    r <- redis_exec (fun _ ks => Ok (tt, ks)) ;; ret (JSON (if is_Ok p && is_Ok r then StatusOK else 503)
         [("postgres"%string, JStr (if is_Ok p then "ok" else "unavailable"));
          ("valkey"%string, JStr (if is_Ok r then "ok" else "unavailable"))])) (fun _ v => v = view w) w).
  eapply wp_step; [apply pg_exec_law|]. intros r1 w1 H1. eapply wp_step; [apply redis_exec_law|]. intros r2 w2 H2.
  apply wp_ret. assert (view w1 = view w) as <-.
  { destruct H1 as [(st & a & db & [= _ <-] & _ & ->)|[(st & e & Hq & _)|(e & _ & _ & [->|(st & a & db & [= _ <-] & ->)])]];
      try done; apply with_db_same. }
  destruct H2 as [(n & a & ks & [= _ <-] & _ & ->)|[(n & e & Hq & _)|(e & _ & _ & [->|(n & a & ks & [= _ <-] & ->)])]];
    try done; by destruct (view w1).
Qed.

Lemma dispatch_wp (cfg : RouterConfig W) r w :
  rq_FullPath r <> "/v1/oauth/discord/callback"%string ->
  backoffice_request (v_db (view w)) r \/
  wp view (dispatch cfg (mkCtx r None "")) (fun _ v' => traces_only (view w) v') w.
Proof.
  intros Hcb.
  destruct (dispatch_cases cfg (mkCtx r None "")) as [(hd & Hin & ->)|[(p & idem & hd & Hin & -> & Hp)| ->]].
  - right. unfold wp. erewrite public_reads; [apply traces_refl|exact Hin|exact Hcb].
  - pose proof (routes_gated cfg) as Hg. rewrite Forall_forall in Hg. specialize (Hg _ Hin). cbn [snd] in Hg.
    unfold Auth, noopAuth. destruct (h_store (rc_Handlers cfg)) eqn:Hst.
    2: { right. apply (gated_traces idem false); [exact Hg|done|apply traces_refl]. }
    destruct (backoffice_dec r (v_db (view w))) as [Hb|Hb]; [by left|right].
    apply authMiddleware_wp; [intros _; apply traces_refl|]. intros w' tok k pr Htok Hk Hsc Hadm Ht.
    apply (gated_traces idem true); [exact Hg| |exact Ht]. cbn. rewrite Hsc, Hadm.
    rewrite decide_False; [done|]. intros Hs. apply Hb. by exists tok, k.
  - right. apply wp_ret, traces_refl.
Qed.

(** A request that does not authenticate changes nothing. *)
Lemma unauthenticated_served (cfg : RouterConfig W) r w :
  h_store (rc_Handlers cfg) = true -> rq_FullPath r <> "/v1/oauth/discord/callback"%string ->
  (forall tok, extractBearer (GetHeader "Authorization" r) = Some tok ->
     active_key_by_hash (HashAPIKey tok) (v_db (view w)) = None) ->
  view (ServeHTTP cfg r w).2 = view w.
Proof.
  intros Hst Hcb Hno. apply (ServeHTTP_wp cfg r w (fun v' => v' = view w)); [done|]. intros w' Hw. rewrite <-Hw in *.
  destruct (dispatch_cases cfg (mkCtx r None "")) as [(hd & Hin & ->)|[(p & idem & hd & Hin & -> & Hp)| ->]]; [|rewrite Hst|done].
  - by eapply public_reads.
  - apply authMiddleware_wp; [done|]. intros w2 tok k pr Htok Hk. by rewrite (Hno tok Htok) in Hk.
Qed.


Lemma served_offline (cfg : RouterConfig W) (r : Request) (Hok : router_ok (view := view) cfg) :
  Offline view (ServeHTTP cfg r).
Proof.
  intros w. apply (ServeHTTP_wp cfg r w (fun v' => v_guild v' = v_guild (view w))); [done|].
  intros w' Hw. unfold wp. rewrite <-Hw. exact (dispatch_offline cfg Hok (mkCtx r None "") w').
Qed.

(** C2: only the backoffice changes anything (NFR-13, CWE-639). Whatever request the API serves, at whatever
    route, with whatever headers and body, and whatever fails: Discord is never touched; and unless
    the request carries an active key of scope backoffice, or is the OAuth2 callback, it leaves
    nothing behind but the last use of a key and a fresh idempotency key. *)
Theorem api_changes_authorized (cfg : RouterConfig W) (r : Request) (w : W) (Hok : router_ok (view := view) cfg) :
  let v := view w in
  let v' := view (ServeHTTP cfg r w).2 in
  v_guild v' = v_guild v /\
  (backoffice_request (v_db v) r \/ rq_FullPath r = "/v1/oauth/discord/callback"%string \/ traces_only v v').
Proof.
  intros v v'. split.
  - by apply served_offline.
  - destruct (decide (rq_FullPath r = "/v1/oauth/discord/callback"%string)) as [|Hcb]; [by right; left|].
    destruct (backoffice_dec r (v_db v)) as [|Hb]; [by left|]. right; right.
    apply (ServeHTTP_wp cfg r w (traces_only v)); [apply traces_refl|]. intros w' Hw.
    destruct (dispatch_wp cfg r w' Hcb) as [Hb'|Hd]; [by rewrite Hw in Hb'|by rewrite Hw in Hd].
Qed.
End Authorization.
