(* ===== verification/ApiRuns.v ===== *)
(** * ApiRuns: the API on the in-memory services

    Stand-ins for the libraries the API is given, which satisfy their laws; the witnesses of the
    theorems about the API, and runs that show what surprises. *)
From S2P Require Import Prelude Errors Domain Schema Services InMemory Postgres StoreSpec GoStrings Invariant.
From S2P Require Import Lock Cache Queue Provision Lifecycle Encoding Secrets OAuth.
From S2P Require Import Gin Authz Idempotency Api ApiSpaces ApiMembers ApiAgents ApiTransversal Router.

(** ** Stand-ins *)

(** Request bodies are names of documents. *)
Definition sample_documents : list (string * json) :=
  [("provision", JObj [("name", JStr "acme support"); ("category_id", JStr "42")]);
   ("resolve", JObj [("action", JStr "resolve")]); ("archive", JObj [("action", JStr "archive")]);
   ("invite", JObj [("discord_user_id", JStr "77")])]%string.
Definition find_document (s : string) : option json :=
  snd <$> head (filter (fun d => d.1 = s) sample_documents).
#[export] Instance sample_web : Web World :=
  {| json_Decode := find_document; bind_error := fun _ => "invalid body"%string;
     validator_email := fun _ => true; url_ParseRequestURI := fun u => Some ("https"%string, u);
     uuid_New := ret "99999999-9999-9999-9999-999999999999"%string |}.
#[export] Instance sample_web_laws : WebLaws w_view sample_web.
Proof. by intros w. Qed.

(** Discord's OAuth2 endpoints: one answer with the fields of both. *)
#[export] Instance sample_http : Http World :=
  {| http_Do := fun r => ret (Ok (200, json_text (JsonText := sample_json) (JObj
       [("access_token", JStr "at"); ("refresh_token", JStr "rt"); ("token_type", JStr "Bearer");
        ("scope", JStr "identify"); ("expires_in", JNum 3600); ("id", JStr "d9"); ("username", JStr "nine")]%string))) |}.
#[export] Instance sample_http_laws : HttpLaws w_view sample_http.
Proof. by intros r w. Qed.

#[export] Instance sample_cors : Cors World.
Proof.
  refine {| cors_New := fun _ next c w =>
    (with_header "Access-Control-Allow-Origin" "https://backoffice" (next c w).1, (next c w).2) |}.
  intros origins next c w. right. by eexists.
Defined.

(** Two keys, two merchants with a space each. *)
Definition m1 : string := "11111111-1111-1111-1111-111111111111".
Definition m2 : string := "22222222-2222-2222-2222-222222222222".
Definition m3 : string := "33333333-3333-3333-3333-333333333333".
Definition api_space (id m name : string) (created : Z) : Space :=
  mkSpace id m (Some ("c" +:+ id)) None name SpaceLifecycleActive ACLStateApplied None None None 0 created created None.
Definition api_DB : DB :=
  mkDB {[m1 := mkMerchant m1 "ref1" "Acme" None true 0 0; m2 := mkMerchant m2 "ref2" "Bolt" None true 1 1;
         m3 := mkMerchant m3 "ref3" "Cogs" None true 2 2]}
    {["u1"%string := user_of "u1" UserTypeCollaborator (Some "77"%string)]}
    {["s1"%string := api_space "s1" m1 "acme" 0; "s2"%string := api_space "s2" m2 "bolt" Second]}
    ∅ ∅ {["k1"%string := mkAPIKey "k1" "backoffice" "backoffice-key" "backoffice" 0 None None;
        "k2"%string := mkAPIKey "k2" "dashboards" "reporting-key" "reporting" 0 None None]}
    ∅ ∅ ∅ [] 0.

(** The constraints of a concrete database are checked by computation. *)
#[export] Instance points_dec {B} ref (target : gmap string B) : Decision (points ref target).
Proof. unfold points. destruct ref; apply _. Defined.
Lemma unique_check {A B} `{EqDecision B} (key : A -> option B) tab :
  bool_decide (NoDup (omap (key ∘ snd) (map_to_list tab))) = true -> unique key tab.
Proof.
  intros Hn%bool_decide_eq_true id1 id2 a1 a2 b H1 H2 K1 K2. apply elem_of_map_to_list in H1, H2.
  revert H1 H2 Hn. generalize (map_to_list tab). intros l.
  induction l as [|[i x] l IH]; [by intros ?%not_elem_of_nil|]. cbn.
  assert (Hin : forall j a, (j, a) ∈ l -> key a = Some b -> b ∈ omap (key ∘ snd) l).
  { intros j a Ha Hk. apply list_elem_of_omap. by exists (j, a). }
  rewrite !elem_of_cons. intros [[= -> ->]|H1] [[= -> ->]|H2] Hn; [done|..].
  - rewrite K1 in Hn. apply NoDup_cons in Hn as [Hn _]. destruct Hn. by eapply Hin.
  - rewrite K2 in Hn. apply NoDup_cons in Hn as [Hn _]. destruct Hn. by eapply Hin.
  - apply IH; [done|done|]. destruct (key x); [by apply NoDup_cons in Hn as [_ Hn]|done].
Qed.
Ltac check_wf := constructor;
  lazymatch goal with
  | |- unique _ _ => apply unique_check; vm_compute; reflexivity
  | |- _ => apply (bool_decide_unpack _); vm_compute; exact I
  end.
Lemma api_DB_wf : db_wf api_DB.
Proof. check_wf. Qed.

Definition api_world (script : list fault) : World :=
  world (mkView api_DB empty_Guild ∅ [] empty_Metrics) script.

Definition sample_handlers : Handlers World :=
  NewHandlers true true (Some ValKeyCache) "client" "secret" "https://hub/cb" (Some sample_states) (Some sample_tokens).
Definition sample_router : RouterConfig World :=
  mkRouterConfig ["https://backoffice"%string] sample_handlers (fun _ => "failed"%string).
Lemma sample_router_ok : router_ok (view := w_view) sample_router.
Proof. split; [cbn; apply _|exact sample_states_laws]. Defined.

(** A request with a key and a body. *)
Definition request (method pattern : string) (params : list (string * string)) (key : string)
    (headers : list (string * string)) (body : string) : Request :=
  mkRequest method pattern params (("Authorization"%string, "Bearer " +:+ key) :: headers) [] (Ok body).
Definition serve (r : Request) (w : World) : Response * World :=
  ServeHTTP (C := sample_crypto) (J := sample_json) sample_router r w.

Definition post_lifecycle (id key : string) (headers : list (string * string)) : Request :=
  request "POST" "/v1/channels/:id/lifecycle" [("id"%string, id)] key headers "resolve".
Definition idem_header : list (string * string) := [("Idempotency-Key"%string, "once"%string)].

(** ** Witnesses *)

(** The reporting key, and a backoffice request with it for comparison. *)
Lemma api_changes_authorized_witness :
  let r := post_lifecycle "s1" "reporting-key" idem_header in
  let v := w_view (api_world []) in
  let v' := w_view (serve r (api_world [])).2 in
  rs_Status (serve r (api_world [])).1 = 403 /\ v_guild v' = v_guild v /\
  (backoffice_request (H := sample_crypto) (v_db v) r \/
   rq_FullPath r = "/v1/oauth/discord/callback"%string \/ traces_only v v').
Proof.
  split; [vm_compute; reflexivity|].
  apply (api_changes_authorized (E := env_world) (view := w_view) (C := sample_crypto) (J := sample_json)
           sample_router (post_lifecycle "s1" "reporting-key" idem_header) (api_world []) sample_router_ok).
Defined.

(** The record of a lifecycle request, and the same request again. *)
Definition answered : Response * World := serve (post_lifecycle "s1" "backoffice-key" idem_header) (api_world []).
Definition answered_row : IdempotencyKey :=
  default (mkIdempotencyKey "" "" JobStatusPending None None None 0 0)
    (t_idempotency_keys (v_db (w_view answered.2)) !! "once"%string).
Definition lifecycle_ctx : Ctx :=
  mkCtx (post_lifecycle "s1" "backoffice-key" idem_header)
    (Some (mkPrincipal PrincipalTypeService "k1" "" false "backoffice")) "".
Lemma idempotent_request_witness :
  rs_Status answered.1 = 202 /\ ik_ResponseCode answered_row = Some 202 /\
  let '(r, w') := Idempotency (C := sample_crypto) true (fun _ => ret recovered) lifecycle_ctx answered.2 in
  (r = problem StatusInternalServerError "internal_error" "idempotency check failed" /\ w_view w' = w_view answered.2) \/
  exists code stored, ik_ResponseBody answered_row = Some stored /\ ik_ResponseCode answered_row = Some code /\
    r = with_header "Idempotency-Replay" "true" (JSON code stored) /\ w_view w' = w_view answered.2.
Proof.
  split; [vm_compute; reflexivity|]. split; [vm_compute; reflexivity|].
  assert (Hb : is_Some (ik_ResponseBody answered_row)) by (vm_compute; eauto). destruct Hb as [stored Hb].
  assert (Hc : ik_ResponseCode answered_row = Some 202) by (vm_compute; reflexivity).
  pose proof (idempotent_request (E := env_world) (view := w_view) (C := sample_crypto)
    (fun _ => ret recovered) lifecycle_ctx "resolve" answered_row answered.2) as H.
  specialize (H ltac:(done) ltac:(done) ltac:(vm_compute; reflexivity) ltac:(apply world_pg_before; vm_compute; reflexivity)).
  destruct (Idempotency _ _ _ _) as [r w']. destruct H as [H|H]; [by left|right].
  rewrite Hb, Hc in H. exists 202, stored. rewrite decide_True in H by (vm_compute; reflexivity). tauto.
Defined.

(** ** What surprises *)

(** A replay is answered before Layer B looks at the principal, and for the route pattern alone. After
    the backoffice resolved one space under an idempotency key, a key without control-plane scope gets
    the recorded answer with the same request, while without the key it is refused; and the backoffice
    itself, asking the same for another space under that key, gets the recorded answer of the first
    space, and nothing is asked for the other. *)
Theorem replay_before_authorization :
  let w1 := answered.2 in
  let other := serve (post_lifecycle "s2" "backoffice-key" idem_header) w1 in
  let stranger := serve (post_lifecycle "s1" "reporting-key" idem_header) w1 in
  rs_Status (serve (post_lifecycle "s1" "reporting-key" []) w1).1 = 403 /\
  rs_Status stranger.1 = 202 /\ rs_Body stranger.1 = rs_Body answered.1 /\
  rs_Status other.1 = 202 /\ rs_Body other.1 = rs_Body answered.1 /\
  v_queue (w_view other.2) = v_queue (w_view w1) /\ length (v_queue (w_view w1)) = 1%nat /\
  t_jobs (v_db (w_view other.2)) = t_jobs (v_db (w_view w1)).
Proof. vm_compute. repeat split. Qed.

(** A GET of the list of channels. *)
Definition list_ctx (query : list (string * string)) : Ctx :=
  mkCtx (mkRequest "GET" "/v1/channels" [] [] query (Ok ""%string))
    (Some (mkPrincipal PrincipalTypeService "k1" "" false "backoffice")) "".

(** A filtered list is cached under the key of the whole list. On an empty cache, the first list of one
    merchant's channels makes the next list of all channels answer, from the cache, with that
    merchant's channels only. *)
Theorem filtered_list_poisons_cache (J : JsonText) :
  let only := JObj (encode_spaceResponse (toSpaceResponse (api_space "s1" m1 "acme" 0))) in
  let page := [("items"%string, JArr [only]); ("next_cursor"%string, JNull)] in
  let first := ListSpaces_handler (J := J) sample_handlers (list_ctx [("merchant_id"%string, m1)]) (api_world []) in
  let second := ListSpaces_handler (J := J) sample_handlers (list_ctx []) first.2 in
  rs_Body first.1 = BJSON (JObj page) /\
  rs_Body second.1 = BData (json_text (JObj page)) /\
  find "X-Cache" (rs_Header second.1) = Some "HIT"%string.
Proof. vm_compute. repeat split. Qed.
