(* ===== verification/ApiSpecs.v ===== *)
(** * ApiSpecs: what the writing requests of the API leave behind

    A provisioning request records a space, its job and its task together or not at all. *)
From S2P Require Import Prelude Errors Domain Schema Services InMemory Postgres StoreSpec GoStrings Invariant.
From S2P Require Import Lock Cache Queue Provision Lifecycle Encoding Secrets OAuth.
From S2P Require Import Gin Authz Idempotency Api ApiSpaces ApiMembers ApiAgents ApiTransversal Router ApiRuns.

(** The two states differ at most in one table. *)
Definition only_table {A} (T : Table A) (v v' : View) : Prop :=
  v' = v \/ exists tab, v' = with_db (tset T tab (v_db v)) v.

(** An insertion happened. *)
Definition inserted {A} (T : Table A) (n : nat) (uq fks : DB -> string -> bool) (row : Z -> string -> A)
    (a : A) (v v' : View) : Prop :=
  exists now id, a = row now id /\ tget T (v_db v) !! id = None /\ uq (v_db v) id = true /\ fks (v_db v) id = true /\
    v' = with_db (tset T (<[id := a]> (tget T (v_db v))) (v_db v)) v.

Section Specs.
Context {W : Type} {E : Env W} {view : W -> View} {L : EnvLaws E view}.

Lemma sql_insert_full {A} (T : Table A) n chk uq fks row db st a db' :
  sql_insert T n chk uq fks row st db = Ok (a, db') ->
  exists x, a = Some x /\ x = row (st_now st) (st_uuid st n) /\ tget T db !! st_uuid st n = None /\
    uq db (st_uuid st n) = true /\ fks db (st_uuid st n) = true /\
    db' = tset T (<[st_uuid st n := x]> (tget T db)) db.
Proof.
  unfold sql_insert. destruct chk; [done|]. destruct (bool_decide _) eqn:Hb; [done|].
  destruct (uq _ _) eqn:Hu; [|done]. destruct (fks _ _) eqn:Hf; [|done]. cbn. intros [= <- <-].
  apply bool_decide_eq_false, eq_None_not_Some in Hb. eauto 9.
Qed.

Lemma sql_insert_inserted {A} (T : Table A) n chk uq fks row v st a db :
  sql_insert T n chk uq fks row st (v_db v) = Ok (a, db) ->
  exists x, a = Some x /\ inserted T n uq fks row x v (with_db db v).
Proof.
  intros (x & -> & Hx & Hn & Hu & Hf & ->)%sql_insert_full. exists x. split; [done|]. do 2 eexists. eauto.
Qed.

(** What unique constraint an insertion of a new id has violated. *)
Lemma sql_insert_conflict {A} (T : Table A) n uq fks row st db :
  tget T db !! st_uuid st n = None -> sql_insert T n None uq fks row st db = Err (PgError pgUniqueViolation) ->
  uq db (st_uuid st n) = false.
Proof.
  unfold sql_insert. intros ->. rewrite bool_decide_eq_false_2 by by intros [? ?].
  destruct (uq _ _); [|done]. cbn. by destruct (fks _ _).
Qed.
Lemma sql_insert_err {A} (T : Table A) n chk uq fks row st db e :
  sql_insert T n chk uq fks row st db = Err e ->
  exists code, e = PgError code /\ (chk = None -> code = pgUniqueViolation \/ code = pgForeignKeyViolation).
Proof.
  unfold sql_insert. destruct chk as [code|]; [intros [= <-]; by exists code|].
  destruct (_ || _); [|destruct (negb _); [|done]]; intros [= <-]; eauto.
Qed.
Lemma taken_row {A B} `{EqDecision B} (key : A -> option B) b self tab :
  negb (taken key b self tab) = false -> exists id a, tab !! id = Some a /\ key a = Some b.
Proof. intros Ht. apply negb_false_iff, bool_decide_eq_true in Ht as (id & a & Hid & _ & Hk). eauto. Qed.
Lemma ids_new_0 st db : ids_new st db = true -> id_new (st_uuid st 0) db = true.
Proof. unfold ids_new. by intros [? _]%andb_prop. Qed.

(** INSERT of one row: inserted, refused, or an answer that is lost. *)
Lemma spec_insert {A B} (T : Table A) n chk uq fks row (k : result error A -> result error B) (g : A -> B) :
  (forall a, k (Ok a) = Ok (g a)) -> (forall e, exists e', k (Err e) = Err e') ->
  Spec view (r <- QueryRow (sql_insert T n chk uq fks row) ;; ret (k r)) (fun v r v' =>
    (exists a, r = Ok (g a) /\ inserted T n uq fks row a v v') \/
    (exists e, r = Err e) /\ (v' = v \/ exists a, inserted T n uq fks row a v v')).
Proof.
  intros Hok Herr. apply spec_query. intros v r v' [H|[H|H]].
  - destruct H as (st & a & db & Hq & -> & ->). apply sql_insert_inserted in Hq as (x & -> & Hi).
    left. rewrite Hok. eauto.
  - destruct H as (st & e & _ & -> & ->). right. split; [apply Herr|by left].
  - destruct H as (e & _ & -> & Hv). right. split; [apply Herr|].
    destruct Hv as [->|(st & a & db & Hq & ->)]; [by left|right].
    apply sql_insert_inserted in Hq as (x & -> & Hi). eauto.
Qed.

Lemma scan_err {A} what e : exists e', scan_row (A := A) what (Err e) = Err e'.
Proof. unfold scan_row. case_match; eauto. Qed.

Lemma inserted_only {A} (T : Table A) n uq fks row a v v' : inserted T n uq fks row a v v' -> only_table T v v'.
Proof. intros (now & id & _ & _ & _ & _ & ->). right. by eexists. Qed.

#[export] Instance CreateJob_spec p : Spec view (CreateJob p) (fun v _ v' => only_table jobs_T v v').
Proof.
  apply spec_of_wp. intros w. unfold CreateJob, sql_insert_job.
  eapply wp_last; [apply (spec_insert _ _ _ _ _ _ scanJob id); [done|intros e; apply scan_err]|].
  intros r v' [(a & _ & H)|[_ [->|(a & H)]]]; [|by left|]; by eapply inserted_only.
Qed.

#[export] Instance UpdateIdempotencyKeyResponse_spec p :
  Spec view (UpdateIdempotencyKeyResponse p) (fun v _ v' =>
    v' = v \/ exists tab, v' = with_db (set_idempotency_keys tab (v_db v)) v).
Proof.
  apply spec_pg.
  assert (Hex : forall v st a db', sql_update_idempotency_key p st (v_db v) = Ok (E := error) (a, db') ->
    with_db db' v = v \/ exists tab, with_db db' v = with_db (set_idempotency_keys tab (v_db v)) v).
  { intros v st a db'. unfold sql_update_idempotency_key.
    destruct (t_idempotency_keys (v_db v) !! uik_Key p) as [r|]; [|intros [= _ <-]; left; apply with_db_same].
    destruct (negb _); [done|]. intros [= _ <-]. right. by eexists. }
  intros v r v' [H|[H|H]].
  - destruct H as (st & a & db' & Hq & _ & ->). exact (Hex _ st a db' Hq).
  - destruct H as (_ & _ & _ & _ & ->). by left.
  - destruct H as (e & _ & _ & [->|(st & a & db' & Hq & ->)]); [by left|]. exact (Hex _ st a db' Hq).
Qed.

(** The transaction of a provisioning request. *)
Definition committed (sp : CreateSpaceParams) (ob : CreateOutboxParams) (space : Space) (row : OutboxRow)
    (v v' : View) : Prop :=
  exists now sid oid,
    space = mkSpace sid (csp_MerchantID sp) None (csp_DiscordCategoryID sp) (csp_Name sp)
              SpaceLifecycleActive ACLStatePending None None None 0 now now None /\
    row = mkOutboxRow oid (cob_Aggregate ob) (cob_AggregateID ob) (cob_Kind ob) (cob_Payload ob)
            (cob_IdempotencyKey ob) None now /\
    t_spaces (v_db v) !! sid = None /\ t_outbox (v_db v) !! oid = None /\
    (forall id s, t_spaces (v_db v) !! id = Some s -> sp_MerchantID s <> csp_MerchantID sp) /\
    (forall id o, t_outbox (v_db v) !! id = Some o -> ob_IdempotencyKey o <> cob_IdempotencyKey ob) /\
    v' = with_db (set_outbox (<[oid := row]> (t_outbox (v_db v)))
                    (set_spaces (<[sid := space]> (t_spaces (v_db v))) (v_db v))) v.

Lemma not_taken {A B} `{EqDecision B} (key : A -> option B) b self tab :
  tab !! self = None -> negb (taken key b self tab) = true -> forall id a, tab !! id = Some a -> key a <> Some b.
Proof.
  intros Hs Ht id a Ha Hk. apply negb_true_iff, bool_decide_eq_false in Ht. apply Ht. exists id, a.
  split; [done|]. split; [|done]. intros ->. congruence.
Qed.

(** The merchant has its space. *)
Definition has_space (m : string) (db : DB) : Prop :=
  exists id s, t_spaces db !! id = Some s /\ sp_MerchantID s = m.

Lemma space_conflict sp ob st db e : ids_new st db = true ->
  sql_create_space_with_outbox sp ob st db = Err e -> errors_Is e ErrConflict = true ->
  has_space (csp_MerchantID sp) db.
Proof.
  intros Hnew%ids_new_0 Hq He. unfold sql_create_space_with_outbox in Hq.
  destruct (sql_insert_space 0 sp st db) as [[[space|] db1]|e1] eqn:H1.
  - destruct (sql_insert_outbox 1 ob st db1) as [[[row|] db2]|e2] eqn:H2; [done|by injection Hq as <-|].
    injection Hq as <-. by destruct (sql_insert_err _ _ _ _ _ _ _ _ _ H2) as (code & -> & _).
  - by injection Hq as <-.
  - destruct (sql_insert_err _ _ _ _ _ _ _ _ _ H1) as (? & -> & [-> | ->]); [done|..]; [|by injection Hq as <-].
    apply sql_insert_conflict in H1; [|by apply bool_decide_eq_true in Hnew as (_ & _ & ? & _)].
    apply taken_row in H1 as (id & s & Hs & [= Hm]). by exists id, s.
Qed.

#[export] Instance CreateSpaceWithOutbox_spec sp ob : Spec view (CreateSpaceWithOutbox sp ob) (fun v r v' =>
  (exists space row, r = Ok (space, row) /\ committed sp ob space row v v') \/
  (exists e, r = Err e /\ (errors_Is e ErrConflict = true -> has_space (csp_MerchantID sp) (v_db v)) /\
     (v' = v \/ opaque e /\ exists space row, committed sp ob space row v v'))).
Proof.
  assert (Hex : forall v st a db, sql_create_space_with_outbox sp ob st (v_db v) = Ok (a, db) ->
            exists space row, a = (space, row) /\ committed sp ob space row v (with_db db v)).
  { intros v st a db. unfold sql_create_space_with_outbox.
    destruct (sql_insert_space 0 sp st (v_db v)) as [[[space|] db1]|e] eqn:H1; [|done..].
    destruct (sql_insert_outbox 1 ob st db1) as [[[row|] db2]|e] eqn:H2; [|done..]. intros [= <- <-].
    exists space, row. split; [done|].
    unfold sql_insert_space in H1. apply sql_insert_full in H1 as (x & [= <-] & Hs & Hn & Hu & _ & ->).
    unfold sql_insert_outbox in H2. apply sql_insert_full in H2 as (y & [= <-] & Ho & Hno & Huo & _ & ->).
    exists (st_now st), (st_uuid st 0), (st_uuid st 1). split; [done|]. split; [done|]. split; [exact Hn|].
    split; [exact Hno|]. split; [|split; [|done]].
    - intros id s Hid Hm. eapply not_taken in Hu; [|exact Hn|exact Hid]. congruence.
    - intros id o Hid Hk. eapply not_taken in Huo; [|exact Hno|exact Hid]. congruence. }
  assert (Hok : forall st db x, on_new_ids (sql_create_space_with_outbox sp ob) st db = Ok x ->
                  sql_create_space_with_outbox sp ob st db = Ok x).
  { unfold on_new_ids. intros st db x. by destruct (ids_new st db). }
  apply spec_of_wp. intros w. unfold CreateSpaceWithOutbox. eapply wp_last; [apply pg_exec_new_law|].
  intros r v' [H|[H|H]].
  - destruct H as (st & a & db & Hq%Hok & -> & ->). left. destruct (Hex _ _ _ _ Hq) as (s & o & -> & Hc). eauto.
  - destruct H as (st & e & Hq & -> & ->). right. exists e. split; [done|]. split; [|by left].
    unfold on_new_ids in Hq. destruct (ids_new st _) eqn:Hnew; [by eapply space_conflict|by injection Hq as <-].
  - destruct H as (e & He & -> & Hv). right. exists e. split; [done|].
    split; [destruct He as (_ & -> & _); done|].
    destruct Hv as [->|(st & a & db & Hq%Hok & ->)]; [by left|right]. split; [done|].
    destruct (Hex _ _ _ _ Hq) as (s & o & -> & Hc). eauto.
Qed.

(** The payload of a pending row, by its key. *)
#[export] Instance UpdateOutboxPayload_spec key pl : Spec view (UpdateOutboxPayload key (Some pl)) (fun v _ v' =>
  v' = v \/ v' = with_db (set_outbox ((fun o => if bool_decide (ob_IdempotencyKey o = key) && pending o
                             then with_payload (Some pl) o else o) <$> t_outbox (v_db v)) (v_db v)) v).
Proof.
  apply spec_pg. unfold sql_update_outbox_payload. intros v r v' [H|[H|H]].
  - destruct H as (st & a & db' & [= _ <-] & _ & ->). by right.
  - destruct H as (_ & _ & _ & _ & ->). by left.
  - destruct H as (e & _ & _ & [->|(st & a & db' & [= _ <-] & ->)]); [by left|by right].
Qed.

End Specs.

(** ** Provisioning *)

(** What a request leaves alone once its wishes are recorded. *)
Definition same_wishes (v v' : View) : Prop :=
  t_spaces (v_db v') = t_spaces (v_db v) /\ t_outbox (v_db v') = t_outbox (v_db v) /\
  t_space_members (v_db v') = t_space_members (v_db v) /\ t_users (v_db v') = t_users (v_db v) /\
  t_merchants (v_db v') = t_merchants (v_db v) /\ v_queue v' = v_queue v.
#[export] Instance same_wishes_refl : Reflexive same_wishes.
Proof. by repeat split. Qed.
#[export] Instance same_wishes_trans : Transitive same_wishes.
Proof. unfold same_wishes. intros x y z H1 H2. destruct_and!. repeat split; congruence. Qed.

Section Requests.
Context {W : Type} {E : Env W} {view : W -> View} {L : EnvLaws E view} {C : Crypto} {J : JsonText} {X : Web W}.
Context {XL : WebLaws view X} (h : Handlers W) {CL : CacheLaws view (h_cache h)}.

Lemma only_jobs_wishes v v' : only_table jobs_T v v' -> same_wishes v v'.
Proof. intros [->|[tab ->]]; [reflexivity|by repeat split]. Qed.

#[export] Instance job_for_spec p : Spec view (job_for p) (fun v _ v' => same_wishes v v').
Proof.
  apply spec_of_wp. intros w. unfold job_for. go_step. go_step. apply wp_ret. rewrite <-H.
  by apply only_jobs_wishes.
Qed.

#[export] Instance StoreIdempotencyResponse_spec key code body job :
  Spec view (StoreIdempotencyResponse key code body job) (fun v _ v' => same_wishes v v').
Proof.
  apply spec_of_wp. intros w. unfold StoreIdempotencyResponse. case_decide; [by apply wp_ret|].
  go_step. apply wp_ret. destruct H0 as [->|[tab ->]]; [reflexivity|by repeat split].
Qed.

#[export] Instance accepted_spec key job body : Spec view (accepted key job body) (fun v r v' =>
  same_wishes v v' /\ r = with_header "Location" ("/v1/jobs/" +:+ job) (JSON StatusAccepted body)).
Proof. apply spec_of_wp. intros w. unfold accepted. go_step. by apply wp_ret. Qed.

Lemma lock_wishes {A} v (r : result error A) v' : lock_outcome v r v' -> same_wishes v v'.
Proof. intros [[ks ->] _]. by repeat split. Qed.

(** The space and the outbox row a provisioning request records. *)
Definition provision_recorded (merchantID idemKey : string) (req : provisionSpaceRequest) (name : string)
    (v v' : View) : Prop :=
  exists now sid oid pl p,
    (forall id s, t_spaces (v_db v) !! id = Some s -> id <> sid /\ sp_MerchantID s <> merchantID) /\
    t_spaces (v_db v') = <[sid := mkSpace sid merchantID None (psr_CategoryID req) name SpaceLifecycleActive
       ACLStatePending None None None 0 now now None]> (t_spaces (v_db v)) /\
    (forall id o, t_outbox (v_db v) !! id = Some o -> id <> oid /\ ob_IdempotencyKey o <> idemKey) /\
    t_outbox (v_db v') = <[oid := mkOutboxRow oid "space" merchantID KindProvisionSpace (Some pl) idemKey None now]>
       (t_outbox (v_db v)) /\
    decode_ProvisionSpace (Some (JObj pl)) = Some p /\ pp_MerchantID p = merchantID /\ pp_SpaceName p = name /\
    (pp_SpaceID p = sid \/ pp_SpaceID p = ""%string) /\
    t_space_members (v_db v') = t_space_members (v_db v) /\ t_users (v_db v') = t_users (v_db v) /\
    t_merchants (v_db v') = t_merchants (v_db v) /\ v_queue v' = v_queue v.

Lemma recorded_wishes m k req name v v1 v2 :
  provision_recorded m k req name v v1 -> same_wishes v1 v2 -> provision_recorded m k req name v v2.
Proof.
  intros (now & sid & oid & pl & p & H) (E1 & E2 & E3 & E4 & E5 & E6).
  exists now, sid, oid, pl, p. rewrite E1, E2, E3, E4, E5, E6. exact H.
Qed.

Definition provision_params (merchantID : string) (req : provisionSpaceRequest) (name : string) : CreateSpaceParams :=
  mkCreateSpaceParams merchantID name (psr_CategoryID req) (psr_WelcomeMessage req).
Definition provision_row (merchantID idemKey name : string) : CreateOutboxParams :=
  mkCreateOutboxParams "space" merchantID KindProvisionSpace
    (Some [("merchant_id"%string, JStr merchantID); ("space_name"%string, JStr name)]) idemKey.

Lemma committed_recorded m k req name space row v v' :
  committed (provision_params m req name) (provision_row m k name) space row v v' ->
  provision_recorded m k req name v v' /\
  forall pl p, decode_ProvisionSpace (Some (JObj pl)) = Some p -> pp_MerchantID p = m -> pp_SpaceName p = name ->
    pp_SpaceID p = sp_ID space ->
    provision_recorded m k req name v (with_db (set_outbox ((fun o => if bool_decide (ob_IdempotencyKey o = k) && pending o
                             then with_payload (Some pl) o else o) <$> t_outbox (v_db v')) (v_db v')) v').
Proof.
  intros (now & sid & oid & -> & -> & Hs & Ho & Hms & Hko & ->).
  assert (Hsp : forall id s, t_spaces (v_db v) !! id = Some s -> id <> sid /\ sp_MerchantID s <> m).
  { intros id s Hid. split; [intros ->; congruence|by eapply Hms]. }
  assert (Hob : forall id o, t_outbox (v_db v) !! id = Some o -> id <> oid /\ ob_IdempotencyKey o <> k).
  { intros id o Hid. split; [intros ->; congruence|by eapply Hko]. }
  split.
  - exists now, sid, oid, [("merchant_id"%string, JStr m); ("space_name"%string, JStr name)],
      (mkProvisionSpacePayload m "" name "" ""). repeat (split; [done|]). split; [by right|]. by repeat split.
  - intros pl p Hdec Hm Hn Hid. exists now, sid, oid, pl, p.
    split; [done|]. split; [done|]. split; [done|]. split; [|by repeat (split; [done || (by left)|]); repeat split].
    cbn [v_db with_db t_outbox set_outbox]. rewrite fmap_insert. cbn [ob_IdempotencyKey pending ob_EnqueuedAt cob_IdempotencyKey provision_row].
    rewrite bool_decide_eq_true_2 by done. cbn [andb]. unfold with_payload. cbn. f_equal.
    apply map_eq. intros id. rewrite lookup_fmap. destruct (t_outbox (v_db v) !! id) as [o|] eqn:Hio; [|done].
    cbn. rewrite bool_decide_eq_false_2 by (by eapply Hko). done.
Qed.

Lemma provision_write_wp m k req name w :
  wp view (provision_write h m k req name) (fun r v' =>
    (v' = view w /\ (rs_Status r = 409 /\ has_space m (v_db (view w)) \/ rs_Status r = 500)) \/
    (provision_recorded m k req name (view w) v' /\ (rs_Status r = 202 \/ rs_Status r = 500))) w.
Proof.
  unfold provision_write. fold (provision_params m req name) (provision_row m k name).
  go_step. destruct H as [(space & row & -> & Hc)|(e & -> & Hconf & Hv)].
  - apply committed_recorded in Hc as [Hr0 Hr1].
    go_step.
    assert (Hr : provision_recorded m k req name (view w) (view w'0)).
    { destruct H as [->| ->]; [done|]. by eapply Hr1. }
    clear Hr0 Hr1 H. do 4 go_step. apply wp_ret. right. destruct H1 as [Hacc ->].
    split; [|by left]. eapply recorded_wishes; [exact Hr|]. etrans; [exact H|]. rewrite <-H0.
    etrans; [exact Hacc|]. by eapply lock_wishes.
  - apply wp_ret. destruct Hv as [->|(He & space & row & Hc)].
    + left. split; [reflexivity|]. destruct (errors_Is e ErrConflict); [left|by right]. split; [done|]. by apply Hconf.
    + right. apply committed_recorded in Hc as [Hr0 _]. split; [exact Hr0|]. right.
      by rewrite (proj1 (proj2 He)).
Qed.

(** The two outcomes of a provisioning request. *)
Definition provision_outcome (c : Ctx) (v : View) (r : Response) (v' : View) : Prop :=
  let m := Param "merchantId" (cx_Request c) in
  (v' = v /\ rs_Status r <> StatusAccepted /\ (rs_Status r = StatusConflict -> has_space m (v_db v))) \/
  (exists req name,
     RequireControlPlane (cx_Principal c) = true /\ isValidUUID m = true /\
     ShouldBindJSON decode_provisionSpaceRequest (fun q => negb (bool_decide (psr_Name q = ""%string))) (cx_Request c)
       = inl req /\
     validateProvisionRequest req = inl name /\ is_Some (t_merchants (v_db v) !! m) /\
     provision_recorded m (idem_or c ("provision:" +:+ m)) req name v v' /\
     (rs_Status r = StatusAccepted \/ rs_Status r = StatusInternalServerError)).

Lemma ProvisionSpace_wp (c : Ctx) (w : W) : wp view (ProvisionSpace h c) (provision_outcome c (view w)) w.
Proof.
  unfold provision_outcome. set (m := Param "merchantId" (cx_Request c)).
  assert (Hno : forall r, rs_Status r <> StatusAccepted -> rs_Status r <> StatusConflict ->
            view w = view w /\ rs_Status r <> StatusAccepted /\
            (rs_Status r = StatusConflict -> has_space m (v_db (view w))))
    by (intros; split_and!; [reflexivity|done..]).
  unfold ProvisionSpace, gated. destruct (h_store h); [|left; by apply Hno]. cbn [negb].
  destruct (RequireControlPlane _); [|left; by apply Hno]. cbn [negb].
  unfold parseUUIDParam. fold m. destruct (bool_decide (m = ""%string) || negb (isValidUUID m)) eqn:Hm; [left; by apply Hno|].
  apply orb_false_iff in Hm as [_ Hm]. apply negb_false_iff in Hm.
  destruct (ShouldBindJSON _ _ _) as [req|msg] eqn:Hb; [|left; by apply Hno].
  destruct (validateProvisionRequest req) as [name|msg] eqn:Hn; [|left; by apply Hno].
  go_step. destruct H as [Hv H]. destruct a as [mer|e].
  - eapply wp_mono; [apply provision_write_wp|]. rewrite Hv. intros r v' [[Hs Hr]|[Hr Hst]].
    + left. split; [done|]. by destruct Hr as [[-> ?]| ->].
    + right. exists req, name. destruct H as [(? & _ & Ha)|[[? _]|(? & _ & ?)]]; [|done..].
      repeat (split; [done || eauto|]). exact Hst.
  - apply wp_ret. left. rewrite Hv. apply Hno; unfold lookup_failed; by destruct (errors_Is e ErrNotFound).
Qed.

(** C14: provisioning is recorded whole or not at all, and only on a valid request. Whatever the request and
    whatever fails: either the answer is a refusal and nothing at all changed, a 409
    only when the merchant has its space already; or a principal with
    control-plane authority sent a well-formed request for a merchant that exists, the space (the
    merchant's first, pending and without a channel) and the outbox row of its task were added in one
    transaction, and the answer is 202, or 500 when the outcome of the commit was lost. Nothing is
    enqueued directly. The task's payload names the space unless the update that adds it failed. *)
Theorem provision_recorded_or_refused (c : Ctx) (w : W) :
  provision_outcome c (view w) (ProvisionSpace h c w).1 (view (ProvisionSpace h c w).2).
Proof. apply ProvisionSpace_wp. Qed.
End Requests.

(** ** Witness: a merchant's first space, with the update of the payload failing *)
Definition provision_ctx : Ctx :=
  mkCtx (request "POST" "/v1/merchants/:merchantId/channels" [("merchantId"%string, m3)] "backoffice-key" [] "provision")
    (Some (mkPrincipal PrincipalTypeService "k1" "" false "backoffice")) "".
Definition provisioned (script : list fault) : Response * World :=
  ProvisionSpace sample_handlers provision_ctx (api_world script).

Lemma provision_recorded_or_refused_witness :
  rs_Status (provisioned []).1 = 202 /\
  exists req name, validateProvisionRequest req = inl name /\
    provision_recorded m3 ("provision:" +:+ m3) req name (w_view (api_world [])) (w_view (provisioned []).2).
Proof.
  assert (Hst : rs_Status (provisioned []).1 = 202) by (vm_compute; reflexivity). split; [exact Hst|].
  destruct (provision_recorded_or_refused (E := env_world) (view := w_view) sample_handlers
    (CL := ltac:(cbn; apply _)) provision_ctx (api_world [])) as [(_ & Hn & _)|(req & name & _ & _ & _ & Hv & _ & Hr & _)].
  - by destruct Hn.
  - exists req, name. split; [exact Hv|exact Hr].
Defined.
