(* ===== verification/ApiMemberSpecs.v ===== *)
(** * ApiMemberSpecs: what the requests about collaborators leave behind

    An invitation records at most one new user and at most one membership, and puts at most one task
    into the queue; an expulsion writes nothing but a job and its task. *)
From S2P Require Import Prelude Errors Domain Schema Services InMemory Postgres StoreSpec GoStrings Invariant.
From S2P Require Import Lock Cache Queue Provision Lifecycle Encoding Secrets OAuth.
From S2P Require Import Gin Authz Idempotency Api ApiSpaces ApiMembers ApiAgents ApiTransversal Router ApiRuns ApiSpecs.

(** ** Vocabulary *)

(** The user a request asks for, by the first of its three names that is given. *)
Definition asked_for `{Env W} (req : inviteCollaboratorRequest) (u : User) : Prop :=
  if decide (icr_UserID req = ""%string) then
    if decide (icr_DiscordUserID req = ""%string)
    then exists e, u_Email u = Some e /\ (e = icr_Email req \/ citext_eq e (icr_Email req) = true)
    else u_DiscordUserID u = Some (icr_DiscordUserID req)
  else u_ID u = icr_UserID req.

(** A collaborator the request made up: no admin, not an agent, under a new id, and with a Discord
    identity nobody else has. *)
Definition new_collaborator (req : inviteCollaboratorRequest) (db : DB) (u : User) : Prop :=
  t_users db !! u_ID u = None /\ u_Type u = UserTypeCollaborator /\ u_IsAdmin u = false /\ u_IsActive u = true /\
  (forall d, u_DiscordUserID u = Some d -> d = icr_DiscordUserID req /\
     forall id x, t_users db !! id = Some x -> u_DiscordUserID x <> Some d).

(** A membership the request made: of that user in that space, active, not projected yet, and the
    only one. *)
Definition new_membership (spaceID userID : string) (db : DB) (sm : SpaceMember) : Prop :=
  t_space_members db !! sm_ID sm = None /\ sm_SpaceID sm = spaceID /\ sm_UserID sm = userID /\
  member_active sm = true /\ sm_OverwriteApplied sm = false /\
  (forall id x, t_space_members db !! id = Some x -> sm_SpaceID x = spaceID -> sm_UserID x <> userID).

(** The user has a membership of the space already. *)
Definition enrolled (spaceID userID : string) (db : DB) : Prop :=
  exists id sm, t_space_members db !! id = Some sm /\ sm_SpaceID sm = spaceID /\ sm_UserID sm = userID.

Definition invite_task (idemKey spaceID userID invitedBy : string) : AsynqTask :=
  mkTask KindInviteCollaborator (Some (encode_Invite (mkInviteCollaboratorPayload spaceID userID invitedBy)))
    QueueMembership (Some idemKey) (Some (24 * Hour)) None.
Definition expel_task_of (idemKey spaceID userID scope : string) : AsynqTask :=
  mkTask KindExpelCollaborator (Some (encode_Expel (mkExpelCollaboratorPayload spaceID userID scope)))
    QueueMembership (Some idemKey) (Some (24 * Hour)) None.

(** The rest of the wishes, while users, memberships and tasks may change. *)
Definition keeps_rest (v v' : View) : Prop :=
  t_spaces (v_db v') = t_spaces (v_db v) /\ t_outbox (v_db v') = t_outbox (v_db v) /\
  t_merchants (v_db v') = t_merchants (v_db v).

(** ** The methods of the store *)
Section Methods.
Context {W : Type} {E : Env W} {view : W -> View} {L : EnvLaws E view}.

#[export] Instance GetUserByDiscordID_spec d : Spec view (GetUserByDiscordID d)
  (get_outcome (fun db => head (rows_where (t_users db) (fun u => bool_decide (u_DiscordUserID u = Some d))))).
Proof. apply spec_get. Qed.
#[export] Instance GetUserByEmail_spec e : Spec view (GetUserByEmail e)
  (get_outcome (fun db => head (rows_where (t_users db) (fun u =>
     match u_Email u with Some x => citext_eq x e | None => false end)))).
Proof. apply spec_get. Qed.

(** Creating a user who is no admin: the row is added, or refused, or the answer is lost. *)
Definition user_added (p : CreateUserParams) (u : User) (v v' : View) : Prop :=
  (exists now id, u = mkUser id (cup_Type p) (cup_IsAdmin p) (cup_DiscordUserID p) (cup_Email p)
                        (cup_DisplayName p) None true now now) /\
  t_users (v_db v) !! u_ID u = None /\
  (forall d i x, cup_DiscordUserID p = Some d -> t_users (v_db v) !! i = Some x -> u_DiscordUserID x <> Some d) /\
  v' = with_db (set_users (<[u_ID u := u]> (t_users (v_db v))) (v_db v)) v.

Lemma conflict_err {A} (e : error) : exists e', conflict (A := A) (Err e) = Err e'.
Proof. cbn. eauto. Qed.

#[export] Instance CreateUser_spec p : Spec view (CreateUser p) (fun v r v' =>
  (v' = v \/ exists u, user_added p u v v') /\ (forall u, r = Ok u -> user_added p u v v')).
Proof.
  apply spec_of_wp. intros w. unfold CreateUser, sql_insert_user.
  eapply wp_last; [apply (spec_insert _ _ _ _ _ _ (fun r => conflict (scanUser r)) id)|].
  - done.
  - intros e. destruct (scan_err (A := User) "postgres: scan user: " e) as [e' He]. unfold scanUser. rewrite He. apply conflict_err.
  - assert (Hadd : forall a v', inserted users_T 0 (fun db id => match cup_DiscordUserID p with None => true
                  | Some d => negb (taken u_DiscordUserID d id (t_users db)) end) no_unique
                 (fun now id => mkUser id (cup_Type p) (cup_IsAdmin p) (cup_DiscordUserID p) (cup_Email p)
                    (cup_DisplayName p) None true now now) a (view w) v' ->
              user_added p a (view w) v').
    { intros a v' (now & id & -> & Hn & Hu & _ & ->). split; [by exists now, id|]. split; [exact Hn|]. split; [|done].
      intros d i x Hd Hx. rewrite Hd in Hu. by eapply not_taken. }
    intros r v' [(a & -> & Ha)|[(e & ->) [->|(a & Ha)]]].
    + apply Hadd in Ha. split; [eauto|]. by intros u [= <-].
    + split; [by left|done].
    + apply Hadd in Ha. split; [eauto|done].
Qed.

#[export] Instance CreateSpaceMember_spec p : Spec view (CreateSpaceMember p) (fun v r v' =>
  let added := exists sm, new_membership (csm_SpaceID p) (csm_UserID p) (v_db v) sm /\
                 v' = with_db (set_space_members (<[sm_ID sm := sm]> (t_space_members (v_db v))) (v_db v)) v in
  is_Ok r = true /\ added \/
  r = Err ErrConflict /\ v' = v /\ enrolled (csm_SpaceID p) (csm_UserID p) (v_db v) \/
  (exists e, r = Err e /\ errors_Is e ErrConflict = false) /\ (v' = v \/ added)).
Proof.
  assert (Hadd : forall a db v, sql_insert_space_member p a (v_db v) = Ok db -> exists sm,
            db.1 = Some sm /\ new_membership (csm_SpaceID p) (csm_UserID p) (v_db v) sm /\
            with_db db.2 v = with_db (set_space_members (<[sm_ID sm := sm]> (t_space_members (v_db v))) (v_db v)) v).
  { intros st [x db] v Hq. unfold sql_insert_space_member in Hq.
    apply sql_insert_full in Hq as (sm & -> & -> & Hn & Hu & _ & ->). eexists. split; [reflexivity|]. split; [|done].
    split; [exact Hn|]. do 4 (split; [done|]). intros id x Hx Hs Hus.
    eapply not_taken in Hu; [|exact Hn|exact Hx]. apply Hu. congruence. }
  assert (Hok : forall st db x, on_new_ids (sql_insert_space_member p) st db = Ok x ->
                  sql_insert_space_member p st db = Ok x).
  { unfold on_new_ids. intros st db x. by destruct (ids_new st db). }
  apply spec_query_new. intros v r v' [H|[H|H]].
  - destruct H as (st & a & db & Hq%Hok & -> & ->). destruct (Hadd _ _ _ Hq) as (sm & Ha & Hm & Hv). cbn in Ha, Hv. subst a.
    left. split; [done|]. exists sm. by rewrite Hv.
  - destruct H as (st & e & Hq & -> & ->). right.
    unfold on_new_ids in Hq. destruct (ids_new st _) eqn:Hnew; [|injection Hq as <-; right].
    2: { split; [|by left]. eexists. split; [reflexivity|]. vm_compute. reflexivity. }
    destruct (sql_insert_err _ _ _ _ _ _ _ _ _ Hq) as (? & -> & [-> | ->]); [done|..].
    + left. split; [done|]. split; [done|]. apply ids_new_0, bool_decide_eq_true in Hnew as (_ & _ & _ & Hn & _).
      apply sql_insert_conflict, taken_row in Hq as (id & sm & Hl & [= Hs Hu]); [|exact Hn]. by exists id, sm.
    + right. split; [|by left]. eexists. split; [reflexivity|]. vm_compute. reflexivity.
  - destruct H as (e & He & -> & Hv). right. right.
    destruct (scan_row_opaque (A := SpaceMember) "postgres: scan space_member: " e He) as (e' & He' & Hs).
    unfold scanSpaceMember. rewrite Hs, (conflict_opaque e' He'). split.
    + exists e'. split; [done|]. by destruct He' as (_ & ? & _).
    + destruct Hv as [->|(st & a & db & Hq%Hok & ->)]; [by left|right].
      destruct (Hadd _ _ _ Hq) as (sm & _ & Hm & Hv'). cbn in Hv'. exists sm. by rewrite Hv'.
Qed.
End Methods.

(** ** Invitations *)
Section Requests.
Context {W : Type} {E : Env W} {view : W -> View} {L : EnvLaws E view} {C : Crypto} {J : JsonText} {X : Web W}.
Context {XL : WebLaws view X} (h : Handlers W).

(** The user of a request: found, or made up at most once, whatever becomes of the answer. *)
Definition users_grow (req : inviteCollaboratorRequest) (v v' : View) : Prop :=
  v' = v \/ exists u, new_collaborator req (v_db v) u /\
    v' = with_db (set_users (<[u_ID u := u]> (t_users (v_db v))) (v_db v)) v.
Definition resolved (req : inviteCollaboratorRequest) (v : View) (r : User + Z * string) (v' : View) : Prop :=
  users_grow req v v' /\
  (forall u, r = inl u -> (exists id, t_users (v_db v') !! id = Some u) /\ asked_for req u).

Lemma found_user v p u : head (rows_where (t_users (v_db v)) p) = Some u ->
  (exists id, t_users (v_db v) !! id = Some u) /\ p u = true.
Proof. intros (id & Hl & Hp)%head_Some_elem_of%rows_where_elem. eauto. Qed.

Lemma create_or_refetch_wp req p get f w :
  Spec view get (get_outcome f) -> cup_Type p = UserTypeCollaborator -> cup_IsAdmin p = false ->
  (forall d, cup_DiscordUserID p = Some d -> d = icr_DiscordUserID req) ->
  (forall db u, f db = Some u -> (exists id, t_users db !! id = Some u) /\ asked_for req u) ->
  (forall now id, asked_for req (mkUser id (cup_Type p) (cup_IsAdmin p) (cup_DiscordUserID p) (cup_Email p)
                    (cup_DisplayName p) None true now now)) ->
  wp view (create_or_refetch p get) (resolved req (view w)) w.
Proof.
  intros Hget Hty Had Hd Hf Hnew.
  assert (Hgrow : forall u v', user_added p u (view w) v' -> users_grow req (view w) v').
  { intros u v' ((now & id & ->) & Hn & Hu & ->). right. exists (mkUser id (cup_Type p) (cup_IsAdmin p)
      (cup_DiscordUserID p) (cup_Email p) (cup_DisplayName p) None true now now). split; [|done].
    split; [exact Hn|]. do 3 (split; [done|]). intros d Hdu. cbn in Hdu. split; [by apply Hd|].
    intros i x Hx. by eapply Hu. }
  unfold create_or_refetch. go_step. destruct H as [Hv Hr].
  assert (Hg : users_grow req (view w) (view w')) by (destruct Hv as [->|[u ?]]; [by left|by eapply Hgrow]).
  destruct a as [u|e].
  - apply wp_ret. split; [done|]. intros u' [= <-]. destruct (Hr u eq_refl) as ((now & id & ->) & _ & _ & Hv').
    split; [|apply Hnew]. exists id. rewrite Hv'. cbn. apply lookup_insert_eq.
  - destruct (errors_Is e ErrConflict); [|apply wp_ret; by split].
    eapply wp_step; [exact Hget|]. cbv beta. intros r w2 [Hv2 Ho]. apply wp_ret. rewrite Hv2. split; [done|].
    intros u Hu. destruct r as [x|]; [|done]. injection Hu as <-.
    destruct Ho as [(? & [= <-] & Hx)|[[? _]|(? & _ & ?)]]; [|done..]. by apply Hf.
Qed.

Lemma resolve_wp req w : db_wf (v_db (view w)) -> wp view (resolveOrCreateCollaborator req) (resolved req (view w)) w.
Proof.
  intros Hwf.
  assert (Hno : forall x, resolved req (view w) (inr x) (view w)) by (intros; split; [by left|done]).
  unfold resolveOrCreateCollaborator. case_bool_decide as Hu; cbn [negb].
  - case_bool_decide as Hd; cbn [negb].
    + unfold resolveOrCreateByEmail. go_step. destruct H as [Hv Ho]. destruct a as [u|e].
      * apply wp_ret. rewrite Hv. split; [by left|]. intros u' [= <-].
        destruct Ho as [(? & [= <-] & Hx)|[[? _]|(? & _ & ?)]]; [|done..]. apply found_user in Hx as [Hx Hp].
        split; [exact Hx|]. unfold asked_for. rewrite !decide_True by done.
        destruct (u_Email u) as [x|]; [|done]. eauto.
      * destruct (negb _); [apply wp_ret; rewrite Hv; apply Hno|]. rewrite <-Hv.
        eapply create_or_refetch_wp; [typeclasses eauto|done..| |].
        -- intros db u Hx. unfold rows_where in Hx.
           apply head_Some_elem_of, rows_where_elem in Hx as (id & Hl & Hp). split; [eauto|].
           unfold asked_for. rewrite !decide_True by done. destruct (u_Email u) as [x|]; [|done]. eauto.
        -- intros now id. unfold asked_for. rewrite !decide_True by done. cbn. eauto.
    + unfold resolveOrCreateByDiscordID. go_step. destruct H as [Hv Ho]. destruct a as [u|e].
      * apply wp_ret. rewrite Hv. split; [by left|]. intros u' [= <-].
        destruct Ho as [(? & [= <-] & Hx)|[[? _]|(? & _ & ?)]]; [|done..]. apply found_user in Hx as [Hx Hp].
        split; [exact Hx|]. unfold asked_for. rewrite decide_True, decide_False by done. by apply bool_decide_eq_true in Hp.
      * destruct (negb _); [apply wp_ret; rewrite Hv; apply Hno|]. rewrite <-Hv.
        eapply create_or_refetch_wp; [typeclasses eauto|done..| | |].
        -- by intros d [= <-].
        -- intros db u Hx. apply head_Some_elem_of, rows_where_elem in Hx as (id & Hl & Hp). split; [eauto|].
           unfold asked_for. rewrite decide_True, decide_False by done. by apply bool_decide_eq_true in Hp.
        -- intros now id. unfold asked_for. by rewrite decide_True, decide_False by done.
  - unfold resolveByUserID. go_step. destruct H as [Hv Ho]. apply wp_ret. rewrite Hv. split; [by left|].
    intros u Hr. destruct a as [x|e]; [|by destruct (errors_Is e ErrNotFound)]. injection Hr as <-.
    destruct Ho as [(? & [= <-] & Hx)|[[? _]|(? & _ & ?)]]; [|done..]. split; [eauto|].
    unfold asked_for. rewrite decide_False by done. by apply (wf_users _ Hwf).
Qed.

(** The same user under its own id. *)
Lemma resolved_keyed req v u v' : db_wf (v_db v) -> resolved req v (inl u) v' ->
  t_users (v_db v') !! u_ID u = Some u /\ asked_for req u.
Proof.
  intros Hwf [Hg Hu]. destruct (Hu u eq_refl) as [[id Hid] Ha]. split; [|exact Ha].
  enough (u_ID u = id) as -> by done. destruct Hg as [->|(x & _ & ->)]; [by apply (wf_users _ Hwf)|].
  cbn in Hid. apply lookup_insert_Some in Hid as [[<- <-]|[_ Hid]]; [done|by apply (wf_users _ Hwf)].
Qed.

Lemma kv_wishes v ks : same_wishes v (with_kv ks v).
Proof. by repeat split. Qed.
Lemma Issue_wishes (sm : StateManager W) (NL : NonceLaws view (stm_nonces sm)) u :
  Spec view (Issue sm u) (fun v _ v' => same_wishes v v').
Proof.
  apply spec_of_wp. intros w. unfold Issue. go_step. destruct H as [Hv _].
  destruct a as [b|e]; [|apply wp_ret; by rewrite Hv]. go_step. go_step. destruct H0 as [[ks Hk] _].
  destruct a0; apply wp_ret; rewrite Hk, H, Hv; apply kv_wishes.
Qed.

(** Handing a task to the queue: it is there, or nothing is, whatever the answer. *)
Definition offered (t : AsynqTask) (v v' : View) : Prop := v' = v \/ v' = with_queue (v_queue v ++ [t]) v.
Lemma Enqueue_offered ty q p o :
  Spec view (Enqueue ty q p o) (fun v _ v' =>
    offered (mkTask ty p q (eo_TaskID o) (eo_Unique o) (eo_MaxRetry o)) v v').
Proof.
  apply spec_of_wp. intros w. unfold Enqueue, offered. go_step. apply wp_ret.
  destruct H as [(_ & -> & _)|[(_ & -> & _)|[(_ & -> & _)|(e & _ & _ & [->|[-> _]])]]]; auto.
Qed.

(** What the second half of an invitation leaves behind, for the user it has resolved. *)
Definition invite_params (by_ s u : string) : CreateSpaceMemberParams :=
  mkCreateSpaceMemberParams s u SpaceMemberRoleCollaborator (nilIfEmpty by_).
Definition members_grow (s u : string) (v v' : View) : Prop :=
  exists sm, new_membership s u (v_db v) sm /\
    t_space_members (v_db v') = <[sm_ID sm := sm]> (t_space_members (v_db v)).
Definition invite_written (idemKey by_ s u : string) (v : View) (r : Response) (v' : View) : Prop :=
  keeps_rest v v' /\ t_users (v_db v') = t_users (v_db v) /\
  (t_space_members (v_db v') = t_space_members (v_db v) \/ members_grow s u v v') /\
  (rs_Status r = StatusInternalServerError /\ v_queue v' = v_queue v \/
   rs_Status r = StatusAccepted /\
     (members_grow s u v v' \/ enrolled s u (v_db v)) /\
     (v_queue v' = v_queue v \/ v_queue v' = v_queue v ++ [invite_task idemKey s u by_])).

Lemma invite_write_wp c by_ s user w :
  match h_stateManager h with Some sm => inhabited (NonceLaws view (stm_nonces sm)) | None => True end ->
  wp view (invite_write h c by_ s user)
    (invite_written (idem_or c ("invite:" +:+ s +:+ ":" +:+ u_ID user)) by_ s (u_ID user) (view w)) w.
Proof.
  intros HN. unfold invite_write. fold (invite_params by_ s (u_ID user)). go_step. cbv zeta in H.
  destruct (match a with Err e => _ | Ok _ => false end) eqn:Hfail.
  - apply wp_ret.
    assert (Hm : view w' = view w \/ exists sm, new_membership s (u_ID user) (v_db (view w)) sm /\
       view w' = with_db (set_space_members (<[sm_ID sm := sm]> (t_space_members (v_db (view w)))) (v_db (view w))) (view w)).
    { destruct H as [[Hok _]|[(-> & _)|[_ ?]]]; [by destruct a|by cbn in Hfail|done]. }
    destruct Hm as [->|(sm & Hm & ->)].
    + split; [done|]. split; [done|]. split; [by left|by left].
    + split; [done|]. split; [done|]. split; [right; by exists sm|by left].
  - assert (Hm : (exists sm, new_membership s (u_ID user) (v_db (view w)) sm /\
         view w' = with_db (set_space_members (<[sm_ID sm := sm]> (t_space_members (v_db (view w)))) (v_db (view w))) (view w)) \/
       view w' = view w /\ enrolled s (u_ID user) (v_db (view w))).
    { destruct H as [[_ ?]|[(_ & ? & ?)|[(e & -> & He) _]]]; [by left|by right|]. by rewrite He in Hfail. }
    clear H Hfail.
    eapply wp_seq with (R := fun _ v => same_wishes (view w') v).
    { destruct (u_DiscordUserID user); [by apply wp_ret|]. destruct (h_stateManager h) as [sm|]; [|by apply wp_ret].
      destruct HN as [HN]. eapply wp_step; [by apply Issue_wishes|]. cbv beta. intros st w2 Hst. by apply wp_ret. }
    intros url w2 H2. go_step. rename H into H3.
    eapply wp_seq with (R := fun _ v => offered (invite_task (idem_or c ("invite:" +:+ s +:+ ":" +:+ u_ID user)) s
                                          (u_ID user) by_) (view w'0) v).
    { destruct (h_queueClient h); [eapply wp_last; [apply Enqueue_offered|]; by intros|apply wp_ret; by left]. }
    intros q w4 H4. go_step. apply wp_ret. rewrite H. clear H.
    assert (Hs : same_wishes (view w') (view w'0)) by by etrans.
    destruct Hs as (E1 & E2 & E3 & E4 & E5 & E6).
    assert (Hq : v_db (view w4) = v_db (view w'0) /\ (v_queue (view w4) = v_queue (view w') \/
        v_queue (view w4) = v_queue (view w') ++ [invite_task (idem_or c ("invite:" +:+ s +:+ ":" +:+ u_ID user)) s (u_ID user) by_])).
    { destruct H4 as [->| ->]; cbn; rewrite E6; auto. }
    destruct Hq as [Hdb Hq]. unfold invite_written, keeps_rest, members_grow.
    rewrite Hdb, E1, E2, E3, E4, E5.
    destruct Hm as [(sm & Hm & Hv)|[Hv Hc]]; rewrite Hv in *.
    + split; [done|]. split; [done|]. split; [right; by exists sm|]. right. split; [done|]. split; [left; by exists sm|exact Hq].
    + split; [done|]. split; [done|]. split; [by left|]. right. split; [done|]. split; [by right|exact Hq].
Qed.

(** The outcomes of an invitation. *)
Definition invite_outcome (c : Ctx) (v : View) (r : Response) (v' : View) : Prop :=
  let s := Param "id" (cx_Request c) in
  let by_ := match cx_Principal c with Some p => pr_UserID p | None => ""%string end in
  (v' = v /\ rs_Status r <> StatusAccepted) \/
  (exists req v1,
     RequireControlPlane (cx_Principal c) = true /\
     ShouldBindJSON decode_inviteRequest (fun _ => true) (cx_Request c) = inl req /\
     validateInviteInputs req = None /\ is_Some (t_spaces (v_db v) !! s) /\ users_grow req v v1 /\
     (v' = v1 /\ rs_Status r <> StatusAccepted \/
      exists u, t_users (v_db v1) !! u_ID u = Some u /\ asked_for req u /\
        invite_written (idem_or c ("invite:" +:+ s +:+ ":" +:+ u_ID u)) by_ s (u_ID u) v1 r v')).

Lemma resolve_status req w : match (resolveOrCreateCollaborator req w).1 with
                             | inr (st, _) => st <> StatusAccepted | inl _ => True end.
Proof.
  unfold resolveOrCreateCollaborator, resolveByUserID, resolveOrCreateByDiscordID, resolveOrCreateByEmail,
    create_or_refetch, bind, ret. repeat case_match; try done; repeat case_match; simplify_eq/=; try done;
    repeat case_match; by simplify_eq/=.
Qed.

(** The run behind [invite_recorded_or_refused]. *)
Lemma invite_request_run (c : Ctx) (w : W) :
  match h_stateManager h with Some sm => inhabited (NonceLaws view (stm_nonces sm)) | None => True end ->
  db_wf (v_db (view w)) ->
  invite_outcome c (view w) (InviteCollaborator h c w).1 (view (InviteCollaborator h c w).2).
Proof.
  intros HN Hwf. change (wp view (InviteCollaborator h c) (invite_outcome c (view w)) w).
  unfold InviteCollaborator, gated. set (s := Param "id" (cx_Request c)).
  destruct (h_store h); [|by apply wp_ret; left]. cbn [negb].
  destruct (RequireControlPlane _) eqn:Hcp; [|by apply wp_ret; left]. cbn [negb].
  case_decide; [by apply wp_ret; left|].
  destruct (ShouldBindJSON _ _ _) as [req|msg] eqn:Hb; [|by apply wp_ret; left].
  destruct (_ && _ && _); [by apply wp_ret; left|].
  destruct (validateInviteInputs req) eqn:Hval; [by apply wp_ret; left|].
  go_step. destruct H0 as [Hv Ho]. destruct a as [sp|e].
  2: { apply wp_ret. left. split; [done|]. unfold lookup_failed. by destruct (errors_Is e ErrNotFound). }
  assert (Hsp : is_Some (t_spaces (v_db (view w)) !! s)).
  { destruct Ho as [(? & _ & Hs)|[[? _]|(? & _ & ?)]]; [by eexists|done..]. }
  pose proof (resolve_status req w') as Hst.
  apply wp_bind. pose proof (resolve_wp req w') as Hr. rewrite Hv in Hr. specialize (Hr Hwf). unfold wp in Hr. revert Hr Hst.
  generalize (resolveOrCreateCollaborator req w'). intros [u w2] Hr Hst. cbn [fst snd] in *.
  destruct u as [user|[st msg]].
  - destruct (resolved_keyed _ _ _ _ Hwf Hr) as [Hin Hask]. destruct Hr as [Hg _].
    eapply wp_mono; [by apply invite_write_wp|]. cbv beta. intros r v' Hw. right. exists req, (view w2).
    do 5 (split; [done|]). right. exists user. by repeat (split; [done|]).
  - apply wp_ret. right. exists req, (view w2). destruct Hr as [Hg _]. do 5 (split; [done|]). by left.
Qed.

(** C15: an invitation writes what it was asked for, or nothing. Whatever the request and whatever fails: the
    request is refused and nothing changes; or a principal with control-plane authority sent a valid
    request for a space that exists, and then at most one user was made up, a collaborator who is
    no admin and takes nobody's Discord identity, at most one membership was added, the first of
    exactly the user asked for in exactly that space, and at most one task was put into the queue,
    the invitation of that user to that space. 202 is answered only with the membership in
    place, new or there before; no task is in the queue unless 202 was answered. *)
Theorem invite_recorded_or_refused (c : Ctx) (w : W) :
  match h_stateManager h with Some sm => inhabited (NonceLaws view (stm_nonces sm)) | None => True end ->
  db_wf (v_db (view w)) ->
  invite_outcome c (view w) (InviteCollaborator h c w).1 (view (InviteCollaborator h c w).2).
Proof. exact (invite_request_run c w). Qed.

(** ** Expulsions *)

(** An expulsion asks the worker: it writes a job and offers its task, for a space and a user that
    exist, and leaves the membership to the worker. *)
Lemma expel_asks (c : Ctx) (w : W) :
  let s := Param "id" (cx_Request c) in
  let u := Param "userId" (cx_Request c) in
  let scope := DefaultQuery "scope" ExpulsionScopeChannel (cx_Request c) in
  let r := (ExpelCollaborator h c w).1 in
  let v := view w in
  let v' := view (ExpelCollaborator h c w).2 in
  (v' = v /\ rs_Status r <> StatusAccepted) \/
  (RequireControlPlane (cx_Principal c) = true /\ rs_Status r = StatusAccepted /\
   is_Some (t_spaces (v_db v) !! s) /\ is_Some (t_users (v_db v) !! u) /\
   (scope = ExpulsionScopeChannel \/ scope = ExpulsionScopeServer) /\
   exists v1, same_wishes v v1 /\
     offered (expel_task_of (idem_or c ("expel:" +:+ s +:+ ":" +:+ u +:+ ":" +:+ scope)) s u scope) v1 v').
Proof.
  intros s u scope. cbv zeta. change (wp view (ExpelCollaborator h c) (fun r v' =>
    (v' = view w /\ rs_Status r <> StatusAccepted) \/
    (RequireControlPlane (cx_Principal c) = true /\ rs_Status r = StatusAccepted /\
     is_Some (t_spaces (v_db (view w)) !! s) /\ is_Some (t_users (v_db (view w)) !! u) /\
     (scope = ExpulsionScopeChannel \/ scope = ExpulsionScopeServer) /\
     exists v1, same_wishes (view w) v1 /\
       offered (expel_task_of (idem_or c ("expel:" +:+ s +:+ ":" +:+ u +:+ ":" +:+ scope)) s u scope) v1 v')) w).
  unfold ExpelCollaborator, gated. fold s u scope.
  destruct (h_store h); [|by apply wp_ret; left]. cbn [negb].
  destruct (RequireControlPlane _) eqn:Hcp; [|by apply wp_ret; left]. cbn [negb].
  destruct (_ || _); [by apply wp_ret; left|].
  destruct (negb (bool_decide (scope = ExpulsionScopeChannel)) && _) eqn:Hsc; [by apply wp_ret; left|].
  assert (Hscope : scope = ExpulsionScopeChannel \/ scope = ExpulsionScopeServer).
  { apply andb_false_iff in Hsc as [Hs|Hs]; apply negb_false_iff, bool_decide_eq_true in Hs; auto. }
  assert (Hfail : forall m1 m2 e v', v' = view w -> v' = view w /\ rs_Status (lookup_failed m1 m2 e) <> StatusAccepted).
  { intros m1 m2 e v' ->. split; [done|]. unfold lookup_failed. by destruct (errors_Is e ErrNotFound). }
  go_step. destruct H as [Hv Ho]. destruct a as [sp|e]; [|apply wp_ret; left; by apply Hfail].
  go_step. destruct H as [Hv1 Ho1]. rewrite Hv in Hv1, Ho1. destruct a as [us|e]; [|apply wp_ret; left; by apply Hfail].
  unfold expel_write. go_step. rewrite Hv1 in H.
  eapply wp_seq with (R := fun _ v => offered (expel_task_of (idem_or c ("expel:" +:+ s +:+ ":" +:+ u +:+ ":" +:+ scope)) s u scope)
                                        (view w'1) v).
  { destruct (h_queueClient h); [eapply wp_last; [apply Enqueue_offered|]; by intros|apply wp_ret; by left]. }
  intros q w4 H4. go_step. apply wp_ret. right. split; [done|]. split; [done|].
  split; [destruct Ho as [(? & _ & Hs)|[[? _]|(? & _ & ?)]]; [by eexists|done..]|].
  split; [destruct Ho1 as [(? & _ & Hs)|[[? _]|(? & _ & ?)]]; [by eexists|done..]|].
  split; [done|]. exists (view w'1). split; [exact H|]. by rewrite H0.
Qed.
End Requests.

(** ** Witness: an invitation by Discord id of somebody who is not known yet *)
Definition invite_ctx : Ctx :=
  mkCtx (request "POST" "/v1/channels/:id/collaborators" [("id"%string, "s1"%string)] "backoffice-key" [] "invite")
    (Some (mkPrincipal PrincipalTypeService "k1" "" false "backoffice")) "".
Definition invited : Response * World :=
  InviteCollaborator (C := sample_crypto) (J := sample_json) sample_handlers invite_ctx (api_world []).

Lemma invite_recorded_or_refused_witness :
  rs_Status invited.1 = StatusAccepted /\
  (exists sm, t_space_members (v_db (w_view invited.2)) !! "id-4"%string = Some sm /\ sm_UserID sm = "u1"%string) /\
  exists v1 u, u_DiscordUserID u = Some "77"%string /\
    invite_written ("invite:s1:" +:+ u_ID u) "" "s1" (u_ID u) v1 invited.1 (w_view invited.2).
Proof.
  assert (Hst : rs_Status invited.1 = StatusAccepted) by (vm_compute; reflexivity). split; [exact Hst|].
  split; [eexists; split; vm_compute; reflexivity|].
  destruct (invite_recorded_or_refused (E := env_world) (view := w_view) (C := sample_crypto) (J := sample_json)
    sample_handlers invite_ctx (api_world []) (inhabits sample_states_laws) api_DB_wf)
    as [[_ Hn]|(req & v1 & _ & Hb & _ & _ & Hg & [[_ Hn]|(u & Hu & Ha & Hw)])]; [by destruct Hn|by destruct Hn|].
  assert (Hreq : ShouldBindJSON decode_inviteRequest (fun _ => true) (cx_Request invite_ctx) =
    inl (mkInviteCollaboratorRequest "" "77" "" None)) by (vm_compute; reflexivity).
  rewrite Hreq in Hb. injection Hb as <-. exists v1, u. split; [exact Ha|exact Hw].
Defined.
