(* ===== verification/ApiLifecycle.v ===== *)
(** * ApiLifecycle: what a request for another lifecycle state, or for an expulsion, leaves behind

    Either request writes a job and offers a task; the state and the membership themselves are the worker's to
    change. Job and task go by the idempotency key of the request, which without a header is made of the
    parameters of the request. *)
From S2P Require Import Prelude Errors Domain Schema Services InMemory Postgres StoreSpec GoStrings Invariant.
From S2P Require Import Lock Cache Queue Provision Lifecycle Encoding Secrets OAuth.
From S2P Require Import Gin Authz Idempotency Api ApiSpaces ApiMembers ApiAgents ApiTransversal Router ApiRuns ApiSpecs ApiMemberSpecs.

(** ** Vocabulary *)

(** The job of a request: there already under its key, or added at most once. *)
Definition job_taken (key : string) (db : DB) : Prop := exists id j, t_jobs db !! id = Some j /\ j_TaskID j = key.
Definition new_job (p : CreateJobParams) (db : DB) (j : Job) : Prop :=
  t_jobs db !! j_ID j = None /\ ~ job_taken (cjp_TaskID p) db /\ j_TaskID j = cjp_TaskID p /\ j_Kind j = cjp_Kind p /\
  j_SpaceID j = cjp_SpaceID p /\ j_Status j = JobStatusPending.
Definition job_added (p : CreateJobParams) (j : Job) (v v' : View) : Prop :=
  new_job p (v_db v) j /\ v' = with_db (set_jobs (<[j_ID j := j]> (t_jobs (v_db v))) (v_db v)) v.

(** A task with that id is in the queue. *)
Definition task_taken (key : string) (v : View) : Prop := exists t, t ∈ v_queue v /\ tk_TaskID t = Some key.

Lemma task_taken_dec key v : task_taken key v \/ ~ task_taken key v.
Proof.
  destruct (decide (Exists (fun t => tk_TaskID t = Some key) (v_queue v))) as [Ht|Ht]; rewrite Exists_exists in Ht; auto.
Qed.

(** Everything but the audit log and the idempotency keys. *)
Definition same_work_of (v v' : View) : Prop :=
  same_wishes v v' /\ t_jobs (v_db v') = t_jobs (v_db v) /\ v_guild v' = v_guild v.
#[export] Instance same_work_of_preorder : PreOrder same_work_of.
Proof.
  unfold same_work_of. split; [intros v; by split_and!|]. intros a b c (H1 & H2 & H3) (K1 & K2 & K3).
  split_and!; [by etrans|congruence..].
Qed.

(** ** The calls *)
Section Methods.
Context {W : Type} {E : Env W} {view : W -> View} {L : EnvLaws E view}.

(** A job is written once per task id. *)
Lemma CreateJob_added p : Spec view (CreateJob p) (fun v r v' =>
  (v' = v \/ exists j, job_added p j v v') /\ (forall j, r = Ok j -> job_added p j v v')).
Proof.
  apply spec_of_wp. intros w. unfold CreateJob, sql_insert_job.
  eapply wp_last; [apply (spec_insert _ _ _ _ _ _ scanJob id); [done|intros e; apply scan_err]|].
  assert (Hadd : forall a v', inserted jobs_T 0 (fun db id => negb (taken (fun j => Some (j_TaskID j)) (cjp_TaskID p) id (t_jobs db)))
            (fun db _ => fk (cjp_MerchantID p) (t_merchants db) && fk (cjp_SpaceID p) (t_spaces db) && fk (cjp_UserID p) (t_users db))
            (fun now id => mkJob id (cjp_TaskID p) (cjp_Kind p) (cjp_Queue p) JobStatusPending (cjp_MerchantID p)
               (cjp_SpaceID p) (cjp_UserID p) (cjp_Payload p) None 0 now now None) a (view w) v' -> job_added p a (view w) v').
  { intros a v' (now & id & -> & Hn & Hu & _ & ->). split; [|done]. split; [exact Hn|]. split; [|done].
    intros (i & j & Hj & Hk). eapply not_taken in Hu; [|exact Hn|exact Hj]. by rewrite Hk in Hu. }
  intros r v' [(a & -> & Ha)|[(e & ->) [->|(a & Ha)]]].
  - apply Hadd in Ha. split; [eauto|]. by intros j [= <-].
  - split; [by left|done].
  - apply Hadd in Ha. split; [eauto|done].
Qed.

(** A task is put into the queue once per id. *)
Lemma Enqueue_once ty q p key uniq mr : Spec view (Enqueue ty q p (mkEnqueueOpts (Some key) uniq mr)) (fun v _ v' =>
  offered (mkTask ty p q (Some key) uniq mr) v v' /\ (task_taken key v -> v' = v)).
Proof.
  apply spec_of_wp. intros w. unfold Enqueue, offered. go_step. apply wp_ret. cbn [eo_TaskID eo_Unique eo_MaxRetry] in H.
  assert (Hfree : (forall t', t' ∈ v_queue (view w) -> ~ same_id (mkTask ty p q (Some key) uniq mr) t') -> ~ task_taken key (view w)).
  { intros Hno (t & Ht & Hid). apply (Hno t Ht). by exists key. }
  destruct H as [(_ & -> & Hno)|[(_ & -> & _)|[(_ & -> & _)|(e & _ & _ & [->|[-> Hno]])]]]; try (split; [by left|done]).
  - split; [by right|]. intros Ht. by destruct (Hfree Hno).
  - split; [by right|]. intros Ht. by destruct (Hfree Hno).
Qed.

Context {X : Web W} {XL : WebLaws view X}.

(** The job of a request, and the id the answer names: of the job, or a made-up one. *)
Lemma job_for_added p w : wp view (job_for p) (fun id v' =>
  (v' = view w \/ exists j, job_added p j (view w) v') /\
  (id = (uuid_New w).1 \/ exists j, id = j_ID j /\ job_added p j (view w) v')) w.
Proof.
  unfold job_for. apply wp_bind. pose proof (uuid_New_law w) as Hv. cbv beta in Hv.
  destruct (uuid_New w) as [fresh w1]. cbn [fst snd] in *. rewrite <-Hv.
  eapply wp_step; [apply CreateJob_added|]. cbv beta. intros r w2 [H1 H2]. apply wp_ret. split; [done|].
  destruct r as [j|e]; [right|by left]. exists j. split; [done|]. by apply H2.
Qed.

Lemma audit_same_work p : Spec view (InsertAuditEntry p) (fun v _ v' => same_work_of v v').
Proof. eapply spec_mono; [apply InsertAuditEntry_spec|]. intros v r v' [[->|(now & ->)] _]; [reflexivity|by split_and!]. Qed.
Lemma stored_same_work key code body job : Spec view (StoreIdempotencyResponse key code body job) (fun v _ v' => same_work_of v v').
Proof.
  apply spec_of_wp. intros w. unfold StoreIdempotencyResponse. case_decide; [by apply wp_ret|]. go_step. apply wp_ret.
  destruct H0 as [->|[tab ->]]; [reflexivity|by split_and!].
Qed.
Lemma accepted_same_work key job body : Spec view (accepted key job body) (fun v r v' =>
  same_work_of v v' /\ r = with_header "Location" ("/v1/jobs/" +:+ job) (JSON StatusAccepted body)).
Proof.
  apply spec_of_wp. intros w. unfold accepted. eapply wp_step; [apply stored_same_work|]. cbv beta. intros [] w' H.
  by apply wp_ret.
Qed.
End Methods.

(** ** The request *)
Section Requests.
Context {W : Type} {E : Env W} {view : W -> View} {L : EnvLaws E view} {C : Crypto} {J : JsonText} {X : Web W}.
Context {XL : WebLaws view X} (h : Handlers W).

Definition lifecycle_params (key spaceID action : string) : CreateJobParams :=
  mkCreateJobParams key KindChangeLifecycle QueueProvision None (Some spaceID) None
    (Some (encode_ChangeLifecycle (mkChangeLifecyclePayload spaceID action))).
Definition lifecycle_task (key spaceID action : string) : AsynqTask :=
  mkTask KindChangeLifecycle (Some (encode_ChangeLifecycle (mkChangeLifecyclePayload spaceID action))) QueueProvision
    (Some key) None None.

(** What an accepted request leaves: the wishes as they are, at most one job and at most one task, neither if
    its key is taken; and the answer names the job, or an id made up. *)
Definition lifecycle_asked (key spaceID action fresh : string) (v : View) (r : Response) (v' : View) : Prop :=
  rs_Status r = StatusAccepted /\ v_guild v' = v_guild v /\
  (t_spaces (v_db v') = t_spaces (v_db v) /\ t_outbox (v_db v') = t_outbox (v_db v) /\
   t_space_members (v_db v') = t_space_members (v_db v) /\ t_users (v_db v') = t_users (v_db v) /\
   t_merchants (v_db v') = t_merchants (v_db v)) /\
  (t_jobs (v_db v') = t_jobs (v_db v) \/
   exists j, new_job (lifecycle_params key spaceID action) (v_db v) j /\ t_jobs (v_db v') = <[j_ID j := j]> (t_jobs (v_db v))) /\
  (v_queue v' = v_queue v \/ ~ task_taken key v /\ v_queue v' = v_queue v ++ [lifecycle_task key spaceID action]) /\
  exists job, find "Location" (rs_Header r) = Some ("/v1/jobs/" +:+ job)%string /\
    (job = fresh \/ exists j, t_jobs (v_db v') !! job = Some j /\ j_TaskID j = key).

Lemma lifecycle_write_wp c sp s action target w :
  let key := idem_or c ("lifecycle:" +:+ s +:+ ":" +:+ action) in
  wp view (lifecycle_write h c sp s action target) (lifecycle_asked key s action (uuid_New w).1 (view w)) w.
Proof.
  intros key. unfold lifecycle_write. fold key. fold (lifecycle_params key s action).
  apply wp_bind. pose proof (job_for_added (view := view) (lifecycle_params key s action) w) as Hj.
  set (fresh := (uuid_New w).1) in *. clearbody fresh. unfold wp in Hj. revert Hj.
  generalize (job_for (lifecycle_params key s action) w). intros [job w1] [Hj Hid]. cbn [fst snd] in *.
  assert (Hw1 : v_guild (view w1) = v_guild (view w) /\ v_queue (view w1) = v_queue (view w) /\
    (t_spaces (v_db (view w1)) = t_spaces (v_db (view w)) /\ t_outbox (v_db (view w1)) = t_outbox (v_db (view w)) /\
     t_space_members (v_db (view w1)) = t_space_members (v_db (view w)) /\ t_users (v_db (view w1)) = t_users (v_db (view w)) /\
     t_merchants (v_db (view w1)) = t_merchants (v_db (view w))) /\
    (t_jobs (v_db (view w1)) = t_jobs (v_db (view w)) \/ exists j, new_job (lifecycle_params key s action) (v_db (view w)) j /\
       t_jobs (v_db (view w1)) = <[j_ID j := j]> (t_jobs (v_db (view w))))).
  { destruct Hj as [->|(j & Hn & ->)]; [by split_and!; [..|left]|]. split_and!; try done. right. by exists j. }
  assert (Hjob : job = fresh \/ exists j, t_jobs (v_db (view w1)) !! job = Some j /\ j_TaskID j = key).
  { destruct Hid as [->|(j & -> & (_ & _ & Hk & _) & ->)]; [by left|right]. exists j. split; [apply lookup_insert_eq|done]. }
  clear Hj Hid. destruct Hw1 as (Hg & Hq & Hw & Hj).
  eapply wp_seq with (R := fun _ v => offered (lifecycle_task key s action) (view w1) v /\ (task_taken key (view w1) -> v = view w1)).
  { destruct (h_queueClient h); [eapply wp_last; [apply Enqueue_once|]; by intros|apply wp_ret; by split; [left|]]. }
  intros q w2 [Ho Ht]. eapply wp_step; [apply audit_same_work|]. cbv beta. intros a w3 H3.
  eapply wp_last; [apply accepted_same_work|]. cbv beta. intros r v' [H4 ->].
  assert (H : same_work_of (view w2) v') by by etrans. destruct H as ((S1 & S2 & S3 & S4 & S5 & S6) & S7 & S8).
  assert (Hdb : v_db (view w2) = v_db (view w1) /\ v_guild (view w2) = v_guild (view w1)) by (by destruct Ho as [->| ->]).
  destruct Hdb as [Hdb Hg2]. rewrite Hdb in *. unfold lifecycle_asked. rewrite S1, S2, S3, S4, S5, S6, S7, S8, Hg2.
  split; [done|]. split; [done|]. split; [exact Hw|]. split; [exact Hj|]. split.
  - destruct (task_taken_dec key (view w1)) as [Htk|Htk].
    + left. by rewrite (Ht Htk).
    + destruct Ho as [->| ->]; [by left|right]. rewrite <-Hq. split; [|done]. unfold task_taken in *. by rewrite <-Hq.
  - exists job. split; [reflexivity|exact Hjob].
Qed.


(** ** Expulsions *)

Definition expel_params (key spaceID userID scope : string) : CreateJobParams :=
  mkCreateJobParams key KindExpelCollaborator QueueMembership None (Some spaceID) (Some userID)
    (Some (encode_Expel (mkExpelCollaboratorPayload spaceID userID scope))).

(** At most one job, and then at most one task, neither if its key is taken. *)
Definition expel_recorded (key spaceID userID scope : string) (v v' : View) : Prop :=
  exists v1, (v1 = v \/ exists j, job_added (expel_params key spaceID userID scope) j v v1) /\
    (v' = v1 \/ ~ task_taken key v /\ v' = with_queue (v_queue v ++ [expel_task_of key spaceID userID scope]) v1).

Lemma expel_write_wp c s u scope w :
  let key := idem_or c ("expel:" +:+ s +:+ ":" +:+ u +:+ ":" +:+ scope) in
  wp view (expel_write h c s u scope) (fun r v' =>
    rs_Status r = StatusAccepted /\ expel_recorded key s u scope (view w) v') w.
Proof.
  intros key. unfold expel_write. fold key. fold (expel_params key s u scope).
  eapply wp_seq; [apply job_for_added|]. cbv beta. intros job w1 [Hj _].
  eapply wp_seq with (R := fun _ v => offered (expel_task_of key s u scope) (view w1) v /\ (task_taken key (view w1) -> v = view w1)).
  { destruct (h_queueClient h); [eapply wp_last; [apply Enqueue_once|]; by intros|apply wp_ret; by split; [left|]]. }
  intros q w2 [Ho Ht]. go_step. apply wp_ret. split; [done|]. exists (view w1). split; [exact Hj|]. rewrite H.
  assert (v_queue (view w1) = v_queue (view w)) as Hq by (destruct Hj as [->|(j & _ & ->)]; done).
  assert (task_taken key (view w1) <-> task_taken key (view w)) as Hkey by (unfold task_taken; by rewrite Hq).
  destruct (task_taken_dec key (view w1)) as [Htk|Htk]; [left; by apply Ht|].
  destruct Ho as [->| ->]; [by left|right]. rewrite <-Hkey, <-Hq. done.
Qed.

(** C17: A request for an expulsion asks the worker, once per key (FR-19). Whatever the request and whatever fails: it
    is refused and nothing changes; or a principal with control-plane authority named a space and a user that
    exist and one of the two scopes, and the answer is 202. Then at most one job was added, pending and under
    the request's key, if no job had that key, and at most one task was put into the queue, the expulsion of that
    user from that space, if no task had the key; nothing else changed. *)
Theorem expulsion_asks_once (c : Ctx) (w : W) :
  let s := Param "id" (cx_Request c) in
  let u := Param "userId" (cx_Request c) in
  let scope := DefaultQuery "scope" ExpulsionScopeChannel (cx_Request c) in
  let r := (ExpelCollaborator h c w).1 in
  let v := view w in
  let v' := view (ExpelCollaborator h c w).2 in
  (v' = v /\ rs_Status r <> StatusAccepted) \/
  (RequireControlPlane (cx_Principal c) = true /\
   is_Some (t_spaces (v_db v) !! s) /\ is_Some (t_users (v_db v) !! u) /\
   (scope = ExpulsionScopeChannel \/ scope = ExpulsionScopeServer) /\
   rs_Status r = StatusAccepted /\
   expel_recorded (idem_or c ("expel:" +:+ s +:+ ":" +:+ u +:+ ":" +:+ scope)) s u scope v v').
Proof.
  intros s u scope. cbv zeta. change (wp view (ExpelCollaborator h c) (fun r v' =>
    (v' = view w /\ rs_Status r <> StatusAccepted) \/
    (RequireControlPlane (cx_Principal c) = true /\
     is_Some (t_spaces (v_db (view w)) !! s) /\ is_Some (t_users (v_db (view w)) !! u) /\
     (scope = ExpulsionScopeChannel \/ scope = ExpulsionScopeServer) /\ rs_Status r = StatusAccepted /\
     expel_recorded (idem_or c ("expel:" +:+ s +:+ ":" +:+ u +:+ ":" +:+ scope)) s u scope (view w) v')) w).
  unfold ExpelCollaborator, gated. fold s u scope.
  destruct (h_store h); [|by apply wp_ret; left]. cbn [negb].
  destruct (RequireControlPlane _) eqn:Hcp; [|by apply wp_ret; left]. cbn [negb].
  destruct (_ || _); [by apply wp_ret; left|].
  destruct (negb (bool_decide (scope = ExpulsionScopeChannel)) && _) eqn:Hsc; [by apply wp_ret; left|].
  assert (Hscope : scope = ExpulsionScopeChannel \/ scope = ExpulsionScopeServer).
  { apply andb_false_iff in Hsc as [Hs|Hs]; apply negb_false_iff, bool_decide_eq_true in Hs; auto. }
  assert (Hfail : forall m1 m2 e v', v' = view w -> v' = view w /\ rs_Status (lookup_failed m1 m2 e) <> StatusAccepted).
  { intros m1 m2 e v' ->. split; [done|]. unfold lookup_failed. by destruct (errors_Is e ErrNotFound). }
  go_step. destruct H as [Hv Ho]. destruct a as [sp|e]; [|apply wp_ret; left; by apply Hfail].
  go_step. destruct H as [Hv1 Ho1]. rewrite Hv in Hv1, Ho1. destruct a as [us|e]; [|apply wp_ret; left; by apply Hfail].
  eapply wp_mono; [apply expel_write_wp|]. cbv beta. rewrite Hv1. intros r v' [Hr Hrec]. right. split; [done|].
  split; [destruct Ho as [(? & _ & Hs)|[[? _]|(? & _ & ?)]]; [by eexists|done..]|].
  split; [destruct Ho1 as [(? & _ & Hs)|[[? _]|(? & _ & ?)]]; [by eexists|done..]|]. done.
Qed.
End Requests.

(** ** Witness: a space is archived *)
Definition lifecycle_world (script : list fault) : World :=
  world (mkView api_DB (mkGuild {["cs1"%string := ∅]} ∅ ∅ ∅ ∅ ∅ ∅) ∅ [] empty_Metrics) script.
Definition lifecycle_request : Ctx :=
  mkCtx (request "POST" "/v1/channels/:id/lifecycle" [("id"%string, "s1"%string)] "backoffice-key" [] "archive")
    (Some (mkPrincipal PrincipalTypeService "k1" "" false "backoffice")) "".
Definition archival : Response * World :=
  ChangeSpaceLifecycle sample_handlers lifecycle_request (lifecycle_world []).

(** ** Witness: a collaborator is expelled *)
Definition expulsion_request : Ctx :=
  mkCtx (request "DELETE" "/v1/channels/:id/collaborators/:userId" [("id"%string, "s1"%string); ("userId"%string, "u1"%string)]
    "backoffice-key" [] "") (Some (mkPrincipal PrincipalTypeService "k1" "" false "backoffice")) "".
Definition expulsion : Response * World := ExpelCollaborator sample_handlers expulsion_request (api_world []).
Lemma expulsion_asks_once_witness :
  rs_Status expulsion.1 = StatusAccepted /\ length (v_queue (w_view expulsion.2)) = 1%nat /\
  expel_recorded "expel:s1:u1:channel" "s1" "u1" "channel" (w_view (api_world [])) (w_view expulsion.2).
Proof.
  assert (Hst : rs_Status expulsion.1 = StatusAccepted) by (vm_compute; reflexivity). split; [exact Hst|].
  split; [vm_compute; reflexivity|].
  destruct (expulsion_asks_once (E := env_world) (view := w_view) sample_handlers expulsion_request (api_world []))
    as [[_ Hn]|(_ & _ & _ & _ & _ & Hr)]; [by destruct Hn|exact Hr].
Defined.
