(* ===== verification/ApiCallback.v ===== *)
(** * ApiCallback: what the OAuth2 callback may change

    The callback is the one route without a key; what it changes is bound to the user its state
    names. *)
From S2P Require Import Prelude Errors Domain Schema Services InMemory Postgres StoreSpec GoStrings Invariant.
From S2P Require Import Lock Cache Queue Provision Lifecycle Encoding Secrets OAuth.
From S2P Require Import Gin Authz Idempotency Api ApiSpaces ApiMembers ApiAgents ApiTransversal Router ApiRuns ApiSpecs.

(** A user before and after: the same, or linked to a Discord identity. *)
Definition relinked (x y : User) : Prop := y = x \/ exists d now, y = with_discord_id d now x.
(** The invitation of user [u] to a space where [db] has an active membership of [u]. *)
Definition pending_invite (db : DB) (u : string) (t : AsynqTask) : Prop :=
  exists id sm, t_space_members db !! id = Some sm /\ sm_UserID sm = u /\ member_active sm = true /\
    t = mkTask KindInviteCollaborator (Some (encode_Invite (mkInviteCollaboratorPayload (sm_SpaceID sm) u "")))
          QueueMembership None None None.

(** Nothing is touched but the identity of [u], the tokens of [u] and the queue, where invitations of
    [u] are added. *)
Record bound_to (u : string) (v v' : View) : Prop := {
  bt_users : forall id, id <> u -> t_users (v_db v') !! id = t_users (v_db v) !! id;
  bt_user : forall y, t_users (v_db v') !! u = Some y -> exists x, t_users (v_db v) !! u = Some x /\ relinked x y;
  bt_tokens : forall id t, ot_UserID t <> u ->
    (t_oauth_tokens (v_db v') !! id = Some t <-> t_oauth_tokens (v_db v) !! id = Some t);
  bt_queue : exists ts, v_queue v' = v_queue v ++ ts /\ Forall (pending_invite (v_db v) u) ts;
  bt_db : exists users tokens, v_db v' = set_users users (set_oauth_tokens tokens (v_db v));
  bt_rest : v_guild v' = v_guild v /\ v_kv v' = v_kv v /\ v_metrics v' = v_metrics v
}.

#[export] Instance bound_to_refl u : Reflexive (bound_to u).
Proof.
  intros v. split; try done.
  - intros y Hy. exists y. by split; [|left].
  - exists []. by rewrite app_nil_r.
  - exists (t_users (v_db v)), (t_oauth_tokens (v_db v)). by destruct v as [[]].
Qed.

#[export] Instance bound_to_trans u : Transitive (bound_to u).
Proof.
  intros v1 v2 v3 [A1 A2 A3 (ts1 & A4 & A4') (us1 & tk1 & A5) (A6 & A7 & A8)] [B1 B2 B3 (ts2 & B4 & B4') (us2 & tk2 & B5) (B6 & B7 & B8)].
  split.
  - intros id Hid. by rewrite B1, A1.
  - intros z Hz. destruct (B2 z Hz) as (y & Hy & Hyz). destruct (A2 y Hy) as (x & Hx & Hxy). exists x. split; [done|].
    destruct Hyz as [->|(d & now & ->)]; [done|]. right. exists d, now.
    by destruct Hxy as [->|(d' & now' & ->)].
  - intros id t Ht. by rewrite B3, A3.
  - exists (ts1 ++ ts2). split; [by rewrite B4, A4, app_assoc|]. apply Forall_app. split; [done|].
    eapply Forall_impl; [exact B4'|]. intros t (id & sm & Hm & H). exists id, sm. split; [|done].
    by rewrite A5 in Hm.
  - exists us2, tk2. rewrite B5, A5. by destruct (v_db v1).
  - repeat split; congruence.
Qed.

Section Callback.
Context {W : Type} {E : Env W} {view : W -> View} {L : EnvLaws E view} {C : Crypto} {J : JsonText} {X : Web W}.
Context {H : Http W} {HL : HttpLaws view H} (h : Handlers W).

#[export] Instance UpdateDiscordUserID_spec u d : Spec view (UpdateDiscordUserID u d) (fun v _ v' => bound_to u v v').
Proof.
  apply spec_pg.
  assert (Hex : forall v st a db, sql_update_discord_user_id u d st (v_db v) = Ok (E := error) (a, db) ->
            bound_to u v (with_db db v)).
  { intros v st a db. unfold sql_update_discord_user_id. destruct (t_users (v_db v) !! u) as [x|] eqn:Hx;
      [|intros [= _ <-]; by rewrite with_db_same]. destruct (taken _ _ _ _); [done|]. intros [= _ <-].
    split; cbn; try done.
    - intros id Hid. by rewrite lookup_insert_ne.
    - rewrite lookup_insert_eq. intros y [= <-]. exists x. split; [done|]. right. eauto.
    - exists []. by rewrite app_nil_r.
    - eexists _, (t_oauth_tokens (v_db v)). by destruct v as [[]]. }
  intros v r v' [Ho|[Ho|Ho]].
  - destruct Ho as (st & a & db & Hq & _ & ->). by eapply Hex.
  - by destruct Ho as (_ & _ & _ & _ & ->).
  - destruct Ho as (e & _ & _ & [->|(st & a & db & Hq & ->)]); [reflexivity|by eapply Hex].
Qed.

Lemma upsert_bound p v st a db : sql_upsert_oauth_token p st (v_db v) = Ok (a, db) ->
  bound_to (uot_UserID p) v (with_db db v).
Proof.
  assert (Hput : forall id t, ot_UserID t = uot_UserID p ->
            (forall t0, t_oauth_tokens (v_db v) !! id = Some t0 -> ot_UserID t0 = uot_UserID p) ->
            bound_to (uot_UserID p) v (with_db (set_oauth_tokens (<[id := t]> (t_oauth_tokens (v_db v))) (v_db v)) v)).
  { intros id t Ht H0. split; cbn; try done.
    - intros y Hy. exists y. by split; [|left].
    - intros id' t' Ht'. destruct (decide (id' = id)) as [->|Hne]; [|by rewrite lookup_insert_ne].
      rewrite lookup_insert_eq. split; [by intros [= ->]|]. intros Hl. by destruct Ht'; apply H0.
    - exists []. by rewrite app_nil_r.
    - exists (t_users (v_db v)), (<[id := t]> (t_oauth_tokens (v_db v))). by destruct v as [[]]. }
  unfold sql_upsert_oauth_token. destruct (head _) as [[id t]|] eqn:Hh.
  - intros [= <- <-]. apply head_Some_elem_of, list_elem_of_filter in Hh as [Hu Hin]. cbn in Hu.
    apply elem_of_map_to_list in Hin. apply Hput; [done|]. intros t0 Ht0. congruence.
  - intros (x & -> & -> & Hn & _ & _ & ->)%sql_insert_full. apply Hput; [done|]. cbn in Hn. intros t0 Ht0. congruence.
Qed.

#[export] Instance TokenStore_Store_spec ts u at_ rt sc ex :
  Spec view (TokenStore_Store ts u at_ rt sc ex) (fun v _ v' => bound_to u v v').
Proof.
  assert (Hups : forall p, Spec view (UpsertOAuthToken p) (fun v _ v' => bound_to (uot_UserID p) v v')).
  { intros p. apply spec_query. intros v r v' [Ho|[Ho|Ho]].
    - destruct Ho as (st & a & db & Hq & _ & ->). by eapply upsert_bound.
    - by destruct Ho as (_ & _ & _ & _ & ->).
    - destruct Ho as (e & _ & _ & [->|(st & a & db & Hq & ->)]); [reflexivity|by eapply upsert_bound]. }
  assert (Henc : forall e t, Spec view (Encrypt e t) (fun v _ v' => v' = v)).
  { intros e t. apply spec_of_wp. intros w. unfold Encrypt. go_step. destruct H0 as [Hv _].
    destruct a; by apply wp_ret. }
  apply spec_of_wp. intros w. unfold TokenStore_Store. eapply wp_step; [apply Henc|]. intros r1 w1 H1.
  destruct r1 as [enc|e]; [|apply wp_ret; by rewrite H1]. destruct (negb _).
  - eapply wp_step; [apply Henc|]. intros r2 w2 H2. destruct r2 as [enc2|e]; [|apply wp_ret; by rewrite H2, H1].
    eapply wp_step; [apply Hups|]. intros r3 w3 H3. rewrite H2, H1 in H3. destruct r3; by apply wp_ret.
  - eapply wp_step; [apply Hups|]. intros r3 w3 H3. rewrite H1 in H3. destruct r3; by apply wp_ret.
Qed.

#[export] Instance ListCollaboratorChannels_spec u : Spec view (ListCollaboratorChannels u)
  (list_outcome (fun db => order_by_created sm_CreatedAt (rows_where (t_space_members db)
     (fun s => bool_decide (sm_UserID s = u) && member_active s)))).
Proof. apply spec_list. Qed.

Lemma enqueue_bound u s v : (exists id sm, t_space_members (v_db v) !! id = Some sm /\ sm_UserID sm = u /\
    member_active sm = true /\ sm_SpaceID sm = s) ->
  bound_to u v (with_queue (v_queue v ++ [mkTask KindInviteCollaborator
    (Some (encode_Invite (mkInviteCollaboratorPayload s u ""))) QueueMembership None None None]) v).
Proof.
  intros (id & sm & Hm & Hu & Ha & <-). split; try done.
  - intros y Hy. exists y. by split; [|left].
  - eexists. split; [done|]. apply Forall_cons. split; [|by apply Forall_nil]. exists id, sm. done.
  - exists (t_users (v_db v)), (t_oauth_tokens (v_db v)). by destruct v as [[]].
Qed.

#[export] Instance enqueuePendingInvites_spec u : Spec view (enqueuePendingInvites h u) (fun v _ v' => bound_to u v v').
Proof.
  apply spec_of_wp. intros w. unfold enqueuePendingInvites. destruct (_ || _); [by apply wp_ret|].
  go_step. destruct H0 as [Hv Ho]. destruct a as [ms|e]; [|apply wp_ret; by rewrite Hv].
  assert (Hms : forall sm, sm ∈ ms -> exists id, t_space_members (v_db (view w)) !! id = Some sm /\ sm_UserID sm = u /\
            member_active sm = true).
  { intros sm Hin. destruct Ho as [[= ->]|(e & _ & ?)]; [|done]. unfold order_by_created in Hin.
    rewrite merge_sort_Permutation in Hin. apply rows_where_elem in Hin as (id & Hl & Hp).
    apply andb_prop in Hp as [Hp1 Hp2]. apply bool_decide_eq_true in Hp1. eauto. }
  eapply wp_mono; [apply (wp_for_each view _ (fun _ (_ : unit) v => bound_to u (view w) v))|done].
  - by rewrite Hv.
  - intros pre sm rest [] w1 Hsplit Hb. destruct (sm_OverwriteApplied sm); [by apply wp_ret|].
    assert (Hone : forall v, bound_to u (view w) v -> bound_to u (view w) (with_queue (v_queue v ++ [mkTask KindInviteCollaborator
        (Some (encode_Invite (mkInviteCollaboratorPayload (sm_SpaceID sm) u ""))) QueueMembership None None None]) v)).
    { intros v Hbv. etrans; [exact Hbv|]. apply enqueue_bound. destruct (Hms sm) as (id & Hm & Hu & Ha).
      { rewrite Hsplit, elem_of_app. right. by left. }
      exists id, sm. split; [|done]. destruct (bt_db _ _ _ Hbv) as (us & tk & ->). exact Hm. }
    unfold Enqueue. cbn [eo_TaskID eo_Unique eo_MaxRetry].
    eapply wp_seq with (R := fun _ v => bound_to u (view w) v); [|intros r w2 Hr; by apply wp_ret].
    go_step. apply wp_ret.
    destruct H0 as [(_ & -> & _)|[(_ & -> & _)|[(_ & -> & _)|(e & _ & _ & [->|[-> _]])]]]; auto.
Qed.

#[export] Instance callback_finish_spec ts accept u d tr :
  Spec view (callback_finish h ts accept u d tr) (fun v _ v' => bound_to u v v').
Proof.
  apply spec_of_wp. intros w. unfold callback_finish.
  eapply wp_seq with (R := fun _ v => v = view w).
  { destruct (_ <? _); [|by apply wp_ret]. go_step. by apply wp_ret. }
  intros ex w1 H1. go_step. rewrite H1 in H0. destruct a as [[]|e]; [|by apply wp_ret].
  eapply wp_seq with (R := fun _ v => bound_to u (view w) v).
  { destruct (h_queueClient h); [|by apply wp_ret]. go_last. by etrans. }
  intros [] w3 H3. apply wp_ret. exact H3.
Qed.

Lemma callback_exchange_bound ts c u code w :
  wp view (callback_exchange h ts c u code) (fun _ v' => bound_to u (view w) v') w.
Proof.
  assert (Hx : forall cfg k, Spec view (ExchangeCode cfg k) (fun v _ v' => v' = v)).
  { intros cfg k. apply spec_of_wp. intros w0. unfold ExchangeCode. eapply wp_step; [apply http_Do_law|]. intros r w1 Hr.
    repeat (case_match; try by apply wp_ret). }
  assert (Hf : forall k, Spec view (FetchDiscordUser k) (fun v _ v' => v' = v)).
  { intros k. apply spec_of_wp. intros w0. unfold FetchDiscordUser. eapply wp_step; [apply http_Do_law|]. intros r w1 Hr.
    repeat (case_match; try by apply wp_ret). }
  unfold callback_exchange. eapply wp_step; [apply Hx|]. intros [tr|e] w1 H1; [|apply wp_ret; by rewrite H1].
  eapply wp_step; [apply Hf|]. intros [du|e] w2 H2; [|apply wp_ret; by rewrite H2, H1].
  eapply wp_seq with (R := fun _ v => bound_to u (view w) v).
  { unfold linkDiscordUserID. rewrite <-H1, <-H2. destruct (negb _); [by apply wp_ret|]. by go_last. }
  intros l w3 H3. destruct (match l with Ok _ => _ | Err e => _ end); [by apply wp_ret|].
  go_last. by etrans.
Qed.

(** C18: the callback serves the user its state was signed for, once (SEC-M3-001). Whatever the request and
    whatever fails: either only the key-value store changed and the answer is a refusal; or the state
    carries the hub's signature and a nonce that was held and is spent, and from there on only the
    Discord identity and the tokens of the user the state names were touched, and only invitations
    of that user were enqueued, to spaces where an active membership is. *)
Theorem callback_bound_to_state (c : Ctx) (w : W) (sm : StateManager W) {NL : NonceLaws view (stm_nonces sm)} :
  h_stateManager h = Some sm ->
  let r := (OAuthDiscordCallback h c w).1 in
  let v' := view (OAuthDiscordCallback h c w).2 in
  (exists ks, v' = with_kv ks (view w) /\ (rs_Status r = StatusBadRequest \/ rs_Status r = StatusNotImplemented)) \/
  (exists p s t ks, carries (stm_hmacSecret sm) (Query "state" (cx_Request c)) p /\
     held (view w) (stp_Nonce p) = Some (s, t) /\ (s = ""%string \/ s = stp_UserID p) /\
     held (with_kv ks (view w)) (stp_Nonce p) = None /\ bound_to (stp_UserID p) (with_kv ks (view w)) v').
Proof.
  intros Hsm. cbv zeta.
  set (Q := fun (r : Response) v' => (exists ks, v' = with_kv ks (view w) /\ (rs_Status r = StatusBadRequest \/ rs_Status r = StatusNotImplemented)) \/
  (exists p s t ks, carries (stm_hmacSecret sm) (Query "state" (cx_Request c)) p /\
     held (view w) (stp_Nonce p) = Some (s, t) /\ (s = ""%string \/ s = stp_UserID p) /\
     held (with_kv ks (view w)) (stp_Nonce p) = None /\ bound_to (stp_UserID p) (with_kv ks (view w)) v')).
  change (wp view (OAuthDiscordCallback h c) Q w). unfold OAuthDiscordCallback. rewrite Hsm.
  eapply wp_step; [apply Validate_spec|]. intros [u|e] w1 ((ks & Hv) & _ & Hok).
  - destruct (Hok u eq_refl) as (p & s & t & Hc & <- & Hh & Hs & Hn).
    destruct (h_tokenStore h) as [ts|]; [|apply wp_ret; left; exists ks; auto].
    case_decide; [apply wp_ret; left; exists ks; auto|].
    eapply wp_mono; [apply callback_exchange_bound|]. intros r v' Hb. right. exists p, s, t, ks.
    rewrite <-Hv. rewrite Hv in Hb, Hn. rewrite Hv. done.
  - apply wp_ret. left. exists ks. auto.
Qed.
End Callback.

(** ** Witness: a collaborator connects another account *)
Definition callback_ctx : Ctx :=
  mkCtx (mkRequest "GET" "/v1/oauth/discord/callback" [] []
           [("state"%string, issued_state); ("code"%string, "code"%string)] (Ok ""%string)) None "".
Definition connected : Response * World :=
  OAuthDiscordCallback (C := sample_crypto) (J := sample_json) sample_handlers callback_ctx issued_world.

Lemma callback_bound_to_state_witness :
  rs_Status connected.1 = StatusFound /\ length (v_queue (w_view connected.2)) = 1%nat /\
  (u_DiscordUserID <$> t_users (v_db (w_view connected.2)) !! "u1"%string) = Some (Some "d9"%string) /\
  exists p s t ks, carries (H := sample_crypto) (H0 := sample_json) (stm_hmacSecret sample_states)
      (Query "state" (cx_Request callback_ctx)) p /\
    held (NonceLaws := sample_states_laws) (w_view issued_world) (stp_Nonce p) = Some (s, t) /\
    bound_to (stp_UserID p) (with_kv ks (w_view issued_world)) (w_view connected.2).
Proof.
  split; [vm_compute; reflexivity|]. split; [vm_compute; reflexivity|]. split; [vm_compute; reflexivity|].
  destruct (callback_bound_to_state (E := env_world) (view := w_view) (C := sample_crypto) (J := sample_json)
    sample_handlers callback_ctx issued_world sample_states eq_refl) as [(ks & _ & Hst)|(p & s & t & ks & H1 & H2 & _ & _ & H3)].
  - exfalso. vm_compute in Hst. clear - Hst. destruct Hst as [Hst|Hst]; discriminate Hst.
  - exists p, s, t, ks. split; [exact H1|]. split; [exact H2|exact H3].
Defined.
