(* ===== verification/Dsn.v ===== *)
(** * Dsn: what the log says of the database it is connected to, internal/store/postgres/postgres.go *)
From S2P Require Import Prelude GoStrings.

(** The fields of a key=value DSN, internal/store/postgres/postgres.go:1276-1288. *)
Definition dsn_field (hd : string * string) (field : string) : string * string :=
  match Cut field "=" with
  | None => hd
  | Some (k, v) => if decide (k = "host"%string) then (v, hd.2)
                   else if decide (k = "dbname"%string) then (hd.1, v) else hd
  end.

(** [safeDSNPrefix], internal/store/postgres/postgres.go:1260-1294. *)
Definition safeDSNPrefix (dsn : string) : string :=
  match AfterFirst dsn "://" with
  | Some rest =>
      let rest := match Cut rest "@" with Some (_, r) => r | None => rest end in
      match Cut rest "?" with Some (l, _) => l | None => rest end
  | None =>
      let (host, dbname) := foldl dsn_field (""%string, ""%string) (Fields dsn) in
      if bool_decide (host = ""%string) && bool_decide (dbname = ""%string) then "[dsn-format-unknown]"%string
      else ("host=" +:+ host +:+ " dbname=" +:+ dbname)%string
  end.

(** ** Proofs *)
Lemma substring_all s : String.substring 0 (String.length s) s = s.
Proof. induction s as [|a s IH]; [done|]. cbn. by rewrite IH. Qed.

(** A scheme holds no colon, so the separator is found right behind it. *)
Lemma AfterFirst_scheme scheme rest :
  Cut scheme ":" = None -> AfterFirst (scheme +:+ "://" +:+ rest) "://" = Some rest.
Proof.
  induction scheme as [|a s IH]; intros Hc.
  - change ("" +:+ ?x) with x. change ("://" +:+ rest) with (String ":" (String "/" (String "/" rest))).
    cbn. rewrite !(bool_decide_eq_true_2 (_ = _)) by done.
    assert (HasPrefix rest "" = true) as -> by (by destruct rest). cbn. by rewrite Nat.sub_0_r, substring_all.
  - cbn [Cut] in Hc. case_decide as Ha; [done|]. destruct (Cut s ":") as [[? ?]|]; [done|].
    change (String a s +:+ ?x) with (String a (s +:+ x)). cbn [AfterFirst HasPrefix].
    rewrite bool_decide_eq_false_2 by done. by apply IH.
Qed.

(** Fields that are neither the host nor the name of the database. *)
Definition telling (field : string) : bool :=
  match Cut field "=" with
  | Some (k, _) => bool_decide (k = "host"%string) || bool_decide (k = "dbname"%string)
  | None => false
  end.
Lemma foldl_telling fs hd : foldl dsn_field hd fs = foldl dsn_field hd (filter (fun f => telling f = true) fs).
Proof.
  revert hd. induction fs as [|f fs IH]; intros hd; [done|]. rewrite filter_cons. cbn [foldl].
  case_decide as Ht; [by rewrite IH|]. rewrite <-IH. f_equal. unfold dsn_field, telling in *.
  destruct (Cut f "=") as [[k v]|]; [|done]. case_decide; [by rewrite bool_decide_eq_true_2 in Ht|].
  case_decide; [|done]. rewrite orb_comm, bool_decide_eq_true_2 in Ht; done.
Qed.

(** The log names the database without its credentials (NFR-6). For a URL whose scheme holds no colon and whose
    user and password hold no @, the text is what stands between the @ and the query; of a list
    of key=value fields only host and dbname matter. Beyond that the text may hold parts
    of a password: what follows its first @ in a URL, and what follows the first :// of a list of fields. *)
Theorem dsn_log_hides_credentials :
  (forall scheme creds host query, Cut scheme ":" = None -> Cut creds "@" = None -> Cut host "?" = None ->
     safeDSNPrefix (scheme +:+ "://" +:+ creds +:+ "@" +:+ host) = host /\
     safeDSNPrefix (scheme +:+ "://" +:+ creds +:+ "@" +:+ host +:+ "?" +:+ query) = host) /\
  (forall dsn dsn', AfterFirst dsn "://" = None -> AfterFirst dsn' "://" = None ->
     filter (fun f => telling f = true) (Fields dsn) = filter (fun f => telling f = true) (Fields dsn') ->
     safeDSNPrefix dsn = safeDSNPrefix dsn') /\
  safeDSNPrefix "postgres://hub:p@ss@db/hub" = "ss@db/hub"%string /\
  safeDSNPrefix "host=db user=hub password=a://secret dbname=hub" = "secret dbname=hub"%string.
Proof.
  split; [|split; [|by split]].
  - intros scheme creds host query Hs Hcr Hh. unfold safeDSNPrefix. rewrite !AfterFirst_scheme by done.
    change ("@" +:+ ?x) with (String "@" x). change ("?" +:+ query) with (String "?" query).
    rewrite !(Cut_sep creds) by done. by rewrite Hh, (Cut_sep host).
  - intros dsn dsn' H H' Hf. unfold safeDSNPrefix. rewrite H, H', foldl_telling, Hf. by rewrite <-foldl_telling.
Qed.

Lemma dsn_log_hides_credentials_witness :
  safeDSNPrefix "postgres://hub:secret@db:5432/hub?sslmode=disable" = "db:5432/hub"%string /\
  safeDSNPrefix "host=db user=hub password=secret dbname=hub" = safeDSNPrefix "user=hub host=db password=other dbname=hub".
Proof.
  destruct dsn_log_hides_credentials as (H1 & H2 & _). split.
  - by apply (H1 "postgres" "hub:secret" "db:5432/hub" "sslmode=disable")%string.
  - apply H2; vm_compute; reflexivity.
Defined.
