(* ===== verification/Paging.v ===== *)
(** * Paging: a client that follows [next_cursor] sees every merchant once

    The pages of [ListMerchants] (internal/api/handlers/merchants.go and
    internal/store/postgres/postgres.go) against the plain ordered list. *)
From S2P Require Import Prelude Errors Domain Schema Services InMemory Postgres StoreSpec GoStrings.
From S2P Require Import Lock Cache Queue Encoding Secrets OAuth.
From S2P Require Import Gin Authz Idempotency Api ApiSpaces ApiAgents ApiRuns.

(** ** Keyset paging of a list *)

Section Keyset.
Context {A : Type} (key : A -> Z).

(** Sorted by the key, without two rows of the same key. *)
Definition keyed (l : list A) : Prop :=
  StronglySorted (le_created key) l /\ forall x y, x ∈ l -> y ∈ l -> key x = key y -> x = y.

(** Sorting commutes with a filter when no two rows share a key. *)
Lemma order_filter (p : A -> bool) (l : list A) :
  NoDup l -> (forall x y, x ∈ l -> y ∈ l -> key x = key y -> x = y) ->
  order_by_created key (filter (fun x => p x = true) l) = filter (fun x => p x = true) (order_by_created key l).
Proof.
  intros Hnd Hk. unfold order_by_created.
  assert (Hs : forall l', StronglySorted (le_created key) (merge_sort (le_created key) l')).
  { intros l'. apply Sorted_StronglySorted; [apply _|]. apply Sorted_merge_sort. apply _. }
  apply (StronglySorted_unique_strong (le_created key)).
  - intros x y Hx Hy Hxy Hyx. apply Hk.
    + rewrite merge_sort_Permutation in Hx. by apply list_elem_of_filter in Hx as [_ Hx].
    + apply list_elem_of_filter in Hy as [_ Hy]. by rewrite merge_sort_Permutation in Hy.
    + unfold le_created in *. lia.
  - apply Hs.
  - specialize (Hs l). induction Hs as [|x l' Hl' IH Hx]; [constructor|].
    rewrite filter_cons. case_decide; [|exact IH]. constructor; [exact IH|].
    rewrite Forall_forall in *. intros y Hy. apply Hx. by apply list_elem_of_filter in Hy as [_ Hy].
  - by rewrite !merge_sort_Permutation.
Qed.

(** What comes after a row of the sorted list is what is newer. *)
Lemma newer_after (l1 l2 : list A) (x : A) : keyed (l1 ++ x :: l2) -> NoDup (l1 ++ x :: l2) ->
  filter (fun y => (key x <? key y) = true) (l1 ++ x :: l2) = l2.
Proof.
  intros [Hs Hk] Hnd.
  assert (Hlow : forall y, y ∈ l1 -> key y <= key x).
  { clear Hk Hnd. induction l1 as [|z l1 IH]; intros y Hy; [by apply not_elem_of_nil in Hy|].
    cbn in Hs. inversion Hs as [|? ? Hs' Hz]; subst. apply elem_of_cons in Hy as [->|Hy]; [|by apply IH].
    rewrite Forall_forall in Hz. apply Hz. rewrite elem_of_app. right. by left. }
  assert (Hhigh : forall y, y ∈ l2 -> key x < key y).
  { intros y Hy. assert (key x <= key y).
    { clear Hlow Hk Hnd. induction l1 as [|z l1 IH]; cbn in Hs; inversion Hs as [|? ? Hs' Hz]; subst; [|by apply IH].
      rewrite Forall_forall in Hz. by apply Hz. }
    destruct (decide (key x = key y)) as [He|]; [|lia]. exfalso.
    assert (x = y) as <-. { apply Hk; [rewrite elem_of_app; right; left|rewrite elem_of_app; right; by right|done]. }
    apply NoDup_app in Hnd as (_ & _ & Hnd). by apply NoDup_cons in Hnd as [Hnd _]. }
  rewrite filter_app, filter_cons, decide_False by lia.
  assert (filter (fun y => (key x <? key y) = true) l1 = []) as ->.
  { clear -Hlow. induction l1 as [|y l1 IH]; [done|]. rewrite filter_cons, decide_False; [apply IH; intros z Hz; apply Hlow; by right|].
    specialize (Hlow y ltac:(by left)). lia. }
  clear -Hhigh. cbn. induction l2 as [|y l2 IH]; [done|]. rewrite filter_cons, decide_True; [f_equal; apply IH; intros z Hz; apply Hhigh; by right|].
  specialize (Hhigh y ltac:(by left)). lia.
Qed.
End Keyset.

(** ** The client *)
Section Client.
Context {W : Type} {E : Env W}.

(** The items and the next cursor of a page. *)
Definition page_items (r : Response) : list json :=
  match rs_Body r with
  | BJSON (JObj fs) => match jfield "items" fs with Some (JArr items) => items | _ => [] end
  | _ => []
  end.
Definition page_next (r : Response) : option string :=
  match rs_Body r with
  | BJSON (JObj fs) => match jfield "next_cursor" fs with Some (JStr c) => Some c | _ => None end
  | _ => None
  end.

(** All the pages, a failed one, or no end within the fuel. *)
Inductive fetched : Type :=
| Fetched (items : list json)
| Failed (r : Response)
| Unfinished.

(** Follow the cursors of [GET /v1/merchants] with a filter and a page size. *)
Fixpoint fetch_merchants (fuel : nat) (active : option bool) (limit : Z) (cursor : option string) : M W fetched :=
  match fuel with
  | O => ret Unfinished
  | S fuel =>
      r <- list_merchants (mkListMerchantsParams active cursor limit) ;;
      if negb (rs_Status r =? StatusOK) then ret (Failed r)
      else match page_next r with
           | None => ret (Fetched (page_items r))
           | Some c =>
               rest <- fetch_merchants fuel active limit (Some c) ;;
               ret (match rest with Fetched items => Fetched (page_items r ++ items) | other => other end)
           end
  end.
End Client.

(** The reference: the merchants the filter selects, the oldest first. *)
Definition selected (active : option bool) (m : Merchant) : bool :=
  match active with None => true | Some b => Bool.eqb (m_IsActive m) b end.
Definition merchants_in_order (active : option bool) (db : DB) : list Merchant :=
  order_by_created m_CreatedAt (rows_where (t_merchants db) (selected active)).
(** No two of them were created at the same instant, and the database reads the times back that the API
    writes. *)
Definition distinct_times (db : DB) : Prop := forall i j a b,
  t_merchants db !! i = Some a -> t_merchants db !! j = Some b -> m_CreatedAt a = m_CreatedAt b -> i = j.
Definition readable_times `{Env W} (db : DB) : Prop := forall i a,
  t_merchants db !! i = Some a -> pg_timestamptz (RFC3339Nano (m_CreatedAt a)) = Some (m_CreatedAt a).

Section Proofs.
Context {W : Type} {E : Env W} {view : W -> View} {L : EnvLaws E view}.

Lemma rows_where_and {A} (tab : gmap string A) (p q : A -> bool) :
  rows_where tab (fun a => p a && q a) = filter (fun a => q a = true) (rows_where tab p).
Proof.
  unfold rows_where. induction ((map_to_list tab).*2) as [|a l IH]; [done|]. rewrite (filter_cons _ a l).
  rewrite (filter_cons (fun a => p a = true) a l). destruct (p a); cbn [andb].
  - rewrite (decide_True (P := true = true)) by done. rewrite filter_cons. by case_decide; rewrite IH.
  - by rewrite !decide_False.
Qed.

Lemma in_rows active db m : m ∈ rows_where (t_merchants db) (selected active) -> exists i, t_merchants db !! i = Some m.
Proof. intros (i & Hi & _)%rows_where_elem. eauto. Qed.

Lemma merchants_keyed active db : distinct_times db ->
  keyed m_CreatedAt (merchants_in_order active db) /\ NoDup (merchants_in_order active db).
Proof.
  intros Hd. unfold merchants_in_order, order_by_created. split; [split|].
  - apply Sorted_StronglySorted; [apply _|]. apply Sorted_merge_sort. apply _.
  - intros x y Hx Hy Hxy. rewrite merge_sort_Permutation in Hx, Hy.
    apply in_rows in Hx as [i Hi], Hy as [j Hj]. assert (i = j) as <- by (by eapply Hd). congruence.
  - rewrite merge_sort_Permutation. unfold rows_where. apply NoDup_filter.
    apply NoDup_fmap_2_strong; [|apply NoDup_map_to_list].
    intros [i a] [j b] Hi Hj Hab. cbn in Hab. subst b. apply elem_of_map_to_list in Hi, Hj.
    f_equal. by eapply Hd.
Qed.

(** The rows of a page: the first ones, or those after the cursor's row. *)
Lemma page_rows active db t : distinct_times db ->
  order_by_created m_CreatedAt (rows_where (t_merchants db) (fun m => selected active m && (t <? m_CreatedAt m))) =
  filter (fun m => (t <? m_CreatedAt m) = true) (merchants_in_order active db).
Proof.
  intros Hd. rewrite rows_where_and. apply order_filter.
  - pose proof (merchants_keyed active db Hd) as [_ Hn]. unfold merchants_in_order, order_by_created in Hn.
    by rewrite merge_sort_Permutation in Hn.
  - intros x y Hx Hy. apply in_rows in Hx as [i Hi], Hy as [j Hj]. intros Hxy.
    assert (i = j) as <- by (by eapply Hd). congruence.
Qed.

(** Where a client stands: the rows it has seen and those to come. *)
Definition stands (active : option bool) (db : DB) (cursor : option string) (todo : list Merchant) : Prop :=
  exists seen, merchants_in_order active db = seen ++ todo /\
    match cursor with
    | None => seen = []
    | Some c => exists m, last seen = Some m /\ c = RFC3339Nano (m_CreatedAt m)
    end.

Lemma ListMerchants_page active db cursor todo limit : distinct_times db -> readable_times db -> 0 < limit ->
  stands active db cursor todo ->
  Spec view (ListMerchants (mkListMerchantsParams active cursor limit)) (fun v r v' => v_db v = db ->
    v' = v /\ (r = Ok (take (Z.to_nat limit) todo) \/ exists e, opaque e /\ r = Err e)).
Proof.
  intros Hd Hr Hl (seen & Hm & Hc). unfold ListMerchants. cbn [lmp_Cursor lmp_IsActive lmp_Limit].
  unfold page_limit. rewrite (proj2 (Z.leb_gt _ _) Hl). unfold after_cursor.
  destruct cursor as [c|].
  - destruct Hc as (m & Hlast & ->). apply last_Some in Hlast as [pre ->].
    assert (Hin : m ∈ merchants_in_order active db) by (rewrite Hm, !elem_of_app; left; right; by left).
    unfold merchants_in_order, order_by_created in Hin. rewrite merge_sort_Permutation in Hin.
    apply in_rows in Hin as [i Hi]. rewrite (Hr i m Hi).
    apply spec_of_wp. intros w. eapply wp_last; [apply spec_list|]. intros r v' [Hv Ho] <-. split; [done|].
    pose proof (page_rows active (v_db (view w)) (m_CreatedAt m) Hd) as Hp. unfold selected in Hp.
    cbv beta in Ho. rewrite Hp, Hm in Ho. rewrite <-app_assoc in Ho. cbn [app] in Ho.
    pose proof (merchants_keyed active (v_db (view w)) Hd) as [Hk Hn]. rewrite Hm, <-app_assoc in Hk, Hn.
    by rewrite (newer_after m_CreatedAt pre todo m Hk Hn) in Ho.
  - subst seen. cbn [app] in Hm.
    apply spec_of_wp. intros w. eapply wp_last; [apply spec_list|]. intros r v' [Hv Ho] <-. split; [done|].
    cbv beta in Ho. rewrite <-Hm. unfold merchants_in_order.
    replace (rows_where (t_merchants (v_db (view w))) (selected active)) with
      (rows_where (t_merchants (v_db (view w))) (fun m =>
         match active with None => true | Some b => Bool.eqb (m_IsActive m) b end && true)); [done|].
    unfold rows_where, selected. apply list_filter_iff. intros m. by rewrite andb_true_r.
Qed.

(** The page the handler answers with. *)
Lemma list_merchants_page active db cursor todo limit : distinct_times db -> readable_times db -> 0 < limit ->
  stands active db cursor todo ->
  Spec view (list_merchants (mkListMerchantsParams active cursor limit)) (fun v r v' => v_db v = db -> v' = v /\
    (rs_Status r = StatusInternalServerError \/
     rs_Status r = StatusOK /\ page_items r = JObj ∘ toMerchantResponse <$> take (Z.to_nat limit) todo /\
     page_next r = (if (Z.to_nat limit <=? length todo)%nat
                    then (fun m => RFC3339Nano (m_CreatedAt m)) <$> last (take (Z.to_nat limit) todo) else None))).
Proof.
  intros Hd Hr Hl Hs. apply spec_of_wp. intros w. unfold list_merchants.
  eapply wp_step; [by apply (ListMerchants_page active db cursor todo limit)|]. intros r w' H. apply wp_ret.
  intros Hv. destruct (H Hv) as [Hv' Ho]. split; [done|]. destruct Ho as [->|(e & _ & ->)]; [right|by left].
  cbn [lmp_Limit]. split; [done|]. split; [done|]. unfold page_next. cbn [rs_Body JSON jfield].
  rewrite length_take. destruct (last (take (Z.to_nat limit) todo)) as [m|] eqn:Hlast.
  - destruct (Nat.leb_spec (Z.to_nat limit) (length todo)).
    + by rewrite (proj2 (Z.eqb_eq (Z.of_nat (Nat.min (Z.to_nat limit) (length todo))) limit)) by lia.
    + by rewrite (proj2 (Z.eqb_neq (Z.of_nat (Nat.min (Z.to_nat limit) (length todo))) limit)) by lia.
  - by destruct (_ <=? _)%nat.
Qed.

Lemma stands_next active db cursor todo n m : stands active db cursor todo -> last (take n todo) = Some m ->
  stands active db (Some (RFC3339Nano (m_CreatedAt m))) (drop n todo).
Proof.
  intros (seen & Hm & _) Hl. exists (seen ++ take n todo). split; [by rewrite <-app_assoc, take_drop|].
  exists m. split; [|done]. rewrite last_app, Hl. done.
Qed.

Lemma fetch_merchants_wp active limit db fuel : distinct_times db -> readable_times db -> 0 < limit ->
  forall cursor todo w, stands active db cursor todo -> (length todo < fuel)%nat -> v_db (view w) = db ->
  wp view (fetch_merchants fuel active limit cursor) (fun r v' => v' = view w /\
    match r with
    | Fetched items => items = JObj ∘ toMerchantResponse <$> todo
    | Failed r => rs_Status r = StatusInternalServerError
    | Unfinished => False
    end) w.
Proof.
  intros Hd Hr Hl. induction fuel as [|fuel IH]; intros cursor todo w Hs Hf Hdb; [lia|].
  cbn [fetch_merchants]. eapply wp_step; [by apply (list_merchants_page active db cursor todo limit)|].
  intros r w1 H. destruct (H Hdb) as [Hv [Hst|(Hst & Hi & Hn)]]; rewrite Hst; [by apply wp_ret|].
  cbn [negb Z.eqb StatusOK Pos.eqb]. rewrite Hn. destruct (Nat.leb_spec (Z.to_nat limit) (length todo)) as [Hle|Hlt].
  - destruct (last (take (Z.to_nat limit) todo)) as [m|] eqn:Hlast; cbn.
    + eapply wp_seq; [apply (IH _ (drop (Z.to_nat limit) todo) w1)|].
      * by eapply stands_next.
      * rewrite length_drop. lia.
      * by rewrite Hv.
      * intros rest w2 [Hv2 Hrest]. apply wp_ret. split; [congruence|].
        destruct rest as [items|r'|]; [|done..]. rewrite Hi, Hrest, <-fmap_app, take_drop. done.
    + apply last_None in Hlast. apply (f_equal length) in Hlast. rewrite length_take, length_nil in Hlast. lia.
  - apply wp_ret. split; [done|]. rewrite Hi, take_ge; [done|lia].
Qed.

(** C24: paging is listing. A client that follows the cursors of the merchants list, with any filter and any
    page size, ends after at most one request more than there are merchants, having received exactly
    the selected merchants, each once, the oldest first, or a 500 when the database failed; nothing
    changed. That needs that no two merchants were created at the same instant: the cursor is the
    time of the last row alone. *)
Theorem paging_is_listing (active : option bool) (limit : Z) (w : W) :
  let db := v_db (view w) in
  let fuel := S (length (merchants_in_order active db)) in
  0 < limit -> distinct_times db -> readable_times db ->
  view (fetch_merchants fuel active limit None w).2 = view w /\
  match (fetch_merchants fuel active limit None w).1 with
  | Fetched items => items = JObj ∘ toMerchantResponse <$> merchants_in_order active db
  | Failed r => rs_Status r = StatusInternalServerError
  | Unfinished => False
  end.
Proof.
  intros db fuel Hl Hd Hr.
  apply (fetch_merchants_wp active limit db fuel Hd Hr Hl None (merchants_in_order active db) w).
  - by exists [].
  - subst fuel. lia.
  - done.
Qed.
End Proofs.

(** ** Witness *)
Lemma sample_times : distinct_times api_DB /\ readable_times (W := World) api_DB.
Proof.
  split.
  - intros i j a b. cbn [api_DB t_merchants]. rewrite !lookup_insert_Some, !lookup_singleton_Some.
    intros [[<- <-]|[_ [[<- <-]|[_ [<- <-]]]]] [[<- <-]|[_ [[<- <-]|[_ [<- <-]]]]]; cbn; done.
  - intros i a. cbn [api_DB t_merchants]. rewrite !lookup_insert_Some, !lookup_singleton_Some.
    intros [[_ <-]|[_ [[_ <-]|[_ [_ <-]]]]]; vm_compute; reflexivity.
Qed.

Lemma paging_is_listing_witness :
  length (merchants_in_order None api_DB) = 3%nat /\
  match (fetch_merchants 4 None 2 None (api_world [])).1 with
  | Fetched items => items = JObj ∘ toMerchantResponse <$> merchants_in_order None api_DB
  | _ => False
  end.
Proof.
  assert (Hlen : length (merchants_in_order None api_DB) = 3%nat) by (vm_compute; reflexivity).
  split; [exact Hlen|].
  pose proof (paging_is_listing (E := env_world) (view := w_view) None 2 (api_world []) ltac:(lia)
    (proj1 sample_times) (proj2 sample_times)) as [_ H].
  cbv zeta in H. change (v_db (w_view (api_world []))) with api_DB in H. rewrite Hlen in H.
  assert (Hok : match (fetch_merchants 4 None 2 None (api_world [])).1 with Fetched _ => True | _ => False end)
    by (vm_compute; exact I).
  destruct (fetch_merchants 4 None 2 None (api_world [])).1; [exact H|destruct Hok|destruct Hok].
Defined.

(** Two merchants registered at the same instant, and pages of one: the second is never listed. *)
Definition tied_world : World :=
  world (mkView (set_merchants {[m1 := mkMerchant m1 "ref1" "Acme" None true 0 0;
                                 m2 := mkMerchant m2 "ref2" "Bolt" None true 0 0]} empty_DB)
           empty_Guild ∅ [] empty_Metrics) [].
Lemma paging_skips_ties :
  length (merchants_in_order None (v_db (w_view tied_world))) = 2%nat /\
  match (fetch_merchants 9 None 1 None tied_world).1 with Fetched items => length items = 1%nat | _ => False end.
Proof. vm_compute. split; reflexivity. Qed.
