(* ===== verification/Programs.v ===== *)
(** * Programs: how cmd/api, cmd/worker and cmd/keygen wire the parts

    Each program up to the point where it serves; a program that exits is an error. Flags, signals,
    the HTTP server and the logger are left to the libraries, and so are the drivers' constructors,
    which are parameters. *)
From S2P Require Import Prelude Errors Domain Schema Services Postgres StoreSpec GoStrings Lock RateLimit Cache Queue InMemory.
From S2P Require Import Reconcile Provision AgentRole Encoding Secrets OAuth Membership Lifecycle Welcome Relay Worker.
From S2P Require Import Gin Authz Config Idempotency Api ApiSpaces ApiMembers ApiAgents ApiTransversal Router ApiRuns ApiSpecs.

Section Main.
Context {W : Type} {E : Env W} {C : Crypto} {J : JsonText} {X : Web W} {H : Http W} {K : Cors W}.
(** pgx and discordgo: whether a connection string is usable and a session can be made; the cron
    parser; the text of an error. *)
Context (pgxpool_New discordgo_New : string -> result error unit).
Context (cron_Parse : string -> option (Z -> Z)) (error_text : error -> string).

(** [New] of the store, internal/store/postgres/postgres.go:29-43. *)
Definition postgres_New (dsn : string) : M W (result error unit) :=
  match pgxpool_New dsn with
  | Err e => ret (Err (Wrap "postgres: connect: " e))
  | Ok _ =>
      p <-? Ping onerr e => ret (Err (Wrap "postgres: ping on connect: " e)) ;;
      ret (Ok tt)
  end.

(** [New] of the Discord client, internal/discord/discord.go:116-131. *)
Definition discord_New (botToken : string) : result error unit :=
  if decide (botToken = ""%string) then Err (New "discord: bot token is required")
  else match discordgo_New ("Bot " +:+ botToken) with
       | Err e => Err (Wrap "discord: create session: " e)
       | Ok _ => Ok tt
       end.

(** The state manager of the API, cmd/api/main.go:91-102. *)
Definition api_state_manager (cfg : Config.Config) : result error (option (StateManager W)) :=
  if decide (OAuthHMACSecret cfg = ""%string) then Ok None
  else match NewStateManager (OAuthHMACSecret cfg) NewValkeyNonceStore with
       | Err e => Err e
       | Ok sm => Ok (Some sm)
       end.

(** The router of the API, cmd/api/main.go:107-120: no cache is passed. *)
Definition api_router (cfg : Config.Config) (enc : Encrypter) (sm : option (StateManager W)) : RouterConfig W :=
  mkRouterConfig (CORSAllowedOrigins cfg)
    (NewHandlers true true None (DiscordOAuthClientID cfg) (DiscordOAuthClientSecret cfg) (DiscordOAuthRedirectURL cfg)
       sm (Some (mkTokenStore enc))) error_text.

(** The checks the API makes first, cmd/api/main.go:41-57. *)
Definition api_checks (cfg : Config.Config) : result error unit :=
  match RequirePostgresDSN cfg with
  | Err e => Err e
  | Ok _ => match RequireDiscordToken cfg with
    | Err e => Err e
    | Ok _ => match RequireAgentRoleID cfg with
      | Err e => Err e
      | Ok _ => ValidateEncryptionKey cfg
      end
    end
  end.

(** [main], cmd/api/main.go:27-120. *)
Definition api_main (env : Environment) : M W (result error (RouterConfig W)) :=
  match Load env with
  | Err e => ret (Err e)
  | Ok cfg =>
      match api_checks cfg with
      | Err e => ret (Err e)
      | Ok _ =>
          pg <-? postgres_New (PostgresDSN cfg) onerr e => ret (Err e) ;;
          ret (match NewEncrypter (EncryptionKey cfg) 1 with
               | Err e => Err e
               | Ok enc => match api_state_manager cfg with
                           | Err e => Err e
                           | Ok sm => Ok (api_router cfg enc sm)
                           end
               end)
      end
  end.

(** The token store of the worker, cmd/worker/main.go:65-78. *)
Definition worker_token_store (cfg : Config.Config) : result error (option TokenStore) :=
  if decide (EncryptionKey cfg = ""%string) then Ok None
  else match NewEncrypter (EncryptionKey cfg) 1 with
       | Err e => Err e
       | Ok enc => Ok (Some (mkTokenStore enc))
       end.

(** The server's configuration, cmd/worker/main.go:143-157, with the engine of lines 92-93: no limiter, locker
    or cache is passed, and no role for @everyone. *)
Definition worker_config (cfg : Config.Config) (ts : option TokenStore) : Worker.Config W :=
  Worker.mkConfig true true (DiscordGuildID cfg) (DiscordAgentRoleID cfg) None None None "" (DiscordCategoryID cfg) ts
    (Some (WithMetrics (NewEngineWithLocker (NewWithTTL defaultTTL)) true)) (AgentNicknameSuffix cfg) true.

(** The scheduler, cmd/worker/main.go:98-106. *)
Definition worker_scheduler (cfg : Config.Config) : M W (result error (option AsynqTask)) :=
  if decide (ReconcileSweepCron cfg = ""%string) then ret (Ok None)
  else s <- NewScheduler cron_Parse (ReconcileSweepCron cfg) (DiscordGuildID cfg) ;;
       ret (match s with Err e => Err e | Ok t => Ok (Some t) end).

(** What a worker runs: its server, its relay and the task of its schedule. *)
Record worker_program : Type := mkWorkerProgram {
  wk_server : Worker.Config W; wk_relay : RelayConfig; wk_sweep : option AsynqTask }.

(** The checks of the worker and its Discord session, cmd/worker/main.go:38-53. *)
Definition worker_checks (cfg : Config.Config) : result error unit :=
  match RequireDiscordToken cfg with
  | Err e => Err e
  | Ok _ => match RequireAgentRoleID cfg with
            | Err e => Err e
            | Ok _ => discord_New (DiscordBotToken cfg)
            end
  end.

(** [main], cmd/worker/main.go:26-157. *)
Definition worker_main (env : Environment) : M W (result error worker_program) :=
  match Load env with
  | Err e => ret (Err e)
  | Ok cfg =>
      match worker_checks cfg with
      | Err e => ret (Err e)
      | Ok _ =>
          pg <-? postgres_New (PostgresDSN cfg) onerr e => ret (Err e) ;;
          match worker_token_store cfg with
          | Err e => ret (Err e)
          | Ok ts =>
              s <-? worker_scheduler cfg onerr e => ret (Err e) ;;
              ret (Ok (mkWorkerProgram (worker_config cfg ts) (NewRelay (mkRelayConfig 0 0)) s))
          end
      end
  end.

(** ** Keys *)

(** [mintKey], cmd/keygen/main.go:79-109: the raw key it prints, and the row. *)
Definition mintKey (name scope : string) : M W (result error (string * APIKey)) :=
  rawKey <-? GenerateAPIKey onerr e => ret (Err (Wrap "generate key: " e)) ;;
  k <-? CreateAPIKey (mkCreateAPIKeyParams name (HashAPIKey rawKey) scope) onerr e => ret (Err (Wrap "store key: " e)) ;;
  ret (Ok (rawKey, k)).

(** [revokeKey], cmd/keygen/main.go:111-117. *)
Definition revokeKey (id : string) : M W (result error unit) :=
  r <-? RevokeAPIKey id onerr e => ret (Err e) ;; ret (Ok tt).

(** [main], cmd/keygen/main.go:34-77, for the values of its flags: the key it prints, if it mints one. *)
Definition keygen_main (env : Environment) (name scope revoke : string) : M W (result error (option (string * APIKey))) :=
  match Load env with
  | Err e => ret (Err e)
  | Ok cfg =>
      match RequirePostgresDSN cfg with
      | Err e => ret (Err e)
      | Ok _ =>
          pg <-? postgres_New (PostgresDSN cfg) onerr e => ret (Err e) ;;
          (if decide (revoke <> ""%string) then
             r <-? revokeKey revoke onerr e => ret (Err e) ;; ret (Ok None)
           else if decide (name = ""%string) then ret (Err (New "usage: keygen --name <label> [--scope backoffice]"))
           else k <-? mintKey name scope onerr e => ret (Err e) ;; ret (Ok (Some k)))
      end
  end.
End Main.

(** ** What starts is what the theorems assume *)
Section Startup.
Context {W : Type} {E : Env W} {view : W -> View} {L : EnvLaws E view} {C : Crypto} {J : JsonText} {X : Web W}.
Context {H : Http W} {K : Cors W}.
Context (pgxpool_New discordgo_New : string -> result error unit).
Context (cron_Parse : string -> option (Z -> Z)) (error_text : error -> string).

Lemma worker_checks_ok cfg : worker_checks discordgo_New cfg = Ok tt -> RequireAgentRoleID cfg = Ok tt.
Proof.
  unfold worker_checks. destruct (RequireDiscordToken cfg) as [[]|]; [|done].
  by destruct (RequireAgentRoleID cfg) as [[]|].
Qed.

Lemma api_checks_ok cfg : api_checks cfg = Ok tt -> RequireAgentRoleID cfg = Ok tt /\ ValidateEncryptionKey cfg = Ok tt.
Proof.
  unfold api_checks. destruct (RequirePostgresDSN cfg) as [[]|]; [|done].
  destruct (RequireDiscordToken cfg) as [[]|]; [|done]. by destruct (RequireAgentRoleID cfg) as [[]|].
Qed.

Lemma worker_config_ok cfg ts : config_ok (view := view) (worker_config cfg ts).
Proof. split; [done|]. split; [exact I|]. split; [cbn; apply _|by left]. Qed.

Lemma api_router_ok cfg enc sm : api_state_manager cfg = Ok sm ->
  inhabited (router_ok (view := view) (api_router error_text cfg enc sm)).
Proof.
  intros Hsm. constructor. split; [cbn; apply _|]. cbn. destruct sm as [sm|]; [|exact tt].
  revert Hsm. unfold api_state_manager. destruct (decide _); [done|].
  unfold NewStateManager. destruct (hex_decode _); [|done]. destruct (Nat.ltb _ _); [done|]. cbn.
  intros [= <-]. cbn. apply _.
Qed.

(** C22: what the theorems assume of the programs is what starts. A worker that gets past its start, whatever
    the environment and whatever fails, has the configuration the isolation of its channels rests on:
    its lock and its engine keep their promises, the role of @everyone is the guild's, and the Agent role
    is set and is not the configured guild id (the id of @everyone, when the guild is configured). An API that
    gets past its start has a router that keeps its promises, and seals tokens with a key of 32 bytes. *)
Theorem programs_start_safe (env : Environment) (w : W) :
  (forall p, (worker_main pgxpool_New discordgo_New cron_Parse env w).1 = Ok p ->
     config_ok (view := view) (wk_server p) /\
     cf_AgentRoleID (wk_server p) <> ""%string /\ cf_AgentRoleID (wk_server p) <> cf_DiscordGuildID (wk_server p) /\
     cf_Store (wk_server p) = true /\ cf_DiscordClient (wk_server p) = true) /\
  (forall cfg, (api_main pgxpool_New error_text env w).1 = Ok cfg ->
     inhabited (router_ok (view := view) cfg) /\ h_store (rc_Handlers cfg) = true /\
     exists ts, h_tokenStore (rc_Handlers cfg) = Some ts /\ String.length (en_key (ts_encrypter ts)) = 32%nat).
Proof.
  split.
  - intros p. unfold worker_main, bind, ret. destruct (Load env) as [cfg|e] eqn:Hload; [|done].
    destruct (worker_checks discordgo_New cfg) as [[]|e] eqn:Hck; [|done].
    apply worker_checks_ok, RequireAgentRoleID_distinct in Hck as [Ha1 Ha2].
    destruct (postgres_New _ _ w) as [[[]|e] w1]; cbn [fst]; [|done].
    destruct (worker_token_store cfg) as [ts|e]; [|done].
    cbn. destruct (worker_scheduler cron_Parse cfg w1) as [[t|e] w2]; cbn; [|done]. intros [= <-]. cbn.
    split; [apply worker_config_ok|]. eauto 6.
  - intros cfg. unfold api_main, bind, ret. destruct (Load env) as [c|e]; [|done].
    destruct (api_checks c) as [[]|e]; [|done]. destruct (postgres_New _ _ w) as [[[]|e] w1]; cbn [fst]; [|done].
    unfold NewEncrypter. destruct (Std_DecodeString (EncryptionKey c)) as [key|]; [|done].
    destruct (Nat.eqb_spec (String.length key) 32) as [Hk|]; [|done]. cbn [negb].
    destruct (api_state_manager c) as [sm|e] eqn:Hsm; [|done]. intros [= <-].
    split; [by apply api_router_ok|]. split; [done|]. eexists. split; [done|exact Hk].
Qed.

(** A sweep is scheduled in every environment, also in one where [RECONCILE_SWEEP_CRON] is empty. *)
Theorem sweep_always_scheduled (env : Environment) (w : W) p :
  (worker_main pgxpool_New discordgo_New cron_Parse env w).1 = Ok p -> is_Some (wk_sweep p).
Proof.
  unfold worker_main, bind, ret. destruct (Load env) as [cfg|e] eqn:Hload; [|done].
  destruct (worker_checks discordgo_New cfg) as [[]|e]; [|done].
  destruct (postgres_New _ _ w) as [[[]|e] w1]; cbn [fst]; [|done].
  destruct (worker_token_store cfg) as [ts|e]; [|done]. unfold worker_scheduler.
  rewrite decide_False by (by eapply Load_sweep). unfold bind, ret. cbn [fst snd].
  match goal with |- context [NewScheduler ?a ?b ?c w1] => destruct (NewScheduler a b c w1) as [[t|e] w2] end;
    cbn; [|done]. intros [= <-]. cbn. eauto.
Qed.
End Startup.

(** ** Keys that are minted open the API *)

(** [TrimSpace] keeps ASCII text whose first and last characters are no white space. *)
Lemma keep_right_ascii bs : forall upto best, Forall (fun b => b < 128) bs ->
  match last bs with Some c => IsSpace c = false | None => False end ->
  keep_right_fuel (length bs) bs upto best = (upto + length bs)%nat.
Proof.
  induction bs as [|b bs IH]; intros upto best Hb Hl; [done|]. apply Forall_cons in Hb as [Hb Hbs].
  cbn [length keep_right_fuel]. rewrite decode_rune_low by done.
  replace (upto + (length (b :: bs) - length bs))%nat with (upto + 1)%nat by (cbn [length]; lia).
  destruct bs as [|b' bs].
  - cbn in Hl. rewrite Hl. cbn. lia.
  - rewrite IH; [cbn [length]; lia|done|done].
Qed.

Lemma TrimSpace_ascii s : Forall (fun b => b < 128) (bytes_of s) ->
  match head (bytes_of s) with Some c => IsSpace c = false | None => False end ->
  match last (bytes_of s) with Some c => IsSpace c = false | None => False end -> TrimSpace s = s.
Proof.
  intros Hb Hh Hl. unfold TrimSpace.
  assert (trim_left_fuel (length (bytes_of s)) (bytes_of s) = bytes_of s) as ->.
  { destruct (bytes_of s) as [|b bs]; [done|]. cbn [length trim_left_fuel]. apply Forall_cons in Hb as [Hb _].
    rewrite decode_rune_low by done. cbn in Hh. by rewrite Hh. }
  rewrite keep_right_ascii by done. rewrite Nat.add_0_l, take_ge by done. apply string_of_bytes_of.
Qed.

Lemma hex_plain bs : Forall (fun b => b < 128 /\ IsSpace b = false) (bytes_of (hex_encode bs)).
Proof.
  induction bs as [|b bs IH]; [by apply Forall_nil|]. cbn [hex_encode].
  pose proof (nat_ascii_bounded b) as Hb.
  assert (Hd : forall n, (n < 16)%nat -> Z.of_nat (Ascii.nat_of_ascii (hex_digit n)) < 128 /\
            IsSpace (Z.of_nat (Ascii.nat_of_ascii (hex_digit n))) = false).
  { intros n Hn. do 16 (destruct n as [|n]; [split; reflexivity|]). lia. }
  change (bytes_of (String ?x (String ?y ?s)))
    with (Z.of_nat (Ascii.nat_of_ascii x) :: Z.of_nat (Ascii.nat_of_ascii y) :: bytes_of s).
  apply Forall_cons. split; [apply Hd, Nat.Div0.div_lt_upper_bound; lia|].
  apply Forall_cons. split; [apply Hd, Nat.mod_upper_bound; lia|done].
Qed.

(** The header of a minted key yields the key. *)
Lemma extractBearer_hex bs : bs <> [] -> extractBearer ("Bearer " +:+ hex_encode bs) = Some (hex_encode bs).
Proof.
  intros Hne. pose proof (hex_plain bs) as Hp.
  assert (Hlast : match last (bytes_of (hex_encode bs)) with Some c => IsSpace c = false | None => False end).
  { destruct (last (bytes_of (hex_encode bs))) as [c|] eqn:Hl.
    - apply last_Some_elem_of in Hl. rewrite Forall_forall in Hp. by apply Hp.
    - apply last_None in Hl. by destruct bs. }
  assert (Hlow : Forall (fun b => b < 128) (bytes_of (hex_encode bs))) by (eapply Forall_impl; [exact Hp|naive_solver]).
  assert (TrimSpace (hex_encode bs) = hex_encode bs) as Hhex.
  { apply TrimSpace_ascii; [done| |done].
    destruct (bytes_of (hex_encode bs)) as [|b l]; [done|]. apply Forall_cons in Hp as [[_ Hp] _]. exact Hp. }
  assert (TrimSpace ("Bearer " +:+ hex_encode bs) = "Bearer " +:+ hex_encode bs) as Hall.
  { apply TrimSpace_ascii; rewrite bytes_of_app.
    - apply Forall_app. split; [|done]. repeat (apply Forall_cons; split; [done|]). by apply Forall_nil.
    - done.
    - rewrite last_app. destruct (last (bytes_of (hex_encode bs))); done. }
  assert (Hcut : Cut ("Bearer " +:+ hex_encode bs) " "%char = Some ("Bearer"%string, hex_encode bs)) by reflexivity.
  assert (Hf : negb (EqualFold_bearer "Bearer") = false) by reflexivity.
  assert (Hn : hex_encode bs <> ""%string) by (by destruct bs).
  unfold extractBearer. rewrite Hall, Hcut, Hf, Hhex. cbv zeta.
  rewrite decide_False by done. by rewrite decide_False.
Qed.

Lemma head_unique {A} (l : list A) x : x ∈ l -> (forall y, y ∈ l -> y = x) -> head l = Some x.
Proof. destruct l as [|y l]; [by intros ?%not_elem_of_nil|]. intros _ H. cbn. f_equal. apply H. by left. Qed.

Section Keys.
Context {W : Type} {E : Env W} {view : W -> View} {L : EnvLaws E view} {C : Crypto}.

#[export] Instance GenerateAPIKey_spec : Spec view GenerateAPIKey (fun v r v' => v' = v /\
  forall raw, r = Ok raw -> exists bs, raw = hex_encode bs /\ length bs = 32%nat).
Proof.
  apply spec_of_wp. intros w. unfold GenerateAPIKey. go_step. destruct H as [Hv H]. destruct a as [bs|e]; apply wp_ret;
    (split; [done|]); [|done]. intros raw [= <-]. exists bs. split; [done|].
  destruct H as [(bs' & [= <-] & Hl)|(e & _ & ?)]; done.
Qed.

#[export] Instance CreateAPIKey_spec p : Spec view (CreateAPIKey p) (fun v r v' =>
  forall k, r = Ok k -> exists now, k = mkAPIKey (ak_ID k) (cak_Name p) (cak_KeyHash p) (cak_Scope p) now None None /\
    t_api_keys (v_db v) !! ak_ID k = None /\
    (forall id k', t_api_keys (v_db v) !! id = Some k' -> ak_KeyHash k' <> cak_KeyHash p) /\
    v' = with_db (set_api_keys (<[ak_ID k := k]> (t_api_keys (v_db v))) (v_db v)) v).
Proof.
  apply spec_of_wp. intros w. unfold CreateAPIKey, sql_insert_api_key.
  eapply wp_last; [apply (spec_insert api_keys_T _ _ _ _ _ (fun r => conflict (scanAPIKey r)) id)|].
  - done.
  - intros e. unfold scanAPIKey. destruct (scan_err (A := APIKey) "postgres: scan api_key: " e) as [e' ->]. cbn. eauto.
  - intros r v' [(a & -> & now & i & -> & Hn & Hu & _ & Hv)|[[e ->] _]]; [|done]. intros k [= <-].
    exists now. split; [done|]. split; [exact Hn|]. split; [|exact Hv].
    intros id k' Hid Hk. eapply not_taken in Hu; [|exact Hn|exact Hid]. congruence.
Qed.

(** A key is looked up by its hash alone. *)
Lemma active_key_lookup hash db k :
  (exists id, t_api_keys db !! id = Some k) -> ak_KeyHash k = hash -> APIKey_IsActive k = true ->
  (forall id k', t_api_keys db !! id = Some k' -> ak_KeyHash k' = hash -> k' = k) ->
  active_key_by_hash hash db = Some k.
Proof.
  intros [id Hid] Hh Ha Hu. unfold active_key_by_hash. apply head_unique.
  - apply rows_where_elem. exists id. split; [done|]. by rewrite Ha, bool_decide_eq_true_2.
  - intros k' (id' & Hid' & Hp)%rows_where_elem. apply andb_prop in Hp as [Hp _]. apply bool_decide_eq_true in Hp.
    by eapply Hu.
Qed.

Lemma no_active_key hash db :
  (forall id k, t_api_keys db !! id = Some k -> ak_KeyHash k = hash -> APIKey_IsActive k = false) ->
  active_key_by_hash hash db = None.
Proof.
  intros Hn. unfold active_key_by_hash. destruct (head _) as [k|] eqn:Hk; [|done].
  apply head_Some_elem_of, rows_where_elem in Hk as (id & Hid & Hp). apply andb_prop in Hp as [Hp Ha].
  apply bool_decide_eq_true in Hp. by rewrite (Hn id k Hid Hp) in Ha.
Qed.

(** C29: a minted key opens the API until it is revoked, and only its hash is kept. When keygen prints a key,
    exactly one row was added, which holds the key's hash; a request with the printed key as its
    bearer is then one of that row's scope; and once the row is revoked no active key has the hash. *)
Theorem minted_key_opens (name scope : string) (w : W) (raw : string) (k : APIKey) :
  (mintKey name scope w).1 = Ok (raw, k) ->
  let v := view w in
  let w' := (mintKey name scope w).2 in
  view w' = with_db (set_api_keys (<[ak_ID k := k]> (t_api_keys (v_db v))) (v_db v)) v /\
  t_api_keys (v_db v) !! ak_ID k = None /\ ak_KeyHash k = sha256 raw /\ ak_Scope k = scope /\
  String.length raw = 64%nat /\
  (forall r, GetHeader "Authorization" r = ("Bearer " +:+ raw)%string ->
     exists tok, extractBearer (GetHeader "Authorization" r) = Some tok /\
       active_key_by_hash (HashAPIKey tok) (v_db (view w')) = Some k) /\
  ((revokeKey (ak_ID k) w').1 = Ok tt ->
   active_key_by_hash (HashAPIKey raw) (v_db (view (revokeKey (ak_ID k) w').2)) = None).
Proof.
  cbv zeta. unfold mintKey at 1. intros Hm.
  assert (Hmint : exists bs now, raw = hex_encode bs /\ length bs = 32%nat /\
    k = mkAPIKey (ak_ID k) name (HashAPIKey raw) scope now None None /\ t_api_keys (v_db (view w)) !! ak_ID k = None /\
    (forall id k', t_api_keys (v_db (view w)) !! id = Some k' -> ak_KeyHash k' <> HashAPIKey raw) /\
    view (mintKey name scope w).2 = with_db (set_api_keys (<[ak_ID k := k]> (t_api_keys (v_db (view w)))) (v_db (view w))) (view w)).
  { unfold mintKey, bind, ret in *. pose proof (GenerateAPIKey_spec w) as [Hv Hg].
    destruct (GenerateAPIKey w) as [[r|e] w1]; cbn [fst snd] in *; [|done].
    pose proof (CreateAPIKey_spec (mkCreateAPIKeyParams name (HashAPIKey r) scope) w1) as Hc.
    destruct (CreateAPIKey _ w1) as [[k1|e] w2]; cbn [fst snd] in *; [|done]. injection Hm as -> ->.
    destruct (Hg raw eq_refl) as (bs & Hbs & Hl). destruct (Hc k eq_refl) as (now & Hk & Hn & Hu & Hw).
    rewrite Hv in Hn, Hu, Hw. exists bs, now. auto 6. }
  clear Hm. destruct Hmint as (bs & now & Hraw & Hl & Hk & Hn & Hu & Hv). rewrite Hv.
  assert (Hkeys : forall id k', <[ak_ID k := k]> (t_api_keys (v_db (view w))) !! id = Some k' ->
            ak_KeyHash k' = HashAPIKey raw -> id = ak_ID k /\ k' = k).
  { intros id k' Hid Hh. apply lookup_insert_Some in Hid as [[<- <-]|[_ Hid]]; [done|]. by apply Hu in Hid. }
  split; [done|]. split; [done|]. split; [by rewrite Hk|]. split; [by rewrite Hk|].
  split; [by rewrite Hraw, hex_encode_length, Hl|]. split.
  - intros r ->. exists raw. split; [rewrite Hraw; apply extractBearer_hex; by intros ->|].
    apply active_key_lookup; cbn.
    + exists (ak_ID k). by rewrite lookup_insert_eq.
    + by rewrite Hk.
    + by rewrite Hk.
    + intros id k' Hid Hh. by destruct (Hkeys id k' Hid Hh).
  - unfold revokeKey, RevokeAPIKey, bind, ret. intros Hr.
    pose proof (pg_exec_law _ (sql_revoke_api_key (ak_ID k)) (mintKey name scope w).2) as Ho. cbv zeta in Ho.
    destruct (pg_exec _ _) as [[n|e] w2]; cbn [fst snd] in *; [|done].
    destruct (n =? 0); cbn [fst snd] in *; [done|].
    destruct Ho as [(st & a & db & Hq & [= <-] & ->)|[(st & e & _ & ? & _)|(e & _ & ? & _)]]; [|done..].
    unfold sql_revoke_api_key in Hq. rewrite Hv in Hq. cbn [v_db with_db t_api_keys set_api_keys] in Hq.
    rewrite lookup_insert_eq in Hq. assert (APIKey_IsActive k = true) as Hact by (by rewrite Hk). rewrite Hact in Hq.
    injection Hq as _ <-. apply no_active_key. cbn. intros id k' Hid Hh.
    apply lookup_insert_Some in Hid as [[_ <-]|[Hne Hid]]; [done|].
    destruct (Hkeys id k' Hid Hh) as [-> _]. done.
Qed.
End Keys.

(** ** Witnesses *)
Definition sample_environment : Environment := fun k =>
  default ""%string (snd <$> head (filter (fun e => e.1 = k)
    [("POSTGRES_DSN", "postgres://hub@db/hub"); ("DISCORD_BOT_TOKEN", "bot"); ("DISCORD_GUILD_ID", "900");
     ("DISCORD_AGENT_ROLE_ID", "901"); ("ENCRYPTION_KEY", "MDEyMzQ1Njc4OTAxMjM0NTY3ODkwMTIzNDU2Nzg5MDE=");
     ("OAUTH_HMAC_SECRET", "0123456789abcdef0123456789abcdef0123456789abcdef0123456789abcdef")]%string)).
Definition reachable (_ : string) : result error unit := Ok tt.
Definition every_five_minutes (_ : string) : option (Z -> Z) := Some (fun t => t + 5 * Minute).

Lemma Ok_exists {A} (r : result error A) : is_Ok r = true -> exists a, r = Ok a.
Proof. destruct r as [a|e]; [by exists a|done]. Qed.

Lemma programs_start_safe_witness :
  (exists p, (worker_main (W := World) reachable reachable every_five_minutes sample_environment (api_world [])).1 = Ok p /\
     config_ok (view := w_view) (wk_server p) /\ cf_AgentRoleID (wk_server p) <> cf_DiscordGuildID (wk_server p)) /\
  (exists cfg, (api_main (W := World) reachable (fun _ => ""%string) sample_environment (api_world [])).1 = Ok cfg /\
     inhabited (router_ok (view := w_view) cfg)).
Proof.
  destruct (programs_start_safe (E := env_world) (view := w_view) reachable reachable every_five_minutes (fun _ => ""%string)
              sample_environment (api_world [])) as [Hw Ha].
  split.
  - destruct (Ok_exists (worker_main (W := World) reachable reachable every_five_minutes sample_environment (api_world [])).1)
      as [p Hp]; [vm_compute; reflexivity|]. exists p. destruct (Hw p Hp) as (H1 & _ & H2 & _). auto.
  - destruct (Ok_exists (api_main (W := World) reachable (fun _ => ""%string) sample_environment (api_world [])).1)
      as [cfg Hc]; [vm_compute; reflexivity|]. exists cfg. destruct (Ha cfg Hc) as [H1 _]. auto.
Defined.

Lemma minted_key_opens_witness :
  exists raw k, (mintKey (W := World) (C := sample_crypto) "dashboards" "reporting" (api_world [])).1 = Ok (raw, k) /\
    ak_KeyHash k = raw /\ String.length raw = 64%nat /\
    t_api_keys (v_db (w_view (api_world []))) !! ak_ID k = None.
Proof.
  do 2 eexists. split; [vm_compute; reflexivity|].
  destruct (minted_key_opens (E := env_world) (view := w_view) (C := sample_crypto) "dashboards" "reporting" (api_world [])
    _ _ ltac:(vm_compute; reflexivity)) as (_ & H1 & H2 & _ & H3 & _).
  split; [exact H2|]. split; [exact H3|exact H1].
Defined.
