(* ===== verification/Migrate.v ===== *)
(** * Migrate: the migration runner of cmd/migrate

    The database is what the migrations' texts make of it, any type with a partial execution; the
    calls to it may fail before or after their effect, as a script of faults says. *)
From S2P Require Import Prelude Errors Services InMemory GoStrings Config.

Section Migrate.
(** The schema's states and the execution of an SQL text on one; the text of a file; what a walk of the
    directory yields: for each entry whether it is a directory, and its name. *)
Context {S : Type} (exec_sql : string -> S -> option S) (ReadFile : string -> option string).
Context (WalkDir : string -> result error (list (bool * string))).

(** The database as the runner sees it: the table of applied files, in the order of their rows. *)
Record Mig : Type := mkMig { mg_table : bool; mg_rows : list string; mg_schema : S; mg_script : list fault }.

(** A call to the database: executed, failed, or executed with its answer lost. *)
Definition call {A} (f : Mig -> result error (A * Mig)) : M Mig (result error A) := fun m =>
  let '(flt, m1) := match mg_script m with
                    | [] => (Fine, m)
                    | x :: rest => (x, mkMig (mg_table m) (mg_rows m) (mg_schema m) rest)
                    end in
  match flt with
  | Before e => (Err e, m1)
  | Fine => match f m1 with Ok (a, m2) => (Ok a, m2) | Err e => (Err e, m1) end
  | After e => match f m1 with Ok (_, m2) => (Err e, m2) | Err e' => (Err e', m1) end
  end.

(** [migrationsDir], cmd/migrate/main.go:22. *)
Definition migrationsDir : string := "migrations".

(** [ensureMigrationsTable], cmd/migrate/main.go:87-95. *)
Definition ensureMigrationsTable : M Mig (result error unit) :=
  call (fun m => Ok (tt, mkMig true (mg_rows m) (mg_schema m) (mg_script m))).

(** [sort.Strings] orders by bytes. *)
Definition bytes_le (a b : string) : Prop := String.leb a b = true.
#[local] Instance bytes_le_dec a b : Decision (bytes_le a b).
Proof. unfold bytes_le. apply _. Defined.

(** [collectMigrationFiles], cmd/migrate/main.go:98-114. *)
Definition collectMigrationFiles (dir : string) : result error (list string) :=
  match WalkDir dir with
  | Err e => Err (Wrap "migrate: read dir: " e)
  | Ok entries =>
      Ok (merge_sort bytes_le (snd <$> filter (fun d => negb d.1 && HasSuffix d.2 ".sql" = true) entries))
  end.

(** [isApplied], cmd/migrate/main.go:117-124. *)
Definition isApplied (filename : string) : M Mig (result error bool) :=
  call (fun m => if mg_table m then Ok (bool_decide (filename ∈ mg_rows m), m) else Err (PgError "42P01")).

(** [applyMigration], cmd/migrate/main.go:127-145. The transaction is one call. *)
Definition applyMigration (filename : string) : M Mig (result error unit) :=
  match ReadFile (migrationsDir +:+ "/" +:+ filename) with
  | None => ret (Err (Wrap "read file: " (External filename)))
  | Some sql =>
      call (fun m => match exec_sql sql (mg_schema m) with
                     | None => Err (Wrap "exec: " (External "sql"))
                     | Some s => if bool_decide (filename ∈ mg_rows m)
                                 then Err (Wrap "record migration: " (PgError "23505"))
                                 else Ok (tt, mkMig (mg_table m) (mg_rows m ++ [filename]) s (mg_script m))
                     end)
  end.

(** The loop of [run], cmd/migrate/main.go:66-83. *)
Fixpoint run_files (files : list string) : M Mig (result error unit) :=
  match files with
  | [] => ret (Ok tt)
  | f :: fs =>
      applied <-? isApplied f onerr e => ret (Err e) ;;
      if (applied : bool) then run_files fs
      else r <-? applyMigration f onerr e => ret (Err (Wrap "apply: " e)) ;; run_files fs
  end.

(** [run], cmd/migrate/main.go:56-83. *)
Definition run : M Mig (result error unit) :=
  t <-? ensureMigrationsTable onerr e => ret (Err e) ;;
  match collectMigrationFiles migrationsDir with
  | Err e => ret (Err e)
  | Ok files => run_files files
  end.

(** [main], cmd/migrate/main.go:24-53, for what pgx makes of a connection string: a program that exits is an
    error, and does not reach the database before [run]. *)
Definition migrate_main (pgxpool_New : string -> result error unit) (env : Environment) : M Mig (result error unit) :=
  match Load env with
  | Err e => ret (Err e)
  | Ok cfg =>
      match RequirePostgresDSN cfg with
      | Err e => ret (Err e)
      | Ok _ =>
          match pgxpool_New (PostgresDSN cfg) with
          | Err e => ret (Err e)
          | Ok _ => run
          end
      end
  end.

Lemma migrate_main_runs pgxpool_New env m :
  (exists e, migrate_main pgxpool_New env m = (Err e, m)) \/ migrate_main pgxpool_New env m = run m.
Proof. unfold migrate_main, ret. repeat case_match; eauto. Qed.

(** ** In order, once *)

(** The files still to apply, one after the other. *)
Fixpoint outstanding (rows files : list string) : list string :=
  match files with
  | [] => []
  | f :: fs => if decide (f ∈ rows) then outstanding rows fs else f :: outstanding (rows ++ [f]) fs
  end.
(** The schema after a list of files. *)
Fixpoint schema_after (files : list string) (s : S) : option S :=
  match files with
  | [] => Some s
  | f :: fs => sql ← ReadFile (migrationsDir +:+ "/" +:+ f); s' ← exec_sql sql s; schema_after fs s'
  end.

Lemma outstanding_nil rows files : outstanding rows files = [] <-> forall f, f ∈ files -> f ∈ rows.
Proof.
  induction files as [|f fs IH]; cbn; [split; [intros _ f Hf; by apply not_elem_of_nil in Hf|done]|].
  case_decide as Hf.
  - rewrite IH. split; [intros H g [->|Hg]%elem_of_cons; auto|intros H g Hg; apply H; by right].
  - split; [done|]. intros H. destruct Hf. apply H. by left.
Qed.

Lemma outstanding_complete files : forall rows f, f ∈ files -> f ∈ rows ++ outstanding rows files.
Proof.
  induction files as [|g fs IH]; intros rows f Hf; [by apply not_elem_of_nil in Hf|]. cbn.
  apply elem_of_cons in Hf as [->|Hf].
  - case_decide; rewrite elem_of_app; [by left|]. right. by left.
  - case_decide; [by apply IH|]. specialize (IH (rows ++ [g]) f Hf). by rewrite <-app_assoc in IH.
Qed.

(** What a run of the loop did. *)
Definition applied_from (files : list string) (m : Mig) (r : result error unit) (m' : Mig) : Prop :=
  exists l, l `prefix_of` outstanding (mg_rows m) files /\ mg_rows m' = mg_rows m ++ l /\
    schema_after l (mg_schema m) = Some (mg_schema m') /\ (r = Ok tt -> l = outstanding (mg_rows m) files).

Lemma call_cases {A} (f : Mig -> result error (A * Mig)) m :
  exists m1, mg_table m1 = mg_table m /\ mg_rows m1 = mg_rows m /\ mg_schema m1 = mg_schema m /\
    (((exists e, (call f m).1 = Err e) /\ (call f m).2 = m1) \/
     exists a m2, f m1 = Ok (a, m2) /\ (call f m).2 = m2 /\ ((call f m).1 = Ok a \/ exists e, (call f m).1 = Err e)).
Proof.
  unfold call. destruct (mg_script m) as [|x rest] eqn:Hs.
  - exists m. do 3 (split; [done|]). destruct (f m) as [[a m2]|e]; cbn; [right|left]; eauto 9.
  - exists (mkMig (mg_table m) (mg_rows m) (mg_schema m) rest). do 3 (split; [done|]).
    destruct x as [|e|e]; [|left; cbn; eauto|]; destruct (f _) as [[a m2]|e']; cbn; [right|left|right|left]; eauto 9.
Qed.

Lemma isApplied_cases f m :
  mg_rows (isApplied f m).2 = mg_rows m /\ mg_schema (isApplied f m).2 = mg_schema m /\
  ((isApplied f m).1 = Ok (bool_decide (f ∈ mg_rows m)) \/ exists e, (isApplied f m).1 = Err e).
Proof.
  unfold isApplied. destruct (call_cases (fun m => if mg_table m then Ok (bool_decide (f ∈ mg_rows m), m)
    else Err (PgError "42P01")) m) as (m1 & _ & Hr & Hs & H).
  destruct H as [[[e He] ->]|(a & m2 & Hf & -> & H)]; [by eauto|].
  destruct (mg_table m1); [|done]. injection Hf as <- <-. rewrite Hr in H. by eauto.
Qed.

Lemma applyMigration_cases f m : f ∉ mg_rows m ->
  (exists e, (applyMigration f m).1 = Err e /\ mg_rows (applyMigration f m).2 = mg_rows m /\
             mg_schema (applyMigration f m).2 = mg_schema m) \/
  (mg_rows (applyMigration f m).2 = mg_rows m ++ [f] /\
   schema_after [f] (mg_schema m) = Some (mg_schema (applyMigration f m).2)).
Proof.
  intros Hn. unfold applyMigration. cbn [schema_after]. destruct (ReadFile _) as [sql|]; [|left; cbn; eauto].
  match goal with |- context [call ?g m] => destruct (call_cases g m) as (m1 & _ & Hr & Hs & H) end.
  destruct H as [[[e He] ->]|(a & m2 & Hf & -> & H)]; [left; eauto|right].
  cbn beta in Hf. destruct (exec_sql sql (mg_schema m1)) as [s|] eqn:Hx; [|done].
  destruct (bool_decide _); [done|]. injection Hf as <- <-. cbn. rewrite Hr. split; [done|].
  rewrite <-Hs, Hx. done.
Qed.

Lemma run_files_applied files : forall m, applied_from files m (run_files files m).1 (run_files files m).2.
Proof.
  induction files as [|f fs IH]; intros m.
  { exists []. cbn. split; [done|]. split; [by rewrite app_nil_r|done]. }
  cbn [run_files]. unfold bind, ret.
  destruct (isApplied_cases f m) as (Hr & Hs & Hc). destruct (isApplied f m) as [a m1]; cbn [fst snd] in *.
  destruct Hc as [->|[e ->]].
  2: { exists []. cbn. split; [apply prefix_nil|]. split; [by rewrite app_nil_r|]. split; [by rewrite Hs|done]. }
  cbn [outstanding]. unfold applied_from. cbn [outstanding]. case_bool_decide as Hin.
  - rewrite decide_True by done. destruct (IH m1) as (l & H1 & H2 & H3 & H4). rewrite Hr, Hs in *. by exists l.
  - rewrite decide_False by done. rewrite <-Hr in Hin.
    destruct (applyMigration_cases f m1 Hin) as [(e & He & Hr2 & Hs2)|[Hr2 Hs2]];
      destruct (applyMigration f m1) as [b m2]; cbn [fst snd] in *.
    + subst b. exists []. cbn. split; [apply prefix_nil|]. split; [by rewrite Hr2, Hr, app_nil_r|].
      split; [by rewrite Hs2, Hs|done].
    + rewrite Hr in Hr2. destruct b as [[]|e]; cbn [fst snd].
      * destruct (IH m2) as (l & H1 & H2 & H3 & H4). rewrite Hr2 in *. exists (f :: l).
        split; [by apply prefix_cons|]. split; [by rewrite H2, <-app_assoc|]. split; [|intros Hok; by rewrite <-H4].
        rewrite Hs in Hs2. cbn in Hs2 |- *. destruct (ReadFile _) as [sql|]; [|done]. cbn in *.
        destruct (exec_sql sql (mg_schema m)) as [s|]; [|done]. cbn in *. injection Hs2 as ->. exact H3.
      * exists [f]. split; [apply prefix_cons, prefix_nil|]. split; [done|]. split; [by rewrite <-Hs|done].
Qed.

(** The order of [sort.Strings] is total and transitive. *)
Lemma bytes_le_cons a s b t :
  bytes_le (String a s) (String b t) <-> (Ascii.N_of_ascii a < Ascii.N_of_ascii b)%N \/ a = b /\ bytes_le s t.
Proof.
  unfold bytes_le, String.leb. cbn [String.compare]. unfold Ascii.compare.
  destruct (N.compare_spec (Ascii.N_of_ascii a) (Ascii.N_of_ascii b)) as [He|Hl|Hg].
  - apply (f_equal Ascii.ascii_of_N) in He. rewrite !Ascii.ascii_N_embedding in He. subst b.
    split; [by right|]. intros [Hlt|[_ ?]]; [by apply N.lt_irrefl in Hlt|done].
  - split; [by left|done].
  - split; [done|]. intros [Hlt|[-> _]]; [|by apply N.lt_irrefl in Hg]. exfalso. eapply N.lt_asymm; eauto.
Qed.
#[local] Instance bytes_le_total : Total bytes_le.
Proof. intros a b. apply String.leb_total. Qed.
#[local] Instance bytes_le_trans : Transitive bytes_le.
Proof.
  intros x. induction x as [|a x IH]; intros [|b y] [|c z]; try done. rewrite !bytes_le_cons.
  intros [H1|[-> H1]] [H2|[-> H2]]; [left; by etrans|by left|by left|right]. split; [done|]. by eapply IH.
Qed.

(** The listing: the SQL files among the entries, in order. *)
Lemma collectMigrationFiles_sorted dir entries : WalkDir dir = Ok entries ->
  exists files, collectMigrationFiles dir = Ok files /\ StronglySorted bytes_le files /\
    files ≡ₚ snd <$> filter (fun d => d.1 = false /\ HasSuffix d.2 ".sql" = true) entries.
Proof.
  intros Hw. unfold collectMigrationFiles. rewrite Hw. eexists. split; [done|].
  split; [apply StronglySorted_merge_sort; apply _|]. rewrite merge_sort_Permutation.
  erewrite (list_filter_iff (fun d => negb d.1 && HasSuffix d.2 ".sql" = true)); [done|].
  intros [d n]. cbn. rewrite andb_true_iff, negb_true_iff. done.
Qed.

(** The outstanding files: in order, once, and none that is applied. *)
Lemma outstanding_elem files : forall rows f, f ∈ outstanding rows files -> f ∈ files /\ f ∉ rows.
Proof.
  induction files as [|g fs IH]; intros rows f; cbn; [by intros ?%not_elem_of_nil|].
  case_decide; rewrite ?elem_of_cons; [intros [? ?]%IH; auto|]. intros [->|[? Hn]%IH]; [auto|].
  split; [by right|]. intros Hf. apply Hn, elem_of_app. by left.
Qed.
Lemma outstanding_NoDup files : forall rows, NoDup (outstanding rows files).
Proof.
  induction files as [|g fs IH]; intros rows; cbn; [by apply NoDup_nil|]. case_decide; [done|].
  apply NoDup_cons. split; [|done]. intros [_ Hn]%outstanding_elem. apply Hn, elem_of_app. right. by left.
Qed.
Lemma outstanding_sorted files : StronglySorted bytes_le files ->
  forall rows, StronglySorted bytes_le (outstanding rows files).
Proof.
  induction 1 as [|f fs Hs IH Hf]; intros rows; cbn; [constructor|]. case_decide; [apply IH|].
  constructor; [apply IH|]. apply Forall_forall. intros g [Hg _]%outstanding_elem. by eapply Forall_forall in Hf.
Qed.
Lemma StronglySorted_prefix (l k : list string) : StronglySorted bytes_le k -> l `prefix_of` k -> StronglySorted bytes_le l.
Proof.
  intros Hk [x ->]. induction l as [|a l IH]; [constructor|]. cbn in Hk. apply StronglySorted_inv in Hk as [Hk Ha].
  constructor; [by apply IH|]. by apply Forall_app in Ha as [? _].
Qed.

(** The run: the loop, after the table of applied files is there. *)
Lemma run_applied files m : collectMigrationFiles migrationsDir = Ok files -> applied_from files m (run m).1 (run m).2.
Proof.
  intros Hfiles. unfold run, bind, ret, ensureMigrationsTable.
  match goal with |- context [call ?g m] => destruct (call_cases g m) as (m1 & _ & Hr & Hs & H);
    destruct (call g m) as [a m2] end.
  cbn [fst snd] in H. rewrite Hfiles.
  assert (Hm2 : mg_rows m2 = mg_rows m /\ mg_schema m2 = mg_schema m).
  { destruct H as [[_ ->]|(x & y & Hf & <- & _)]; [done|]. by injection Hf as _ <-. }
  destruct Hm2 as [Hr2 Hs2]. clear H. destruct a as [[]|e]; cbn [fst snd].
  - destruct (run_files_applied files m2) as (l & H). rewrite Hr2, Hs2 in H. by exists l.
  - exists []. split; [apply prefix_nil|]. split; [by rewrite Hr2, app_nil_r|]. split; [by rewrite <-Hs2|done].
Qed.

(** C28: migrations are applied in lexical order, each once. The files of a run are the SQL files of the
    directory, sorted by bytes. Whatever the database already holds and whatever
    call fails or loses its answer: a run adds an initial part of the outstanding files, in that order, each once and
    none that was applied before, to the applied ones, and the schema is what these texts make of it, in that
    order; a run that succeeds has applied every SQL file of the directory, and no later run changes the schema any
    more. The program either exits with the database as it was, or is that run. *)
Theorem migrate_in_order (m : Mig) (entries : list (bool * string)) :
  WalkDir migrationsDir = Ok entries ->
  let '(r, m') := run m in
  let sql f := (false, f) ∈ entries /\ HasSuffix f ".sql" = true in
  exists files,
    StronglySorted bytes_le files /\
    files ≡ₚ snd <$> filter (fun d => d.1 = false /\ HasSuffix d.2 ".sql" = true) entries /\
    (exists l, l `prefix_of` outstanding (mg_rows m) files /\ mg_rows m' = mg_rows m ++ l /\
       StronglySorted bytes_le l /\ NoDup l /\ (forall f, f ∈ l -> sql f /\ f ∉ mg_rows m) /\
       schema_after l (mg_schema m) = Some (mg_schema m')) /\
    (r = Ok tt -> forall f, sql f -> f ∈ mg_rows m') /\
    (forall m2, (forall f, sql f -> f ∈ mg_rows m2) ->
       mg_rows (run m2).2 = mg_rows m2 /\ mg_schema (run m2).2 = mg_schema m2) /\
    (forall pgxpool_New env, (exists e, migrate_main pgxpool_New env m = (Err e, m)) \/ migrate_main pgxpool_New env m = run m).
Proof.
  intros Hw. destruct (collectMigrationFiles_sorted _ _ Hw) as (files & Hfiles & Hsort & Hperm).
  assert (Hsql : forall f, f ∈ files <-> (false, f) ∈ entries /\ HasSuffix f ".sql" = true).
  { intros f. rewrite Hperm, list_elem_of_fmap. setoid_rewrite list_elem_of_filter. split.
    - intros ([d n] & -> & [Hd Hn] & Hin). cbn in *. by subst d.
    - intros [Hin Hn]. by exists (false, f). }
  destruct (run m) as [r m'] eqn:Hm. cbv zeta. exists files. split; [done|]. split; [done|].
  destruct (run_applied files m Hfiles) as (l & H1 & H2 & H3 & H4). rewrite Hm in *. cbn [fst snd] in *.
  split; [|split; [|split]].
  - exists l. split; [done|]. split; [done|]. split; [by eapply StronglySorted_prefix, H1; apply outstanding_sorted|].
    destruct H1 as [x Hx]. split.
    { pose proof (outstanding_NoDup files (mg_rows m)) as Hnd. rewrite Hx in Hnd. by apply NoDup_app in Hnd as [? _]. }
    split; [|done]. intros f Hf. rewrite <-Hsql. apply outstanding_elem. rewrite Hx. apply elem_of_app. by left.
  - intros Hr f Hf%Hsql. rewrite H2, (H4 Hr). by apply outstanding_complete.
  - intros m2 Hall. destruct (run_applied files m2 Hfiles) as (l2 & P1 & P2 & P3 & _).
    rewrite (proj2 (outstanding_nil _ _)) in P1 by (intros f Hf%Hsql; by apply Hall). apply prefix_nil_inv in P1. subst l2.
    rewrite app_nil_r in P2. split; [done|]. by injection P3.
  - intros pgxpool_New env. rewrite <-Hm. apply migrate_main_runs.
Qed.
End Migrate.
Arguments mkMig {S}. Arguments mg_rows {S}. Arguments mg_schema {S}.

(** ** Witness: two migrations, the answer to the first lost, then a second run *)
Definition sample_walk (_ : string) : result error (list (bool * string)) :=
  Ok [(true, "migrations"); (false, "0002_more.sql"); (false, "README.md"); (false, "0001_init.sql")]%string.
Definition sample_run : Mig (S := list string) -> result error unit * Mig :=
  run (fun sql s => Some (s ++ [sql])) (fun f => Some f) sample_walk.

Lemma migrate_in_order_witness :
  let m1 := sample_run (mkMig false [] [] [Fine; Fine; After (External "timeout")]) in
  mg_rows m1.2 = ["0001_init.sql"%string] /\
  (sample_run m1.2).1 = Ok tt /\ mg_rows (sample_run m1.2).2 = ["0001_init.sql"; "0002_more.sql"]%string /\
  mg_schema (sample_run (sample_run m1.2).2).2 = mg_schema (sample_run m1.2).2.
Proof.
  cbv zeta. split; [vm_compute; reflexivity|]. split; [vm_compute; reflexivity|]. split; [vm_compute; reflexivity|].
  pose proof (migrate_in_order (fun sql s => Some (s ++ [sql])) (fun f => Some f) sample_walk
    (sample_run (mkMig false [] [] [Fine; Fine; After (External "timeout")])).2 _ eq_refl) as H.
  unfold sample_run in *. destruct (run _ _ _ _) as [r m'] eqn:Hm in H.
  destruct H as (files & _ & _ & _ & Hok & Hagain & _). rewrite Hm. cbn [snd]. apply Hagain. apply Hok.
  apply (f_equal fst) in Hm. cbn in Hm. rewrite <-Hm. vm_compute. reflexivity.
Defined.
