(* ===== verification/Evolution.v ===== *)
(** * Evolution: what no statement of the store ever takes back

    The store has no DELETE, and its UPDATEs leave most columns alone: rows stay, identities stay,
    revocations are final, the audit log only grows (src/internal/store/postgres, every statement of
    Schema.v). *)
From S2P Require Import Prelude Errors Domain Schema Services Postgres Invariant.

(** Every row stays, changed as [R] allows. *)
Definition rows_kept {A} (R : A -> A -> Prop) (tab tab' : gmap string A) : Prop :=
  forall id a, tab !! id = Some a -> exists a', tab' !! id = Some a' /\ R a a'.

(** ** What stays of a row *)
Definition user_kept (u u' : User) : Prop :=
  u_ID u' = u_ID u /\ u_Type u' = u_Type u /\ u_IsAdmin u' = u_IsAdmin u /\ u_Email u' = u_Email u /\
  u_CreatedAt u' = u_CreatedAt u /\ (u_IsActive u = false -> u_IsActive u' = false) /\
  (u_DiscordUserID u <> None -> u_DiscordUserID u' <> None).
Definition api_key_kept (k k' : APIKey) : Prop :=
  ak_ID k' = ak_ID k /\ ak_KeyHash k' = ak_KeyHash k /\ ak_Scope k' = ak_Scope k /\
  (APIKey_IsActive k = false -> ak_RevokedAt k' = ak_RevokedAt k).
Definition token_kept (t t' : OAuthToken) : Prop :=
  ot_ID t' = ot_ID t /\ ot_UserID t' = ot_UserID t /\ ot_CreatedAt t' = ot_CreatedAt t.
Definition space_kept (s s' : Space) : Prop :=
  sp_ID s' = sp_ID s /\ sp_MerchantID s' = sp_MerchantID s /\ sp_Name s' = sp_Name s /\
  sp_CreatedAt s' = sp_CreatedAt s /\ (sp_DiscordChannelID s <> None -> sp_DiscordChannelID s' <> None) /\
  (sp_WelcomeMessageID s <> None -> sp_WelcomeMessageID s' <> None).
Definition member_kept (s s' : SpaceMember) : Prop :=
  sm_ID s' = sm_ID s /\ sm_SpaceID s' = sm_SpaceID s /\ sm_UserID s' = sm_UserID s /\ sm_Role s' = sm_Role s /\
  sm_InvitedBy s' = sm_InvitedBy s /\ sm_CreatedAt s' = sm_CreatedAt s /\
  (member_active s = false -> member_active s' = false) /\
  (sm_OverwriteApplied s = true -> sm_OverwriteApplied s' = true).
Definition job_kept (j j' : Job) : Prop :=
  j_ID j' = j_ID j /\ j_TaskID j' = j_TaskID j /\ j_Kind j' = j_Kind j /\ j_Queue j' = j_Queue j /\
  j_MerchantID j' = j_MerchantID j /\ j_SpaceID j' = j_SpaceID j /\ j_UserID j' = j_UserID j /\
  j_Payload j' = j_Payload j /\ j_CreatedAt j' = j_CreatedAt j /\
  (j_CompletedAt j <> None -> j_CompletedAt j' <> None).
Definition idempotency_kept (r r' : IdempotencyKey) : Prop :=
  ik_Key r' = ik_Key r /\ ik_RequestHash r' = ik_RequestHash r /\ ik_ExpiresAt r' = ik_ExpiresAt r /\
  (ik_ResponseCode r <> None -> ik_ResponseCode r' <> None).
(** A row that is stamped as enqueued keeps its payload. *)
Definition outbox_kept (o o' : OutboxRow) : Prop :=
  ob_ID o' = ob_ID o /\ ob_Kind o' = ob_Kind o /\ ob_AggregateID o' = ob_AggregateID o /\
  ob_IdempotencyKey o' = ob_IdempotencyKey o /\ ob_CreatedAt o' = ob_CreatedAt o /\
  (pending o = false -> pending o' = false /\ ob_Payload o' = ob_Payload o).

(** ** What stays of the database *)
Record evolves (db db' : DB) : Prop := mk_evolves {
  ev_merchants : rows_kept eq (t_merchants db) (t_merchants db');
  ev_users : rows_kept user_kept (t_users db) (t_users db');
  ev_api_keys : rows_kept api_key_kept (t_api_keys db) (t_api_keys db');
  ev_tokens : rows_kept token_kept (t_oauth_tokens db) (t_oauth_tokens db');
  ev_spaces : rows_kept space_kept (t_spaces db) (t_spaces db');
  ev_members : rows_kept member_kept (t_space_members db) (t_space_members db');
  ev_jobs : rows_kept job_kept (t_jobs db) (t_jobs db');
  ev_idem : rows_kept idempotency_kept (t_idempotency_keys db) (t_idempotency_keys db');
  ev_outbox : rows_kept outbox_kept (t_outbox db) (t_outbox db');
  ev_audit : t_audit_log db `suffix_of` t_audit_log db'
}.

Section RowRelations.
Context {A : Type} (R : A -> A -> Prop) `{!PreOrder R}.

#[export] Instance rows_kept_preorder : PreOrder (rows_kept R).
Proof.
  split; [intros tab id a Ha; eexists; by split|].
  intros t1 t2 t3 H1 H2 id a Ha. destruct (H1 id a Ha) as (b & Hb & Hab).
  destruct (H2 id b Hb) as (c & Hc & Hbc). exists c. split; [done|]. by etrans.
Qed.
Lemma rows_kept_new tab id a : tab !! id = None -> rows_kept R tab (<[id := a]> tab).
Proof.
  intros Hn id' a' Ha. exists a'. rewrite lookup_insert_ne; [done|]. intros ->. congruence.
Qed.
Lemma rows_kept_update tab id a a' : tab !! id = Some a -> R a a' -> rows_kept R tab (<[id := a']> tab).
Proof.
  intros Ha HR id' b Hb. destruct (decide (id = id')) as [<-|Hne].
  - exists a'. rewrite lookup_insert_eq. split; [done|]. congruence.
  - exists b. by rewrite lookup_insert_ne.
Qed.
End RowRelations.

Ltac row_preorder := split; [intros x; repeat split; tauto | intros x y z Hxy Hyz;
  repeat match goal with H : _ /\ _ |- _ => destruct H end; repeat split; (congruence || tauto || auto)].
#[export] Instance user_kept_preorder : PreOrder user_kept.
Proof. unfold user_kept. row_preorder. Qed.
#[export] Instance token_kept_preorder : PreOrder token_kept.
Proof. unfold token_kept. row_preorder. Qed.
#[export] Instance space_kept_preorder : PreOrder space_kept.
Proof. unfold space_kept. row_preorder. Qed.
#[export] Instance member_kept_preorder : PreOrder member_kept.
Proof. unfold member_kept. row_preorder. Qed.
#[export] Instance job_kept_preorder : PreOrder job_kept.
Proof. unfold job_kept. row_preorder. Qed.
#[export] Instance idempotency_kept_preorder : PreOrder idempotency_kept.
Proof. unfold idempotency_kept. row_preorder. Qed.
#[export] Instance outbox_kept_preorder : PreOrder outbox_kept.
Proof.
  unfold outbox_kept. split; [by intros x; repeat split|]. intros x y z H1 H2. destruct_and!.
  split_and!; try congruence. intros Hp.
  repeat match goal with HH : _ = _ -> _ |- _ => specialize (HH ltac:(tauto || congruence)) end. destruct_and!.
  split; congruence.
Qed.
#[export] Instance api_key_kept_preorder : PreOrder api_key_kept.
Proof.
  unfold api_key_kept, APIKey_IsActive. split; [by intros x; repeat split|].
  intros x y z (H1 & H2 & H3 & H4) (K1 & K2 & K3 & K4). split_and!; try congruence.
  intros Hp. specialize (H4 Hp). rewrite <-H4 in Hp |- *. by apply K4.
Qed.

#[export] Instance evolves_preorder : PreOrder evolves.
Proof.
  split.
  - intros db. by constructor; try reflexivity.
  - intros a b c [] []. by constructor; try (by etrans).
Qed.

(** ** Statements *)

(** No outbox row becomes stamped. *)
Definition stamps_none (db db' : DB) : Prop :=
  forall id o, t_outbox db' !! id = Some o -> pending o = false -> t_outbox db !! id = Some o.
#[export] Instance stamps_none_preorder : PreOrder stamps_none.
Proof. split; [by intros db id o|]. intros a b c H1 H2 id o Hl Hp. apply H1; [by apply H2|done]. Qed.

(** A statement that keeps the constraints, takes nothing back and stamps nothing. *)
Class Writes {A} (q : sql A) : Prop := mk_writes {
  writes_keeps : keeps q;
  writes_evolves : forall st db a db', q st db = Ok (a, db') -> db_wf db -> evolves db db' /\ stamps_none db db' }.

(** One table changed, the others are as they were. *)
Ltac evolves_table := split; [constructor; cbn; try reflexivity|try (intros ? ? Ho _; exact Ho)].

Lemma insert_fresh {A} (T : Table A) n chk uq fks row st db a db' :
  sql_insert T n chk uq fks row st db = Ok (a, db') ->
  tget T db !! st_uuid st n = None /\ db' = tset T (<[st_uuid st n := row (st_now st) (st_uuid st n)]> (tget T db)) db.
Proof.
  unfold sql_insert. destruct chk; [done|]. destruct (bool_decide _) eqn:Hb; [done|]. destruct (uq _ _); [|done].
  destruct (fks _ _); [|done]. cbn. intros [= _ <-]. split; [|done].
  apply bool_decide_eq_false in Hb. by apply eq_None_not_Some.
Qed.

Ltac writes_insert stmt := split; [by auto with wf|]; intros st db a db' Hq Hwf; unfold stmt in Hq;
  apply insert_fresh in Hq as [Hn ->];
  cbn in *; evolves_table; by apply rows_kept_new; [apply _|].

#[export] Instance writes_read {A} (f : DB -> A) : Writes (sql_read f).
Proof. split; [apply keeps_read|]. intros st db a db' [= _ <-] _. by split. Qed.
#[export] Instance writes_ret {A} (x : A) : Writes (sql_ret x).
Proof. split; [by intros st db a db' [= _ <-]|]. intros st db a db' [= _ <-] _. by split. Qed.
#[export] Instance writes_raise {A} code : Writes (raise (A := A) code).
Proof. by split. Qed.
#[export] Instance writes_get_idempotency_key key : Writes (sql_get_idempotency_key key).
Proof. split; [by intros st db a db' [= _ <-]|]. intros st db a db' [= _ <-] _. by split. Qed.

#[export] Instance writes_insert_merchant p : Writes (sql_insert_merchant p).
Proof. writes_insert sql_insert_merchant. Qed.
#[export] Instance writes_insert_user p : Writes (sql_insert_user p).
Proof. writes_insert sql_insert_user. Qed.
#[export] Instance writes_insert_api_key p : Writes (sql_insert_api_key p).
Proof. writes_insert sql_insert_api_key. Qed.
#[export] Instance writes_insert_space n p : Writes (sql_insert_space n p).
Proof. writes_insert sql_insert_space. Qed.
#[export] Instance writes_insert_job p : Writes (sql_insert_job p).
Proof. writes_insert sql_insert_job. Qed.
#[export] Instance writes_insert_outbox n p : Writes (sql_insert_outbox n p).
Proof.
  split; [apply keeps_insert_outbox|]. intros st db a db' Hq Hwf. unfold sql_insert_outbox in Hq.
  apply insert_fresh in Hq as [Hn ->]. cbn in *. evolves_table; [by apply rows_kept_new; [apply _|]|].
  intros id o. cbn. rewrite lookup_insert_Some. by intros [[_ <-]|[_ ?]].
Qed.
#[export] Instance writes_insert_space_member p : Writes (sql_insert_space_member p).
Proof. writes_insert sql_insert_space_member. Qed.
#[export] Instance writes_create_space_with_outbox sp ob : Writes (sql_create_space_with_outbox sp ob).
Proof.
  split; [apply keeps_create_space_with_outbox|]. intros st db a db' Hq Hwf. unfold sql_create_space_with_outbox in Hq.
  destruct (sql_insert_space 0 sp st db) as [[[space|] db1]|e] eqn:H1; [|done..].
  destruct (sql_insert_outbox 1 ob st db1) as [[[row|] db2]|e] eqn:H2; [|done..]. injection Hq as _ <-.
  destruct (writes_evolves _ _ _ _ H1 Hwf) as [E1 S1].
  destruct (writes_evolves _ _ _ _ H2) as [E2 S2]; [by eapply keeps_insert_space|]. split; by etrans.
Qed.
#[export] Instance writes_insert_idempotency_key p : Writes (sql_insert_idempotency_key p).
Proof.
  split; [auto with wf|]. intros st db a db' Hq _. unfold sql_insert_idempotency_key in Hq.
  destruct (bool_decide _) eqn:Hb; [done|]. destruct (negb _); [done|]. injection Hq as _ <-.
  apply bool_decide_eq_false, eq_None_not_Some in Hb. evolves_table. by apply rows_kept_new; [apply _|].
Qed.

(** Updates of one row. *)
Lemma evolves_update {A} (T : Table A) id f :
  keeps (sql_update T id f) ->
  (forall now db a, tget T db !! id = Some a -> evolves db (tset T (<[id := f now a]> (tget T db)) db) /\
     stamps_none db (tset T (<[id := f now a]> (tget T db)) db)) ->
  Writes (sql_update T id f).
Proof.
  intros Hk Hf. split; [done|]. intros st db a db' Hq _. unfold sql_update in Hq.
  destruct (tget T db !! id) as [x|] eqn:Hx; injection Hq as _ <-; [by apply Hf|by split].
Qed.
Ltac writes_update := apply evolves_update; [by auto with wf|]; intros now db x Hx; cbn in *; evolves_table;
  eapply rows_kept_update; [apply _|exact Hx|].
#[export] Instance writes_inactive id : Writes (sql_update users_T id with_inactive).
Proof. writes_update. by repeat split. Qed.
#[export] Instance writes_provisioned id : Writes (sql_update users_T id with_provisioned).
Proof. writes_update. by repeat split. Qed.
#[export] Instance writes_key_used id : Writes (sql_update api_keys_T id with_key_used).
Proof. writes_update. by repeat split. Qed.
#[export] Instance writes_acl id st : Writes (sql_update spaces_T id (with_acl st)).
Proof. writes_update. by repeat split. Qed.
#[export] Instance writes_reconciled id : Writes (sql_update spaces_T id with_reconciled).
Proof. writes_update. by repeat split. Qed.
#[export] Instance writes_lifecycle p : Writes (sql_update_space_lifecycle p).
Proof.
  assert (Hq : forall st db, sql_update_space_lifecycle p st db = Err (PgError pgAmbiguousParameter))
    by (intros; by apply prepared_refused).
  split; intros st db a db' Hx; by rewrite Hq in Hx.
Qed.
#[export] Instance writes_welcome id m : Writes (sql_update spaces_T id (with_welcome m)).
Proof. writes_update. by repeat split. Qed.
#[export] Instance writes_overwrite_applied id : Writes (sql_update space_members_T id with_overwrite_applied).
Proof. writes_update. by repeat split. Qed.
#[export] Instance writes_revoked id : Writes (sql_update space_members_T id with_revoked).
Proof. writes_update. by repeat split. Qed.
#[export] Instance writes_job_status id p : Writes (sql_update jobs_T id (with_job_status p)).
Proof. writes_update. repeat split. cbn. by destruct (ujs_Completed p). Qed.
#[export] Instance writes_revoke_api_key id : Writes (sql_revoke_api_key id).
Proof.
  split; [auto with wf|]. intros st db a db' Hq _. unfold sql_revoke_api_key in Hq.
  destruct (t_api_keys db !! id) as [k|] eqn:Hk; [|by injection Hq as _ <-].
  destruct (APIKey_IsActive k) eqn:Ha; injection Hq as _ <-; [|by split]. evolves_table.
  eapply rows_kept_update; [apply _|exact Hk|]. repeat split. by rewrite Ha.
Qed.
#[export] Instance writes_update_discord_user_id u d : Writes (sql_update_discord_user_id u d).
Proof.
  split; [auto with wf|]. intros st db a db' Hq _. unfold sql_update_discord_user_id in Hq.
  destruct (t_users db !! u) as [x|] eqn:Hx; [|by injection Hq as _ <-].
  destruct (taken _ _ _ _); [done|]. injection Hq as _ <-. evolves_table.
  eapply rows_kept_update; [apply _|exact Hx|]. by repeat split.
Qed.
#[export] Instance writes_update_space_channel p : Writes (sql_update_space_channel p).
Proof.
  split; [auto with wf|]. intros st db a db' Hq _. unfold sql_update_space_channel, sql_update in Hq. cbn in Hq.
  destruct (_ && _); [done|]. destruct (t_spaces db !! usd_SpaceID p) as [x|] eqn:Hx; injection Hq as _ <-; [|by split].
  evolves_table. eapply rows_kept_update; [apply _|exact Hx|]. by repeat split.
Qed.
#[export] Instance writes_upsert_oauth_token p : Writes (sql_upsert_oauth_token p).
Proof.
  split; [auto with wf|]. intros st db a db' Hq _. unfold sql_upsert_oauth_token in Hq.
  destruct (head _) as [[id t]|] eqn:Hh.
  - apply head_Some_elem_of, list_elem_of_filter in Hh as [_ Hin]. apply elem_of_map_to_list in Hin.
    injection Hq as _ <-. evolves_table. eapply rows_kept_update; [apply _|exact Hin|]. by repeat split.
  - apply insert_fresh in Hq as [Hn ->]. cbn in *. evolves_table. by apply rows_kept_new; [apply _|].
Qed.
#[export] Instance writes_update_idempotency_key p : Writes (sql_update_idempotency_key p).
Proof.
  split; [auto with wf|]. intros st db a db' Hq _. unfold sql_update_idempotency_key in Hq.
  destruct (t_idempotency_keys db !! uik_Key p) as [r|] eqn:Hr; [|by injection Hq as _ <-].
  destruct (negb _); [done|]. injection Hq as _ <-. evolves_table.
  eapply rows_kept_update; [apply _|exact Hr|]. by repeat split.
Qed.
#[export] Instance writes_update_outbox_payload key pl : Writes (sql_update_outbox_payload key pl).
Proof.
  split; [auto with wf|]. intros st db a db' Hq _. unfold sql_update_outbox_payload in Hq. destruct pl as [pl|].
  - injection Hq as _ <-. evolves_table.
    + intros id o Ho. eexists. rewrite lookup_fmap, Ho. split; [done|].
      destruct (bool_decide _), (pending o) eqn:Hp; cbn; try done. split_and!; try done. by rewrite Hp.
    + intros id o'. cbn. rewrite lookup_fmap_Some. intros (o & <- & Ho) Hp.
      destruct (bool_decide _), (pending o) eqn:Hpo; cbn in *; try done. cbv [pending with_payload ob_EnqueuedAt] in Hp, Hpo.
      by destruct o as [? ? ? ? ? ? []].
  - destruct (bool_decide _); [done|]. injection Hq as _ <-. by split.
Qed.
#[export] Instance writes_insert_audit p : Writes (sql_insert_audit p).
Proof.
  split; [auto with wf|]. intros st db a db' Hq _. unfold sql_insert_audit in Hq.
  destruct (match iae_Scope p with Some _ => _ | None => _ end); [done|]. destruct (negb _); [done|].
  injection Hq as _ <-. evolves_table. by apply suffix_cons_r.
Qed.
(** Stamping takes nothing back either. *)
Lemma stamp_evolves ids st db a db' : sql_stamp_outbox ids st db = Ok (a, db') -> evolves db db'.
Proof.
  intros [= _ <-]. constructor; cbn; try reflexivity. intros id o Ho. eexists. rewrite map_lookup_imap, Ho. cbn.
  split; [done|]. by destruct (bool_decide _).
Qed.
