(* ===== verification/Roster.v ===== *)
(** * Roster: who is known to the hub

    The roster is who the hub knows: merchants, users, spaces and memberships. Of the statements of
    src/internal/store/postgres only four add to it; the others are [Clerical]. *)
From S2P Require Import Prelude Errors Domain Schema Services Postgres.

(** The same merchants, users, spaces and memberships. *)
Definition same_roster (db db' : DB) : Prop :=
  dom (t_merchants db') =@{gset string} dom (t_merchants db) /\ dom (t_users db') =@{gset string} dom (t_users db) /\
  dom (t_spaces db') =@{gset string} dom (t_spaces db) /\
  dom (t_space_members db') =@{gset string} dom (t_space_members db).
#[export] Instance same_roster_preorder : PreOrder same_roster.
Proof.
  unfold same_roster. split; [by intros db|]. intros a b c H1 H2. destruct_and!. split_and!; congruence.
Qed.

(** A statement that lets nobody in. *)
Class Clerical {A} (q : sql A) : Prop :=
  clerical : forall st db a db', q st db = Ok (a, db') -> same_roster db db'.

#[export] Instance clerical_read {A} (f : DB -> A) : Clerical (sql_read f).
Proof. by intros st db a db' [= _ <-]. Qed.
#[export] Instance clerical_ret {A} (x : A) : Clerical (sql_ret x).
Proof. by intros st db a db' [= _ <-]. Qed.
#[export] Instance clerical_raise {A} code : Clerical (raise (A := A) code).
Proof. by intros st db a db' Hq. Qed.
#[export] Instance clerical_get_idempotency_key key : Clerical (sql_get_idempotency_key key).
Proof. by intros st db a db' [= _ <-]. Qed.

(** Updates keep the rows, whatever they write into one. *)
Lemma clerical_update_rows {A} (T : Table A) id f :
  (forall db tab, dom tab =@{gset string} dom (tget T db) -> same_roster db (tset T tab db)) ->
  Clerical (sql_update T id f).
Proof.
  intros HT st db a db' Hq. unfold sql_update in Hq. destruct (tget T db !! id) as [x|] eqn:Hx; injection Hq as _ <-; [|done].
  apply HT, dom_insert_lookup_L. by eexists.
Qed.
Ltac clerical_table := apply clerical_update_rows; intros db tab Ht; cbn in *; by split_and!.
#[export] Instance clerical_users id f : Clerical (sql_update users_T id f).
Proof. clerical_table. Qed.
#[export] Instance clerical_spaces id f : Clerical (sql_update spaces_T id f).
Proof. clerical_table. Qed.
#[export] Instance clerical_members id f : Clerical (sql_update space_members_T id f).
Proof. clerical_table. Qed.
#[export] Instance clerical_api_keys id f : Clerical (sql_update api_keys_T id f).
Proof. clerical_table. Qed.
#[export] Instance clerical_jobs id f : Clerical (sql_update jobs_T id f).
Proof. clerical_table. Qed.

(** Insertions beside the roster. *)
Lemma clerical_insert {A} (T : Table A) n chk uq fks row :
  (forall db tab, same_roster db (tset T tab db)) -> Clerical (sql_insert T n chk uq fks row).
Proof.
  intros HT st db a db'. unfold sql_insert. repeat case_match; try done. intros [= _ <-]. apply HT.
Qed.
#[export] Instance clerical_insert_api_key p : Clerical (sql_insert_api_key p).
Proof. by apply clerical_insert. Qed.
#[export] Instance clerical_insert_job p : Clerical (sql_insert_job p).
Proof. by apply clerical_insert. Qed.
#[export] Instance clerical_insert_outbox n p : Clerical (sql_insert_outbox n p).
Proof. by apply clerical_insert. Qed.

(** The other statements. *)
Ltac clerical_cases := intros st db a db'; cbv zeta; repeat case_match; try done; intros Hq; injection Hq as _ <-;
  split_and!; cbn; try done; apply dom_insert_lookup_L; by eexists.
#[export] Instance clerical_update_discord_user_id u d : Clerical (sql_update_discord_user_id u d).
Proof. unfold sql_update_discord_user_id. clerical_cases. Qed.
#[export] Instance clerical_revoke_api_key id : Clerical (sql_revoke_api_key id).
Proof. unfold sql_revoke_api_key. clerical_cases. Qed.
#[export] Instance clerical_upsert_oauth_token p : Clerical (sql_upsert_oauth_token p).
Proof.
  intros st db a db'. unfold sql_upsert_oauth_token. destruct (head _) as [[id t]|]; [by intros [= _ <-]|].
  by apply clerical_insert.
Qed.
#[export] Instance clerical_update_space_channel p : Clerical (sql_update_space_channel p).
Proof. unfold sql_update_space_channel. intros st db a db'. cbv zeta. case_match; [done|]. apply clerical_spaces. Qed.
#[export] Instance clerical_insert_idempotency_key p : Clerical (sql_insert_idempotency_key p).
Proof. unfold sql_insert_idempotency_key. clerical_cases. Qed.
#[export] Instance clerical_update_idempotency_key p : Clerical (sql_update_idempotency_key p).
Proof. unfold sql_update_idempotency_key. clerical_cases. Qed.
#[export] Instance clerical_update_outbox_payload key pl : Clerical (sql_update_outbox_payload key pl).
Proof. unfold sql_update_outbox_payload. clerical_cases. Qed.
#[export] Instance clerical_stamp_outbox ids : Clerical (sql_stamp_outbox ids).
Proof. by intros st db a db' [= _ <-]. Qed.
#[export] Instance clerical_insert_audit p : Clerical (sql_insert_audit p).
Proof. unfold sql_insert_audit. clerical_cases. Qed.
