(* ===== verification/Steps.v ===== *)
(** * Steps: what a call may do to the books

    A relation between states that every call of a program respects, and a tactic that goes through a
    program call by call. Two relations: the steps that keep the schema, take nothing back and keep
    outbox and queue sound ([moves]), and among these the ones that let nobody in ([tends]). Every
    request makes steps of the first kind; every task of the worker makes steps of the second. *)
From S2P Require Import Prelude Errors Domain Schema Services InMemory Postgres StoreSpec Invariant Evolution Roster.
From S2P Require Import Discord Lock RateLimit Cache Observability Queue Reconcile Provision GoStrings.
From S2P Require Import AgentRole Encoding Secrets OAuth Membership Lifecycle Welcome Relay Worker.
From S2P Require Import Gin Authz Idempotency Api ApiSpaces ApiMembers ApiAgents ApiTransversal Router ApiRuns Config Programs.

(** What a step may do to a state whose database satisfies the schema. *)
Definition moves (v v' : View) : Prop := db_wf (v_db v) ->
  db_wf (v_db v') /\ evolves (v_db v) (v_db v') /\ v_queue v `prefix_of` v_queue v' /\
  (forall gone, nothing_lost gone v -> nothing_lost gone v') /\ (ids_once (v_queue v) -> ids_once (v_queue v')).

#[export] Instance moves_preorder : PreOrder moves.
Proof.
  split; [intros v Hwf; by split_and!|]. intros a b c H1 H2 Hwf. destruct (H1 Hwf) as (W1 & E1 & Q1 & N1 & I1).
  destruct (H2 W1) as (W2 & E2 & Q2 & N2 & I2). split_and!; [done|by etrans|by etrans|auto|auto].
Qed.

(** A relation between the states before and after some steps, which does not look beside the database
    and the queue, and to which the queue may grow. *)
Class StepRel (R : relation View) : Prop := mk_step_rel {
  step_preorder :: PreOrder R;
  step_beside : forall v v', v_db v' = v_db v -> v_queue v' = v_queue v -> R v v';
  step_queue : forall v t, (forall t', t' ∈ v_queue v -> ~ same_id t t') -> R v (with_queue (v_queue v ++ [t]) v) }.
(** A statement that makes only such steps. *)
Class Allowed (R : relation View) {A} (q : sql A) : Prop :=
  allowed : forall v st a db, q st (v_db v) = Ok (a, db) -> R v (with_db db v).
(** An operation that makes only such steps. *)
Class Moves {W A} (view : W -> View) (R : relation View) (m : M W A) : Prop :=
  moves_run : forall w, R (view w) (view (m w).2).
Lemma moves_weaken {W A} (view : W -> View) (R R' : relation View) (m : M W A) :
  (forall v v', R v v' -> R' v v') -> Moves view R m -> Moves view R' m.
Proof. intros H Hm w. apply H, Hm. Qed.

(** A step beside the database and the queue. *)
Lemma moves_beside v v' : v_db v' = v_db v -> v_queue v' = v_queue v -> moves v v'.
Proof. intros Hd Hq Hwf. unfold nothing_lost. rewrite Hd, Hq. by split_and!. Qed.
#[export] Instance moves_write {A} (q : sql A) `{!Writes q} : Allowed moves q.
Proof.
  intros v st a db Hq Hwf. destruct (writes_evolves st _ a db Hq Hwf) as [He Hs]. pose proof (writes_keeps st _ a db Hq Hwf).
  split_and!; [done..| |done]. intros gone Hn id ob Hl Hp. apply (Hn id ob); [by apply Hs|done].
Qed.
Lemma moves_queue v t : (forall t', t' ∈ v_queue v -> ~ same_id t t') -> moves v (with_queue (v_queue v ++ [t]) v).
Proof.
  intros Ht Hwf. split_and!; [done|reflexivity|by eexists| |].
  - intros gone Hn id ob Hl Hp. eapply delivered_gone; [apply delivered_app|by eapply Hn].
  - intros Hi. by apply ids_once_app.
Qed.
#[export] Instance moves_step_rel : StepRel moves.
Proof. split; [apply _|apply moves_beside|apply moves_queue]. Qed.

(** Steps that let nobody in, and steps that do both. *)
Definition roster_stays (v v' : View) : Prop := same_roster (v_db v) (v_db v').
Definition tends (v v' : View) : Prop := moves v v' /\ same_roster (v_db v) (v_db v').
#[export] Instance roster_step_rel : StepRel roster_stays.
Proof.
  unfold roster_stays. split.
  - split; [intros v; reflexivity|]. intros a b c H1 H2. by etrans.
  - intros v v' Hd _. by rewrite Hd.
  - intros v t _. reflexivity.
Qed.
#[export] Instance roster_allowed {A} (q : sql A) `{!Clerical q} :
  Allowed roster_stays q.
Proof. intros v st a db Hq. by eapply (clerical st). Qed.
#[export] Instance tends_step_rel : StepRel tends.
Proof.
  split; [split|..].
  - intros v. split; reflexivity.
  - intros a b c [M1 R1] [M2 R2]. split; by etrans.
  - intros v v' Hd Hq. split; [by apply moves_beside|by rewrite Hd].
  - intros v t Ht. split; [by apply moves_queue|reflexivity].
Qed.
#[export] Instance tends_allowed {A} (q : sql A) `{!Writes q, !Clerical q} : Allowed tends q.
Proof. intros v st a db Hq. split; [by eapply moves_write|by eapply clerical]. Qed.

Section MovesProofs.
Context {W : Type} {E : Env W} {view : W -> View} {L : EnvLaws E view}.
Context {R : relation View} {SR : StepRel R}.

Lemma moves_ret {A} (a : A) : Moves view R (ret a).
Proof. intros w. reflexivity. Qed.
Lemma moves_bind {A B} (m : M W A) (k : A -> M W B) :
  Moves view R m -> (forall a, Moves view R (k a)) -> Moves view R (bind m k).
Proof. intros Hm Hk w. unfold bind. etrans; [apply Hm|apply Hk]. Qed.
Lemma moves_spec {A} (m : M W A) (S : View -> A -> View -> Prop) :
  Spec view m S -> (forall v a v', S v a v' -> R v v') -> Moves view R m.
Proof. intros HS HR w. by eapply HR, HS. Qed.
Lemma moves_pg {A} (q : sql A) : Allowed R q -> Moves view R (pg_exec q).
Proof.
  intros Hq. eapply moves_spec; [apply pg_exec_law|]. intros v r v' [H|[H|H]].
  - destruct H as (st & a & db & Ho & _ & ->). by eapply Hq.
  - destruct H as (_ & _ & _ & _ & ->). reflexivity.
  - destruct H as (e & _ & _ & [->|(st & a & db & Ho & ->)]); [reflexivity|by eapply Hq].
Qed.
Lemma moves_redis {A} (q : redis A) : Moves view R (redis_exec q).
Proof.
  eapply moves_spec; [apply redis_exec_law|]. intros v r v' [H|[H|H]].
  - destruct H as (st & a & db & _ & _ & ->). by apply step_beside.
  - destruct H as (st & e & _ & _ & ->). reflexivity.
  - destruct H as (e & _ & _ & [->|(st & a & db & _ & ->)]); [reflexivity|by apply step_beside].
Qed.
Lemma moves_enqueue t : Moves view R (asynq_Enqueue t).
Proof.
  eapply moves_spec; [apply asynq_Enqueue_law|]. intros v r v' H.
  destruct H as [(_ & -> & H)|[(_ & -> & _)|[(_ & -> & _)|(e & _ & _ & [->|[-> H]])]]];
    try reflexivity; by apply step_queue.
Qed.
Lemma moves_rest (m : M W (result error unit)) pre eff : Spec view m (rest_outcome pre eff) -> Moves view R m.
Proof.
  intros HS. eapply moves_spec; [exact HS|].
  intros v r v' [(_ & _ & ->)|(e & _ & _ & [->| ->])]; try reflexivity; by apply step_beside.
Qed.
Lemma moves_same {A} (m : M W A) (S : View -> A -> View -> Prop) :
  Spec view m S -> (forall v a v', S v a v' -> v_db v' = v_db v /\ v_queue v' = v_queue v) -> Moves view R m.
Proof. intros HS HR. eapply moves_spec; [exact HS|]. intros v a v' H. apply HR in H as []. by apply step_beside. Qed.
Lemma moves_lock {A} (m : M W (result error A)) : Spec view m lock_outcome -> Moves view R m.
Proof. intros HS. eapply moves_same; [exact HS|]. by intros v r v' [[ks ->] _]. Qed.
Lemma moves_limit {A} (m : M W (result error A)) : Spec view m limit_outcome -> Moves view R m.
Proof. intros HS. eapply moves_same; [exact HS|]. by intros v r v' [[ks ->] _]. Qed.
Lemma moves_create g name parent ows : Moves view R (dg_GuildChannelCreateComplex g name parent ows).
Proof.
  eapply moves_same; [apply GuildChannelCreateComplex_law|].
  intros v r v' [(id & _ & _ & _ & ->)|(e & _ & _ & [->|(id & _ & ->)])]; done.
Qed.
Lemma moves_message ch content : Moves view R (dg_ChannelMessageSendComplex ch content).
Proof.
  eapply moves_same; [apply ChannelMessageSendComplex_law|].
  intros v r v' [(id & _ & _ & ->)|(e & _ & _ & [->|(id & ->)])]; done.
Qed.
Lemma moves_channel ch : Moves view R (dg_Channel ch).
Proof. eapply moves_same; [apply Channel_law|]. by intros v r v' [-> _]. Qed.
Lemma moves_prom f : Moves view R (prom_update f).
Proof. eapply moves_same; [apply prom_update_law|]. by intros v r v' ->. Qed.
Lemma moves_now : Moves view R time_Now.
Proof. eapply moves_same; [apply time_Now_law|]. by intros v a v' ->. Qed.
Lemma moves_rand n : Moves view R (rand_Read n).
Proof. eapply moves_same; [apply rand_Read_law|]. by intros v a v' [-> _]. Qed.
Lemma moves_range {K V} (l : list (K * V)) : Moves view R (map_range l).
Proof. eapply moves_same; [apply map_range_law|]. by intros v a v' [-> _]. Qed.
Lemma moves_for_each {A Y} (xs : list Y) (body : A -> Y -> M W A) acc :
  (forall a x, Moves view R (body a x)) -> Moves view R (for_each xs body acc).
Proof.
  intros Hb. revert acc. induction xs as [|x xs IH]; intros acc; [apply moves_ret|].
  apply moves_bind; [apply Hb|exact IH].
Qed.
Lemma moves_for_ret {A Y Z} (xs : list Y) (body : A -> Y -> M W (A + Z)) acc :
  (forall a x, Moves view R (body a x)) -> Moves view R (for_ret xs body acc).
Proof.
  intros Hb. revert acc. induction xs as [|x xs IH]; intros acc; [apply moves_ret|].
  apply moves_bind; [apply Hb|]. intros [a|r]; [apply IH|apply moves_ret].
Qed.
End MovesProofs.

(** ** The store's queries *)
Section Queries.
Context {R : relation View} {SR : StepRel R} {W : Type} {E : Env W} {view : W -> View} {L : EnvLaws E view}.
#[export] Instance allowed_read {A} (f : DB -> A) : Allowed R (sql_read f).
Proof. intros v st a db [= _ <-]. by apply step_beside. Qed.
#[export] Instance allowed_raise {A} code : Allowed R (raise (A := A) code).
Proof. by intros v st a db Hq. Qed.
Lemma allowed_after_cursor {A} cursor (created : A -> Z) k :
  (forall p, Allowed R (k p)) -> Allowed R (after_cursor (W := W) cursor created k).
Proof. intros Hk. unfold after_cursor. destruct cursor as [c|]; [|done]. destruct (pg_timestamptz c); [done|apply _]. Qed.
Lemma allowed_map {A B} (q : sql A) (f : DB -> A -> B) : Allowed R q -> Allowed R (fun st db =>
  match q st db with Ok (a, db') => Ok (f db a, db') | Err e => Err e end).
Proof.
  intros Hk v st b db' Hq; destruct (q st (v_db v)) as [[a db1]|e] eqn:Ha; [|done]. injection Hq as _ <-. by eapply Hk.
Qed.
Lemma moves_ListDirectory p : Moves view R (ListDirectory p).
Proof.
  apply moves_bind; [|intros r; by apply moves_ret]. apply moves_pg.
  apply (allowed_map (after_cursor _ _ _)), allowed_after_cursor. intros newer. apply _.
Qed.
End Queries.

(** Go through a program, operation by operation. *)
Ltac moves_step :=
  cbv zeta;
  lazymatch goal with
  | |- Moves _ _ (ret _) => apply moves_ret
  | |- Moves _ _ (ListDirectory _) => apply moves_ListDirectory
  | |- Moves _ _ (pg_exec (after_cursor _ _ _)) => apply moves_pg, allowed_after_cursor; intros ?; cbv beta; apply _
  | |- Moves _ _ (pg_exec _) => apply moves_pg; apply _
  | |- Moves _ _ (redis_exec _) => apply moves_redis
  | |- Moves _ _ (asynq_Enqueue _) => apply moves_enqueue
  | |- Moves _ _ (prom_update _) => apply moves_prom
  | |- Moves _ _ time_Now => apply moves_now
  | |- Moves _ _ (rand_Read _) => apply moves_rand
  | |- Moves _ _ (map_range _) => apply moves_range
  | |- Moves _ _ (dg_GuildChannelCreateComplex _ _ _ _) => apply moves_create
  | |- Moves _ _ (dg_ChannelMessageSendComplex _ _) => apply moves_message
  | |- Moves _ _ (dg_Channel _) => apply moves_channel
  | |- Moves _ _ (dg_ChannelPermissionSet _ _ _ _ _) => eapply moves_rest, ChannelPermissionSet_law
  | |- Moves _ _ (dg_ChannelPermissionDelete _ _) => eapply moves_rest, ChannelPermissionDelete_law
  | |- Moves _ _ (dg_GuildMemberRoleAdd _ _ _) => eapply moves_rest, GuildMemberRoleAdd_law
  | |- Moves _ _ (dg_GuildMemberRoleRemove _ _ _) => eapply moves_rest, GuildMemberRoleRemove_law
  | |- Moves _ _ (dg_GuildMemberAdd _ _ _) => eapply moves_rest, GuildMemberAdd_law
  | |- Moves _ _ (dg_GuildMemberDelete _ _) => eapply moves_rest, GuildMemberDelete_law
  | |- Moves _ _ (dg_ChannelEditTopic _ _) => eapply moves_rest, ChannelEditTopic_law
  | |- Moves _ _ (dg_ChannelMessagePin _ _) => eapply moves_rest, ChannelMessagePin_law
  | |- Moves _ _ (dg_ChannelMessageEditComplex _ _ _) => eapply moves_rest, ChannelMessageEditComplex_law
  | |- Moves _ _ (dg_GuildMemberNickname _ _ _) => eapply moves_rest, GuildMemberNickname_law
  | |- Moves _ _ uuid_New => eapply moves_same; [apply uuid_New_law|by intros ? ? ? ->]
  | |- Moves _ _ (http_Do _) => eapply moves_same; [apply http_Do_law|by intros ? ? ? ->]
  | |- Moves _ _ (SetNonce _ _ _ _) => eapply moves_same; [apply SetNonce_law|by intros ? ? ? ([? ->] & _)]
  | |- Moves _ _ (ConsumeNonce _ _) => eapply moves_same; [apply ConsumeNonce_law|by intros ? ? ? ([? ->] & _)]
  | |- Moves _ _ (CacheGet _ _) => apply moves_lock, CacheGet_law
  | |- Moves _ _ (CacheSet _ _ _ _) => apply moves_lock, CacheSet_law
  | |- Moves _ _ (CacheDel _ _) => apply moves_lock, CacheDel_law
  | |- Moves _ _ (AcquireSpace _ _) => apply moves_lock, AcquireSpace_law
  | |- Moves _ _ (ReleaseSpace _ _ _) => apply moves_lock, ReleaseSpace_law
  | |- Moves _ _ (AcquireMerchant _ _) => apply moves_lock, AcquireMerchant_law
  | |- Moves _ _ (ReleaseMerchant _ _ _) => apply moves_lock, ReleaseMerchant_law
  | |- Moves _ _ (TakeGlobal _) => apply moves_limit, TakeGlobal_law
  | |- Moves _ _ (TakeRoute _ _) => apply moves_limit, TakeRoute_law
  | |- Moves _ _ (UpdateFromHeaders _ _ _ _ _) => apply moves_limit, UpdateFromHeaders_law
  | |- Moves _ _ (PenalizeUntil _ _ _) => apply moves_limit, PenalizeUntil_law
  | |- Moves _ _ (for_each _ _ _) => apply moves_for_each; intros ? ?
  | |- Moves _ _ (for_ret _ _ _) => apply moves_for_ret; intros ? ?
  | |- Moves _ _ (bind _ _) => apply moves_bind; [|intros ?]
  | |- Moves _ _ (match ?x with _ => _ end) => first [progress cbn [rc_Handlers h_stateManager en_locker] | destruct x]
  | |- Moves _ _ (match ?x with _ => _ end _) => destruct x
  | |- Moves _ _ ?m => let f := head_of m in unfold f
  end.
Ltac moves := repeat moves_step.

Section Api.
Context {W : Type} {E : Env W} {view : W -> View} {L : EnvLaws E view} {C : Crypto} {J : JsonText} {X : Web W}.
Context {XL : WebLaws view X} {H : Http W} {HL : HttpLaws view H} {K : Cors W}.

Lemma moves_routes (cfg : RouterConfig W) (Hok : router_ok (view := view) cfg) c :
  Forall (fun e => Moves view moves (e.2 c)) (registerV1Routes cfg) /\
  Forall (fun e => Moves view moves (e.2 c)) (public_routes cfg).
Proof.
  destruct Hok as [HC HN]. destruct cfg as [origins h et]. cbn [rc_Handlers] in *. destruct h as [st q ca ci cs cr sm ts].
  cbn [h_stateManager h_cache] in *.
  split; repeat (apply Forall_cons; split); try apply Forall_nil; cbn [snd]; destruct sm as [sm|]; cbn in HN; moves; exact I.
Qed.

(** The callback lets nobody in. *)
Lemma roster_callback (cfg : RouterConfig W) (Hok : router_ok (view := view) cfg) cx :
  Moves view roster_stays (OAuthDiscordCallback (rc_Handlers cfg) cx).
Proof.
  destruct Hok as [HC HN]. destruct cfg as [origins h et]. cbn [rc_Handlers] in *. destruct h as [st q ca ci cs cr sm ts].
  cbn [h_stateManager h_cache] in *. destruct sm as [sm|]; cbn in HN; moves.
Qed.
Lemma traces_roster v v' : traces_only v v' -> roster_stays v v'.
Proof. intros (_ & _ & _ & _ & keys & idem & Hdb & _). unfold roster_stays. by rewrite Hdb. Qed.
(** Neither does any other request that is not the backoffice's. *)
Lemma roster_served (cfg : RouterConfig W) (Hok : router_ok (view := view) cfg) r w :
  ~ backoffice_request (v_db (view w)) r -> roster_stays (view w) (view (ServeHTTP cfg r w).2).
Proof.
  intros Hb. apply (ServeHTTP_wp cfg r w (roster_stays (view w))); [reflexivity|]. intros w' Hw. rewrite <-Hw in *.
  destruct (decide (rq_FullPath r = "/v1/oauth/discord/callback"%string)) as [Hcb|Hcb].
  - destruct (dispatch_cases cfg (mkCtx r None "")) as [(hd & Hin & ->)|[(p & idem & hd & Hin & -> & Hp)| ->]].
    + unfold wp. cbn [cx_Request] in Hin. rewrite Hcb in Hin. unfold public_routes in Hin.
      apply elem_of_cons in Hin as [[=]|Hin]. apply elem_of_cons in Hin as [[=]|Hin].
      apply list_elem_of_singleton in Hin as [= _ ->]. by apply roster_callback.
    + exfalso. cbn [cx_Request] in Hp. rewrite Hcb in Hp. subst p. unfold registerV1Routes in Hin.
      repeat (apply elem_of_cons in Hin as [[=]|Hin]). by apply not_elem_of_nil in Hin.
    + by apply wp_ret.
  - destruct (dispatch_wp cfg r w' Hcb) as [Hb'|Hd]; [done|]. eapply wp_mono; [exact Hd|]. cbv beta. intros _ v'.
    apply traces_roster.
Qed.

Lemma moves_dispatch (cfg : RouterConfig W) (Hok : router_ok (view := view) cfg) c : Moves view moves (dispatch cfg c).
Proof.
  apply dispatch_ind; [by apply moves_routes| |apply moves_ret]. apply Forall_forall. intros e He.
  assert (Hhd : forall c', Moves view moves (e.2 c')).
  { intros c'. destruct (moves_routes cfg Hok c') as [Hv _]. rewrite Forall_forall in Hv. by apply Hv. }
  assert (Hidem : forall c', Moves view moves ((if e.1.2 : bool then Idempotency (h_store (rc_Handlers cfg)) e.2 else e.2) c')).
  { intros c'. destruct e.1.2; [|apply Hhd]. unfold Idempotency. repeat first [apply Hhd | moves_step]. }
  unfold Auth, noopAuth. destruct (h_store (rc_Handlers cfg)); [|apply Hidem].
  unfold authMiddleware. repeat first [apply Hidem | moves_step].
Qed.

Lemma moves_ServeHTTP (cfg : RouterConfig W) (Hok : router_ok (view := view) cfg) r : Moves view moves (ServeHTTP cfg r).
Proof.
  intros w. apply (ServeHTTP_wp cfg r w (moves (view w))); [reflexivity|]. intros w' <-. by apply moves_dispatch.
Qed.
End Api.

Section Tasks.
Context {W : Type} {E : Env W} {view : W -> View} {L : EnvLaws E view} {C : Crypto} {mux : ServeMux}.

Lemma moves_agent h raw : Moves view tends (newProjectAgentRoleHandlerWithMarking h raw).
Proof. moves. Qed.
Lemma moves_lifecycle cfg raw : Moves view tends (newChangeLifecycleHandler cfg raw).
Proof. moves. Qed.
Lemma moves_welcome cfg raw : Moves view tends (newSyncWelcomeHandler cfg raw).
Proof. moves. Qed.
Lemma moves_nick cfg raw : Moves view tends (newApplyNicknameSuffixHandler cfg raw).
Proof. moves. Qed.
Lemma moves_invite (cfg : inviteCollaboratorConfig W) raw : locker_ok view (ic_locker cfg) ->
  Moves view tends (newInviteCollaboratorHandler cfg raw).
Proof. destruct cfg as [st d [l|] ts g]; cbn; intros Hl; moves. Qed.
Lemma moves_expel (cfg : expelCollaboratorConfig W) raw : locker_ok view (xc_locker cfg) ->
  Moves view tends (newExpelCollaboratorHandler cfg raw).
Proof. destruct cfg as [st d [l|] g]; cbn; intros Hl; moves. Qed.
Lemma moves_provision (cfg : provisionSpaceConfig W) raw : deps_ok (view := view) cfg ->
  Moves view tends (newProvisionSpaceHandler cfg raw).
Proof. destruct cfg as [st d [li|] [lo|] [ca|] m g ev ag cat]; unfold deps_ok; cbn; intros (? & ? & ?); moves. Qed.
Lemma moves_reconcile (en : option (Engine W)) raw :
  match en with Some en => locker_ok view (en_locker en) | None => True end ->
  Moves view tends (newReconcileSpaceHandler en raw).
Proof. destruct en as [[[l|] m]|]; cbn; intros Hl; moves. Qed.
Lemma moves_sweep (en : option (Engine W)) guild raw :
  match en with Some en => locker_ok view (en_locker en) | None => True end ->
  Moves view tends (newReconcileGuildHandler en guild raw).
Proof. destruct en as [[[l|] m]|]; cbn; intros Hl; moves. Qed.

Lemma moves_handlers (c : Worker.Config W) raw ph : config_ok (view := view) c -> ph ∈ registerHandlers c ->
  Moves view tends (ph.2 raw).
Proof.
  intros (Hdeps & Hl & Hen & _) Hin. unfold registerHandlers in Hin.
  repeat (apply elem_of_cons in Hin as [->|Hin]; cbn [snd]); [..|by apply not_elem_of_nil in Hin].
  - apply moves_agent.
  - by apply moves_provision.
  - by apply moves_invite.
  - by apply moves_expel.
  - by apply moves_reconcile.
  - apply moves_lifecycle.
  - apply moves_welcome.
  - apply moves_nick.
  - by apply moves_sweep.
Qed.
Lemma moves_ProcessTask (c : Worker.Config W) kind raw : config_ok (view := view) c -> Moves view tends (ProcessTask c kind raw).
Proof.
  intros Hc. unfold ProcessTask. destruct (mux_match _ _) as [pattern|]; [|apply moves_ret].
  destruct (handler_of c pattern) as [h|] eqn:Hh; [|apply moves_ret].
  apply (moves_handlers c raw (pattern, h) Hc). by apply handler_of_cases.
Qed.

(** A poll stamps rows: that the stamped ones are delivered is [tick_inv]. *)
Lemma moves_tick cfg : Moves view moves (tick cfg).
Proof.
  intros w Hwf. destruct (tick_inv cfg w Hwf) as (Hn & Hi & Hwf' & _).
  enough (evolves (v_db (view w)) (v_db (view (tick cfg w).2)) /\ v_queue (view w) `prefix_of` v_queue (view (tick cfg w).2))
    as [] by (by split_and!).
  clear Hn Hi Hwf'. change (wp view (tick cfg) (fun _ v' => evolves (v_db (view w)) (v_db v') /\
    v_queue (view w) `prefix_of` v_queue v') w).
  unfold tick. go_step. destruct H as [Hv _]. destruct a as [rows|e]; [|apply wp_ret; rewrite Hv; by split].
  destruct rows as [|r rows]; [apply wp_ret; rewrite Hv; by split|].
  eapply wp_seq with (R := fun _ v => moves (view w') v).
  { assert (Hm : Moves view moves (enqueue_rows (r :: rows) [])) by moves. apply Hm. }
  intros stamped w2 Hm. rewrite Hv in Hm. destruct (Hm Hwf) as (_ & He & Hq & _).
  destruct stamped as [|i ids]; [by apply wp_ret|]. eapply wp_last; [apply stamp_spec|].
  cbv beta. intros _ v' [->|[now ->]]; [done|]. split; [|exact Hq]. cbn [v_db with_db]. etrans; [exact He|].
  by eapply (stamp_evolves (i :: ids) (mkStamp now (fun _ => ""%string))).
Qed.

Lemma roster_tick cfg : Moves view roster_stays (tick cfg).
Proof. moves. Qed.

Lemma moves_mintKey name scope : Moves view tends (mintKey name scope).
Proof. moves. Qed.
Lemma moves_revokeKey id : Moves view tends (revokeKey id).
Proof. moves. Qed.
End Tasks.

