(* ===== verification/Hub.v ===== *)
(** * Hub: the whole system

    Requests of the API, tasks of the worker, polls of the relay and the key tool, in any order and
    under any faults, from any state: what holds of every state they reach, and what none of them
    takes back. *)
From S2P Require Import Prelude Errors Domain Schema Services InMemory Postgres StoreSpec Invariant Evolution Roster.
From S2P Require Import Discord Lock RateLimit Cache Observability Queue Reconcile Provision GoStrings.
From S2P Require Import AgentRole Encoding Secrets OAuth Membership Lifecycle Welcome Relay Worker.
From S2P Require Import Gin Authz Idempotency Api ApiSpaces ApiMembers ApiAgents ApiTransversal Router ApiRuns Config Programs.
From S2P Require Import Steps.

(** ** Runs *)
Section Runs.
Context {W : Type} {E : Env W} {view : W -> View} {L : EnvLaws E view} {C : Crypto} {J : JsonText} {X : Web W}.
Context {XL : WebLaws view X} {H : Http W} {HL : HttpLaws view H} {K : Cors W} {mux : ServeMux}.
Context (rt : RouterConfig W) (c : Worker.Config W) (rl : RelayConfig).

(** A run of the hub: requests, tasks, polls, scheduled sweeps and uses of the key tool after each other, whatever they are
    and whatever fails in them; in between the clock goes on, keys expire in Valkey, metrics are
    read, and the queue server completes tasks and forgets them. The lists hold the tasks that were
    served, with the databases they met, and the tasks that were forgotten. Every request is one
    that [may] come when it comes. *)
Inductive run_of (may : DB -> Request -> Prop) (w : W) : list (string * option json * DB) -> list AsynqTask -> W -> Prop :=
| of_start : run_of may w [] [] w
| of_request l gone w1 r : run_of may w l gone w1 -> may (v_db (view w1)) r -> run_of may w l gone (ServeHTTP rt r w1).2
| of_task l gone w1 kind raw pattern : run_of may w l gone w1 ->
    mux_match (fst <$> registerHandlers c) kind = Some pattern ->
    run_of may w (l ++ [(pattern, raw, v_db (view w1))]) gone (ProcessTask c kind raw w1).2
| of_poll l gone w1 : run_of may w l gone w1 -> run_of may w l gone (tick rl w1).2
| of_mint l gone w1 name scope : run_of may w l gone w1 -> run_of may w l gone (mintKey name scope w1).2
| of_revoke l gone w1 id : run_of may w l gone w1 -> run_of may w l gone (revokeKey id w1).2
| of_forget l gone w1 t w2 : run_of may w l gone w1 -> forgets t (view w1) (view w2) ->
    run_of may w l (gone ++ [t]) w2
| of_schedule l gone w1 t : run_of may w l gone w1 -> tk_Type t = KindReconcileGuild ->
    run_of may w l gone (asynq_Enqueue t w1).2
| of_outside l gone w1 w2 : run_of may w l gone w1 -> v_db (view w2) = v_db (view w1) ->
    v_queue (view w2) = v_queue (view w1) -> v_guild (view w2) = v_guild (view w1) -> run_of may w l gone w2.

(** Any requests at all. *)
Definition hub_run : W -> list (string * option json * DB) -> list AsynqTask -> W -> Prop := run_of (fun _ _ => True).
Lemma run_start w : hub_run w [] [] w.
Proof. apply of_start. Qed.
Lemma run_request w l gone w1 r : hub_run w l gone w1 -> hub_run w l gone (ServeHTTP rt r w1).2.
Proof. intros H1. by apply of_request. Qed.
Lemma run_task w l gone w1 kind raw pattern : hub_run w l gone w1 ->
  mux_match (fst <$> registerHandlers c) kind = Some pattern ->
  hub_run w (l ++ [(pattern, raw, v_db (view w1))]) gone (ProcessTask c kind raw w1).2.
Proof. apply of_task. Qed.
Lemma run_poll w l gone w1 : hub_run w l gone w1 -> hub_run w l gone (tick rl w1).2.
Proof. apply of_poll. Qed.
Lemma run_mint w l gone w1 name scope : hub_run w l gone w1 -> hub_run w l gone (mintKey name scope w1).2.
Proof. apply of_mint. Qed.
Lemma run_revoke w l gone w1 id : hub_run w l gone w1 -> hub_run w l gone (revokeKey id w1).2.
Proof. apply of_revoke. Qed.
Lemma run_forget w l gone w1 t w2 : hub_run w l gone w1 -> forgets t (view w1) (view w2) -> hub_run w l (gone ++ [t]) w2.
Proof. apply of_forget. Qed.
Lemma run_of_hub may w l gone w' : run_of may w l gone w' -> hub_run w l gone w'.
Proof.
  unfold hub_run. induction 1; eauto using of_start, of_request, of_task, of_poll, of_mint, of_revoke, of_forget, of_schedule, of_outside.
Qed.

Context (Hrt : router_ok (view := view) rt) (Hc : config_ok (view := view) c).

(** What a run keeps. *)
Definition kept (gone : list AsynqTask) (v v' : View) : Prop :=
  db_wf (v_db v') /\ evolves (v_db v) (v_db v') /\ v_queue v ⊆ gone ++ v_queue v' /\
  (nothing_lost [] v -> nothing_lost gone v') /\ (ids_once (v_queue v) -> ids_once (v_queue v')).

Lemma kept_moves gone v v1 v2 : kept gone v v1 -> moves v1 v2 -> kept gone v v2.
Proof.
  intros (K1 & K2 & K3 & K4 & K5) Hm. destruct (Hm K1) as (M1 & M2 & [q Hq] & M4 & M5).
  split_and!; [done|by etrans| |auto|auto]. rewrite Hq. set_solver.
Qed.
Lemma kept_forgets gone t v v1 v2 : kept gone v v1 -> forgets t v1 v2 -> kept (gone ++ [t]) v v2.
Proof.
  intros (K1 & K2 & K3 & K4 & K5) Hf. pose proof Hf as (Hdb & _ & q1 & q2 & Hq & Hq').
  split_and!; [by rewrite Hdb|by rewrite Hdb| |intros Hn; eapply forgets_lost; eauto|intros Hi; eapply forgets_ids; eauto].
  rewrite Hq'. rewrite Hq in K3. set_solver.
Qed.

Lemma hub_run_keeps w l gone w' : hub_run w l gone w' -> db_wf (v_db (view w)) -> kept gone (view w) (view w').
Proof.
  intros Hr Hwf. unfold hub_run in Hr.
  induction Hr as [|l gone w1 r _ IH _|l gone w1 kind raw p _ IH _|l gone w1 _ IH|l gone w1 name scope _ IH
    |l gone w1 id _ IH|l gone w1 t w2 _ IH Hf|l gone w1 t _ IH _|l gone w1 w2 _ IH Hd Hq _].
  - by split_and!.
  - by eapply kept_moves, moves_ServeHTTP.
  - by eapply kept_moves, moves_ProcessTask.
  - by eapply kept_moves, moves_tick.
  - by eapply kept_moves, moves_mintKey.
  - by eapply kept_moves, moves_revokeKey.
  - by eapply kept_forgets.
  - eapply kept_moves; [done|]. apply moves_enqueue.
  - by eapply kept_moves, moves_beside.
Qed.

(** Discord is the worker's own: to it the rest is what other processes do. *)
Lemma hub_run_history w l gone w' : db_wf (v_db (view w)) -> hub_run w l gone w' -> history (view := view) c w l w'.
Proof.
  intros Hwf Hr.
  unfold hub_run in Hr. induction Hr as [|l gone w1 r _ IH _|l gone w1 kind raw p _ IH Hm|l gone w1 Hr IH|l gone w1 name scope _ IH
    |l gone w1 id _ IH|l gone w1 t w2 _ IH Hf|l gone w1 t _ IH _|l gone w1 w2 _ IH _ _ Hg].
  - constructor.
  - eapply history_other; [exact IH|]. by apply served_offline.
  - by eapply history_task.
  - eapply history_other; [exact IH|]. by apply tick_inv, (hub_run_keeps _ _ _ _ Hr).
  - eapply history_other; [exact IH|]. assert (Ho : Offline view (mintKey name scope)) by offline. apply Ho.
  - eapply history_other; [exact IH|]. assert (Ho : Offline view (revokeKey id)) by offline. apply Ho.
  - eapply history_other; [exact IH|]. by apply Hf.
  - eapply history_other; [exact IH|]. by apply offline_enqueue.
  - by eapply history_other.
Qed.

(** C6: the whole hub keeps its books (FR-14, NFR-3). Let requests, tasks, polls, scheduled sweeps and uses of the key tool run
    in any order, with any arguments, from a state whose database satisfies the schema and whose
    outbox and queue are sound, whatever fails and whatever tasks the queue server completes and forgets:
    the schema holds at the end, the work of a row stamped as enqueued is in the queue or was
    completed, and no two tasks of the queue share an id; nothing is taken back: every row of every
    table is still there with its identity, its references and its date, a revocation, a deactivation, a
    completion and a stamp are final, the audit log has only grown, every task is in the queue or was
    completed; and to
    Discord the run is a history of its worker. *)
Theorem hub_keeps_books l gone w w' :
  hub_run w l gone w' -> db_wf (v_db (view w)) -> nothing_lost [] (view w) -> ids_once (v_queue (view w)) ->
  (db_wf (v_db (view w')) /\ nothing_lost gone (view w') /\ ids_once (v_queue (view w'))) /\
  evolves (v_db (view w)) (v_db (view w')) /\ v_queue (view w) ⊆ gone ++ v_queue (view w') /\
  history (view := view) c w l w'.
Proof.
  intros Hr Hwf Hn Hi. destruct (hub_run_keeps w l gone w' Hr Hwf) as (Hwf' & He & Hq & Hn' & Hi').
  split; [by auto|]. split; [done|]. split; [done|]. by eapply hub_run_history.
Qed.

(** C7: A revoked key is dead (NFR-13). Once the row of a key is revoked, then after any run of the hub, whatever
    it was and whatever failed, a request that bears the key changes nothing at all, at whatever route
    of an API that has a store except the login callback (which takes no key), with whatever body, and whatever
    fails. *)
Theorem revoked_key_is_dead l gone w w' id k tok r :
  hub_run w l gone w' -> db_wf (v_db (view w)) -> h_store (rc_Handlers rt) = true ->
  t_api_keys (v_db (view w)) !! id = Some k -> APIKey_IsActive k = false -> ak_KeyHash k = HashAPIKey tok ->
  extractBearer (GetHeader "Authorization" r) = Some tok ->
  rq_FullPath r <> "/v1/oauth/discord/callback"%string ->
  view (ServeHTTP rt r w').2 = view w'.
Proof.
  intros Hr Hwf Hst Hk Hact Hh Htok Hcb. apply unauthenticated_served; [done..|].
  rewrite Htok. intros ? [= <-]. destruct (hub_run_keeps w l gone w' Hr Hwf) as (Hwf' & He & _).
  destruct (ev_api_keys _ _ He id k Hk) as (k' & Hk' & _ & Hh' & _ & Hrev).
  unfold active_key_by_hash. destruct (head _) as [x|] eqn:Hx; [exfalso|done].
  apply head_Some_elem_of, rows_where_elem in Hx as (id' & Hid' & [Hxh Hxa]%andb_true_iff).
  apply bool_decide_eq_true in Hxh.
  assert (id' = id) as ->
    by (eapply (wf_api_keys_hash _ Hwf' id' id x k' (HashAPIKey tok)); [done|done|by f_equal|by rewrite Hh', Hh]).
  assert (x = k') as -> by congruence. unfold APIKey_IsActive in *. by rewrite (Hrev Hact) in Hxa; destruct (ak_RevokedAt k).
Qed.

(** ** Without the backoffice *)

(** A run in which nobody uses a key of the backoffice. *)
Definition strangers_run : W -> list (string * option json * DB) -> list AsynqTask -> W -> Prop :=
  run_of (fun db r => ~ backoffice_request db r).

Lemma strangers_keep l gone w w' : strangers_run w l gone w' -> db_wf (v_db (view w)) ->
  same_roster (v_db (view w)) (v_db (view w')) /\
  forall pattern raw db, (pattern, raw, db) ∈ l -> same_roster (v_db (view w)) db /\ evolves (v_db (view w)) db.
Proof.
  intros Hr Hwf. unfold strangers_run in Hr.
  induction Hr as [|l gone w1 r _ [IH1 IH2] Hmay|l gone w1 kind raw p Hr [IH1 IH2] _|l gone w1 _ [IH1 IH2]
    |l gone w1 name scope _ [IH1 IH2]|l gone w1 id _ [IH1 IH2]|l gone w1 t w2 _ [IH1 IH2] Hf|l gone w1 t _ [IH1 IH2] _
    |l gone w1 w2 _ [IH1 IH2] Hd _ _].
  - split; [reflexivity|]. by intros ? ? ? ?%not_elem_of_nil.
  - split; [|exact IH2]. etrans; [exact IH1|by apply roster_served].
  - split.
    + etrans; [exact IH1|]. by apply (moves_ProcessTask c kind raw Hc w1).
    + intros q r db [Hin|Hin]%elem_of_app; [by eapply IH2|]. apply list_elem_of_singleton in Hin as [= _ _ ->].
      split; [exact IH1|]. apply run_of_hub in Hr. by apply (hub_run_keeps _ _ _ _ Hr).
  - split; [|exact IH2]. etrans; [exact IH1|by apply roster_tick].
  - split; [|exact IH2]. etrans; [exact IH1|by apply moves_mintKey].
  - split; [|exact IH2]. etrans; [exact IH1|by apply moves_revokeKey].
  - split; [|exact IH2]. by destruct Hf as (-> & _).
  - split; [|exact IH2]. etrans; [exact IH1|]. apply (moves_enqueue (R := roster_stays)).
  - split; [|exact IH2]. by rewrite Hd.
Qed.

(** A row of a table that got no new ones was there before. *)
Lemma row_before {A} (R : A -> A -> Prop) (tab tab' : gmap string A) id a' :
  dom tab' =@{gset string} dom tab -> rows_kept R tab tab' -> tab' !! id = Some a' ->
  exists a, tab !! id = Some a /\ R a a'.
Proof.
  intros Hd Hk Ha. assert (id ∈ dom tab) as [a Hl]%elem_of_dom by (rewrite <-Hd; by eapply elem_of_dom_2).
  exists a. split; [done|]. destruct (Hk id a Hl) as (x & Hx & HR). congruence.
Qed.

(** C3: Nobody gets in without the backoffice (NFR-5, NFR-13). Let the hub run in any order, on any requests that
    do not bear an active key of the backoffice, callbacks of logins included, on any tasks, whatever
    fails. Then no merchant, user, space or membership was added; every user has the type and the
    admin flag of the start; and every member who has an entry on a channel had it at the
    start, or was given it by an invitation or a sweep by right of a membership that was there at the
    start, of the space of that channel, and that was not revoked at the start if it was a sweep. *)
Theorem strangers_get_nowhere l gone w w' : strangers_run w l gone w' -> db_wf (v_db (view w)) ->
  same_roster (v_db (view w)) (v_db (view w')) /\
  (forall id u', t_users (v_db (view w')) !! id = Some u' -> exists u, t_users (v_db (view w)) !! id = Some u /\
     u_Type u' = u_Type u /\ u_IsAdmin u' = u_IsAdmin u) /\
  (forall ch d, member_overwrite (v_guild (view w')) ch d -> member_overwrite (v_guild (view w)) ch d \/
     exists pattern raw db id sm u, (pattern, raw, db) ∈ l /\
       t_space_members (v_db (view w)) !! id = Some sm /\
       sp_DiscordChannelID <$> t_spaces db !! sm_SpaceID sm = Some (Some ch) /\
       t_users db !! sm_UserID sm = Some u /\ u_DiscordUserID u = Some d /\
       (pattern = KindInviteCollaborator \/ member_active sm = true)).
Proof.
  intros Hr Hwf. destruct (strangers_keep l gone w w' Hr Hwf) as [Hros Hl]. apply run_of_hub in Hr.
  destruct (hub_run_keeps _ _ _ _ Hr Hwf) as (_ & He & _). split; [done|]. split.
  - intros id u' Hu. destruct Hros as (_ & Hd & _). destruct (row_before _ _ _ _ _ Hd (ev_users _ _ He) Hu) as (u & Hu0 & Hk).
    exists u. by destruct Hk as (_ & ? & ? & _).
  - intros ch d Hov.
    destruct (worker_history_access c w w' l Hc (hub_run_history _ _ _ _ Hwf Hr) ch d Hov) as [?|(p & raw & db & Hin & Hent)];
      [by left|right].
    destruct (Hl _ _ _ Hin) as [Hros' He']. destruct Hros' as (_ & _ & _ & Hd). destruct Hent as (s & Hch & Hent).
    assert (exists id sm u, t_space_members db !! id = Some sm /\ sm_SpaceID sm = s /\ t_users db !! sm_UserID sm = Some u /\
              u_DiscordUserID u = Some d /\ (p = KindInviteCollaborator \/ member_active sm = true))
      as (id & sm & u & Hsm & <- & Hu & Hdu & Hact).
    { destruct Hent as [[-> (id & sm & u & ? & ? & ? & ?)]|[_ (id & sm & u & ? & ? & ? & ? & ?)]]; exists id, sm, u; auto 6. }
    destruct (row_before _ _ _ _ _ Hd (ev_members _ _ He') Hsm) as (sm0 & Hsm0 & Hk).
    destruct Hk as (_ & Hs & Hus & _ & _ & _ & Hrev & _).
    exists p, raw, db, id, sm0, u. rewrite <-Hs, <-Hus. split_and!; try done. destruct Hact as [?|Hact]; [by left|right].
    destruct (member_active sm0) eqn:H0; [done|]. by rewrite Hrev in Hact.
Qed.
End Runs.

(** ** Witnesses: a space from the request to the channel, and a revoked key *)

(** A guild with the category "42". *)
Definition hub_world : World :=
  world (mkView api_DB (mkGuild {["42"%string := ∅]} ∅ ∅ ∅ ∅ ∅ ∅) ∅ [] empty_Metrics) [].
Definition provision_request : Request :=
  request "POST" "/v1/merchants/:merchantId/channels" [("merchantId"%string, m3)] "backoffice-key" [] "provision".
Definition hub_requested : World := (serve provision_request hub_world).2.
Definition hub_polled : World := (tick sample_relay hub_requested).2.
Definition hub_task : payload_map := match v_queue (w_view hub_polled) with t :: _ => tk_Payload t | [] => None end.
Definition hub_served : World := sample_step hub_polled KindProvisionSpace (JObj <$> hub_task).
(** The queue server forgets the completed task. *)
Definition hub_done : World := forget_first hub_served.

Lemma hub_keeps_books_witness :
  (exists s ch, t_spaces (v_db (w_view hub_done)) !! "id-8"%string = Some s /\ sp_MerchantID s = m3 /\
     sp_ACLState s = ACLStateApplied /\ sp_DiscordChannelID s = Some ch /\
     hidden "everyone" (v_guild (w_view hub_done)) ch) /\
  (db_wf (v_db (w_view hub_done)) /\ nothing_lost (v_queue (w_view hub_polled)) (w_view hub_done) /\
     ids_once (v_queue (w_view hub_done))) /\
  evolves api_DB (v_db (w_view hub_done)).
Proof.
  split.
  { do 2 eexists. split; [vm_compute; reflexivity|]. do 3 (split; [reflexivity|]). eexists.
    split; [vm_compute; reflexivity|]. split; [reflexivity|vm_compute; reflexivity]. }
  assert (exists t, v_queue (w_view hub_polled) = [t] /\ forgets t (w_view hub_served) (w_view hub_done)) as (t & -> & Hf).
  { eexists. split; [vm_compute; reflexivity|]. apply forget_first_spec. vm_compute. reflexivity. }
  destruct (hub_keeps_books (E := env_world) (view := w_view) (C := sample_crypto) (J := sample_json) (mux := sample_mux)
    sample_router sample_config sample_relay sample_router_ok sample_config_ok
    [(KindProvisionSpace, JObj <$> hub_task, v_db (w_view hub_polled))] [t] hub_world hub_done) as (H1 & H2 & _).
  - eapply (run_forget _ _ _ _ _ [] hub_served t); [|exact Hf].
    apply (run_task _ _ _ _ [] [] hub_polled KindProvisionSpace (JObj <$> hub_task) KindProvisionSpace);
      [|vm_compute; reflexivity].
    apply run_poll, run_request, run_start.
  - exact api_DB_wf.
  - intros id ob Hl. change (t_outbox _) with (∅ : gmap string OutboxRow) in Hl. by rewrite lookup_empty in Hl.
  - by intros [|i] j a b Hi.
  - split; [exact H1|exact H2].
Defined.

(** The key is revoked, another is made, and the revoked one is tried. *)
Definition hub_revoked : World := (revokeKey (W := World) "k1" (api_world [])).2.
Definition hub_renewed : World := (mintKey (W := World) (C := sample_crypto) "new" "backoffice" hub_revoked).2.
Lemma revoked_key_is_dead_witness :
  rs_Status (serve provision_request hub_renewed).1 = 401 /\ size (t_api_keys (v_db (w_view hub_renewed))) = 3%nat /\
  w_view (serve provision_request hub_renewed).2 = w_view hub_renewed.
Proof.
  split; [vm_compute; reflexivity|]. split; [vm_compute; reflexivity|].
  assert (exists k, t_api_keys (v_db (w_view hub_revoked)) !! "k1"%string = Some k /\ APIKey_IsActive k = false /\
            ak_KeyHash k = "backoffice-key"%string) as (k & Hk & Ha & Hh)
    by (eexists; split; [vm_compute; reflexivity|by split]).
  apply (revoked_key_is_dead (E := env_world) (view := w_view) (C := sample_crypto) (J := sample_json) (mux := sample_mux)
    sample_router sample_config sample_relay sample_router_ok sample_config_ok [] [] hub_revoked hub_renewed
    "k1" k "backoffice-key" provision_request); [|..]; try done.
  - apply run_mint, run_start.
  - destruct (hub_run_keeps (E := env_world) (view := w_view) (C := sample_crypto) (J := sample_json) (mux := sample_mux)
      sample_router sample_config sample_relay sample_router_ok sample_config_ok (api_world []) [] [] hub_revoked) as [Hw _];
      [apply run_revoke, run_start|exact api_DB_wf|exact Hw].
Defined.

(** ** Witness: a stranger is turned away, and an invited collaborator gets in *)
Definition strangers_DB : DB :=
  set_space_members {["sm1"%string := mkSpaceMember "sm1" "s1" "u1" SpaceMemberRoleCollaborator false None 0 None]} api_DB.
Lemma strangers_DB_wf : db_wf strangers_DB.
Proof. check_wf. Qed.
Definition strangers_world : World :=
  world (mkView strangers_DB (mkGuild {["cs1"%string := ∅]} ∅ ∅ ∅ ∅ ∅ ∅) ∅ [] empty_Metrics) [].
Definition stranger_request : Request :=
  request "POST" "/v1/channels/:id/collaborators" [("id"%string, "s1"%string)] "reporting-key" [] "invite".
Definition stranger_refused : Response * World := serve stranger_request strangers_world.
Definition invited_task : option json := Some (JObj (encode_Invite (mkInviteCollaboratorPayload "s1" "u1" ""))).
Definition strangers_done : World := sample_step stranger_refused.2 KindInviteCollaborator invited_task.

Lemma strangers_get_nowhere_witness :
  rs_Status stranger_refused.1 = StatusForbidden /\ member_overwrite (v_guild (w_view strangers_done)) "cs1" "77" /\
  same_roster strangers_DB (v_db (w_view strangers_done)) /\
  (exists id sm, t_space_members strangers_DB !! id = Some sm /\ sm_SpaceID sm = "s1"%string).
Proof.
  split; [vm_compute; reflexivity|].
  assert (Hin : member_overwrite (v_guild (w_view strangers_done)) "cs1" "77")
    by (apply (bool_decide_unpack _); vm_compute; exact I).
  split; [exact Hin|].
  destruct (strangers_get_nowhere (E := env_world) (view := w_view) (C := sample_crypto) (J := sample_json) (mux := sample_mux)
    sample_router sample_config sample_relay sample_router_ok sample_config_ok
    [(KindInviteCollaborator, invited_task, v_db (w_view stranger_refused.2))] [] strangers_world strangers_done)
    as (Hros & _ & Hacc).
  - apply (of_task _ _ _ _ _ [] [] stranger_refused.2 KindInviteCollaborator invited_task KindInviteCollaborator);
      [|vm_compute; reflexivity].
    apply of_request; [apply of_start|].
    intros (tok & k & Htok & Hk & Hs). vm_compute in Htok. injection Htok as <-. vm_compute in Hk. injection Hk as <-. discriminate.
  - exact strangers_DB_wf.
  - split; [exact Hros|]. destruct (Hacc _ _ Hin) as [Hno|(p & raw & db & id & sm & u & Hl & Hsm & _)].
    + exfalso. destruct Hno as (ow & Ho & _). vm_compute in Ho. discriminate.
    + exists id, sm. split; [exact Hsm|]. change ((({["sm1"%string := mkSpaceMember "sm1" "s1" "u1" SpaceMemberRoleCollaborator false
        None 0 None]} : gmap string SpaceMember) !! id) = Some sm) in Hsm. by apply lookup_singleton_Some in Hsm as [_ <-].
Defined.
