(* ===== verification/EndToEnd.v ===== *)
(** * EndToEnd: what becomes of a request

    From the answer of the API over the outbox, the relay and the queue to the worker's handler and
    Discord: the components' theorems put together. *)
From S2P Require Import Prelude Errors Domain Schema Services InMemory Postgres StoreSpec Invariant Evolution.
From S2P Require Import Discord Lock RateLimit Cache Observability Queue Reconcile Provision GoStrings.
From S2P Require Import AgentRole Encoding Secrets OAuth Membership Lifecycle Welcome Relay Worker.
From S2P Require Import Gin Authz Idempotency Api ApiSpaces ApiMembers ApiAgents ApiTransversal Router ApiRuns ApiSpecs ApiMemberSpecs.
From S2P Require Import Config Programs Roster Steps Hub.

Section Provisioning.
Context {W : Type} {E : Env W} {view : W -> View} {L : EnvLaws E view} {C : Crypto} {J : JsonText} {X : Web W}.
Context {XL : WebLaws view X} {H : Http W} {HL : HttpLaws view H} {K : Cors W} {mux : ServeMux}.
Context (rt : RouterConfig W) (c : Worker.Config W) (rl : RelayConfig).
Context (Hrt : router_ok (view := view) rt) (Hc : config_ok (view := view) c).

Lemma moves_ProvisionSpace cx : Moves view moves (ProvisionSpace (rc_Handlers rt) cx).
Proof.
  destruct Hrt as [HC _]. destruct rt as [origins h et]. cbn [rc_Handlers] in *. destruct h. cbn in HC. moves.
Qed.

Lemma relay_is_run w polls : hub_run (view := view) rt c rl w [] [] (relay_run rl polls w).2.
Proof.
  enough (forall w1, hub_run (view := view) rt c rl w [] [] w1 -> hub_run (view := view) rt c rl w [] [] (relay_run rl polls w1).2) as Hr
    by apply Hr, run_start.
  induction polls as [|n IH]; intros w1 Hw; [done|]. cbn [relay_run]. unfold bind.
  pose proof (run_poll _ _ rl _ _ _ _ Hw) as Ht. destruct (tick rl w1) as [r w2]. by apply IH.
Qed.

(** The worker that serves a provisioning task. *)
Context (Hready : cf_Store c = true /\ cf_DiscordClient c = true /\ cf_AgentRoleID c <> ""%string /\
  cf_AgentRoleID c <> cf_DiscordGuildID c).

Lemma ProcessTask_provision raw :
  ProcessTask c KindProvisionSpace raw = newProvisionSpaceHandler (provision_cfg c) raw.
Proof. unfold ProcessTask. rewrite mux_exact by (cbn; set_solver). reflexivity. Qed.

(** The space of a merchant on a channel of its own, as it is born or as it was already. *)
Definition provisioned_on (m sid : string) (v v' : View) : Prop :=
  exists s ch, t_spaces (v_db v') !! sid = Some s /\ sp_MerchantID s = m /\ sp_ACLState s = ACLStateApplied /\
    sp_DiscordChannelID s = Some ch /\
    ((t_spaces (v_db v) !! sid = Some s /\ v_guild v' = v_guild v) \/
     (~ channel_exists ch (v_guild v) /\ hidden (cf_DiscordGuildID c) (v_guild v') ch /\
      forall d, ~ member_overwrite (v_guild v') ch d)).

Lemma provision_served pl p s w r w' :
  decode_ProvisionSpace (Some (JObj pl)) = Some p ->
  (pp_SpaceID p <> ""%string -> t_spaces (v_db (view w)) !! pp_SpaceID p = Some s) ->
  ProcessTask c KindProvisionSpace (Some (JObj pl)) w = (r, w') -> r = Ok tt ->
  pp_SpaceID p <> ""%string /\ provisioned_on (sp_MerchantID s) (pp_SpaceID p) (view w) (view w').
Proof.
  intros Hp Hs Hrun ->. destruct Hc as (Hdeps & _ & _ & Hev). destruct Hready as (H1 & H2 & H3 & H4).
  pose proof (newProvisionSpaceHandler_post (provision_cfg c) (Some (JObj pl)) w Hdeps Hev H1 H2 H3 H4) as Hpost.
  rewrite <-ProcessTask_provision in Hpost. unfold wp in Hpost. rewrite Hrun, Hp in Hpost. cbn [fst snd] in Hpost.
  case_decide as Hid; [by destruct Hpost|]. specialize (Hs Hid). split; [done|]. destruct Hpost as (_ & _ & Hf).
  destruct Hf as [Hsp Hok|? ? ? ? _ _ _ [=]|sp now ch Hsp Hs' Hnew Hov _ Hmem].
  - destruct (Hok eq_refl) as (Hg & sp & ch & Hl & Hch & Hacl). rewrite Hs in Hl. injection Hl as <-.
    exists s, ch. rewrite Hsp. by split_and!; [..|left].
  - rewrite Hs in Hsp. injection Hsp as <-. eexists _, ch. rewrite Hs', lookup_insert_eq.
    split_and!; [reflexivity..|]. right. split_and!; [done| |done].
    by apply (hidden_deny (view := view)).
Qed.

Context (up : W -> Prop).
Context (up_list : forall n w, up w -> is_Ok (ListPendingOutbox n w).1 = true /\ up (ListPendingOutbox n w).2).
Context (up_enqueue : forall ob w, up w -> is_Ok (enqueueRow ob w).1 = true /\ up (enqueueRow ob w).2).
Context (up_stamp : forall ids w, up w -> is_Ok (StampOutboxEnqueued ids w).1 = true /\
  up (StampOutboxEnqueued ids w).2).

(** C4: An accepted space gets its channel (FR-1, FR-14). When the API answers a provisioning request with 202, the
    services then answer while the relay makes as many polls as the backlog has batches, no work of a stamped
    row was lost before, and no other task uses the request's key, a provisioning task for the merchant is in the queue. Whatever the hub does
    from there on, and however often it serves that task: a run that reports success, in
    whatever state it starts, leaves the space of the request applied on a channel, either newly
    created, hidden from @everyone and open to no member, or the one the space already had. (The
    exception is a task that was recorded without the id of its space, which never succeeds.) *)
Theorem accepted_space_is_opened (cx : Ctx) (polls : nat) (w : W) :
  let m := Param "merchantId" (cx_Request cx) in
  let w1 := (ProvisionSpace (rc_Handlers rt) cx w).2 in
  let w2 := (relay_run rl polls w1).2 in
  db_wf (v_db (view w)) -> nothing_lost [] (view w) ->
  (forall t, t ∈ v_queue (view w) -> tk_TaskID t <> Some (idem_or cx ("provision:" +:+ m))) ->
  rs_Status (ProvisionSpace (rc_Handlers rt) cx w).1 = StatusAccepted ->
  up w1 -> (backlog (view w1) <= polls * Z.to_nat (rc_BatchSize rl))%nat ->
  exists t p, t ∈ v_queue (view w2) /\ tk_Type t = KindProvisionSpace /\
    decode_ProvisionSpace (JObj <$> tk_Payload t) = Some p /\ pp_MerchantID p = m /\
    (pp_SpaceID p = ""%string \/ t_spaces (v_db (view w)) !! pp_SpaceID p = None) /\
    forall l gone w3 r w4, hub_run (view := view) rt c rl w2 l gone w3 ->
      ProcessTask c (tk_Type t) (JObj <$> tk_Payload t) w3 = (r, w4) -> r = Ok tt ->
      provisioned_on m (pp_SpaceID p) (view w3) (view w4).
Proof.
  intros m w1 w2 Hwf Hno Hkey Hst Hup Hlen. destruct Hrt as [HC HN].
  pose proof (ProvisionSpace_wp (rc_Handlers rt) (CL := HC) cx w) as Hpost. unfold wp in Hpost.
  fold w1 in Hpost. destruct Hpost as [(_ & Hn & _)|(req & name & _ & _ & _ & _ & _ & Hrec & _)]; [done|].
  fold m in Hrec. destruct Hrec as (now & sid & oid & pl & p & Hfresh & Hsp & _ & Hob & Hdec & Hm & _ & Hid & _ & _ & _ & Hq).
  destruct (moves_ProvisionSpace cx w Hwf) as (Hwf1 & _ & _ & Hno1 & _). fold w1 in Hwf1, Hno1.
  set (ob := mkOutboxRow _ _ _ _ _ _ _ _) in Hob.
  destruct (relay_run_brings up up_list up_enqueue up_stamp rl polls w1 oid ob) as (t & Ht & Hty & Hpl & _);
    [done|done|by apply Hno1|done| |].
  { split; [exists ob; by rewrite Hob, lookup_insert_eq|]. intros t Ht Htk. rewrite Hq in Ht. by destruct (Hkey t Ht). }
  fold w2 in Ht. cbn in Hty, Hpl. exists t, p. rewrite <-Hty, <-Hpl. split_and!; [done..| |].
  - destruct Hid as [->|]; [right|by left].
    destruct (t_spaces (v_db (view w)) !! sid) as [s|] eqn:Hs; [by destruct (Hfresh sid s Hs)|done].
  - intros l gone w3 r w4 Hrun Hserved Hr.
    destruct (hub_run_keeps rt c rl Hrt Hc _ _ _ _ (relay_is_run w1 polls) Hwf1) as (Hwf2 & He2 & _).
    destruct (hub_run_keeps rt c rl Hrt Hc _ _ _ _ Hrun Hwf2) as (_ & He3 & _).
    pose proof (transitivity He2 He3) as He. clear He2 He3.
    destruct (ev_spaces _ _ He sid _ ltac:(by rewrite Hsp, lookup_insert_eq)) as (s & Hs & _ & Hms & _).
    cbn in Hms. rewrite <-Hms. eapply (provision_served pl p s); [done| |exact Hserved|done].
    intros Hne. by destruct Hid as [->|].
Qed.
End Provisioning.

(** ** Witness: a merchant's first space, from the request on *)
Lemma accepted_space_is_opened_witness :
  let w1 := (ProvisionSpace sample_handlers provision_ctx hub_world).2 in
  let w2 := (relay_run sample_relay 1 w1).2 in
  exists t p, t ∈ v_queue (w_view w2) /\
    decode_ProvisionSpace (JObj <$> tk_Payload t) = Some p /\
    provisioned_on sample_config m3 (pp_SpaceID p) (w_view w2)
      (w_view (sample_step w2 KindProvisionSpace (JObj <$> tk_Payload t))).
Proof.
  cbv zeta.
  destruct (accepted_space_is_opened (E := env_world) (view := w_view) (C := sample_crypto) (J := sample_json)
    (mux := sample_mux) sample_router sample_config sample_relay sample_router_ok sample_config_ok
    ltac:(by split_and!) no_faults no_faults_list no_faults_enqueue no_faults_stamp provision_ctx 1 hub_world)
    as (t & p & Ht & Hty & Hp & _ & _ & Hrun).
  - exact api_DB_wf.
  - intros id ob Hl. change (t_outbox _) with (∅ : gmap string OutboxRow) in Hl. by rewrite lookup_empty in Hl.
  - by intros t Ht%not_elem_of_nil.
  - vm_compute. reflexivity.
  - reflexivity.
  - vm_compute. lia.
  - exists t, p. split; [exact Ht|]. split; [exact Hp|].
    rewrite <-Hty. unfold sample_step.
    apply (Hrun [] [] _ (Ok tt) _ (run_start _ _ _ _)); [|reflexivity].
    vm_compute in Ht. apply list_elem_of_singleton in Ht as ->. vm_compute. reflexivity.
Defined.

(** ** Expulsions *)

(** Under the schema a revoked membership is the only one of its user in the space, whatever happens later. *)
Lemma revoked_stays s u db db' : db_wf db -> evolves db db' -> db_wf db' -> member_revoked s u db -> member_revoked s u db'.
Proof.
  intros Hwf He Hwf' (sm & Hl & Hs & Hu & Ha). destruct (ev_members _ _ He _ _ Hl) as (sm' & Hl' & Hid & Hs' & Hu' & _ & _ & _ & Ha' & _).
  exists sm'. rewrite Hid, Hs', Hu'. auto.
Qed.
Lemma revoked_only s u db id sm : db_wf db -> member_revoked s u db ->
  t_space_members db !! id = Some sm -> sm_SpaceID sm = s -> sm_UserID sm = u -> member_active sm = false.
Proof.
  intros Hwf (sm' & Hl' & Hs' & Hu' & Ha') Hl Hs Hu.
  assert (sm_ID sm' = id) as Hid by (eapply (wf_members_unique _ Hwf); [exact Hl'|exact Hl|done|cbn; congruence]).
  congruence.
Qed.

Section Expelling.
Context {W : Type} {E : Env W} {view : W -> View} {L : EnvLaws E view} {C : Crypto} {J : JsonText} {X : Web W}.
Context {XL : WebLaws view X} {H : Http W} {HL : HttpLaws view H} {K : Cors W} {mux : ServeMux}.
Context (rt : RouterConfig W) (c : Worker.Config W) (rl : RelayConfig).
Context (Hrt : router_ok (view := view) rt) (Hc : config_ok (view := view) c).
Context (Hready : cf_Store c = true /\ cf_DiscordClient c = true).

Lemma moves_ExpelCollaborator cx : Moves view moves (ExpelCollaborator (rc_Handlers rt) cx).
Proof.
  destruct Hrt as [HC _]. destruct rt as [origins h et]. cbn [rc_Handlers] in *. destruct h. cbn in HC. moves.
Qed.

(** The expulsion a task asks for, run to success: nobody gains access, and unless there was no
    membership it is revoked. *)
Lemma expel_served p w r w' : db_wf (v_db (view w)) ->
  ProcessTask c KindExpelCollaborator (Some (JObj (encode_Expel p))) w = (r, w') -> r = Ok tt ->
  db_wf (v_db (view w')) /\
  (forall ch d, member_overwrite (v_guild (view w')) ch d -> member_overwrite (v_guild (view w)) ch d) /\
  (member_by_space_user (ep_SpaceID p) (ep_UserID p) (v_db (view w)) = None \/
   member_revoked (ep_SpaceID p) (ep_UserID p) (v_db (view w'))).
Proof.
  intros Hwf Hrun ->. destruct Hc as ((_ & Hl & _) & _). destruct Hready as [H1 H2].
  assert (Hpt : ProcessTask c KindExpelCollaborator (Some (JObj (encode_Expel p))) =
                newExpelCollaboratorHandler (expel_cfg c) (Some (JObj (encode_Expel p)))).
  { unfold ProcessTask. rewrite mux_exact by (cbn; set_solver). reflexivity. }
  pose proof (expel_run (expel_cfg c) p w Hl H1 H2) as Hw. rewrite <-Hpt in Hw. unfold wp in Hw. rewrite Hrun in Hw.
  destruct Hw as (v2 & ks & Hv & Hp). cbn [fst snd] in Hv, Hp. rewrite Hv.
  destruct Hp as (Hg & _ & _ & _ & Hwf2 & Hok). split; [by apply Hwf2|]. split; [|by apply Hok].
  change (v_guild (with_kv ks v2)) with (v_guild v2).
  destruct Hg as [->|(sp & u & d & _ & _ & _ & Hg)]; [done|]. intros ch d'. by eapply expel_change_grants_none.
Qed.

(** C19: An expulsion that the queue took is final. When the API answers an expulsion with 202 and its task is in
    the queue, then whatever the hub does in between, a run of the task that reports success gives
    nobody access; and, unless the task found no membership row of the user in the space when it ran (an invitation
    after that makes a new one), whatever the hub does ever after,
    invitations and sweeps included, no membership of the user in the space is active, and a sweep of the space that
    repairs what it finds leaves no overwrite of the user's Discord identity on its channel. *)
Theorem accepted_expulsion_is_final (cx : Ctx) (w : W) :
  let s := Param "id" (cx_Request cx) in
  let u := Param "userId" (cx_Request cx) in
  let scope := DefaultQuery "scope" ExpulsionScopeChannel (cx_Request cx) in
  let t := expel_task_of (idem_or cx ("expel:" +:+ s +:+ ":" +:+ u +:+ ":" +:+ scope)) s u scope in
  let answered := ExpelCollaborator (rc_Handlers rt) cx w in
  db_wf (v_db (view w)) -> rs_Status answered.1 = StatusAccepted -> t ∈ v_queue (view answered.2) ->
  is_Some (t_spaces (v_db (view w)) !! s) /\ is_Some (t_users (v_db (view w)) !! u) /\
  forall l gone w2 r w3, hub_run (view := view) rt c rl answered.2 l gone w2 ->
    ProcessTask c (tk_Type t) (JObj <$> tk_Payload t) w2 = (r, w3) -> r = Ok tt ->
    (forall ch d, member_overwrite (v_guild (view w3)) ch d -> member_overwrite (v_guild (view w2)) ch d) /\
    (member_by_space_user s u (v_db (view w2)) = None \/
     forall l' gone' w4, hub_run (view := view) rt c rl w3 l' gone' w4 ->
       (forall id sm, t_space_members (v_db (view w4)) !! id = Some sm -> sm_SpaceID sm = s -> sm_UserID sm = u ->
          member_active sm = false) /\
       forall n us d, (reconcile_body s w4).1 = Ok (Some (n, n)) ->
         t_users (v_db (view w4)) !! u = Some us -> u_DiscordUserID us = Some d ->
         forall sp ch, t_spaces (v_db (view w4)) !! s = Some sp -> sp_DiscordChannelID sp = Some ch ->
           ~ member_overwrite (v_guild (view (reconcile_body s w4).2)) ch d).
Proof.
  intros s u scope t answered Hwf Hst Ht.
  pose proof (moves_ExpelCollaborator cx w Hwf) as (Hwf1 & _). fold answered in Hwf1.
  destruct (expel_asks (rc_Handlers rt) cx w) as [[_ Hn]|(_ & _ & Hs & Hu & _)]; [by destruct Hn|].
  split; [exact Hs|]. split; [exact Hu|]. intros l gone w2 r w3 Hrun Hserved Hr.
  destruct (hub_run_keeps rt c rl Hrt Hc _ _ _ _ Hrun Hwf1) as (Hwf2 & _).
  destruct (expel_served (mkExpelCollaboratorPayload s u scope) w2 r w3 Hwf2 Hserved Hr) as (Hwf3 & Hg & Hm).
  split; [exact Hg|]. destruct Hm as [Hm|Hm]; [by left|right]. cbn in Hm. intros l' gone' w4 Hrun'.
  destruct (hub_run_keeps rt c rl Hrt Hc _ _ _ _ Hrun' Hwf3) as (Hwf4 & He & _).
  pose proof (revoked_stays s u _ _ Hwf3 He Hwf4 Hm) as Hm4. split.
  - intros id sm. by apply revoked_only.
  - intros n us d Hsw Hus Hd sp ch Hsp Hch. pose proof (reconcile_body_spec s w4) as Hb. rewrite Hsw in Hb.
    destruct Hb as (sp' & ch' & Hsp' & Hch' & _ & _ & _ & Hconv & _).
    assert (ch' = ch) as -> by congruence. intros Ho. apply (Hconv eq_refl) in Ho.
    revert Ho. by eapply revoked_not_backed.
Qed.
End Expelling.

(** ** Invitations *)

(** Under the schema the row of a membership is the one the store finds for its space and user. *)
Lemma member_row_found s u db id sm : db_wf db -> t_space_members db !! id = Some sm ->
  sm_SpaceID sm = s -> sm_UserID sm = u -> member_by_space_user s u db = Some sm /\ sm_ID sm = id.
Proof.
  intros Hwf Hl Hs Hu. assert (Hid : sm_ID sm = id) by by apply (wf_members _ Hwf). split; [|done].
  unfold member_by_space_user. destruct (head _) as [x|] eqn:Hh.
  - destruct (member_by_space_user_Some s u db x Hwf Hh) as (Hx & Hxs & Hxu).
    assert (sm_ID x = id) by (eapply (wf_members_unique _ Hwf); [exact Hx|exact Hl|done|cbn; congruence]). congruence.
  - apply head_None in Hh.
    assert (Hin : sm ∈ rows_where (t_space_members db) (fun x => bool_decide (sm_SpaceID x = s) && bool_decide (sm_UserID x = u))).
    { apply rows_where_elem. exists id. split; [done|]. by rewrite !bool_decide_eq_true_2. }
    rewrite Hh in Hin. by apply not_elem_of_nil in Hin.
Qed.

(** The membership an accepted invitation leaves in place. *)
Lemma accepted_member s u v v' : db_wf (v_db v') ->
  t_space_members (v_db v') = t_space_members (v_db v) \/ members_grow s u v v' ->
  members_grow s u v v' \/ enrolled s u (v_db v) ->
  exists sm, t_space_members (v_db v') !! sm_ID sm = Some sm /\ sm_SpaceID sm = s /\ sm_UserID sm = u /\
    (member_active sm = true \/ t_space_members (v_db v) !! sm_ID sm = Some sm).
Proof.
  intros Hwf Hmem Hhas.
  assert (Hgrow : members_grow s u v v' -> exists sm, t_space_members (v_db v') !! sm_ID sm = Some sm /\
            sm_SpaceID sm = s /\ sm_UserID sm = u /\ (member_active sm = true \/ t_space_members (v_db v) !! sm_ID sm = Some sm)).
  { intros (sm & (_ & Hs & Hu & Ha & _) & ->). exists sm. rewrite lookup_insert_eq. auto. }
  destruct Hmem as [Hmem|]; [|by apply Hgrow]. destruct Hhas as [|(id & sm & Hl & Hs & Hu)]; [by apply Hgrow|].
  rewrite <-Hmem in Hl |- *. assert (sm_ID sm = id) as Hid by by apply (wf_members _ Hwf).
  exists sm. rewrite Hid. auto.
Qed.

Section Inviting.
Context {W : Type} {E : Env W} {view : W -> View} {L : EnvLaws E view} {C : Crypto} {J : JsonText} {X : Web W}.
Context {XL : WebLaws view X} {H : Http W} {HL : HttpLaws view H} {K : Cors W} {mux : ServeMux}.
Context (rt : RouterConfig W) (c : Worker.Config W) (rl : RelayConfig).
Context (Hrt : router_ok (view := view) rt) (Hc : config_ok (view := view) c).
Context (Hready : cf_Store c = true /\ cf_DiscordClient c = true).

Lemma moves_InviteCollaborator cx : Moves view moves (InviteCollaborator (rc_Handlers rt) cx).
Proof.
  destruct Hrt as [HC HN]. destruct rt as [origins h et]. cbn [rc_Handlers] in *. destruct h as [st q ca ci cs cr sm ts].
  cbn in HC, HN. destruct sm as [sm|]; moves.
Qed.

(** An invitation run to success. *)
Lemma invite_served p w r w' :
  ProcessTask c KindInviteCollaborator (Some (JObj (encode_Invite p))) w = (r, w') -> r = Ok tt ->
  invite_post p (view w) r (view w').
Proof.
  intros Hrun Hr. destruct Hc as ((_ & Hl & _) & _). destruct Hready as [H1 H2].
  assert (Hpt : ProcessTask c KindInviteCollaborator (Some (JObj (encode_Invite p))) =
                newInviteCollaboratorHandler (invite_cfg c) (Some (JObj (encode_Invite p)))).
  { unfold ProcessTask. rewrite mux_exact by (cbn; set_solver). reflexivity. }
  rewrite Hpt in Hrun.
  enough (wp view (newInviteCollaboratorHandler (invite_cfg c) (Some (JObj (encode_Invite p))))
            (fun r v' => r = Ok tt -> invite_post p (view w) r v') w) as Hw.
  { unfold wp in Hw. rewrite Hrun in Hw. by apply Hw. }
  unfold newInviteCollaboratorHandler. cbn [invite_cfg ic_store ic_discord ic_locker]. rewrite H1, H2. cbn [negb orb].
  unfold invite_handle.
  assert (decode_Invite (Some (JObj (encode_Invite p))) = Some p) as -> by (by destruct p). destruct (_ || _); [by apply wp_ret|].
  assert (HK : LockerLaws view (default NoopLocker (cf_Locker c))).
  { cbn in Hl. destruct (cf_Locker c); [exact Hl|apply _]. }
  apply with_space_lock_wp; [exact HK|by intros r0 v ks Hp Hr0; apply Hp|done|].
  intros w1 ks Hv. eapply wp_mono; [apply invite_locked_wp|]. intros r0 v' Hp _. by rewrite Hv in Hp.
Qed.

(** C5: An accepted invitation opens the channel. When the API answers an invitation with 202, a
    membership of the user asked for is there, active when it is new, and the only task that may be new in the
    queue invites that user to that space. Whatever the hub does from there on, a run of such a task that reports success leaves
    the collaborator's overwrite, of exactly the rights of a collaborator, for the user's Discord identity
    on the channel of the space, which is applied; unless the membership was recorded as projected already. *)
Theorem accepted_invitation_opens (cx : Ctx) (w : W) :
  let s := Param "id" (cx_Request cx) in
  let by_ := match cx_Principal cx with Some p => pr_UserID p | None => ""%string end in
  let answered := InviteCollaborator (rc_Handlers rt) cx w in
  db_wf (v_db (view w)) -> rs_Status answered.1 = StatusAccepted ->
  exists req u sm,
    ShouldBindJSON decode_inviteRequest (fun _ => true) (cx_Request cx) = inl req /\ asked_for req u /\
    t_users (v_db (view answered.2)) !! u_ID u = Some u /\
    t_space_members (v_db (view answered.2)) !! sm_ID sm = Some sm /\
    sm_SpaceID sm = s /\ sm_UserID sm = u_ID u /\
    (member_active sm = true \/ t_space_members (v_db (view w)) !! sm_ID sm = Some sm) /\
    (forall t, t ∈ v_queue (view answered.2) -> t ∈ v_queue (view w) \/
       t = invite_task (idem_or cx ("invite:" +:+ s +:+ ":" +:+ u_ID u)) s (u_ID u) by_) /\
    forall l gone w2 r w3, hub_run (view := view) rt c rl answered.2 l gone w2 ->
      ProcessTask c KindInviteCollaborator (Some (JObj (encode_Invite (mkInviteCollaboratorPayload s (u_ID u) by_)))) w2 = (r, w3) ->
      r = Ok tt ->
      (exists sm2, t_space_members (v_db (view w2)) !! sm_ID sm = Some sm2 /\ sm_OverwriteApplied sm2 = true) \/
      exists sp ch us d, t_spaces (v_db (view w2)) !! s = Some sp /\ sp_DiscordChannelID sp = Some ch /\
        sp_ACLState sp = ACLStateApplied /\ t_users (v_db (view w2)) !! u_ID u = Some us /\ u_DiscordUserID us = Some d /\
        overwrites_of ch (v_guild (view w3)) !! d = Some (collaborator_allow d).
Proof.
  intros s by_ answered Hwf Hst. destruct Hrt as [HC HN].
  assert (HN' : match h_stateManager (rc_Handlers rt) with
                | Some sm => inhabited (NonceLaws view (stm_nonces sm)) | None => True end).
  { destruct (h_stateManager (rc_Handlers rt)); [by constructor|done]. }
  pose proof (moves_InviteCollaborator cx w Hwf) as (Hwf1 & _). fold answered in Hwf1.
  pose proof (invite_request_run (rc_Handlers rt) cx w HN' Hwf) as Ho. fold answered s by_ in Ho.
  destruct Ho as [[_ Hn]|(req & v1 & _ & Hb & _ & _ & Hg & [[_ Hn]|(u & Hin & Hask & Hw)])]; [by destruct Hn..|].
  assert (Hv1 : t_space_members (v_db v1) = t_space_members (v_db (view w)) /\ v_queue v1 = v_queue (view w)).
  { by destruct Hg as [->|(x & _ & ->)]. }
  destruct Hv1 as [Hm1 Hq1]. destruct Hw as (_ & Hus & Hmem & Hst').
  destruct Hst' as [[Hbad _]|(_ & Hhas & Hq')]; [by rewrite Hst in Hbad|].
  destruct (accepted_member s (u_ID u) v1 (view answered.2) Hwf1 Hmem Hhas) as (sm & Hsm & Hs & Hu & Ha).
  rewrite Hm1 in Ha.
  exists req, u, sm. split; [exact Hb|]. split; [exact Hask|]. split; [by rewrite Hus|]. do 4 (split; [done|]). split.
  - destruct Hq' as [Hq|Hq]; rewrite Hq, Hq1; [by left|].
    intros t [Ht|Ht%list_elem_of_singleton]%elem_of_app; auto.
  - intros l gone w2 r w3 Hrun Hserved Hr.
    destruct (hub_run_keeps rt c rl Hrt Hc _ _ _ _ Hrun Hwf1) as (Hwf2 & He & _).
    destruct (ev_members _ _ He _ _ Hsm) as (sm2 & Hsm2 & Hid2 & Hs2 & Hu2 & _).
    destruct (member_row_found s (u_ID u) _ _ _ Hwf2 Hsm2) as [Hf _]; [by rewrite Hs2|by rewrite Hu2|].
    destruct (invite_served _ _ _ _ Hserved Hr) as (_ & _ & [[_ Hok]|Hok]); cbn [ip_SpaceID ip_UserID] in Hok.
    + left. destruct (Hok Hr) as [Hn|(x & Hx & Hap)]; [congruence|]. exists sm2. split; [done|]. congruence.
    + right. destruct Hok as (sp & ch & us & d & x & Hsp & Hch & Hacl & Hus2 & Hd & _ & _ & _ & _ & Hok).
      exists sp, ch, us, d. by split_and!; [..|apply Hok].
Qed.
End Inviting.

(** ** An expulsion that never happens *)
Definition expel_ctx : Ctx :=
  mkCtx (request "DELETE" "/v1/channels/:id/collaborators/:userId" [("id"%string, "s1"%string); ("userId"%string, "u1"%string)]
           "backoffice-key" [] "")
    (Some (mkPrincipal PrincipalTypeService "k1" "" false "backoffice")) "".
(** The member is in the channel, and the queue is down for the one call that matters. *)
Definition expel_answered : Response * World :=
  ExpelCollaborator sample_handlers expel_ctx
    (world (w_view sample_served) [Fine; Fine; Fine; Before (External "connection refused")]).

(** An accepted expulsion may be lost for good (FR-19). The handler drops the error of the queue and writes no
    outbox row: when the queue does not answer this one call, the API says 202, and however often the
    relay polls, no task is there; the membership is active, the member's access is on the
    channel, and a sweep of the guild keeps it there. *)
Theorem accepted_expulsion_may_be_lost :
  rs_Status expel_answered.1 = StatusAccepted /\
  forall polls,
    let w2 := (relay_run sample_relay polls expel_answered.2).2 in
    v_queue (w_view w2) = [] /\
    (exists sm, t_space_members (v_db (w_view w2)) !! "sm1"%string = Some sm /\ sm_UserID sm = "u1"%string /\
       member_active sm = true) /\
    member_overwrite (v_guild (w_view w2)) "c1" "d1" /\
    member_overwrite (v_guild (w_view (sample_step (world (w_view w2) []) KindReconcileGuild None))) "c1" "d1".
Proof.
  split; [vm_compute; reflexivity|]. intros polls. cbv zeta.
  rewrite (idle_polls (E := env_world) (view := w_view)) by (vm_compute; reflexivity).
  split; [vm_compute; reflexivity|]. split; [|split].
  - eexists. split; [vm_compute; reflexivity|]. by split.
  - apply (bool_decide_unpack _). vm_compute. exact I.
  - apply (bool_decide_unpack _). vm_compute. exact I.
Qed.

(** ** Witness: an expulsion from the request to the sweep *)
Definition expel_accepted : Response * World := ExpelCollaborator sample_handlers expel_ctx (sample_member []).
Definition expel_done : World := sample_step expel_accepted.2 KindExpelCollaborator (JObj <$> Some (encode_Expel
  (mkExpelCollaboratorPayload "s1" "u1" "channel"))).
Lemma accepted_expulsion_is_final_witness :
  (forall id sm, t_space_members (v_db (w_view expel_done)) !! id = Some sm -> sm_SpaceID sm = "s1"%string ->
     sm_UserID sm = "u1"%string -> member_active sm = false) /\
  ~ member_overwrite (v_guild (w_view (reconcile_body "s1" expel_done).2)) "c1" "d1".
Proof.
  destruct (accepted_expulsion_is_final (E := env_world) (view := w_view) (C := sample_crypto) (J := sample_json)
    (mux := sample_mux) sample_router sample_config sample_relay sample_router_ok sample_config_ok
    ltac:(by split) expel_ctx (sample_member [])) as (_ & _ & Hrun).
  - apply sample_member_wf.
  - vm_compute. reflexivity.
  - assert (Hq : v_queue (w_view expel_accepted.2) =
              [expel_task_of "expel:s1:u1:channel" "s1" "u1" "channel"]) by (vm_compute; reflexivity).
    unfold expel_accepted in Hq. cbn [rc_Handlers sample_router]. rewrite Hq. by apply list_elem_of_singleton.
  - destruct (Hrun [] [] _ (Ok tt) expel_done (run_start _ _ _ _)) as [_ [Hn|Hend]]; [vm_compute; reflexivity|done| |].
    + vm_compute in Hn. discriminate.
    + destruct (Hend [] [] _ (run_start _ _ _ _)) as [Hrev Hsw]. split; [exact Hrev|].
      eapply (Hsw 1 (user_of "u1" UserTypeCollaborator (Some "d1"%string)) "d1"%string); vm_compute; reflexivity.
Defined.

(** ** An agent that comes back *)
Definition remove_ctx : Ctx :=
  mkCtx (request "DELETE" "/v1/agents/:userId" [("userId"%string, "a1"%string)] "backoffice-key" [] "")
    (Some (mkPrincipal PrincipalTypeService "k1" "" false "backoffice")) "".
Definition role_task (add : bool) (w : World) : result error unit * World :=
  ProcessTask (C := sample_crypto) (mux := sample_mux) sample_config KindProjectAgentRole (sample_agent_task add) w.

(** A removed agent may get the Agent role back, and with it every channel. Discord does not answer the task
    that assigns the role, so the task will be retried; the API removes the agent (202, inactive), the
    task that takes the role away succeeds; and then the retry succeeds, because the handler looks at
    the type of the user and not at whether the user is active. A sweep of the guild does not look at
    roles and leaves it there. *)
Theorem removed_agent_regains_role :
  let first := role_task true (agent_world [Fine; Before (External "503")]) in
  let removed := RemoveAgent sample_handlers remove_ctx first.2 in
  let taken := role_task false removed.2 in
  let again := role_task true taken.2 in
  let swept := ProcessTask (C := sample_crypto) (mux := sample_mux) sample_config KindReconcileGuild None again.2 in
  (exists e, first.1 = Err e /\ errors_Is e SkipRetry = false) /\
  rs_Status removed.1 = StatusAccepted /\
  taken.1 = Ok tt /\ default ∅ (g_roles (v_guild (w_view taken.2)) !! "da"%string) = (∅ : gset string) /\
  again.1 = Ok tt /\ swept.1 = Ok tt /\
  (exists u, t_users (v_db (w_view swept.2)) !! "a1"%string = Some u /\ u_IsActive u = false) /\
  "agents"%string ∈ default ∅ (g_roles (v_guild (w_view swept.2)) !! "da"%string).
Proof.
  cbv zeta. split_and!; try (vm_compute; reflexivity).
  - eexists. split; [vm_compute; reflexivity|]. vm_compute. reflexivity.
  - eexists. split; [vm_compute; reflexivity|]. reflexivity.
Qed.

(** ** Witness: an invitation from the request to the overwrite *)
Definition invite_world : World :=
  world (mkView api_DB (mkGuild {["cs1"%string := ∅]} ∅ ∅ ∅ ∅ ∅ ∅) ∅ [] empty_Metrics) [].
Definition invite_accepted : Response * World := InviteCollaborator (C := sample_crypto) (J := sample_json) sample_handlers invite_ctx invite_world.
Definition invite_done : World := sample_step invite_accepted.2 KindInviteCollaborator (JObj <$> Some (encode_Invite
  (mkInviteCollaboratorPayload "s1" "u1" ""))).
Lemma accepted_invitation_opens_witness :
  (exists t, v_queue (w_view invite_accepted.2) = [t] /\ tk_Payload t = Some (encode_Invite (mkInviteCollaboratorPayload "s1" "u1" ""))) /\
  overwrites_of "cs1" (v_guild (w_view invite_done)) !! "77"%string = Some (collaborator_allow "77").
Proof.
  split; [eexists; split; vm_compute; reflexivity|].
  destruct (accepted_invitation_opens (E := env_world) (view := w_view) (C := sample_crypto) (J := sample_json)
    (mux := sample_mux) sample_router sample_config sample_relay sample_router_ok sample_config_ok
    ltac:(by split) invite_ctx invite_world api_DB_wf) as (req & u & sm & Hb & Hask & Hu & Hsm & _ & Hus & _ & _ & Hrun).
  - vm_compute. reflexivity.
  - assert (Hmem : t_space_members (v_db (w_view invite_accepted.2)) =
              {["id-4"%string := mkSpaceMember "id-4" "s1" "u1" SpaceMemberRoleCollaborator false None 1002000000 None]})
      by (vm_compute; reflexivity).
    unfold invite_accepted in Hmem. cbn [rc_Handlers sample_router] in Hrun, Hsm, Hu.
    rewrite Hmem in Hsm. apply lookup_singleton_Some in Hsm as [_ <-]. cbn in Hus. rewrite <-Hus in Hrun.
    destruct (Hrun [] [] _ (Ok tt) invite_done (run_start _ _ _ _)) as [(x & Hx & Ha)|(sp & ch & us & d & Hsp & Hch & _ & Hu1 & Hd & Ho)];
      [vm_compute; reflexivity|done|..].
    + rewrite Hmem in Hx. by apply lookup_singleton_Some in Hx as [_ <-].
    + vm_compute in Hsp. injection Hsp as <-. vm_compute in Hch. injection Hch as <-.
      vm_compute in Hu1. injection Hu1 as <-. vm_compute in Hd. injection Hd as <-. exact Ho.
Defined.
