(* ===== verification/Concurrency.v ===== *)
(** * Concurrency: workers that meet on one space

    The other files run a handler as a sequence of calls. Here other workers run between these calls:
    first what a task is answered while another worker holds the lock it needs, then a run under
    the lock with contenders arriving before any of its calls, then what happens without locks, and
    what a poll of the relay does in the middle of a request. *)
From S2P Require Import Prelude Errors Domain Schema Services InMemory Postgres StoreSpec.
From S2P Require Import Discord Lock RateLimit Observability Queue Cache Reconcile Provision Secrets.
From S2P Require Import Invariant OAuth Membership Relay Worker Gin Authz Idempotency Api ApiSpaces ApiRuns ApiSpecs.
From S2P Require Import Config Programs Hub.

(** ** Other processes between the calls *)

(** A world that many processes act on: the state, and for each call to come the arrivals before it. *)
Definition Shared (W D : Type) : Type := (W * list (list D))%type.

Section Interleaving.
Context {W D : Type} {E : Env W} (act : D -> W -> W).

(** The arrivals before the next call act, then it is made. *)
Definition among {A} (f : M W A) : M (Shared W D) A := fun s =>
  let r := f (foldl (fun w d => act d w) s.1 (default [] (head s.2))) in
  (r.1, (r.2, tail s.2)).

(** The services as one process among others sees them. *)
Definition interleaved : Env (Shared W D) := {|
  pg_exec A q := among (pg_exec q);
  pg_timestamptz := pg_timestamptz;
  citext_eq := citext_eq;
  redis_exec A c := among (redis_exec c);
  PermissionViewChannel := PermissionViewChannel;
  PermissionSendMessages := PermissionSendMessages;
  dg_ChannelPermissionSet ch t ty allow deny := among (dg_ChannelPermissionSet ch t ty allow deny);
  dg_ChannelPermissionDelete ch t := among (dg_ChannelPermissionDelete ch t);
  dg_GuildChannelCreateComplex g name parent ows := among (dg_GuildChannelCreateComplex g name parent ows);
  dg_Channel ch := among (dg_Channel ch);
  dg_GuildMemberRoleAdd g u r := among (dg_GuildMemberRoleAdd g u r);
  dg_GuildMemberRoleRemove g u r := among (dg_GuildMemberRoleRemove g u r);
  dg_GuildMemberAdd g u t := among (dg_GuildMemberAdd g u t);
  dg_GuildMemberDelete g u := among (dg_GuildMemberDelete g u);
  dg_ChannelEditTopic ch t := among (dg_ChannelEditTopic ch t);
  dg_ChannelMessagePin ch m := among (dg_ChannelMessagePin ch m);
  dg_ChannelMessageEditComplex ch m c := among (dg_ChannelMessageEditComplex ch m c);
  dg_ChannelMessageSendComplex ch c := among (dg_ChannelMessageSendComplex ch c);
  dg_GuildMemberNickname g u n := among (dg_GuildMemberNickname g u n);
  asynq_Enqueue t := among (asynq_Enqueue t);
  prom_update f := among (prom_update f);
  time_Now := among time_Now;
  rand_Read n := among (rand_Read n);
  map_range K V l := among (map_range l)
|}.

(** Others that leave every service as they found it are not noticed: the laws hold among them. *)
Context {view : W -> View} {L : EnvLaws E view}.
Context (act_neutral : forall d w, view (act d w) = view w).

Lemma arrivals_neutral ds w : view (foldl (fun w d => act d w) w ds) = view w.
Proof. revert w. induction ds as [|d ds IH]; intros w; [done|]. cbn. by rewrite IH. Qed.

Lemma among_spec {A} (f : M W A) R : Spec view f R -> Spec (fun s => view s.1) (among f) R.
Proof.
  intros HS [w arr]. pose proof (HS (foldl (fun w d => act d w) w (default [] (head arr)))) as H.
  rewrite arrivals_neutral in H. exact H.
Qed.

Lemma interleaved_laws : EnvLaws interleaved (fun s => view s.1).
Proof. destruct L. constructor; [done|..]; intros; by apply among_spec. Qed.
End Interleaving.

(** ** A lock that is held *)
Section Held.
Context {W : Type} {E : Env W} {view : W -> View} {L : EnvLaws E view}.

(** The server answers before [T], and the lock is held until then. *)
Definition meets_lock (T : Z) (key : string) (w : W) : Prop :=
  redis_before T (newFencingToken w).2 /\ is_Some (klive T (v_kv (view w)) key).

Lemma lock_acquire_held ttl key T w : meets_lock T key w ->
  view (lock_acquire ttl key w).2 = view w /\ forall t, (lock_acquire ttl key w).1 <> Ok (t, true).
Proof.
  intros [Hb [v Hk]]. unfold lock_acquire, bind, ret. pose proof (newFencingToken_spec w) as [Hv Hr].
  destruct (newFencingToken w) as [r w1]. cbn [fst snd] in *. destruct r as [token|e]; [|by split].
  pose proof (redis_exec_until T (setnx key token (ttl / Millisecond)) w1 Hb) as Ho. rewrite Hv in Ho.
  assert (Hrun : forall now, redis_until T (setnx key token (ttl / Millisecond)) now (v_kv (view w)) =
    if now <? T then Ok (false, v_kv (view w)) else Err (External "late")).
  { intros now. unfold redis_until. destruct (now <? T) eqn:Hn; [|done]. unfold setnx.
    by rewrite (klive_mono now T (v_kv (view w)) key v) by (done || lia). }
  revert Ho. generalize (redis_exec (setnx key token (ttl / Millisecond)) w1). intros [r2 w2] Ho. cbn [fst snd] in *.
  destruct Ho as [(now & a & ks & Ha & -> & Hv2)|[(now & e & _ & -> & Hv2)|(e & _ & -> & Ho)]]; cbn; [|by split|].
  - rewrite Hrun in Ha. destruct (now <? T); [|done]. injection Ha as <- <-. by rewrite Hv2, with_kv_same.
  - split; [|done]. destruct Ho as [->|(now & a & ks & Ha & ->)]; [done|].
    rewrite Hrun in Ha. destruct (now <? T); [|done]. injection Ha as <- <-. by rewrite with_kv_same.
Qed.

Lemma with_space_lock_held ttl T id what body w : meets_lock T (keyPrefixSpace +:+ id) w ->
  view (with_space_lock (NewWithTTL ttl) id what body w).2 = view w /\
  exists e, (with_space_lock (NewWithTTL ttl) id what body w).1 = Err e.
Proof.
  intros Hm. destruct (lock_acquire_held ttl _ T w Hm) as [Hv Hr]. unfold with_space_lock, bind, ret.
  cbn [AcquireSpace NewWithTTL]. unfold ValKey_AcquireSpace.
  destruct (lock_acquire ttl _ w) as [r w1]. cbn [fst snd] in *.
  destruct r as [[t []]|e]; [by destruct (Hr t)|..]; split; eauto.
Qed.

Lemma ReconcileSpace_held ttl T (en : Engine W) id w : en_locker en = Some (NewWithTTL ttl) ->
  meets_lock T (keyPrefixSpace +:+ id) w -> view (ReconcileSpace en id w).2 = view w.
Proof.
  intros Hl Hm. destruct (lock_acquire_held ttl _ T w Hm) as [Hv Hr]. unfold ReconcileSpace, bind, ret.
  rewrite Hl. cbn [AcquireSpace NewWithTTL]. unfold ValKey_AcquireSpace.
  destruct (lock_acquire ttl _ w) as [r w1]. cbn [fst snd] in *. by destruct r as [[t []]|e]; [destruct (Hr t)|..].
Qed.

(** ** Tasks that need the lock *)
Context {C : Crypto} {mux : ServeMux}.

(** The space whose lock a task takes. *)
Definition locked_space (kind : string) (raw : option json) : option string :=
  if decide (kind = KindInviteCollaborator) then ip_SpaceID <$> decode_Invite raw
  else if decide (kind = KindExpelCollaborator) then ep_SpaceID <$> decode_Expel raw
  else if decide (kind = KindReconcileSpace) then rp_SpaceID <$> decode_ReconcileSpace raw
  else None.

(** A worker whose handlers and whose engine have the Valkey locker. *)
Record locks_wired (ttl : Z) (c : Worker.Config W) : Prop := mkLocksWired {
  lw_store : cf_Store c = true;
  lw_discord : cf_DiscordClient c = true;
  lw_locker : cf_Locker c = Some (NewWithTTL ttl);
  lw_engine : forall en, cf_ReconcileEngine c = Some en -> en_locker en = Some (NewWithTTL ttl)
}.

(** The run behind [held_lock_excludes]. *)
Lemma task_turned_away (ttl T : Z) (c : Worker.Config W) (kind : string) (raw : option json) (id : string) (w : W) :
  locks_wired ttl c -> locked_space kind raw = Some id -> meets_lock T (keyPrefixSpace +:+ id) w ->
  view (ProcessTask c kind raw w).2 = view w /\
  (kind <> KindReconcileSpace -> exists e, (ProcessTask c kind raw w).1 = Err e).
Proof.
  intros [Hst Hdi Hlo Hen] Hid Hm. unfold locked_space in Hid.
  assert (Hk : kind ∈ (registerHandlers c).*1).
  { cbn. repeat case_decide; [subst; set_solver..|done]. }
  unfold ProcessTask. rewrite mux_exact by exact Hk.
  destruct (decide (kind = KindInviteCollaborator)) as [->|_]; [|destruct (decide (kind = KindExpelCollaborator)) as [->|_];
    [|destruct (decide (kind = KindReconcileSpace)) as [->|_]; [|done]]].
  - change (handler_of c KindInviteCollaborator) with (Some (newInviteCollaboratorHandler (invite_cfg c))). cbv iota.
    unfold newInviteCollaboratorHandler, invite_handle. cbn [invite_cfg ic_store ic_discord ic_locker].
    rewrite Hst, Hdi, Hlo. cbn [negb orb default from_option].
    destruct (decode_Invite raw) as [p|]; [|done]. injection Hid as <-.
    destruct (_ || _); [by eauto|]. by destruct (with_space_lock_held ttl T (ip_SpaceID p) "invite_collaborator"
      (invite_locked (invite_cfg c) p) w Hm).
  - change (handler_of c KindExpelCollaborator) with (Some (newExpelCollaboratorHandler (expel_cfg c))). cbv iota.
    unfold newExpelCollaboratorHandler, expel_handle. cbn [expel_cfg xc_store xc_discord xc_locker].
    rewrite Hst, Hdi, Hlo. cbn [negb orb default from_option].
    destruct (decode_Expel raw) as [p|]; [|done]. injection Hid as <-.
    destruct (_ || _); [by eauto|]. by destruct (with_space_lock_held ttl T (ep_SpaceID p) "expel_collaborator"
      (expel_locked (expel_cfg c) p) w Hm).
  - change (handler_of c KindReconcileSpace) with (Some (newReconcileSpaceHandler (cf_ReconcileEngine c))). cbv iota.
    split; [|done]. destruct (cf_ReconcileEngine c) as [en|] eqn:He; [|done].
    unfold newReconcileSpaceHandler, reconcileSpace_handle.
    destruct (decode_ReconcileSpace raw) as [p|]; [|done]. injection Hid as <-. case_decide; [done|].
    unfold bind. pose proof (ReconcileSpace_held ttl T en (rp_SpaceID p) w (Hen en eq_refl) Hm) as Hv.
    by destruct (ReconcileSpace en (rp_SpaceID p) w) as [[]].
Qed.

(** A task does not get past a lock that is held. While the lock of its space is held, an invitation,
    an expulsion or a sweep whose SET command meets the lock changes nothing at all: no table, no entry
    on Discord, not the key space, so the lock stays with its holder; and an invitation or an
    expulsion is not taken for done, so it is delivered again. *)
Theorem held_lock_excludes (ttl T : Z) (c : Worker.Config W) (kind : string) (raw : option json) (id : string) (w : W) :
  locks_wired ttl c -> locked_space kind raw = Some id -> meets_lock T (keyPrefixSpace +:+ id) w ->
  view (ProcessTask c kind raw w).2 = view w /\
  (kind <> KindReconcileSpace -> exists e, (ProcessTask c kind raw w).1 = Err e).
Proof. exact (task_turned_away ttl T c kind raw id w). Qed.
End Held.

(** ** Runs under the lock, among contenders *)
Section Contended.
Context {W : Type} {E : Env W} {view : W -> View} {L : EnvLaws E view} {C : Crypto} {mux : ServeMux}.
Context (ttl : Z) (c : Worker.Config W) (wired : locks_wired ttl c).
(** A test of the lock; it answers [true] only when a SET command issued now meets the lock. *)
Context (meets : string -> W -> bool).
Context (meets_ok : forall key w, meets key w = true -> exists T, meets_lock (view := view) T key w).

(** A task that is delivered while the lock it needs is held; when it is not, the task does not come. *)
Definition contend (d : string * option json) (w : W) : W :=
  match locked_space d.1 d.2 with
  | Some id => if meets (keyPrefixSpace +:+ id) w then (ProcessTask c d.1 d.2 w).2 else w
  | None => w
  end.

Lemma contend_turned_away d w : view (contend d w) = view w.
Proof.
  unfold contend. destruct (locked_space d.1 d.2) as [id|] eqn:Hid; [|done].
  destruct (meets _ w) eqn:Hm; [|done]. destruct (meets_ok _ _ Hm) as [T HT].
  by destruct (task_turned_away ttl T c d.1 d.2 id w wired Hid HT).
Qed.

#[local] Instance shared : Env (Shared W (string * option json)) := interleaved contend.
#[local] Instance shared_laws : EnvLaws shared (fun s => view s.1).
Proof. exact (interleaved_laws contend contend_turned_away). Qed.

(** C8: under the lock a run is as good as alone. Let invitations, expulsions and sweeps be delivered before
    any of the calls of a run, in any number, while the lock they need is held, and let every call
    fail as it may. A sweep still grants only what the memberships back, removes only what they do not,
    and leaves the memberships as they were; an expulsion still reaches the expelled user only,
    gives nobody access, and when it succeeds the space backs no access of the user; an invitation still
    grants the named member alone. *)
Theorem contended_runs (s : Shared W (string * option json)) :
  db_wf (v_db (view s.1)) ->
  (forall en id, locker_ok (fun s => view s.1) (en_locker en) ->
     let v := view s.1 in let v' := view (ReconcileSpace en id s).2.1 in
     (v_guild v' = v_guild v \/
      exists sp ch, t_spaces (v_db v) !! id = Some sp /\ sp_DiscordChannelID sp = Some ch /\
        repairs ch (backed (v_db v') id) (v_guild v) (v_guild v')) /\ db_kept (v_db v) (v_db v')) /\
  (forall cfg p, locker_ok (fun s => view s.1) (xc_locker cfg) -> xc_store cfg = true -> xc_discord cfg = true ->
     let run := newExpelCollaboratorHandler cfg (Some (JObj (encode_Expel p))) s in
     let v := view s.1 in let v' := view run.2.1 in
     (forall ch d, member_overwrite (v_guild v') ch d -> member_overwrite (v_guild v) ch d) /\
     (run.1 = Ok tt -> member_by_space_user (ep_SpaceID p) (ep_UserID p) (v_db v) = None \/
        forall u d, t_users (v_db v) !! ep_UserID p = Some u -> u_DiscordUserID u = Some d ->
          ~ backed (v_db v') (ep_SpaceID p) d)) /\
  (forall cfg raw, locker_ok (fun s => view s.1) (ic_locker cfg) ->
     let run := newInviteCollaboratorHandler cfg raw s in
     let v := view s.1 in let v' := view run.2.1 in
     (v_guild v' = v_guild v /\ db_kept (v_db v) (v_db v')) \/
     exists p, decode_Invite raw = Some p /\ invite_post p v run.1 v').
Proof.
  intros Hwf. split; [|split].
  - intros en id Hl. cbv zeta. destruct (reconcile_space_run en id s Hl) as (Hg & _ & [Hb Hc] & _).
    split; [|by split]. destruct Hg as [?|(sp & ch & Hsp & Hch & _ & Hr)]; [by left|right].
    exists sp, ch. split; [done|]. split; [done|]. eapply repairs_iff; [|exact Hr]. intros t. symmetry. apply Hb.
  - intros cfg p Hl Hst Hdi. cbv zeta. pose proof (expel_run cfg p s Hl Hst Hdi) as Hw. unfold wp in Hw. revert Hw.
    generalize (newExpelCollaboratorHandler cfg (Some (JObj (encode_Expel p))) s).
    intros [r s'] (v2 & ks & Hv & Hp). cbn [fst snd] in *. rewrite Hv. split; [|by apply expel_post_unbacks].
    change (v_guild (with_kv ks v2)) with (v_guild v2).
    destruct Hp as [[->|(sp & u & d & _ & _ & _ & Hg)] _]; [done|]. intros ch d'. by eapply expel_change_grants_none.
  - intros cfg raw Hl. cbv zeta. destruct (invite_run cfg raw s Hl) as [(Hg & Hk & _)|Hp]; [by left|by right].
Qed.
End Contended.

(** ** Concrete schedules *)

(** The in-memory store's clock tells when a lock is met. *)
Definition world_meets (key : string) (w : World) : bool :=
  bool_decide (is_Some (klive (w_clock (newFencingToken w).2 / Millisecond + 1) (v_kv (w_view w)) key)).
Lemma world_meets_ok key w : world_meets key w = true -> exists T, meets_lock (view := w_view) T key w.
Proof.
  intros Hm. apply bool_decide_eq_true in Hm. eexists. split; [|exact Hm]. apply world_redis_before. lia.
Qed.

Definition expel_task : string * option json :=
  (KindExpelCollaborator, Some (JObj (encode_Expel sample_expel))).
(** An expulsion before the sixth call of a run. *)
Definition expel_comes : list (list (string * option json)) := replicate 5 [] ++ [[expel_task]].
(** Workers that are handed tasks as they come. *)
Definition deliver (c : Worker.Config World) (d : string * option json) (w : World) : World :=
  (ProcessTask (C := sample_crypto) (mux := sample_mux) c d.1 d.2 w).2.
(** A sweep of the space by an engine with the locker, among such workers. *)
Definition sweep_among (c : Worker.Config World) (arrivals : list (list (string * option json))) (w : World) :
    result error unit * Shared World (string * option json) :=
  ReconcileSpace (E := interleaved (deliver c))
    (NewEngineWithLocker (NewWithTTL (E := interleaved (deliver c)) defaultTTL)) "s1" (w, arrivals).

(** C39: without the locker, which the worker's program does not pass on (whatever its configuration), a sweep
    and an expulsion race: when the expulsion comes after the sweep has listed the members, the
    membership is revoked, and then the sweep grants the access it found missing. Nothing backs that
    access any more. With the locker the same expulsion is turned away and, delivered again after the
    sweep, ends membership and access. *)
Theorem unlocked_expulsion_races (cfg : Config.Config) (ts : option TokenStore) :
  (let run := sweep_among (worker_config cfg ts) expel_comes (sample []) in
   run.1 = Ok tt /\ member_overwrite (v_guild (w_view run.2.1)) "c1" "d1" /\
   forall d, ~ backed (v_db (w_view run.2.1)) "s1" d) /\
  (let run := sweep_among sample_config expel_comes (sample []) in
   let again := ProcessTask (C := sample_crypto) (mux := sample_mux) sample_config expel_task.1 expel_task.2 run.2.1 in
   run.1 = Ok tt /\ backed (v_db (w_view run.2.1)) "s1" "d1" /\
   again.1 = Ok tt /\ ~ member_overwrite (v_guild (w_view again.2)) "c1" "d1" /\
   forall d, ~ backed (v_db (w_view again.2)) "s1" d).
Proof.
  assert (Hnone : forall db s, active_members s db = [] -> forall d, ~ backed db s d).
  { intros db s Hm d Hb. apply backed_members in Hb as (sm & u & Hin & _). rewrite Hm in Hin. inversion Hin. }
  split; cbv zeta; split_and!.
  - vm_compute. reflexivity.
  - eexists. split; [vm_compute; reflexivity|done].
  - apply Hnone. vm_compute. reflexivity.
  - vm_compute. reflexivity.
  - exists "sm1"%string. eexists _, _. split_and!; vm_compute; reflexivity.
  - vm_compute. reflexivity.
  - intros (ow & Ho & _). by vm_compute in Ho.
  - apply Hnone. vm_compute. reflexivity.
Qed.

(** A lease is no more than a lease: nothing renews it while a handler runs. When the thirty seconds of a
    sweep's lock are over before the expulsion arrives, both have the locker and both go through, with the same
    end as without it: the access of a member whose membership is revoked. *)
Definition later (d : option (string * option json)) (w : World) : World :=
  match d with
  | None => mkWorld (w_view w) (w_clock w + defaultTTL) (w_fresh w) (w_script w)
  | Some d => deliver sample_config d w
  end.
Theorem lease_runs_out :
  let run := ReconcileSpace (E := interleaved later)
               (NewEngineWithLocker (NewWithTTL (E := interleaved later) defaultTTL)) "s1"
               (sample [], replicate 5 [] ++ [[None; Some expel_task]]) in
  run.1 = Ok tt /\ member_overwrite (v_guild (w_view run.2.1)) "c1" "d1" /\
  active_members "s1" (v_db (w_view run.2.1)) = [].
Proof.
  cbv zeta. split_and!; [vm_compute; reflexivity| |vm_compute; reflexivity].
  eexists. split; [vm_compute; reflexivity|done].
Qed.

(** Provisioning among other workers. *)
Definition provision_among (act : string * option json -> World -> World)
    (cfg : provisionSpaceConfig (Shared World (string * option json)))
    (arrivals : list (list (string * option json))) : result error unit * Shared World (string * option json) :=
  newProvisionSpaceHandler (E := interleaved act) cfg sample_provision_task (sample_pending [], arrivals).

(** The lock of a merchant is not passed on either: a provisioning task that is delivered a second time
    while the first delivery has yet to create the channel creates a second one; both report success,
    and one of the channels belongs to no space. With the locker the second delivery is turned away. *)
Theorem unlocked_provisioning_races (cfg : Config.Config) (ts : option TokenStore) :
  DiscordGuildID cfg = "everyone"%string -> DiscordAgentRoleID cfg = "agents"%string ->
  let again := (KindProvisionSpace, sample_provision_task) in
  (let act := deliver (worker_config cfg ts) in
   let run := provision_among act (provision_cfg (worker_config (E := interleaved act) cfg ts))
                (replicate 3 [] ++ [[again]]) in
   run.1 = Ok tt /\ length (orphan_channels (w_view run.2.1)) = 2%nat) /\
  (let act := deliver sample_config in
   let run := provision_among act (mkProvisionSpaceConfig _ true true None
                (Some (NewWithTTL (E := interleaved act) defaultTTL)) None true "everyone" "" "agents" "")
                (replicate 5 [] ++ [[again]]) in
   run.1 = Ok tt /\ length (orphan_channels (w_view run.2.1)) = 1%nat).
Proof.
  intros Hg Ha again. subst again. destruct cfg. simpl in Hg, Ha. subst. cbv zeta. split_and!; vm_compute; reflexivity.
Qed.

(** ** Witnesses *)

Lemma sample_wired : locks_wired defaultTTL sample_config.
Proof. split; [done|done|done|]. by intros en [= <-]. Defined.

(** The lock of the space is held, by another worker. *)
Definition sample_held : World :=
  put_view (with_kv {["lock:space:s1"%string := mkEntry (RStr "other") (Some 60000)]} (w_view (sample []))) (sample []).
Lemma held_lock_excludes_witness :
  let run := ProcessTask (C := sample_crypto) (mux := sample_mux) sample_config expel_task.1 expel_task.2 sample_held in
  w_view run.2 = w_view sample_held /\ exists e, run.1 = Err e.
Proof.
  destruct (held_lock_excludes (E := env_world) (view := w_view) (C := sample_crypto) (mux := sample_mux) defaultTTL 2000
    sample_config expel_task.1 expel_task.2 "s1" sample_held sample_wired eq_refl) as [H1 H2].
  - split; [apply world_redis_before; vm_compute; reflexivity|]. exists (RStr "other"). vm_compute. reflexivity.
  - split; [exact H1|]. apply H2. discriminate.
Defined.

(** A sweep that an expulsion meets: the expulsion comes, the sweep repairs. *)
Definition met : World * list (list (string * option json)) := (sample [], expel_comes).
Lemma sample_met_wf : db_wf (v_db (w_view met.1)).
Proof. by apply sample_DB_wf. Qed.
Lemma contended_runs_witness :
  let act := contend (C := sample_crypto) (mux := sample_mux) sample_config world_meets in
  let swept := ReconcileSpace (E := interleaved act) (NewEngineWithLocker (NewWithTTL (E := interleaved act) defaultTTL))
                 "s1" met in
  swept.1 = Ok tt /\ (w_clock (ReconcileSpace sample_engine "s1" (sample [])).2 < w_clock swept.2.1)%Z /\
  db_kept (v_db (w_view (sample []))) (v_db (w_view swept.2.1)).
Proof.
  cbv zeta. split; [vm_compute; reflexivity|]. split; [vm_compute; reflexivity|].
  apply (contended_runs (E := env_world) (view := w_view) (C := sample_crypto) (mux := sample_mux) defaultTTL
    sample_config sample_wired world_meets world_meets_ok met sample_met_wf).
  apply (ValKey_laws (E := interleaved _) (L := interleaved_laws _
    (contend_turned_away defaultTTL sample_config sample_wired world_meets world_meets_ok))).
Defined.

(** ** A poll between the two writes of a request *)

(** The API as one process among others. *)
#[local] Instance shared_web : Web (Shared World unit) :=
  {| json_Decode := find_document; bind_error := bind_error (W := World); validator_email := validator_email (W := World);
     url_ParseRequestURI := url_ParseRequestURI (W := World); uuid_New := ret m2 |}.
Definition poll (_ : unit) (w : World) : World := (Relay.tick sample_relay w).2.
(** The provisioning request, with a poll of the relay before its third call. *)
Definition polled_early : Response * Shared World unit :=
  ProvisionSpace (E := interleaved poll) (NewHandlers true true None "client" "secret" "https://hub/cb" None None)
    provision_ctx (hub_world, [[]; []; [tt]]).

(** C40: A poll of the relay may strand an accepted space. The transaction commits the outbox row before the request
    writes the id of the space into its payload; when the relay polls in between, the request is still answered
    with 202, but the task in the queue names no space, the worker refuses it for good, and no later poll
    ever brings another one: the space stays pending, without a channel. *)
Theorem early_poll_strands_space :
  rs_Status polled_early.1 = StatusAccepted /\
  exists t p, v_queue (w_view polled_early.2.1) = [t] /\
    decode_ProvisionSpace (JObj <$> tk_Payload t) = Some p /\ pp_MerchantID p = m3 /\ pp_SpaceID p = ""%string /\
    let served := ProcessTask (C := sample_crypto) (mux := sample_mux) sample_config (tk_Type t) (JObj <$> tk_Payload t)
                    polled_early.2.1 in
    (exists e, served.1 = Err e /\ errors_Is e SkipRetry = true) /\
    forall polls, let w := (relay_run sample_relay polls served.2).2 in
      v_queue (w_view w) = [t] /\
      exists sid s, t_spaces (v_db (w_view w)) !! sid = Some s /\ sp_MerchantID s = m3 /\
        sp_ACLState s = ACLStatePending /\ sp_DiscordChannelID s = None.
Proof.
  split; [vm_compute; reflexivity|]. eexists _, _. split; [vm_compute; reflexivity|].
  split; [vm_compute; reflexivity|]. split; [reflexivity|]. split; [reflexivity|]. cbv zeta.
  split; [eexists; split; [vm_compute; reflexivity|]; vm_compute; reflexivity|].
  intros polls. rewrite (idle_polls (E := env_world) (view := w_view)) by (vm_compute; reflexivity).
  split; [vm_compute; reflexivity|]. eexists "id-2"%string, _. split; [vm_compute; reflexivity|]. by split_and!.
Qed.
